(* ===== verification/_CoqProject ===== *)
-Q . S2P
Prelude.v
JsString.v
JsNumber.v
JsNumberFacts.v
JsRounding.v
JsSort.v
JsObject.v
Json.v
JsonFacts.v
DecimalFacts.v
Data.v
Utils.v
UtilsFacts.v
JsDate.v
EventLoop.v
React.v
VDom.v
QueryList.v
QueryListFacts.v
QueryListView.v
QueryListViewFacts.v
QueryListPage.v
QueryListPageFacts.v
ClusterHUD.v
PageTitle.v
QueryHeader.v
WorkerThreadList.v
StatementClient.v
TableauConnector.v
TableauConnectorFacts.v
TableauForm.v
TableauFormFacts.v
WorkerStatus.v
TaskList.v
StageSummary.v
HistogramFacts.v
StageSummaryFacts.v
QueryDetail.v
QueryDetailFacts.v
QueryPage.v
QueryPageFacts.v
LivePlan.v
LivePlanFacts.v
StageDetail.v
StageDetailFacts.v
Timeline.v
TimelineFacts.v
HeaderClicks.v
PollSpec.v
Pages.v
Links.v
