(* ===== verification/Prelude.v ===== *)
(** * Verification of the Presto web UI

    The web UI of the coordinator ([src/presto-main/src/main/resources/webapp];
    paths below are relative to it) is a set of React components that poll the
    REST interface of the server and draw what it answers, a file of helpers,
    the pages that mount them, a page with the timeline of a query, and a
    connector for Tableau with its client of the statement protocol.  This
    library models the components whole: what they keep, what they do when they
    are mounted, when a timer fires, when an answer arrives and when the user
    clicks, and what they render.

    ** Parts of the program and how they interact

    - [src/utils.js] is called by all the components: colours and texts of
      query states, histories for sparklines, formatting and parsing of counts,
      sizes and durations, ids and host names.
    - [src/components/*.jsx] are the pages.  [QueryList] and [ClusterHUD] are on
      the overview, [QueryDetail], [LivePlan] and [StageDetail] are the pages of
      one query and share [QueryHeader]; [WorkerStatus] and [WorkerThreadList]
      are the page of a worker; [PageTitle] is on all of them.  A component has
      React state, sends requests, arms one-shot timers and never shares state
      with another component except through props: [StageDetail] and [LivePlan]
      use each other's links, [QueryDetail] hands its stages to [StageList],
      [StageSummary] and [TaskList], which sort the tasks of a stage in place.
    - [src/*.jsx] are the entry points: each mounts the components of one page
      into elements of its HTML file, where they run side by side.
    - [timeline.html] turns the tasks of a query into the bars of a timeline.
    - [tableau/presto-client.js] submits a query and pulls its pages;
      [tableau/presto-connector.html] drives it from Tableau's callbacks, keeps
      what arrives too early in a buffer, and has the form in which the query
      and its session parameters are entered, stored as JSON and restored.

    ** Files

    The language and the browser:
    - [Prelude]: the type [res] of JavaScript evaluations (a value or a thrown
      error), tactics, the hint database [js], shared list lemmas;
    - [JsString], [JsNumber], [JsSort], [JsObject], [JsDate]: UTF-16 strings,
      binary64 numbers (executable, through [SpecFloat]) with their decimal
      conversions, [Array.prototype.sort], dictionaries and [Map], timestamps;
    - [Json], [JsonFacts]: [JSON.stringify] and [JSON.parse] on texts, and that
      parsing gives back what was printed;
    - [JsNumberFacts], [JsRounding], [DecimalFacts]: exact value of a number,
      when arithmetic is exact, how far it can be off, decimal round trips;
    - [EventLoop]: a mounted component (state, armed timers, remembered timer
      ids, requests in flight, errors on the console), the steps of the event
      loop, the states they reach ([reachable]) and the runs with the answers
      that arrived on them ([trace]); the class [Poller] is the contract of a
      component that refreshes itself, and its theorems hold of every instance;
    - [React]: a mounted component as React keeps it, with what becomes of it
      when an update throws;
    - [VDom]: rendered trees, the handlers, ids and components they contain.

    The program:
    - [Data]: the JSON documents of the server, with an [option] or a [jsnum]
      wherever a property can be missing or [null];
    - [Utils], [UtilsFacts]: [src/utils.js];
    - [QueryList], [QueryListFacts]: state, filters, sorting and refreshing of
      [src/components/QueryList.jsx]; [QueryListView], [QueryListViewFacts]: its
      rows and its toolbar as rendered; [QueryListPage], [QueryListPageFacts]:
      its updates, polling and handlers;
    - [ClusterHUD], [PageTitle], [QueryHeader], [WorkerThreadList],
      [WorkerStatus]: the components of the same names, with their theorems;
    - [TaskList], [StageSummary], [HistogramFacts], [StageSummaryFacts],
      [QueryDetail], [QueryDetailFacts]: the four components of [src/components/QueryDetail.jsx];
      [QueryPage], [QueryPageFacts]: the four of them and the header as one
      tree, with its updates and callbacks;
    - [LivePlan], [LivePlanFacts], [StageDetail], [StageDetailFacts]: the plan
      and operator graphs of [src/components/LivePlan.jsx] and
      [src/components/StageDetail.jsx], with the graphs and drawing areas of
      [src/utils.js];
    - [StatementClient]: [tableau/presto-client.js];
    - [TableauConnector], [TableauConnectorFacts]: the callbacks and methods of
      the connector in [tableau/presto-connector.html]; [TableauForm],
      [TableauFormFacts]: the form of the same page;
    - [Timeline], [TimelineFacts]: the script of [timeline.html], with what the
      calls it makes into the vis library do to groups and items;
    - [HeaderClicks]: what can be clicked in the header of the three pages about
      a query, and that it concerns the document the server sent;
    - [PollSpec]: the protocol of polling as an abstract transition system, and
      the class [Refresher] of the components that implement it;
    - [Pages]: the entry points and the pages as interleavings of their
      components, the clicks in their headers included (class [Polling], which
      the instances of [Poller] discharge);
    - [Links]: what the components send to the server (class [Asks] for the
      questions, and the commands of the headers) and where the links of the
      pages lead.

    ** How the code is represented

    A component is an [Inst S T R] of [EventLoop]: [S] is a record with the
    properties of [this.state], [T] its timers and [R] its requests (their
    addresses, and what a callback captured).  A method
    that calls [setState], [setTimeout], [clearTimeout] or [$.get] becomes a
    function on instances; a callback that throws reports its error and leaves
    the instance as it was at that moment.  [reachable] is the closure under
    firing an armed timer, answering a request that is in flight (with a
    document, or with a failure) and user events, in any order; [adm] restricts
    the answers where a theorem needs well-formed ones; [trace] is the same with
    the list of the answers, for the theorems that relate the state to the
    documents that have arrived.  A header has no state: a page with one is a
    [with_header] machine of [Pages], whose clicks send a [Put] and leave the
    component as it is.  [render] is a function
    from the state to a tree.  Calls into drawing libraries ([sparkline],
    [dagre-d3]) are recorded as data: a [Chart], or a list of [GraphCall]s.
    Where the code mutates a shared array its aliases are explicit (the thread
    groups of [WorkerThreadList], the tasks that [StageSummary] sorts in place).
    The script of the connector page keeps its state in global variables: they
    are the record [Connector], which the callbacks of the client and the
    handlers of the page pass on; the calls into Tableau's library are recorded.
    A component that can throw while it renders or draws ([QueryList],
    [WorkerStatus], [QueryDetail], [LivePlan], [StageDetail],
    [WorkerThreadList]) keeps its state in a [Root] of [React]: its [commit] is
    the whole update, children included, and when that throws the component is
    removed and [setState] does nothing from then on.  [commit] of [QueryPage]
    renders the page, the header, the summaries and the task tables, runs
    [componentDidUpdate] of the summaries, which sort the tasks of the snapshot
    and draw, and of the page, and goes on with the update that their [setState]
    causes; the states of the mounted summaries are kept by the ids of their
    stages.  The other two components render in every state
    ([hud_render_complete]; [PageTitle.render] is total), so for them [setState]
    is the update of the state.
    The clock is an argument: each call of [Date.now] takes the next reading.

    Code outside the repository is a class or an argument, with what the code
    relies on as its laws, and has an instance that is used by the witnesses:
    [DateEnv] (time zone, non-standard timestamps), [LowerCase] (Unicode case
    mapping), [URLApi] (the [URL] object), [Markup] (the HTML parser, for the
    rows of the connector's form); the server is an arbitrary sequence
    of answers, of which [Links] assumes that a document asked for by the id of a
    query is the document of that query ([serves_own]).  The text of a plan's
    [jsonRepresentation] is a field that holds what [JSON.parse] makes of it, a
    tree or a [SyntaxError].

    ** What the theorems show

    - Polling ([QueryListPageFacts.single_refresh_series], [polling_never_stops],
      [QueryPageFacts.query_polls_until_final] and the instances of [Poller]):
      in every reachable state a component has at most one refresh pending, and
      exactly one until its end condition holds or a callback has thrown; for the
      query page and the live plan the end is the arrival of a document with
      [finalQueryInfo].  [LivePlanFacts.live_plan_polls] has this for every
      sequence of answers, drawable or not, and [Pages.page_refreshes] for whole pages.
      [PollSpec.polling_refined] is the refinement: every run of a polling
      component, seen through its answers and refreshes, is a run of the
      protocol ask, be answered, wait, ask again, until it stops or breaks.
    - The query list: it never shows a query twice or a stale one, filtering,
      sorting and limiting are exact; a refresh keeps the rows in place and
      appends exactly the new queries that pass the filters, sorted, or sorts
      everything anew when that is due.
    - Formatting and parsing: exactness of sizes and durations on binary64,
      the regular expression against its relational specification, round trips
      of dates and sizes, progress bounds.
    - The query page: task ids sort by their numbers, stages are all listed,
      histograms count every task (every plausible number of points falls into
      a bar, by an error bound on the divisions involved), stack traces omit exactly the shared frames
      and lose no cause.  With well-formed documents no update and no callback
      throws, the page stays mounted, and the whole tree, from the header to the
      task tables, renders in every reachable state and shows the tasks that the
      summaries admit ([query_tree_renders]).  An update causes two more at most
      ([query_updates_end]); with automatic refresh off the stages on the page
      change by the order of their tasks only ([stage_snapshot_frozen]).
    - Plan and operator graphs: every stage and every operator is in the graph
      exactly once, no edge dangles; selecting a stage works, by menu and link.
    - Workers: threads are grouped correctly, no click breaks the list of
      threads, memory pools are merged correctly.
    - The statement client delivers every page once and ends; through the
      connector, Tableau receives the columns, every row once and in order, and
      the end.  What the form stores is what the query runs with, the last row
      of every session parameter included, and opening the page again restores it
      except for the catalog.
    - The timeline is drawn exactly when every task has run, and then has every
      task of every stage once, in the row of its stage.
    - Links ([Links.query_links_lead], [worker_links_lead]): every link to a
      query or to a worker opens a page that asks the server about it; nothing
      else is sent but the question for the server's own state and, from the
      header of a query, the commands to preempt or kill that query.
    - Theorems about defects: a selection lost to a pending answer, a click that
      throws, a live plan that disappears for good before a query has stages or
      is never drawn after a failed first request, a query whose text is never
      highlighted after one, a stage page that is removed
      by a stage without operator statistics, a list of threads that is removed
      by a snapshot without the selected group, errors that the connector
      swallows or repeats, a timeline that is not drawn while a task has not
      ended, a thread name that makes the page loop, and others
      listed with their lines.

    ** Fuel and bounds

    Recursion on trees (stages, plans, failures) is structural.  The grouping
    loop of [WorkerThreadList] iterates over an array that it may extend, so it
    has fuel: [processThreads_correct] shows that the number of threads is
    enough and [processThreads_diverges] when no fuel is.  [drain] of
    [StatementClient] has fuel as well, and [drain_delivers_all] says how much
    is needed; [populate] uses it with the same bound.  [wait_headers] counts the
    rounds of the waiting loop: [connector_delivers_all] shows that one per page
    is enough, [headers_wait_forever] when no number is.  The JSON parser's fuel
    is twice the length of the text, which [parse_stringify] shows to be enough
    for everything that was printed.  [push_zeros] pushes at most [HISTOGRAM_WIDTH + 1] zeros because
    the loop bound is at most that.  [componentDidUpdate] of [StageSummary] sets
    state and so runs again; it recurses on the list of clock readings, and
    [stage_update_draws_once] shows that two readings are enough.  [commit] of
    [QueryPage] recurses on the list of clock readings of the nested updates:
    [query_updates_end] shows that two are enough when updates follow each other
    within a second; the other theorems hold of lists of any length.  [dec] takes
    its fuel from the logarithm of the number, [shortest_digits] stops at the 17
    digits that always suffice.  Integer results are stated below 2^53, where
    binary64 is exact; sizes, counts and clock readings are numbers or integers
    as in the code.

    ** What is not modelled

    The drawing done by the libraries ([jquery.sparkline], [dagre-d3], [d3],
    [Reactable], [clipboard], [highlight.js], and [vis] beyond the rows and items
    it makes); React's reconciliation of
    the old tree with the new one; Tableau's library, which is the list of the calls
    made to it; the build configuration; generated bundles ([dist], the same
    components together with their libraries) and third-party code
    ([vendor]). *)

From stdpp Require Export base tactics list option strings numbers sorting relations.
From Stdlib Require Export ZArith Lia.

#[global] Open Scope Z_scope.

(** ** Exceptions

    A JavaScript expression either has a value or throws: a [TypeError] (a
    property of [null] or [undefined]), the [SyntaxError] of [JSON.parse], or an
    [Error] that a library throws itself.  The constructors keep the message for
    the reader. *)

Inductive js_error :=
  | TypeError (what : string)
  | SyntaxError (what : string)
  | PlainError (what : string).

Inductive res (A : Type) :=
  | Ok (a : A)
  | Throw (e : js_error).
Arguments Ok {A} _.
Arguments Throw {A} _.

#[global] Instance res_ret : MRet res := @Ok.
#[global] Instance res_bind : MBind res := fun A B f r =>
  match r with Ok a => f a | Throw e => Throw e end.
#[global] Instance res_fmap : FMap res := fun A B f r =>
  match r with Ok a => Ok (f a) | Throw e => Throw e end.

Definition is_Ok {A} (r : res A) : bool :=
  match r with Ok _ => true | Throw _ => false end.

(** [arr.map(f)] where [f] may throw: elements are visited in order. *)
Fixpoint res_map {A B} (f : A -> res B) (l : list A) : res (list B) :=
  match l with
  | [] => Ok []
  | x :: l' => y ← f x; ys ← res_map f l'; Ok (y :: ys)
  end.

(** ** Tactics of the development *)

(** Case analysis on every [if] and [match] scrutinee of the goal. *)
Ltac case_ifs :=
  repeat match goal with
  | |- context [if ?b then _ else _] => destruct b eqn:?
  end.

(** Turns boolean hypotheses into propositions. *)
Ltac bools :=
  repeat match goal with
  | H : _ && _ = true |- _ => apply andb_true_iff in H as [? ?]
  | H : _ || _ = false |- _ => apply orb_false_iff in H as [? ?]
  | H : negb _ = true |- _ => apply negb_true_iff in H
  | H : negb _ = false |- _ => apply negb_false_iff in H
  | H : Z.eqb _ _ = true |- _ => apply Z.eqb_eq in H
  | H : Z.eqb _ _ = false |- _ => apply Z.eqb_neq in H
  | H : Z.ltb _ _ = true |- _ => apply Z.ltb_lt in H
  | H : Z.ltb _ _ = false |- _ => apply Z.ltb_ge in H
  | H : Z.leb _ _ = true |- _ => apply Z.leb_le in H
  | H : Z.leb _ _ = false |- _ => apply Z.leb_gt in H
  | H : bool_decide _ = true |- _ => apply bool_decide_eq_true in H
  | H : bool_decide _ = false |- _ => apply bool_decide_eq_false in H
  end.

(** Inverts a chain of binds that ended in [Ok]. *)
Ltac inv_ok :=
  repeat match goal with
  | H : mbind _ ?r = Ok _ |- _ =>
      let E := fresh "Hok" in destruct r eqn:E; cbn in H; [| discriminate H]
  | H : Ok _ = Ok _ |- _ => injection H as H
  | H : Throw _ = Ok _ |- _ => discriminate H
  end; subst.

Create HintDb js.

(** ** Generic lemmas *)

Lemma res_map_ok {A B} (f : A -> res B) (g : A -> B) l :
  (forall x, x ∈ l -> f x = Ok (g x)) -> res_map f l = Ok (map g l).
Proof.
  induction l as [|x l IH]; intros H; [done|]. cbn.
  rewrite H by (left). cbn. rewrite IH; [done|]. intros; apply H; by right.
Qed.

Lemma res_map_length {A B} (f : A -> res B) l ys :
  res_map f l = Ok ys -> length ys = length l.
Proof.
  revert ys; induction l as [|x l IH]; intros ys H; cbn in H; inv_ok; [done|].
  cbn. f_equal. by apply IH.
Qed.

Lemma res_map_Forall {A B} (f : A -> res B) l :
  Forall (fun x => exists y, f x = Ok y) l -> exists ys, res_map f l = Ok ys.
Proof.
  induction 1 as [|x l [y Hy] _ [ys IH]]; cbn; [eauto|]. rewrite Hy. cbn. rewrite IH. cbn. eauto.
Qed.

Lemma NoDup_map_filter {A B} (f : A -> B) (P : A -> bool) (l : list A) :
  NoDup (map f l) -> NoDup (map f (List.filter P l)).
Proof.
  induction l as [|x l IH]; cbn; [done|]. intros [Hx Hl]%NoDup_cons.
  destruct (P x); cbn; [|auto]. apply NoDup_cons; split; [|auto].
  intros Hin. apply Hx.
  apply list_elem_of_In, in_map_iff in Hin as (y & Hy & Hin).
  apply filter_In in Hin as [Hin _].
  apply list_elem_of_In, in_map_iff. eauto.
Qed.

Lemma list_filter_In {A} (P : A -> bool) (l : list A) x :
  x ∈ List.filter P l <-> x ∈ l /\ P x = true.
Proof. by rewrite !list_elem_of_In, filter_In. Qed.

Lemma filter_filter_ext {A} (p q r : A -> bool) l :
  (forall x, r x = p x && q x) -> List.filter p (List.filter q l) = List.filter r l.
Proof.
  intros H. induction l as [|x l IH]; [done|]. cbn. rewrite H.
  destruct (q x); cbn; rewrite IH; [by rewrite andb_true_r|by rewrite andb_false_r].
Qed.

(** Filtering respects rearrangement. *)
#[global] Instance list_filter_perm {A} (p : A -> bool) :
  Proper (Permutation ==> Permutation) (List.filter p).
Proof.
  intros l l' Hp. induction Hp as [|x l l' _ IH|x y l|l1 l2 l3 _ IH1 _ IH2]; cbn.
  - done.
  - destruct (p x); by rewrite IH.
  - destruct (p x), (p y); try done. apply perm_swap.
  - by rewrite IH1.
Qed.
