(* ===== verification/JsString.v ===== *)
(** * JavaScript strings

    A JavaScript string is a sequence of UTF-16 code units, here a list of
    integers.  ASCII literals are written as Rocq strings and injected by the
    coercion [js].  The operations are those of [String.prototype] the web UI
    uses, on every argument the UI can give them (negative and out-of-range
    positions included). *)

From S2P Require Import Prelude.

Abbreviation jsstring := (list Z).

Definition js (s : string) : jsstring :=
  map (fun c => Z.of_N (Ascii.N_of_ascii c)) (String.list_ascii_of_string s).
Coercion js : string >-> list.

(** [&nbsp;] and the multiplication sign, the only non-ASCII characters of the
    sources. *)
Definition nbsp : jsstring := [160].
Definition times_sign : jsstring := [215].

Declare Scope js_scope.
Delimit Scope js_scope with js.
#[global] Open Scope js_scope.

(** [===] on two strings. *)
Fixpoint str_eqb (a b : jsstring) : bool :=
  match a, b with
  | [], [] => true
  | x :: a', y :: b' => (x =? y) && str_eqb a' b'
  | _, _ => false
  end.
Notation "a === b" := (str_eqb a b) (at level 70, no associativity) : js_scope.
Notation "a !== b" := (negb (str_eqb a b)) (at level 70, no associativity) : js_scope.

Definition str_length (s : jsstring) : Z := Z.of_nat (length s).

(** Whether [p] is a prefix of [s]. *)
Fixpoint starts_with (p s : jsstring) : bool :=
  match p, s with
  | [], _ => true
  | x :: p', y :: s' => (x =? y) && starts_with p' s'
  | _ :: _, [] => false
  end.

(** Position of the first occurrence of [sub] in [s]. *)
Fixpoint find_sub (sub s : jsstring) : option nat :=
  if starts_with sub s then Some 0%nat
  else match s with
       | [] => None
       | _ :: s' => S <$> find_sub sub s'
       end.

(** [s.indexOf(sub)]: -1 when absent. *)
Definition indexOf (s sub : jsstring) : Z :=
  match find_sub sub s with Some i => Z.of_nat i | None => -1 end.

(** [s.includes(sub)]. *)
Definition includes (s sub : jsstring) : bool :=
  match find_sub sub s with Some _ => true | None => false end.

(** Position of the last occurrence of one code unit. *)
Fixpoint find_last (c : Z) (s : jsstring) : option nat :=
  match s with
  | [] => None
  | x :: s' =>
      match find_last c s' with
      | Some i => Some (S i)
      | None => if x =? c then Some 0%nat else None
      end
  end.

(** [s.lastIndexOf(c)] for a one-unit [c]: -1 when absent. *)
Definition lastIndexOf (s : jsstring) (c : Z) : Z :=
  match find_last c s with Some i => Z.of_nat i | None => -1 end.

(** [s.charAt(i)]. *)
Definition charAt (s : jsstring) (i : Z) : jsstring :=
  if (0 <=? i) && (i <? str_length s)
  then match s !! Z.to_nat i with Some c => [c] | None => [] end
  else [].

(** The code units from position [a] up to [b], both in range. *)
Definition sub_list (s : jsstring) (a b : Z) : jsstring :=
  take (Z.to_nat (b - a)) (drop (Z.to_nat a) s).

Definition clamp (lo hi x : Z) : Z := Z.min (Z.max x lo) hi.

(** [s.substring(a, b)]: positions are clamped to the string and swapped when
    out of order. *)
Definition substring (s : jsstring) (a b : Z) : jsstring :=
  let a := clamp 0 (str_length s) a in
  let b := clamp 0 (str_length s) b in
  sub_list s (Z.min a b) (Z.max a b).

(** [s.substring(a)]. *)
Definition substring_from (s : jsstring) (a : Z) : jsstring :=
  substring s a (str_length s).

(** [s.slice(a, b)]: negative positions count from the end, and an empty range
    gives the empty string. *)
Definition slice_pos (len x : Z) : Z :=
  if x <? 0 then Z.max (len + x) 0 else Z.min x len.
Definition slice (s : jsstring) (a b : Z) : jsstring :=
  let a := slice_pos (str_length s) a in
  let b := slice_pos (str_length s) b in
  sub_list s a (Z.max a b).

(** [s.substr(start, n)] and [s.substr(start)]. *)
Definition substr (s : jsstring) (start n : Z) : jsstring :=
  let a := slice_pos (str_length s) start in
  sub_list s a (Z.min (a + Z.max n 0) (str_length s)).
Definition substr_from (s : jsstring) (start : Z) : jsstring :=
  substr s start (str_length s).

(** [s.split(c)] for a one-unit separator: never the empty array. *)
Fixpoint split (c : Z) (s : jsstring) : list jsstring :=
  match s with
  | [] => [[]]
  | x :: s' =>
      if x =? c then [] :: split c s'
      else match split c s' with
           | w :: ws => (x :: w) :: ws
           | [] => [[x]]
           end
  end.

(** [l.join(sep)]. *)
Fixpoint join (sep : jsstring) (l : list jsstring) : jsstring :=
  match l with
  | [] => []
  | [w] => w
  | w :: ws => w ++ sep ++ join sep ws
  end.

(** The white space and line terminators of ECMAScript, which [\s] and
    [trim] share. *)
Definition is_space (c : Z) : bool :=
  ((9 <=? c) && (c <=? 13)) || (c =? 32) || (c =? 160) || (c =? 5760) ||
  ((8192 <=? c) && (c <=? 8202)) || (c =? 8232) || (c =? 8233) ||
  (c =? 8239) || (c =? 8287) || (c =? 12288) || (c =? 65279).

Definition is_digit (c : Z) : bool := (48 <=? c) && (c <=? 57).
Definition is_alpha (c : Z) : bool :=
  ((65 <=? c) && (c <=? 90)) || ((97 <=? c) && (c <=? 122)).

(** The longest prefix whose units satisfy [p], and the rest. *)
Fixpoint span (p : Z -> bool) (s : jsstring) : jsstring * jsstring :=
  match s with
  | [] => ([], [])
  | x :: s' => if p x then let '(a, b) := span p s' in (x :: a, b) else ([], s)
  end.

Definition trimStart (s : jsstring) : jsstring := (span is_space s).2.
(** [s.replace(/\s+$/g, '')]. *)
Definition trimEnd (s : jsstring) : jsstring := reverse (trimStart (reverse s)).
Definition trim (s : jsstring) : jsstring := trimEnd (trimStart s).

(** [s.search(/\S/)]: the position of the first unit that is no white space. *)
Fixpoint find_nonspace (s : jsstring) : option nat :=
  match s with
  | [] => None
  | x :: s' => if is_space x then S <$> find_nonspace s' else Some 0%nat
  end.
Definition search_nonspace (s : jsstring) : Z :=
  match find_nonspace s with Some i => Z.of_nat i | None => -1 end.

(** ** Lower case

    [toLowerCase] is specified by the Unicode character database.  The client
    code is generic in the mapping and relies only on the law below, which says
    that text without capital letters is left alone; [ascii_lower] is the
    mapping restricted to ASCII letters. *)
Class LowerCase := {
  toLowerCase : jsstring -> jsstring;
  toLowerCase_lower : forall s : jsstring,
    Forall (fun c => 97 <= c <= 122 \/ c = 32 \/ c = 46 \/ 48 <= c <= 57 \/ c = 95) s ->
    toLowerCase s = s
}.

Definition lower_unit (c : Z) : Z := if (65 <=? c) && (c <=? 90) then c + 32 else c.

(** ** Facts *)

Lemma str_eqb_spec a b : reflect (a = b) (str_eqb a b).
Proof.
  revert b; induction a as [|x a IH]; intros [|y b]; cbn; try (constructor; congruence).
  destruct (Z.eqb_spec x y) as [->|]; cbn; [|constructor; congruence].
  destruct (IH b); constructor; congruence.
Qed.

Lemma str_eqb_refl a : str_eqb a a = true.
Proof. by destruct (str_eqb_spec a a). Qed.

Lemma str_eqb_eq a b : str_eqb a b = true <-> a = b.
Proof. destruct (str_eqb_spec a b); naive_solver. Qed.

Lemma str_eqb_neq a b : str_eqb a b = false <-> a <> b.
Proof. destruct (str_eqb_spec a b); naive_solver. Qed.

#[local, refine] Instance ascii_lower : LowerCase := {| toLowerCase := map lower_unit |}.
Proof.
  intros s H. induction H as [|c s Hc _ IH]; cbn; [done|]. rewrite IH. f_equal.
  unfold lower_unit. destruct (Z.leb_spec 65 c), (Z.leb_spec c 90); cbn; lia.
Defined.

Lemma starts_with_app p s : starts_with p (p ++ s) = true.
Proof. induction p; cbn; [done|]. by rewrite Z.eqb_refl. Qed.

Lemma starts_with_prefix p s : starts_with p s = true <-> exists t, s = p ++ t.
Proof.
  split.
  - revert s; induction p as [|x p IH]; intros s; cbn; [eauto|].
    destruct s as [|y s]; [done|]. intros H; bools; subst.
    destruct (IH s) as [t ->]; eauto.
  - intros [t ->]. apply starts_with_app.
Qed.

(** [find_sub] finds an occurrence exactly when there is one. *)
Lemma find_sub_some sub s i :
  find_sub sub s = Some i -> exists a b, s = a ++ sub ++ b /\ length a = i.
Proof.
  revert i; induction s as [|x s IH]; intros i; cbn.
  - destruct sub; cbn; [|done]. intros [= <-]. by exists [], [].
  - case_match eqn:E.
    + intros [= <-]. apply starts_with_prefix in E as [t ->]. by exists [], t.
    + destruct (find_sub sub s) as [j|] eqn:F; cbn; [|done]. intros [= <-].
      destruct (IH j eq_refl) as (a & b & -> & <-). by exists (x :: a), b.
Qed.

Lemma find_sub_app sub a b : is_Some (find_sub sub (a ++ sub ++ b)).
Proof.
  induction a as [|x a IH]; cbn.
  - destruct (sub ++ b) eqn:E; cbn.
    + destruct sub; [by cbn|done].
    + rewrite <- E, starts_with_app. eauto.
  - case_match; [eauto|]. destruct IH as [j ->]. by eauto.
Qed.

(** [s.includes(t)] is substring containment. *)
Lemma includes_spec s t : includes s t = true <-> exists a b, s = a ++ t ++ b.
Proof.
  unfold includes. split.
  - destruct (find_sub t s) eqn:E; [|done]. intros _.
    apply find_sub_some in E as (a & b & -> & _); eauto.
  - intros (a & b & ->). by destruct (find_sub_app t a b) as [i ->].
Qed.

Lemma indexOf_includes s t : negb (indexOf s t =? -1) = includes s t.
Proof.
  unfold indexOf, includes. destruct (find_sub t s); [|done].
  destruct (Z.eqb_spec (Z.of_nat n) (-1)); [lia|done].
Qed.

Lemma indexOf_ge s t : -1 <= indexOf s t.
Proof. unfold indexOf. destruct (find_sub t s); lia. Qed.

(** The first occurrence of one unit splits the string there. *)
Lemma find_sub_unit_none c s : find_sub [c] s = None <-> c ∉ s.
Proof.
  induction s as [|x s IH]; cbn.
  - split; [intros _ H; inversion H|done].
  - destruct (Z.eqb_spec c x) as [->|Hne]; cbn.
    + split; [done|]. intros H; exfalso; apply H; left.
    + rewrite fmap_None, IH, not_elem_of_cons. tauto.
Qed.

Lemma find_sub_unit c a b : c ∉ a -> find_sub [c] (a ++ c :: b) = Some (length a).
Proof.
  induction a as [|x a IH]; cbn; intros H.
  - by rewrite Z.eqb_refl.
  - destruct (Z.eqb_spec c x) as [->|]; cbn.
    + exfalso; apply H; left.
    + rewrite IH; [done|]. intros Hin; apply H; by right.
Qed.

Lemma indexOf_unit c a b : c ∉ a -> indexOf (a ++ c :: b) [c] = str_length a.
Proof. intros H. unfold indexOf. by rewrite find_sub_unit. Qed.

Lemma indexOf_unit_none c s : c ∉ s -> indexOf s [c] = -1.
Proof. intros H. unfold indexOf. by rewrite (proj2 (find_sub_unit_none c s) H). Qed.

Lemma find_last_none c s : c ∉ s -> find_last c s = None.
Proof.
  induction s as [|x s IH]; cbn; intros H; [done|].
  rewrite IH by (intros ?; apply H; by right).
  destruct (Z.eqb_spec x c) as [->|]; [|done]. exfalso; apply H; left.
Qed.

Lemma find_last_app c a b : c ∉ b -> find_last c (a ++ c :: b) = Some (length a).
Proof.
  intros H. induction a as [|x a IH]; cbn.
  - by rewrite find_last_none, Z.eqb_refl.
  - by rewrite IH.
Qed.

Lemma slice_drop s a :
  0 <= a <= str_length s -> slice s a (str_length s) = drop (Z.to_nat a) s.
Proof.
  unfold slice, slice_pos, sub_list, str_length. intros H.
  destruct (Z.ltb_spec a 0); [lia|]. destruct (Z.ltb_spec (Z.of_nat (length s)) 0); [lia|].
  rewrite take_ge by (rewrite length_drop; lia). f_equal. lia.
Qed.

Lemma substring_take s n :
  0 <= n -> substring s 0 n = take (Z.to_nat n) s.
Proof.
  intros H. unfold substring, clamp, sub_list, str_length.
  replace (Z.to_nat (Z.min _ _)) with 0%nat by lia. rewrite drop_0.
  destruct (Z.le_ge_cases n (Z.of_nat (length s))).
  - f_equal. lia.
  - by rewrite !take_ge by lia.
Qed.

Lemma substring_from_drop s a :
  0 <= a -> substring_from s a = drop (Z.to_nat a) s.
Proof.
  intros H. unfold substring_from, substring, clamp, sub_list, str_length.
  destruct (Z.le_ge_cases a (Z.of_nat (length s))).
  - rewrite take_ge by (rewrite length_drop; lia). f_equal. lia.
  - rewrite !drop_ge by lia. by rewrite take_nil.
Qed.

Lemma substr_from_drop s a :
  0 <= a <= str_length s -> substr_from s a = drop (Z.to_nat a) s.
Proof.
  unfold substr_from, substr, slice_pos, sub_list, str_length. intros H.
  destruct (Z.ltb_spec a 0); [lia|].
  rewrite take_ge by (rewrite length_drop; lia). f_equal. lia.
Qed.

Lemma split_nonempty c s : split c s <> [].
Proof. destruct s; cbn; [done|]. case_match; [done|]. by destruct (split c s). Qed.

(** [split] and [join] are inverse. *)
Lemma join_split c s : join [c] (split c s) = s.
Proof.
  induction s as [|x s IH]; cbn; [done|].
  pose proof (split_nonempty c s). destruct (Z.eqb_spec x c) as [->|].
  - destruct (split c s) eqn:E; [done|]. cbn. by rewrite <- IH.
  - destruct (split c s) as [|w ws] eqn:E; [done|].
    destruct ws; cbn in *; by rewrite <- IH.
Qed.

Lemma split_notin c s : c ∉ s -> split c s = [s].
Proof.
  induction s as [|x s IH]; cbn; intros H; [done|].
  destruct (Z.eqb_spec x c) as [->|]; [exfalso; apply H; left|].
  rewrite IH; [done|]. intros ?; apply H; by right.
Qed.

Lemma split_app c a b : c ∉ a -> split c (a ++ c :: b) = a :: split c b.
Proof.
  induction a as [|x a IH]; cbn; intros H; [by rewrite Z.eqb_refl|].
  destruct (Z.eqb_spec x c) as [->|]; [exfalso; apply H; left|].
  rewrite IH; [done|]. intros ?; apply H; by right.
Qed.

Lemma split_elem c s w : w ∈ split c s -> c ∉ w.
Proof.
  revert w; induction s as [|x s IH]; cbn; intros w.
  - intros ->%list_elem_of_singleton. intros H; inversion H.
  - destruct (Z.eqb_spec x c).
    + intros [->|H]%elem_of_cons; [intros H; inversion H|auto].
    + destruct (split c s) as [|v ws] eqn:E; [by destruct (split_nonempty c s)|].
      intros [->|H]%elem_of_cons.
      * intros [->|H]%elem_of_cons; [done|]. by apply (IH v); [left|].
      * apply IH. by right.
Qed.

Lemma span_app p s : (span p s).1 ++ (span p s).2 = s.
Proof.
  induction s as [|x s IH]; cbn; [done|]. destruct (p x); [|done].
  destruct (span p s); cbn in *. by rewrite IH.
Qed.

Lemma span_fst p s : Forall (fun c => p c = true) (span p s).1.
Proof.
  induction s as [|x s IH]; cbn; [constructor|]. destruct (p x) eqn:E; [|constructor].
  destruct (span p s); cbn in *. by constructor.
Qed.

Lemma span_snd p s : match (span p s).2 with [] => True | c :: _ => p c = false end.
Proof.
  induction s as [|x s IH]; cbn; [done|]. destruct (p x) eqn:E; cbn; [|done].
  destruct (span p s); by cbn in *.
Qed.

Lemma span_unique p a b :
  Forall (fun c => p c = true) a -> match b with [] => True | c :: _ => p c = false end ->
  span p (a ++ b) = (a, b).
Proof.
  intros Ha Hb. induction Ha as [|x a Hx Ha IH]; cbn.
  - destruct b as [|c b]; [done|]. cbn. by rewrite Hb.
  - by rewrite Hx, IH.
Qed.

Lemma length_span p s : (length (span p s).1 + length (span p s).2 = length s)%nat.
Proof. by rewrite <- length_app, span_app. Qed.
