(* ===== verification/JsNumber.v ===== *)
(** * JavaScript numbers

    A JavaScript number is an IEEE 754 binary64 value.  It is modelled by the
    Standard Library's executable specification of floating-point arithmetic
    ([SpecFloat], precision 53 and maximal exponent 1024), so every operation
    rounds exactly as the language prescribes and evaluates in the kernel.
    Conversions between numbers and decimal strings follow the algorithms of
    the ECMAScript specification on exact integers. *)

From S2P Require Import Prelude JsString.
From Stdlib Require Export SpecFloat.

Abbreviation number := spec_float.

Declare Scope num_scope.
Delimit Scope num_scope with num.
#[global] Open Scope num_scope.

(** The number closest to an integer: every integer literal of the sources. *)
Definition num (z : Z) : number := binary_normalize 53 1024 z 0 false.

Definition nadd : number -> number -> number := SFadd 53 1024.
Definition nsub : number -> number -> number := SFsub 53 1024.
Definition nmul : number -> number -> number := SFmul 53 1024.
Definition ndiv : number -> number -> number := SFdiv 53 1024.
Definition nneg : number -> number := SFopp.
Definition nlt : number -> number -> bool := SFltb.
Definition nle : number -> number -> bool := SFleb.
Definition neq : number -> number -> bool := SFeqb.

Notation "x +f y" := (nadd x y) (at level 50, left associativity) : num_scope.
Notation "x -f y" := (nsub x y) (at level 50, left associativity) : num_scope.
Notation "x *f y" := (nmul x y) (at level 40, left associativity) : num_scope.
Notation "x /f y" := (ndiv x y) (at level 40, left associativity) : num_scope.
Notation "x <f y" := (nlt x y) (at level 70, no associativity) : num_scope.
Notation "x >f y" := (nlt y x) (at level 70, no associativity) : num_scope.
Notation "x <=f y" := (nle x y) (at level 70, no associativity) : num_scope.
Notation "x >=f y" := (nle y x) (at level 70, no associativity) : num_scope.
Notation "x =f y" := (neq x y) (at level 70, no associativity) : num_scope.

Definition NaN : number := S754_nan.
Definition is_nan (x : number) : bool :=
  match x with S754_nan => true | _ => false end.

(** Truth value of a number: [0], [-0] and [NaN] are falsy. *)
Definition truthy (x : number) : bool :=
  match x with S754_zero _ | S754_nan => false | _ => true end.

(** A value that should be a number but may be [null] or [undefined], and the
    coercion the arithmetic and relational operators apply to it. *)
Inductive jsnum :=
  | JNum (x : number)
  | JNull
  | JUndef.
Coercion JNum : spec_float >-> jsnum.

Definition ToNumber (v : jsnum) : number :=
  match v with
  | JNum x => x
  | JNull => S754_zero false
  | JUndef => NaN
  end.

(** ** Rational value: a finite number is [numer / denom], exactly. *)

Definition numer (m : positive) (e : Z) : Z := Zpos m * 2 ^ (Z.max e 0).
Definition denom (e : Z) : Z := 2 ^ (Z.max (- e) 0).

(** ** Math *)

(** [Math.round]: the nearest integer, halves rounded up; a result of zero keeps
    the sign of the argument. *)
Definition Math_round (x : number) : number :=
  match x with
  | S754_finite s m e =>
      let r := (2 * cond_Zopp s (numer m e) + denom e) / (2 * denom e) in
      if r =? 0 then S754_zero s else num r
  | _ => x
  end.

(** [Math.floor]. *)
Definition Math_floor (x : number) : number :=
  match x with
  | S754_finite s m e =>
      let r := cond_Zopp s (numer m e) / denom e in
      if r =? 0 then S754_zero s else num r
  | _ => x
  end.

Definition Math_max (x y : number) : number :=
  match x, y with
  | S754_nan, _ | _, S754_nan => NaN
  | S754_zero a, S754_zero b => S754_zero (a && b)
  | _, _ => if nlt x y then y else x
  end.

Definition Math_min (x y : number) : number :=
  match x, y with
  | S754_nan, _ | _, S754_nan => NaN
  | S754_zero a, S754_zero b => S754_zero (a || b)
  | _, _ => if nlt y x then y else x
  end.

Definition Math_sqrt : number -> number := SFsqrt 53 1024.

Definition infinity : number := S754_infinity false.

(** [Math.max.apply(null, l)] and [Math.min.apply(null, l)]. *)
Definition max_all (l : list number) : number := fold_left Math_max l (nneg infinity).
Definition min_all (l : list number) : number := fold_left Math_min l infinity.

(** ** Decimal strings *)

(** The decimal digits of [n >= 0]; [fuel] bounds their number. *)
Fixpoint dec_aux (fuel : nat) (n : Z) (acc : jsstring) : jsstring :=
  match fuel with
  | O => acc
  | S f =>
      let acc := (48 + n mod 10) :: acc in
      if n / 10 =? 0 then acc else dec_aux f (n / 10) acc
  end.
Definition dec (n : Z) : jsstring := dec_aux (S (Z.to_nat (Z.log2 n))) n [].

(** The integer a digit string denotes. *)
Definition undec (s : jsstring) : Z := fold_left (fun acc c => 10 * acc + (c - 48)) s 0.

Definition zeros (n : Z) : jsstring := replicate (Z.to_nat n) 48.

(** The number closest to [s * 10^k]. *)
Definition of_decimal (s k : Z) : number :=
  if 0 <=? k then num (s * 10 ^ k)
  else match s with
       | Zpos p => ndiv (S754_finite false p 0) (S754_finite false (Z.to_pos (10 ^ (- k))) 0)
       | Zneg p => ndiv (S754_finite true p 0) (S754_finite false (Z.to_pos (10 ^ (- k))) 0)
       | Z0 => S754_zero false
       end.

(** The decimal exponent [n] with [10^(n-1) <= a/b < 10^n]. *)
Fixpoint leading_zeros (fuel : nat) (a b j : Z) : Z :=
  match fuel with
  | O => j
  | S f => if b <=? 10 * a then j else leading_zeros f (10 * a) b (j + 1)
  end.
Definition decimal_exponent (a b : Z) : Z :=
  if b <=? a then str_length (dec (a / b)) else - leading_zeros 400 a b 0.

(** The shortest digit string that reads back as [x]: at most 17 digits. *)
Fixpoint shortest_digits (fuel : nat) (x : number) (a b n k : Z) : Z * Z :=
  let e := n - k in
  let s := if 0 <=? e then (2 * a + b * 10 ^ e) / (2 * b * 10 ^ e)
           else (2 * a * 10 ^ (- e) + b) / (2 * b) in
  match fuel with
  | O => (s, k)
  | S f => if (s <? 10 ^ k) && neq (of_decimal s e) x then (s, k)
           else shortest_digits f x a b n (k + 1)
  end.

(** [Number::toString] of a positive finite number. *)
Definition pos_to_string (m : positive) (e : Z) : jsstring :=
  let a := numer m e in
  let b := denom e in
  if (a mod b =? 0) && (a / b <=? 2 ^ 53) then dec (a / b)
  else
    let n := decimal_exponent a b in
    let '(s, k) := shortest_digits 17 (S754_finite false m e) a b n 1 in
    let ds := dec s in
    if (k <=? n) && (n <=? 21) then ds ++ zeros (n - k)
    else if (0 <? n) && (n <=? 21) then take (Z.to_nat n) ds ++ "." ++ drop (Z.to_nat n) ds
    else if (-6 <? n) && (n <=? 0) then "0." ++ zeros (- n) ++ ds
    else
      let ex := (if n - 1 <? 0 then js "-" else js "+") ++ dec (Z.abs (n - 1)) in
      if k =? 1 then ds ++ "e" ++ ex
      else take 1 ds ++ "." ++ drop 1 ds ++ "e" ++ ex.

(** [ToString] of a number, as in [x + ""] and [x.toString()]. *)
Definition num_to_string (x : number) : jsstring :=
  match x with
  | S754_nan => "NaN"
  | S754_zero _ => "0"
  | S754_infinity false => "Infinity"
  | S754_infinity true => "-Infinity"
  | S754_finite false m e => pos_to_string m e
  | S754_finite true m e => "-" ++ pos_to_string m e
  end.

(** [ToString] of a value that may be [null] or [undefined]. *)
Definition jsnum_to_string (v : jsnum) : jsstring :=
  match v with
  | JNum x => num_to_string x
  | JNull => "null"
  | JUndef => "undefined"
  end.

(** The digits of [n / 10^f], [f > 0] of them after the point. *)
Definition point_digits (n f : Z) : jsstring :=
  let ds := dec n in
  let ds := zeros (f + 1 - str_length ds) ++ ds in
  let i := (length ds - Z.to_nat f)%nat in
  take i ds ++ "." ++ drop i ds.

(** [x.toFixed(f)] for [f > 0]: the integer [n] for which [n / 10^f] is closest
    to [x], the larger one on ties. *)
Definition fixed_int (m : positive) (e f : Z) : Z :=
  (2 * numer m e * 10 ^ f + denom e) / (2 * denom e).

Definition toFixed (x : number) (f : Z) : jsstring :=
  match x with
  | S754_zero _ => point_digits 0 f
  | S754_finite s m e =>
      if 10 ^ 21 * denom e <=? numer m e then num_to_string x
      else (if s then js "-" else []) ++ point_digits (fixed_int m e f) f
  | _ => num_to_string x
  end.

(** [parseFloat] on an unsigned decimal literal [ddd] or [ddd.ddd], the only
    argument the sources give it (a capture of [\d+(?:\.\d+)?]). *)
Definition parseFloat (s : jsstring) : number :=
  let '(i, r) := span is_digit s in
  match r with
  | c :: r' =>
      if c =? 46 then
        let fr := (span is_digit r').1 in
        of_decimal (undec (i ++ fr)) (- str_length fr)
      else of_decimal (undec i) 0
  | [] => of_decimal (undec i) 0
  end.

(** Value of a hexadecimal digit. *)
Definition hex_value (c : Z) : option Z :=
  if is_digit c then Some (c - 48)
  else if (97 <=? c) && (c <=? 102) then Some (c - 87)
  else if (65 <=? c) && (c <=? 70) then Some (c - 55)
  else None.
Definition is_hex (c : Z) : bool := match hex_value c with Some _ => true | None => false end.
Definition unhex (s : jsstring) : Z :=
  fold_left (fun acc c => 16 * acc + default 0 (hex_value c)) s 0.

Definition signed_num (neg : bool) (z : Z) : number := if neg then nneg (num z) else num z.

(** [parseInt(s)] without a radix: leading white space, a sign, an optional
    [0x] prefix, then the longest run of digits; [NaN] when there is none. *)
Definition parseInt (s : jsstring) : number :=
  let s := trimStart s in
  let '(neg, s) := match s with
                   | 45 :: r => (true, r)
                   | 43 :: r => (false, r)
                   | _ => (false, s)
                   end in
  match s with
  | 48 :: x :: r =>
      if (x =? 120) || (x =? 88) then
        match (span is_hex r).1 with
        | [] => NaN
        | ds => signed_num neg (unhex ds)
        end
      else signed_num neg (undec (span is_digit s).1)
  | _ =>
      match (span is_digit s).1 with
      | [] => NaN
      | ds => signed_num neg (undec ds)
      end
  end.

(** Sanity checks against known values of the language. *)
Example to_string_tenth : num_to_string (num 1 /f num 10) = js "0.1".
Proof. vm_compute. reflexivity. Qed.
Example to_string_third : num_to_string (num 1 /f num 3) = js "0.3333333333333333".
Proof. vm_compute. reflexivity. Qed.
Example to_string_big : num_to_string (num (12 * 10 ^ 22)) = js "1.2e+23".
Proof. vm_compute. reflexivity. Qed.
Example to_string_small : num_to_string (num 15 /f num (10 ^ 9)) = js "1.5e-8".
Proof. vm_compute. reflexivity. Qed.
Example to_string_point : num_to_string (num 12345 /f num 100) = js "123.45".
Proof. vm_compute. reflexivity. Qed.
Example toFixed_half : toFixed (num 1005 /f num 1000) 2 = js "1.00".
Proof. vm_compute. reflexivity. Qed.
Example toFixed_neg : toFixed (num (-25) /f num 10) 1 = js "-2.5".
Proof. vm_compute. reflexivity. Qed.
Example round_half_up : Math_round (num (-5) /f num 2) = num (-2).
Proof. vm_compute. reflexivity. Qed.
Example parse_float_dec : parseFloat "12.50" = num 25 /f num 2.
Proof. vm_compute. reflexivity. Qed.
Example parse_int_hex : parseInt " -0x1f.5" = num (-31).
Proof. vm_compute. reflexivity. Qed.
