(* ===== verification/JsNumberFacts.v ===== *)
(** * Facts about binary64 arithmetic

    The exact value of a finite number, in units of the smallest positive
    number (2^-1074), is an integer [fval].  This file relates the executable
    operations of [JsNumber] to that value: comparison is integer comparison,
    rounding keeps numbers well formed and is exact on representable values,
    a difference has the sign of the exact difference, and arithmetic on
    integers up to 2^53 is exact. *)

From S2P Require Import Prelude JsString JsNumber.

(** Finite numbers, zeros included. *)
Definition fin (x : number) : bool :=
  match x with S754_zero _ | S754_finite _ _ _ => true | _ => false end.

(** The representation is the canonical one of the format. *)
Definition valid (x : number) : Prop := valid_binary 53 1024 x = true.

Definition fval (x : number) : Z :=
  match x with
  | S754_finite s m e => cond_Zopp s (Zpos m * 2 ^ (e + 1074))
  | _ => 0
  end.

(** ** Digits and canonical mantissas *)

Lemma digits2_bounds p :
  2 ^ (Zpos (digits2_pos p) - 1) <= Zpos p < 2 ^ Zpos (digits2_pos p).
Proof.
  induction p as [p IH|p IH|]; [| |by cbn].
  all: cbn [digits2_pos]; rewrite Pos2Z.inj_succ.
  all: replace (Z.succ (Zpos (digits2_pos p)) - 1) with (Zpos (digits2_pos p)) by lia.
  all: rewrite Z.pow_succ_r by lia.
  all: assert (2 ^ Zpos (digits2_pos p) = 2 * 2 ^ (Zpos (digits2_pos p) - 1))
    by (rewrite <- Z.pow_succ_r by lia; f_equal; lia).
  all: lia.
Qed.

Lemma digits2_unique p d : 0 < d -> 2 ^ (d - 1) <= Zpos p < 2 ^ d -> Zpos (digits2_pos p) = d.
Proof.
  intros Hd [H1 H2]. pose proof (digits2_bounds p) as [G1 G2].
  assert (d - 1 < Zpos (digits2_pos p)) by (apply (Z.pow_lt_mono_r_iff 2); lia).
  assert (Zpos (digits2_pos p) - 1 < d) by (apply (Z.pow_lt_mono_r_iff 2); lia).
  lia.
Qed.

Lemma digits2_le p d : 0 <= d -> Zpos p < 2 ^ d -> Zpos (digits2_pos p) <= d.
Proof.
  intros Hd H. pose proof (digits2_bounds p) as [G1 G2].
  assert (Zpos (digits2_pos p) - 1 < d); [|lia].
  apply (Z.pow_lt_mono_r_iff 2); lia.
Qed.

Lemma digits2_gt p d : 0 <= d -> 2 ^ d <= Zpos p -> d < Zpos (digits2_pos p).
Proof.
  intros Hd H. pose proof (digits2_bounds p) as [G1 G2].
  apply (Z.pow_lt_mono_r_iff 2); lia.
Qed.

Lemma fexp_eq e : fexp 53 1024 e = Z.max (e - 53) (-1074).
Proof. reflexivity. Qed.

Lemma bounded_inv m e :
  bounded 53 1024 m e = true <->
  e = Z.max (Zpos (digits2_pos m) + e - 53) (-1074) /\ e <= 971.
Proof.
  unfold bounded, canonical_mantissa. rewrite fexp_eq, andb_true_iff, Z.eqb_eq, Z.leb_le.
  change (1024 - 53) with 971. intuition lia.
Qed.

Lemma bounded_facts m e :
  bounded 53 1024 m e = true ->
  -1074 <= e <= 971 /\ Zpos m < 2 ^ 53 /\ (-1074 < e -> 2 ^ 52 <= Zpos m).
Proof.
  intros [H1 H2]%bounded_inv. pose proof (digits2_bounds m) as [G1 G2].
  split; [lia|]. split.
  - apply (Z.lt_le_trans _ _ _ G2), Z.pow_le_mono_r; lia.
  - intros He. etransitivity; [|exact G1]. apply Z.pow_le_mono_r; lia.
Qed.

Lemma bounded_intro m e :
  -1074 <= e <= 971 -> Zpos m < 2 ^ 53 -> (-1074 < e -> 2 ^ 52 <= Zpos m) ->
  bounded 53 1024 m e = true.
Proof.
  intros He Hm Hn. apply bounded_inv. split; [|lia].
  pose proof (digits2_le m 53 ltac:(lia) Hm).
  destruct (Z.eq_dec e (-1074)) as [->|]; [lia|].
  assert (Zpos (digits2_pos m) = 53) as ->; [|lia].
  apply digits2_unique; [lia|]. change (53 - 1) with 52. split; [apply Hn|]; lia.
Qed.

Lemma pow2_pos k : 0 <= k -> 0 < 2 ^ k.
Proof. intros. apply Z.pow_pos_nonneg; lia. Qed.

(** ** Comparison is comparison of values *)

(** A larger exponent means a larger magnitude. *)
Lemma magnitude_lt m1 e1 m2 e2 :
  bounded 53 1024 m1 e1 = true -> bounded 53 1024 m2 e2 = true -> e1 < e2 ->
  Zpos m1 * 2 ^ (e1 + 1074) < Zpos m2 * 2 ^ (e2 + 1074).
Proof.
  intros (B1 & B2 & _)%bounded_facts (C1 & C2 & C3)%bounded_facts H.
  specialize (C3 ltac:(lia)).
  apply (Z.lt_le_trans _ (2 ^ 53 * 2 ^ (e1 + 1074))).
  - apply Z.mul_lt_mono_pos_r; [apply pow2_pos; lia|done].
  - apply (Z.le_trans _ (2 ^ 52 * 2 ^ (e2 + 1074))).
    + rewrite <- !Z.pow_add_r by lia. apply Z.pow_le_mono_r; lia.
    + apply Z.mul_le_mono_nonneg_r; [apply Z.pow_nonneg; lia|done].
Qed.

Lemma magnitude_compare m1 e1 m2 e2 :
  bounded 53 1024 m1 e1 = true -> bounded 53 1024 m2 e2 = true ->
  match (e1 ?= e2) with
  | Lt => Lt | Gt => Gt | Eq => Pos.compare_cont Eq m1 m2 end =
  (Zpos m1 * 2 ^ (e1 + 1074) ?= Zpos m2 * 2 ^ (e2 + 1074)).
Proof.
  intros B1 B2. destruct (Z.compare_spec e1 e2) as [->|H|H].
  - pose proof (bounded_facts _ _ B2) as [? _].
    rewrite <- Zmult_compare_compat_r; [done|]. apply Z.lt_gt, pow2_pos; lia.
  - symmetry. apply Z.compare_lt_iff. by apply magnitude_lt.
  - symmetry. apply Z.compare_gt_iff. by apply magnitude_lt.
Qed.

Lemma fval_pos m e : -1074 <= e -> 0 < Zpos m * 2 ^ (e + 1074).
Proof. intros. apply Z.mul_pos_pos; [lia|]. apply pow2_pos; lia. Qed.

Lemma compare_fval x y :
  fin x = true -> fin y = true -> valid x -> valid y ->
  SFcompare x y = Some (fval x ?= fval y).
Proof.
  unfold valid. destruct x as [s1|s1| |s1 m1 e1], y as [s2|s2| |s2 m2 e2]; try done.
  - intros _ _ _ H. cbn in H. pose proof (bounded_facts _ _ H) as [? _].
    pose proof (fval_pos m2 e2 ltac:(lia)). cbn [SFcompare fval]. f_equal. symmetry.
    destruct s2; cbn [cond_Zopp]; [apply Z.compare_gt_iff|apply Z.compare_lt_iff]; lia.
  - intros _ _ H _. cbn in H. pose proof (bounded_facts _ _ H) as [? _].
    pose proof (fval_pos m1 e1 ltac:(lia)). cbn [SFcompare fval]. f_equal. symmetry.
    destruct s1; cbn [cond_Zopp]; [apply Z.compare_lt_iff|apply Z.compare_gt_iff]; lia.
  - intros _ _ H1 H2. cbn in H1, H2.
    pose proof (bounded_facts _ _ H1) as [? _]. pose proof (bounded_facts _ _ H2) as [? _].
    pose proof (fval_pos m1 e1 ltac:(lia)). pose proof (fval_pos m2 e2 ltac:(lia)).
    pose proof (magnitude_compare _ _ _ _ H1 H2) as M.
    cbn [SFcompare fval]. f_equal. destruct s1, s2; cbn [cond_Zopp].
    + rewrite Z.compare_opp, (Z.compare_antisym (_ * 2 ^ (e1 + _))), <- M.
      destruct (e1 ?= e2); reflexivity.
    + symmetry; apply Z.compare_lt_iff; lia.
    + symmetry; apply Z.compare_gt_iff; lia.
    + exact M.
Qed.

(** Two canonical numbers of the same non-zero value are the same number. *)
Lemma fval_inj x y :
  fin x = true -> fin y = true -> valid x -> valid y -> fval x = fval y -> fval x <> 0 -> x = y.
Proof.
  unfold valid. destruct x as [s1|s1| |s1 m1 e1], y as [s2|s2| |s2 m2 e2]; try done.
  cbn [fin valid_binary fval]. intros _ _ H1 H2 E _.
  pose proof (bounded_facts _ _ H1) as [? _]. pose proof (bounded_facts _ _ H2) as [? _].
  pose proof (fval_pos m1 e1 ltac:(lia)). pose proof (fval_pos m2 e2 ltac:(lia)).
  assert (s1 = s2 /\ Zpos m1 * 2 ^ (e1 + 1074) = Zpos m2 * 2 ^ (e2 + 1074)) as [-> E']
    by (destruct s1, s2; cbn [cond_Zopp] in E; split; done || lia).
  pose proof (magnitude_compare _ _ _ _ H1 H2) as M.
  rewrite E', Z.compare_refl in M.
  destruct (Z.compare_spec e1 e2) as [->| |]; [|done|done].
  apply Pos.compare_eq in M. by subst.
Qed.

(** ** Rounding *)

Lemma iter_pos_nat {A} (f : A -> A) p x : iter_pos f p x = Nat.iter (Pos.to_nat p) f x.
Proof.
  revert x; induction p as [p IH|p IH|]; intros x; cbn [iter_pos]; [| |done].
  - rewrite !IH, Pos2Nat.inj_xI.
    replace (S (2 * Pos.to_nat p)) with (Pos.to_nat p + (Pos.to_nat p + 1))%nat by lia.
    by rewrite !Nat.iter_add.
  - rewrite !IH, Pos2Nat.inj_xO.
    replace (2 * Pos.to_nat p)%nat with (Pos.to_nat p + Pos.to_nat p)%nat by lia.
    by rewrite Nat.iter_add.
Qed.

Lemma shr_1_spec m r s :
  0 <= m -> shr_1 (Build_shr_record m r s) = Build_shr_record (m / 2) (Z.odd m) (r || s).
Proof.
  intros H. rewrite <- Z.div2_div. destruct m as [|[p|p|]|p]; [done..|lia].
Qed.

(** Shifting right by [n] divides by [2^n]; the two extra bits are clear exactly
    when nothing was shifted out. *)
Lemma shr_iter (n : nat) m :
  0 <= m ->
  exists r s, Nat.iter n shr_1 (Build_shr_record m false false) =
              Build_shr_record (m / 2 ^ Z.of_nat n) r s /\
              (r = false /\ s = false <-> m mod 2 ^ Z.of_nat n = 0).
Proof.
  intros Hm. induction n as [|n (r & s & E & Hrs)].
  - exists false, false. cbn. rewrite Z.div_1_r, Z.mod_1_r. done.
  - cbn [Nat.iter nat_rect]. change (nat_rect _ _ _ n) with
      (Nat.iter n shr_1 (Build_shr_record m false false)).
    rewrite E, shr_1_spec by (apply Z.div_pos; [done|apply pow2_pos; lia]).
    rewrite Nat2Z.inj_succ, Z.pow_succ_r, (Z.mul_comm 2) by lia.
    pose proof (pow2_pos (Z.of_nat n) ltac:(lia)).
    exists (Z.odd (m / 2 ^ Z.of_nat n)), (r || s). split.
    + f_equal. by rewrite Z.div_div by lia.
    + rewrite Z.rem_mul_r, Zmod_odd by lia.
      pose proof (Z.mod_pos_bound m (2 ^ Z.of_nat n) ltac:(lia)).
      rewrite orb_false_iff, Hrs. destruct (Z.odd (m / 2 ^ Z.of_nat n)).
      * split; [by intros [? _]|nia].
      * split; [intros [_ ->]; lia|]. intros; split; [done|lia].
Qed.

Lemma shr_fexp_right m e :
  let n := Z.max (Zdigits2 m + e - 53) (-1074) - e in
  0 <= m -> 0 <= n ->
  exists r s, shr_fexp 53 1024 m e loc_Exact = (Build_shr_record (m / 2 ^ n) r s, e + n) /\
              (r = false /\ s = false <-> m mod 2 ^ n = 0).
Proof.
  intros n Hm Hn. unfold shr_fexp. rewrite fexp_eq. fold n. unfold shr. cbn [shr_record_of_loc].
  destruct n as [|p|p]; [| |lia].
  - exists false, false. rewrite Z.div_1_r, Z.mod_1_r, Z.add_0_r. done.
  - rewrite iter_pos_nat. destruct (shr_iter (Pos.to_nat p) m Hm) as (r & s & -> & H).
    rewrite positive_nat_Z in H |- *. eauto.
Qed.

Lemma shr_fexp_left m e :
  Z.max (Zdigits2 m + e - 53) (-1074) - e <= 0 ->
  shr_fexp 53 1024 m e loc_Exact = (Build_shr_record m false false, e).
Proof.
  intros H. unfold shr_fexp. rewrite fexp_eq. unfold shr.
  destruct (_ - e); [done|lia|done].
Qed.

(** The number with significand [q <= 2^53] and exponent [e]. *)
Definition pack (sx : bool) (q e : Z) : number :=
  match q with
  | Z0 => S754_zero sx
  | Zpos p =>
      if q =? 2 ^ 53
      then if e + 1 <=? 971 then S754_finite sx 4503599627370496 (e + 1) else S754_infinity sx
      else if e <=? 971 then S754_finite sx p e else S754_infinity sx
  | Zneg _ => S754_nan
  end.

Lemma round_second sx q e :
  0 <= q <= 2 ^ 53 -> -1074 <= e ->
  (let '(mrs, e') := shr_fexp 53 1024 q e loc_Exact in
   match shr_m mrs with
   | Z0 => S754_zero sx
   | Zpos m => if e' <=? 1024 - 53 then S754_finite sx m e' else S754_infinity sx
   | _ => S754_nan
   end) = pack sx q e.
Proof.
  intros Hq He. change (1024 - 53) with 971.
  destruct (Z.eqb_spec q (2 ^ 53)) as [->|Hne].
  - destruct (shr_fexp_right (2 ^ 53) e) as (r & s & -> & _); [done|change (Zdigits2 (2 ^ 53)) with 54; lia|].
    change (Zdigits2 (2 ^ 53)) with 54.
    replace (Z.max (54 + e - 53) (-1074) - e) with 1 by lia. reflexivity.
  - rewrite shr_fexp_left.
    + cbn [shr_m]. unfold pack. rewrite (proj2 (Z.eqb_neq q (2 ^ 53))) by done.
      by destruct q.
    + destruct q as [|p|p]; [cbn; lia| |lia]. cbn [Zdigits2].
      pose proof (digits2_le p 53 ltac:(lia) ltac:(lia)). lia.
Qed.

(** Rounding [m * 2^e]: the significand is the quotient by [2^n], rounded to a
    neighbour, and unchanged when the division is exact. *)
Lemma round_aux_spec sx m e :
  let n := Z.max (Zpos (digits2_pos m) + e - 53) (-1074) - e in
  0 <= n ->
  exists q, (q = Zpos m / 2 ^ n \/ q = Zpos m / 2 ^ n + 1) /\
            (Zpos m mod 2 ^ n = 0 -> q = Zpos m / 2 ^ n) /\
            0 <= q <= 2 ^ 53 /\ -1074 <= e + n /\
            (-1074 < e + n -> 2 ^ 52 <= q) /\
            binary_round_aux 53 1024 sx (Zpos m) e loc_Exact = pack sx q (e + n).
Proof.
  intros n Hn. destruct (shr_fexp_right (Zpos m) e ltac:(lia) Hn) as (r & s & E & H).
  cbn [Zdigits2] in E, H. fold n in E, H.
  pose proof (digits2_bounds m) as [G1 G2].
  pose proof (pow2_pos n Hn) as Hp.
  assert (0 <= Zpos m / 2 ^ n) by (apply Z.div_pos; lia).
  assert (Zpos m / 2 ^ n < 2 ^ 53).
  { apply Z.div_lt_upper_bound; [lia|]. apply (Z.lt_le_trans _ _ _ G2).
    rewrite <- Z.pow_add_r by lia. apply Z.pow_le_mono_r; lia. }
  assert (-1074 < e + n -> 2 ^ 52 <= Zpos m / 2 ^ n).
  { intros He. apply Z.div_le_lower_bound; [lia|]. etransitivity; [|exact G1].
    rewrite <- Z.pow_add_r by lia. apply Z.pow_le_mono_r; lia. }
  unfold binary_round_aux. rewrite E.
  set (q := round_nearest_even _ _). exists q.
  assert (q = Zpos m / 2 ^ n \/ q = Zpos m / 2 ^ n + 1).
  { unfold q. cbn [shr_m]. unfold loc_of_shr_record, round_nearest_even.
    destruct r, s; auto. case_match; auto. }
  repeat split; [done| |lia|lia|unfold n in *; lia|lia|].
  - intros Hmod. apply H in Hmod as [-> ->]. done.
  - rewrite round_second; [done|lia|unfold n in *; lia].
Qed.

Lemma pack_valid sx q e :
  0 <= q <= 2 ^ 53 -> -1074 <= e -> (-1074 < e -> 2 ^ 52 <= q) -> valid (pack sx q e).
Proof.
  intros Hq He Hn. unfold valid, pack. destruct q as [|p|p]; [done| |lia].
  case_match eqn:E; bools.
  - case_match; bools; [|done]. apply bounded_intro; lia.
  - case_match; bools; [|done]. apply bounded_intro; lia.
Qed.

Lemma pack_fval sx q e :
  0 <= q -> -1074 <= e -> fin (pack sx q e) = true ->
  fval (pack sx q e) = cond_Zopp sx (q * 2 ^ (e + 1074)).
Proof.
  intros Hq He. unfold pack. destruct q as [|p|p]; [|idtac|lia].
  - intros _. by destruct sx.
  - case_match eqn:E; bools; case_match; cbn [fin fval]; try done. intros _. f_equal.
    rewrite E. replace (e + 1 + 1074) with (Z.succ (e + 1074)) by lia.
    rewrite Z.pow_succ_r by lia.
    change (2 ^ 53) with (Zpos 4503599627370496 * 2). lia.
Qed.

Lemma pack_fin sx q e : 0 <= q <= 2 ^ 53 -> e < 971 -> fin (pack sx q e) = true.
Proof.
  intros Hq He. unfold pack. destruct q as [|p|p]; [done| |lia].
  case_match; bools; case_match; bools; done || lia.
Qed.

Lemma iter_xO m d : Zpos (Pos.iter xO m d) = Zpos m * 2 ^ Zpos d.
Proof.
  revert m; induction d as [|d IH] using Pos.peano_ind; intros m; [cbn; lia|].
  rewrite Pos.iter_succ, Pos2Z.inj_xO, IH, Pos2Z.inj_succ, Z.pow_succ_r by lia. lia.
Qed.

Lemma shl_align_spec m e e' :
  (shl_align m e e').2 = Z.min e e' /\
  Zpos (shl_align m e e').1 = Zpos m * 2 ^ (e - Z.min e e').
Proof.
  unfold shl_align. destruct (e' - e) as [|d|d] eqn:E; cbn [fst snd].
  - split; [lia|]. replace (e - Z.min e e') with 0 by lia. lia.
  - split; [lia|]. replace (e - Z.min e e') with 0 by lia. lia.
  - split; [lia|]. rewrite iter_xO. do 2 f_equal. lia.
Qed.

Lemma digits2_scale m m' k :
  0 <= k -> Zpos m' = Zpos m * 2 ^ k ->
  Zpos (digits2_pos m') = Zpos (digits2_pos m) + k.
Proof.
  intros Hk E. pose proof (digits2_bounds m) as [G1 G2]. pose proof (pow2_pos k Hk).
  apply digits2_unique; [lia|]. rewrite E. split.
  - replace (Zpos (digits2_pos m) + k - 1) with (Zpos (digits2_pos m) - 1 + k) by lia.
    rewrite Z.pow_add_r by lia. apply Z.mul_le_mono_nonneg_r; lia.
  - rewrite Z.pow_add_r by lia. apply Z.mul_lt_mono_pos_r; lia.
Qed.

(** Equal values have their leading digit at the same place. *)
Lemma digits2_same m e m0 e0 :
  -1074 <= e -> -1074 <= e0 ->
  Zpos m * 2 ^ (e + 1074) = Zpos m0 * 2 ^ (e0 + 1074) ->
  Zpos (digits2_pos m) + e = Zpos (digits2_pos m0) + e0.
Proof.
  intros He He0 E.
  destruct (Zpos m * 2 ^ (e + 1074)) as [|V|V] eqn:EV; [| |lia].
  - pose proof (fval_pos m e He). lia.
  - pose proof (digits2_scale m V (e + 1074) ltac:(lia) ltac:(lia)).
    pose proof (digits2_scale m0 V (e0 + 1074) ltac:(lia) ltac:(lia)). lia.
Qed.

(** Rounding a positive multiple of the smallest number. *)
Lemma binary_round_spec sx m e :
  -1074 <= e ->
  exists q e', binary_round 53 1024 sx m e = pack sx q e' /\
    0 < q <= 2 ^ 53 /\ -1074 <= e' /\ (-1074 < e' -> 2 ^ 52 <= q) /\
    (forall m0 e0, -1074 <= e0 -> Zpos m0 < 2 ^ 53 ->
       Zpos m * 2 ^ (e + 1074) = Zpos m0 * 2 ^ (e0 + 1074) ->
       e' <= e0 /\ q * 2 ^ (e' + 1074) = Zpos m * 2 ^ (e + 1074)).
Proof.
  intros He. unfold binary_round. rewrite fexp_eq.
  set (d := Zpos (digits2_pos m)). set (ef := Z.max (d + e - 53) (-1074)).
  destruct (shl_align m e ef) as [mz ez] eqn:A.
  destruct (shl_align_spec m e ef) as [E1 E2]. rewrite A in E1, E2. cbn [fst snd] in E1, E2.
  pose proof (digits2_scale m mz (e - Z.min e ef) ltac:(lia) E2) as Hd. fold d in Hd.
  destruct (round_aux_spec sx mz ez) as (q & Q1 & Q2 & Q3 & Q4 & Q5 & ->); [unfold ef in *; lia|].
  set (n := Z.max (Zpos (digits2_pos mz) + ez - 53) (-1074) - ez) in *.
  assert (Hef : ez + n = ef) by (unfold n, ef in *; lia).
  assert (Hn : 0 <= n) by (unfold n, ef in *; lia).
  exists q, (ez + n). rewrite Hef in *. pose proof (pow2_pos n Hn).
  split; [done|]. split.
  { destruct (Z.eq_dec ef (-1074)); [|pose proof (Q5 ltac:(lia)); lia].
    assert (n = 0) as Hn0 by lia. rewrite Hn0, Z.div_1_r in Q1. lia. }
  split; [done|]. split; [done|]. intros m0 e0 He0 Hm0 EV.
  pose proof (digits2_same _ _ _ _ He He0 EV) as Hdd. fold d in Hdd.
  pose proof (digits2_le m0 53 ltac:(lia) Hm0).
  assert (ef <= e0) by (unfold ef; lia). split; [done|].
  assert (Hv : Zpos mz * 2 ^ (ez + 1074) = Zpos m * 2 ^ (e + 1074)).
  { rewrite E2, <- Z.mul_assoc, <- Z.pow_add_r by lia. do 2 f_equal. lia. }
  assert (Zpos mz = Zpos m0 * 2 ^ (e0 - ef) * 2 ^ n) as Hmz.
  { rewrite <- Z.mul_assoc, <- Z.pow_add_r by lia.
    apply (Z.mul_reg_r _ _ (2 ^ (ez + 1074))); [pose proof (pow2_pos (ez + 1074)); lia|].
    rewrite Hv, EV, <- Z.mul_assoc, <- Z.pow_add_r by lia. do 2 f_equal. lia. }
  rewrite Q2 by (rewrite Hmz; apply Z.mod_mul; lia).
  rewrite <- Hv, Hmz, Z.div_mul by lia.
  rewrite <- !Z.mul_assoc, <- !Z.pow_add_r by lia. do 2 f_equal. lia.
Qed.

(** Sign of a number: 0 for zeros and [NaN]. *)
Definition sgn (x : number) : Z :=
  match x with
  | S754_infinity s | S754_finite s _ _ => if s then -1 else 1
  | _ => 0
  end.

Lemma pack_sgn sx q e : 0 < q -> sgn (pack sx q e) = if sx then -1 else 1.
Proof. intros H. unfold pack. destruct q; [lia| |lia]. by repeat case_match. Qed.

(** What normalisation of [z * 2^e] gives: the sums and differences of finite
    numbers are of this form. *)
Lemma normalize_spec z e :
  -1074 <= e ->
  let r := binary_normalize 53 1024 z e false in
  valid r /\ is_nan r = false /\ sgn r = Z.sgn z /\
  (forall m0 e0, -1074 <= e0 < 971 -> Z.abs m0 < 2 ^ 53 ->
     z * 2 ^ (e + 1074) = m0 * 2 ^ (e0 + 1074) ->
     fin r = true /\ fval r = z * 2 ^ (e + 1074)).
Proof.
  intros He r. unfold r, binary_normalize. destruct z as [|m|m].
  - repeat split; done.
  - destruct (binary_round_spec false m e He) as (q & e' & -> & Hq & He' & Hn & Hx).
    split; [by apply pack_valid; [lia|..]|].
    split; [unfold pack; destruct q; [lia| |lia]; by repeat case_match|].
    split; [by rewrite pack_sgn by lia|].
    intros m0 e0 He0 Hm0 E. pose proof (fval_pos m e He).
    assert (0 < m0) by (pose proof (pow2_pos (e0 + 1074)); nia).
    destruct m0 as [|p0|p0]; [lia| |lia].
    destruct (Hx p0 e0 ltac:(lia) ltac:(lia) E) as [Hle Hval].
    assert (F : fin (pack false q e') = true) by (apply pack_fin; lia).
    split; [done|]. rewrite pack_fval by (done || lia). exact Hval.
  - destruct (binary_round_spec true m e He) as (q & e' & -> & Hq & He' & Hn & Hx).
    split; [by apply pack_valid; [lia|..]|].
    split; [unfold pack; destruct q; [lia| |lia]; by repeat case_match|].
    split; [by rewrite pack_sgn by lia|].
    intros m0 e0 He0 Hm0 E. pose proof (fval_pos m e He).
    assert (m0 < 0) by (pose proof (pow2_pos (e0 + 1074)); nia).
    destruct m0 as [|p0|p0]; [lia|lia|].
    destruct (Hx p0 e0 ltac:(lia) ltac:(lia) ltac:(lia)) as [Hle Hval].
    assert (F : fin (pack true q e') = true) by (apply pack_fin; lia).
    split; [done|]. rewrite pack_fval by (done || lia). cbn [cond_Zopp]. lia.
Qed.

(** ** The operations *)

Lemma sgn_fval x : valid x -> fin x = true -> Z.sgn (fval x) = sgn x.
Proof.
  unfold valid. destruct x as [| | |s m e]; try done. cbn [valid_binary fval sgn]. intros B _.
  pose proof (bounded_facts _ _ B) as [? _]. pose proof (fval_pos m e ltac:(lia)).
  destruct s; cbn [cond_Zopp]; lia.
Qed.

Lemma nlt_fval x y :
  fin x = true -> fin y = true -> valid x -> valid y -> nlt x y = (fval x <? fval y).
Proof.
  intros. unfold nlt, SFltb. rewrite compare_fval by done.
  unfold Z.ltb. by destruct (fval x ?= fval y).
Qed.

Lemma nle_fval x y :
  fin x = true -> fin y = true -> valid x -> valid y -> nle x y = (fval x <=? fval y).
Proof.
  intros. unfold nle, SFleb. rewrite compare_fval by done.
  unfold Z.leb. by destruct (fval x ?= fval y).
Qed.

Lemma neq_fval x y :
  fin x = true -> fin y = true -> valid x -> valid y -> neq x y = (fval x =? fval y).
Proof.
  intros. unfold neq, SFeqb. rewrite compare_fval by done.
  destruct (Z.compare_spec (fval x) (fval y)), (Z.eqb_spec (fval x) (fval y)); done || lia.
Qed.

(** The aligned significand of a finite number. *)
Lemma align_fval s m e ez :
  -1074 <= ez <= e ->
  cond_Zopp s (Zpos (fst (shl_align m e ez))) * 2 ^ (ez + 1074) =
  fval (S754_finite s m e).
Proof.
  intros H. destruct (shl_align_spec m e ez) as [_ E]. rewrite E. cbn [fval].
  rewrite (Z.min_r e ez) by lia.
  assert (2 ^ (e + 1074) = 2 ^ (e - ez) * 2 ^ (ez + 1074)) as ->
    by (rewrite <- Z.pow_add_r by lia; f_equal; lia).
  destruct s; cbn [cond_Zopp]; lia.
Qed.

(** A finite difference is the normalisation of the exact difference. *)
Lemma nsub_finite sx mx ex sy my ey :
  bounded 53 1024 mx ex = true -> bounded 53 1024 my ey = true ->
  exists z e, -1074 <= e /\
    z * 2 ^ (e + 1074) = fval (S754_finite sx mx ex) - fval (S754_finite sy my ey) /\
    nsub (S754_finite sx mx ex) (S754_finite sy my ey) = binary_normalize 53 1024 z e false.
Proof.
  intros [B1 _]%bounded_facts [B2 _]%bounded_facts.
  cbn [nsub SFsub]. eexists _, (Z.min ex ey). split; [lia|]. split; [|reflexivity].
  by rewrite Z.mul_sub_distr_r, !align_fval by lia.
Qed.

Lemma nadd_finite sx mx ex sy my ey :
  bounded 53 1024 mx ex = true -> bounded 53 1024 my ey = true ->
  exists z e, -1074 <= e /\
    z * 2 ^ (e + 1074) = fval (S754_finite sx mx ex) + fval (S754_finite sy my ey) /\
    nadd (S754_finite sx mx ex) (S754_finite sy my ey) = binary_normalize 53 1024 z e false.
Proof.
  intros [B1 _]%bounded_facts [B2 _]%bounded_facts.
  cbn [nadd SFadd]. eexists _, (Z.min ex ey). split; [lia|]. split; [|reflexivity].
  by rewrite Z.mul_add_distr_r, !align_fval by lia.
Qed.

Lemma sgn_scaled z e v : -1074 <= e -> z * 2 ^ (e + 1074) = v -> Z.sgn z = Z.sgn v.
Proof.
  intros He <-. rewrite Z.sgn_mul, (Z.sgn_pos (2 ^ _)) by (apply pow2_pos; lia). lia.
Qed.

(** A difference of finite numbers is never [NaN] and has the sign of the exact
    difference: it is zero only between equal numbers. *)
Lemma nsub_spec x y :
  fin x = true -> fin y = true -> valid x -> valid y ->
  valid (nsub x y) /\ is_nan (nsub x y) = false /\ sgn (nsub x y) = Z.sgn (fval x - fval y).
Proof.
  intros Fx Fy Vx Vy.
  destruct x as [s1|s1| |s1 m1 e1], y as [s2|s2| |s2 m2 e2]; try done.
  - by destruct s1, s2.
  - pose proof (sgn_fval _ Vy Fy) as S. cbn [fval sgn] in *.
    repeat split; [exact Vy|]. cbn [nsub SFsub sgn]. rewrite Z.sub_0_l, Z.sgn_opp, S.
    by destruct s2.
  - pose proof (sgn_fval _ Vx Fx) as S. repeat split; [exact Vx|].
    cbn [nsub SFsub]. change (fval (S754_zero s2)) with 0. by rewrite Z.sub_0_r.
  - destruct (nsub_finite s1 m1 e1 s2 m2 e2 Vx Vy) as (z & e & He & Hz & ->).
    destruct (normalize_spec z e He) as (H1 & H2 & H3 & _).
    repeat split; [done|done|]. rewrite H3. by apply (sgn_scaled z e).
Qed.

Lemma num_spec z :
  Z.abs z < 2 ^ 53 -> valid (num z) /\ fin (num z) = true /\ fval (num z) = z * 2 ^ 1074.
Proof.
  intros H. destruct (normalize_spec z 0 ltac:(lia)) as (H1 & _ & _ & H4).
  destruct (H4 z 0 ltac:(lia) H eq_refl) as [H5 H6]. done.
Qed.

(** Arithmetic on integers is exact as long as the result stays below 2^53. *)
Lemma num_unique x z :
  Z.abs z < 2 ^ 53 -> valid x -> fin x = true -> fval x = z * 2 ^ 1074 ->
  (z = 0 -> x = S754_zero false) -> x = num z.
Proof.
  intros Hz Vx Fx E H0. destruct (num_spec z Hz) as (V & F & E').
  destruct (Z.eq_dec z 0) as [->|Hne]; [by rewrite H0|].
  apply fval_inj; try done; [congruence|]. rewrite E. pose proof (pow2_pos 1074). lia.
Qed.

Lemma num_cases z :
  Z.abs z < 2 ^ 53 ->
  (z = 0 /\ num z = S754_zero false) \/
  (exists s m e, num z = S754_finite s m e /\ bounded 53 1024 m e = true /\
                 fval (S754_finite s m e) = z * 2 ^ 1074).
Proof.
  intros Hz. destruct (num_spec z Hz) as (V & F & E).
  destruct (Z.eq_dec z 0) as [->|Hne]; [by left|right].
  destruct (num z) as [| | |s m e] eqn:N; try done.
  - cbn in E. pose proof (pow2_pos 1074). lia.
  - exists s, m, e. done.
Qed.

Lemma normalize_int z e k :
  -1074 <= e -> Z.abs k < 2 ^ 53 -> z * 2 ^ (e + 1074) = k * 2 ^ 1074 ->
  binary_normalize 53 1024 z e false = num k.
Proof.
  intros He Hk E. destruct (normalize_spec z e He) as (H1 & _ & _ & H4).
  destruct (H4 k 0 ltac:(lia) Hk E) as [H5 H6].
  apply num_unique; try done; [congruence|]. intros ->.
  assert (z = 0) as -> by (pose proof (pow2_pos (e + 1074)); nia). done.
Qed.

Lemma nadd_int a b :
  Z.abs a < 2 ^ 53 -> Z.abs b < 2 ^ 53 -> Z.abs (a + b) < 2 ^ 53 ->
  num a +f num b = num (a + b).
Proof.
  intros Ha Hb Hab.
  destruct (num_cases a Ha) as [[-> Ea]|(s1 & m1 & e1 & Ea & Va & Fa)];
  destruct (num_cases b Hb) as [[-> Eb]|(s2 & m2 & e2 & Eb & Vb & Fb)].
  - by rewrite Ea.
  - rewrite Ea, Eb, Z.add_0_l. cbn [nadd SFadd]. congruence.
  - rewrite Ea, Eb, Z.add_0_r. cbn [nadd SFadd]. congruence.
  - rewrite Ea, Eb. destruct (nadd_finite s1 m1 e1 s2 m2 e2 Va Vb) as (z & e & He & Hz & ->).
    apply normalize_int; [done..|]. rewrite Hz, Fa, Fb. lia.
Qed.

Lemma nsub_int a b :
  Z.abs a < 2 ^ 53 -> Z.abs b < 2 ^ 53 -> Z.abs (a - b) < 2 ^ 53 ->
  num a -f num b = num (a - b).
Proof.
  intros Ha Hb Hab.
  destruct (num_cases a Ha) as [[-> Ea]|(s1 & m1 & e1 & Ea & Va & Fa)];
  destruct (num_cases b Hb) as [[-> Eb]|(s2 & m2 & e2 & Eb & Vb & Fb)].
  - by rewrite Ea.
  - rewrite Ea, Eb. cbn [nsub SFsub]. apply num_unique; [lia|exact Vb|done| |].
    2: { intros H. by replace b with 0 in Eb by lia. }
    cbn [fval] in *. destruct s2; cbn [negb cond_Zopp] in *; lia.
  - rewrite Ea, Eb, Z.sub_0_r. cbn [nsub SFsub]. congruence.
  - rewrite Ea, Eb. destruct (nsub_finite s1 m1 e1 s2 m2 e2 Va Vb) as (z & e & He & Hz & ->).
    apply normalize_int; [done..|]. rewrite Hz, Fa, Fb. lia.
Qed.

Lemma scale_ltb a b p : 0 < p -> (a * p <? b * p) = (a <? b).
Proof. intros. destruct (Z.ltb_spec (a * p) (b * p)), (Z.ltb_spec a b); done || nia. Qed.

Lemma scale_leb a b p : 0 < p -> (a * p <=? b * p) = (a <=? b).
Proof. intros. destruct (Z.leb_spec (a * p) (b * p)), (Z.leb_spec a b); done || nia. Qed.

Lemma nlt_int a b : Z.abs a < 2 ^ 53 -> Z.abs b < 2 ^ 53 -> nlt (num a) (num b) = (a <? b).
Proof.
  intros Ha Hb. destruct (num_spec a Ha) as (? & ? & Ea), (num_spec b Hb) as (? & ? & Eb).
  rewrite nlt_fval, Ea, Eb by done. apply scale_ltb, pow2_pos. lia.
Qed.

Lemma nle_int a b : Z.abs a < 2 ^ 53 -> Z.abs b < 2 ^ 53 -> nle (num a) (num b) = (a <=? b).
Proof.
  intros Ha Hb. destruct (num_spec a Ha) as (? & ? & Ea), (num_spec b Hb) as (? & ? & Eb).
  rewrite nle_fval, Ea, Eb by done. apply scale_leb, pow2_pos. lia.
Qed.

Lemma neq_int a b : Z.abs a < 2 ^ 53 -> Z.abs b < 2 ^ 53 -> neq (num a) (num b) = (a =? b).
Proof.
  intros Ha Hb. destruct (num_spec a Ha) as (? & ? & Ea), (num_spec b Hb) as (? & ? & Eb).
  rewrite neq_fval, Ea, Eb by done. pose proof (pow2_pos 1074).
  destruct (Z.eqb_spec (a * 2 ^ 1074) (b * 2 ^ 1074)), (Z.eqb_spec a b); done || nia.
Qed.

(** Comparison is a total order away from [NaN]. *)
Lemma nlt_irrefl x : nlt x x = false.
Proof.
  unfold nlt, SFltb. destruct x as [| | |s m e]; try done; [by destruct s|].
  cbn [SFcompare]. rewrite Z.compare_refl, Pos.compare_cont_refl. by destruct s.
Qed.

(** ** Sign of sums, products and quotients *)

Definition nonneg (x : number) : bool := num 0 <=f x.
Definition gt_zero (x : number) : bool := num 0 <f x.

Lemma nonneg_cases x :
  nonneg x = true <->
  (exists s, x = S754_zero s) \/ x = S754_infinity false \/ (exists m e, x = S754_finite false m e).
Proof.
  split.
  - destruct x as [s|[]| |[] m e]; try done; intros _; [left|right; left|right; right]; eauto.
  - intros [[s ->]|[->|(m & e & ->)]]; done.
Qed.

Definition signed (sx : bool) (x : number) : Prop :=
  x = S754_zero sx \/ x = S754_infinity sx \/ exists m e, x = S754_finite sx m e.

Lemma shr_1_nonneg r : 0 <= shr_m r -> 0 <= shr_m (shr_1 r).
Proof.
  destruct r as [m r s]. cbn [shr_m]. intros H. rewrite shr_1_spec by done. cbn [shr_m].
  apply Z.div_pos; lia.
Qed.

Lemma shr_fexp_nonneg m e l : 0 <= m -> 0 <= shr_m (shr_fexp 53 1024 m e l).1.
Proof.
  intros H. unfold shr_fexp, shr.
  assert (0 <= shr_m (shr_record_of_loc m l)) by by destruct l as [|[]].
  destruct (_ - e); cbn [fst]; [done| |done]. rewrite iter_pos_nat.
  apply (Nat.iter_invariant _ _ _ (fun r => 0 <= shr_m r)); [apply shr_1_nonneg|done].
Qed.

Lemma round_aux_signed sx m e l : 0 <= m -> signed sx (binary_round_aux 53 1024 sx m e l).
Proof.
  intros H. unfold binary_round_aux.
  pose proof (shr_fexp_nonneg m e l H) as H1.
  destruct (shr_fexp 53 1024 m e l) as [r1 e1]. cbn [fst] in H1.
  assert (H2 : 0 <= round_nearest_even (shr_m r1) (loc_of_shr_record r1)).
  { unfold round_nearest_even. repeat case_match; lia. }
  pose proof (shr_fexp_nonneg _ e1 loc_Exact H2) as H3.
  destruct (shr_fexp 53 1024 _ e1 loc_Exact) as [r2 e2]. cbn [fst] in H3.
  unfold signed. destruct (shr_m r2) as [|p|p]; [by left| |lia].
  case_match; eauto.
Qed.

Lemma signed_nonneg x : signed false x -> nonneg x = true.
Proof. intros [->|[->|(m & e & ->)]]; done. Qed.

Lemma nonneg_add x y : nonneg x = true -> nonneg y = true -> nonneg (x +f y) = true.
Proof.
  rewrite !nonneg_cases.
  intros [[s ->]|[->|(m & e & ->)]] [[s' ->]|[->|(m' & e' & ->)]]; cbn [nadd SFadd];
    try (by destruct s, s'; eauto); try (by eauto).
  cbn [cond_Zopp]. rewrite <- nonneg_cases. apply signed_nonneg.
  destruct (_ + _) as [|p|p] eqn:E; [by left| |lia].
  clear E. unfold binary_normalize, binary_round. destruct (shl_align _ _ _).
  apply round_aux_signed; lia.
Qed.

Lemma nonneg_mul x y :
  fin x = true -> fin y = true -> nonneg x = true -> nonneg y = true -> nonneg (x *f y) = true.
Proof.
  rewrite !nonneg_cases. intros Fx Fy.
  intros [[s ->]|[->|(m & e & ->)]] [[s' ->]|[->|(m' & e' & ->)]]; try done; cbn [nmul SFmul];
    try (by eauto).
  rewrite <- nonneg_cases. apply signed_nonneg, round_aux_signed. lia.
Qed.

Lemma SFdiv_core_nonneg m1 e1 m2 e2 :
  0 <= m1 -> 0 < m2 -> 0 <= (SFdiv_core_binary 53 1024 m1 e1 m2 e2).1.1.
Proof.
  intros H1 H2. unfold SFdiv_core_binary.
  set (s := _ - Z.min _ _). set (m' := match s with Z0 => m1 | _ => _ end).
  assert (0 <= m') by (unfold m'; destruct s; [done|by apply Z.shiftl_nonneg|done]).
  pose proof (Z_div_mod m' m2 ltac:(lia)) as Hq. destruct (Z.div_eucl m' m2) as [q r]. cbn.
  nia.
Qed.

Lemma nonneg_div x y :
  fin x = true -> nonneg x = true -> gt_zero y = true -> nonneg (x /f y) = true.
Proof.
  intros Fx. rewrite nonneg_cases.
  destruct y as [s|[]| |[] m' e']; try done; intros [[s' ->]|[->|(m & e & ->)]] _; try done.
  cbn [ndiv SFdiv xorb].
  pose proof (SFdiv_core_nonneg (Zpos m) e (Zpos m') e' ltac:(lia) ltac:(lia)) as Hq.
  destruct (SFdiv_core_binary 53 1024 (Zpos m) e (Zpos m') e') as [[q ez] lz].
  apply signed_nonneg, round_aux_signed, Hq.
Qed.

(** ** Division by 1024 is exact *)

Lemma num_1024 : num 1024 = S754_finite false 4503599627370496 (-42).
Proof. reflexivity. Qed.

Lemma div_1024 s m e :
  bounded 53 1024 m e = true -> -1063 <= e ->
  S754_finite s m e /f num 1024 = S754_finite s m (e - 10).
Proof.
  intros B He. rewrite num_1024. pose proof (bounded_facts _ _ B) as (B1 & B2 & B3).
  specialize (B3 ltac:(lia)).
  assert (D : Zpos (digits2_pos m) = 53) by (apply digits2_unique; lia).
  cbn [ndiv SFdiv]. unfold SFdiv_core_binary. rewrite fexp_eq. cbn [Zdigits2].
  rewrite D. change (Zpos (digits2_pos 4503599627370496)) with 53.
  replace (Z.min _ _) with (e - 11) by lia.
  replace (e - -42 - (e - 11)) with 53 by lia.
  rewrite Z.shiftl_mul_pow2 by lia.
  assert (Z.div_eucl (Zpos m * 2 ^ 53) 4503599627370496 = (Zpos (m * 2), 0)) as ->.
  { pose proof (Z_div_mod (Zpos m * 2 ^ 53) 4503599627370496 ltac:(lia)) as H.
    destruct (Z.div_eucl _ _) as [q r]. f_equal; lia. }
  cbn [new_location Z.even]. change (new_location_even 4503599627370496 0) with loc_Exact.
  assert (D2 : Zpos (digits2_pos (m * 2)) = 54) by (apply digits2_unique; lia).
  rewrite xorb_false_r.
  destruct (round_aux_spec s (m * 2) (e - 11)) as (q & _ & Q2 & _ & _ & _ & ->); [lia|].
  rewrite D2 in *. replace (Z.max (54 + (e - 11) - 53) (-1074) - (e - 11)) with 1 in * by lia.
  rewrite Q2 by (rewrite Pos2Z.inj_mul; apply Z.mod_mul; lia).
  rewrite Pos2Z.inj_mul, Z.div_mul by lia. unfold pack.
  rewrite (proj2 (Z.eqb_neq (Zpos m) (2 ^ 53))) by lia.
  rewrite (proj2 (Z.leb_le (e - 11 + 1) 971)) by lia. f_equal. lia.
Qed.

(** Dividing a number of at least 1024 by 1024: the value scales exactly. *)
Lemma div_1024_fval x :
  fin x = true -> valid x -> (num 1024 <=f x) = true ->
  fin (x /f num 1024) = true /\ valid (x /f num 1024) /\
  fval (x /f num 1024) * 1024 = fval x.
Proof.
  intros Fx Vx H. destruct (num_spec 1024 ltac:(lia)) as (V & F & E).
  rewrite nle_fval, E, Z.leb_le in H by done.
  destruct x as [| | |s m e]; try done.
  cbn [fval] in H. unfold valid in Vx. cbn [valid_binary] in Vx.
  pose proof (bounded_facts _ _ Vx) as (B1 & B2 & B3).
  assert (He : -43 <= e).
  { destruct (Z.le_gt_cases (-43) e); [done|]. exfalso.
    assert (Zpos m * 2 ^ (e + 1074) < 2 ^ 53 * 2 ^ (e + 1074))
      by (apply Z.mul_lt_mono_pos_r; [apply pow2_pos|]; lia).
    assert (2 ^ 53 * 2 ^ (e + 1074) <= 1024 * 2 ^ 1074).
    { change 1024 with (2 ^ 10). rewrite <- !Z.pow_add_r by lia. apply Z.pow_le_mono_r; lia. }
    pose proof (fval_pos m e ltac:(lia)). destruct s; cbn [cond_Zopp] in H; lia. }
  rewrite div_1024 by (done || lia). split; [done|]. split.
  - unfold valid. cbn [valid_binary]. specialize (B3 ltac:(lia)). apply bounded_intro; lia.
  - cbn [fval]. assert (2 ^ (e + 1074) = 2 ^ (e - 10 + 1074) * 2 ^ 10) as ->
      by (rewrite <- Z.pow_add_r by lia; f_equal; lia).
    destruct s; cbn [cond_Zopp]; lia.
Qed.

Lemma nonneg_mul_pos x y :
  nonneg x = true -> fin y = true -> gt_zero y = true -> nonneg (x *f y) = true.
Proof.
  intros Nx Fy Py. destruct (fin x) eqn:Fx.
  - apply nonneg_mul; try done. by destruct y as [|[]| |[]].
  - apply nonneg_cases in Nx as [[s ->]|[->|(m & e & ->)]]; try done.
    by destruct y as [|[]| |[]].
Qed.
