(* ===== verification/JsRounding.v ===== *)
(** * How far binary64 arithmetic can be off

    Sums, differences, quotients and square roots are rounded to one of the two
    neighbours of the exact result.  With [R] the rounded value and [V / D] the
    exact one, all in units of 2^-1074, the error is at most one part in 2^52,
    or one unit for the smallest numbers: [close R V D]. *)

From S2P Require Import Prelude JsString JsNumber JsNumberFacts.

Definition close (R V D : Z) : Prop := 2 ^ 52 * Z.abs (R * D - V) <= D * Z.max (2 ^ 52) R.

(** ** Rounding an inexact significand *)

Lemma shr_iter_m (n : nat) m r s :
  0 <= m -> shr_m (Nat.iter n shr_1 (Build_shr_record m r s)) = m / 2 ^ Z.of_nat n.
Proof.
  intros Hm. enough (H : exists r' s', Nat.iter n shr_1 (Build_shr_record m r s) =
                     Build_shr_record (m / 2 ^ Z.of_nat n) r' s') by (by destruct H as (? & ? & ->)).
  induction n as [|n (r' & s' & E)].
  - exists r, s. cbn [Nat.iter nat_rect]. by rewrite Z.div_1_r.
  - change (Nat.iter (S n) shr_1 ?x) with (shr_1 (Nat.iter n shr_1 x)). rewrite E.
    pose proof (pow2_pos (Z.of_nat n) ltac:(lia)).
    rewrite shr_1_spec by (apply Z.div_pos; lia). do 2 eexists. f_equal.
    rewrite Nat2Z.inj_succ, Z.pow_succ_r, (Z.mul_comm 2) by lia. by rewrite Z.div_div by lia.
Qed.

Lemma shr_fexp_m m e l :
  let n := Z.max (Zdigits2 m + e - 53) (-1074) - e in
  0 <= m -> 0 <= n ->
  shr_m (shr_fexp 53 1024 m e l).1 = m / 2 ^ n /\ (shr_fexp 53 1024 m e l).2 = e + n.
Proof.
  intros n Hm Hn. unfold shr_fexp. rewrite fexp_eq. fold n.
  assert (exists r s, shr_record_of_loc m l = Build_shr_record m r s) as (r & s & ->) by (destruct l as [|[]]; eauto).
  unfold shr. destruct n as [|p|p]; [| |lia].
  - cbn [fst snd shr_m]. by rewrite Z.div_1_r, Z.add_0_r.
  - cbn [fst snd]. by rewrite iter_pos_nat, shr_iter_m, positive_nat_Z.
Qed.

Lemma Zdigits2_bounds m : 0 <= m -> m < 2 ^ Zdigits2 m /\ (0 < m -> 2 ^ (Zdigits2 m - 1) <= m) /\ 0 <= Zdigits2 m.
Proof.
  destruct m as [|p|p]; [cbn; lia| |lia]. intros _. cbn [Zdigits2]. pose proof (digits2_bounds p). lia.
Qed.

(** The significand [q] of the result is next to the shifted one. *)
Lemma round_aux_near sx m e l :
  let n := Z.max (Zdigits2 m + e - 53) (-1074) - e in
  0 <= m -> 0 <= n ->
  exists q, m / 2 ^ n <= q <= m / 2 ^ n + 1 /\ 0 <= q <= 2 ^ 53 /\ -1074 <= e + n /\
    (-1074 < e + n -> 2 ^ 52 <= q) /\ binary_round_aux 53 1024 sx m e l = pack sx q (e + n).
Proof.
  intros n Hm Hn. destruct (shr_fexp_m m e l Hm Hn) as [E1 E2]. fold n in E1, E2.
  destruct (Zdigits2_bounds m Hm) as (G1 & G2 & G3). pose proof (pow2_pos n Hn) as Hp.
  assert (0 <= m / 2 ^ n) by (apply Z.div_pos; lia).
  assert (m / 2 ^ n < 2 ^ 53).
  { apply Z.div_lt_upper_bound; [lia|]. apply (Z.lt_le_trans _ _ _ G1).
    rewrite <- Z.pow_add_r by lia. apply Z.pow_le_mono_r; unfold n; lia. }
  assert (Hlow : -1074 < e + n -> 2 ^ 52 <= m / 2 ^ n).
  { intros He. apply Z.div_le_lower_bound; [lia|]. destruct (Z.eq_dec m 0) as [->|].
    - cbn [Zdigits2] in *. unfold n in *. lia.
    - etransitivity; [|apply G2; lia]. rewrite <- Z.pow_add_r by lia. apply Z.pow_le_mono_r; unfold n in *; lia. }
  unfold binary_round_aux. destruct (shr_fexp 53 1024 m e l) as [rec e1]. cbn [fst snd] in E1, E2. subst e1.
  set (q := round_nearest_even _ _). exists q.
  assert (Hq : m / 2 ^ n <= q <= m / 2 ^ n + 1).
  { unfold q. rewrite E1. unfold round_nearest_even. destruct (loc_of_shr_record rec) as [|[]]; try lia. case_match; lia. }
  repeat split; [lia..|unfold n in *; lia|lia|]. apply round_second; [lia|unfold n in *; lia].
Qed.

(** ** Quotients *)

(** A significand [M], rounded down from [A / B], that is shifted by [n] and
    rounded to a neighbour is off by less than a unit of the result. *)
Lemma shifted_error A B M n q :
  0 < B -> 0 <= n -> M * B <= A < (M + 1) * B -> M / 2 ^ n <= q <= M / 2 ^ n + 1 ->
  Z.abs (q * 2 ^ n * B - A) <= 2 ^ n * B.
Proof.
  intros HB Hn HM Hq. pose proof (pow2_pos n Hn) as Hp.
  pose proof (Z.div_mod M (2 ^ n) ltac:(lia)) as Hd. pose proof (Z.mod_pos_bound M (2 ^ n) Hp) as Hr.
  assert (M / 2 ^ n * 2 ^ n <= M) by lia. assert (M < M / 2 ^ n * 2 ^ n + 2 ^ n) by lia.
  set (P := 2 ^ n) in *. set (Q := M / P) in *.
  assert (H1 : q * P <= M + P) by nia. assert (H2 : M + 1 - P <= q * P) by nia.
  assert (H3 : q * P * B <= (M + P) * B) by (apply Z.mul_le_mono_nonneg_r; lia).
  assert (H4 : (M + 1 - P) * B <= q * P * B) by (apply Z.mul_le_mono_nonneg_r; lia).
  lia.
Qed.

(** What a result [pack false q E] with such an error is worth. *)
Lemma pack_close q E V D :
  0 <= q <= 2 ^ 53 -> -1074 <= E -> (-1074 < E -> 2 ^ 52 <= q) -> 0 < D ->
  fin (pack false q E) = true -> Z.abs (q * 2 ^ (E + 1074) * D - V) <= 2 ^ (E + 1074) * D ->
  close (fval (pack false q E)) V D.
Proof.
  intros Hq HE Hn HD Hf He. unfold close. rewrite pack_fval by (done || lia). cbn [cond_Zopp].
  set (U := 2 ^ (E + 1074)) in *.
  assert (2 ^ 52 * U <= Z.max (2 ^ 52) (q * U)).
  { destruct (Z.eq_dec E (-1074)) as [->|].
    - unfold U. change (2 ^ (-1074 + 1074)) with 1. lia.
    - assert (0 < U) by (apply pow2_pos; lia). assert (2 ^ 52 * U <= q * U); [|lia].
      apply Z.mul_le_mono_nonneg_r; [lia|]. apply Hn. lia. }
  nia.
Qed.

Lemma Zdigits2_ge m k : 0 <= k -> 2 ^ k <= m -> k + 1 <= Zdigits2 m.
Proof.
  intros Hk Hm. pose proof (pow2_pos k Hk). destruct m as [|p|p]; [lia| |lia]. cbn [Zdigits2].
  pose proof (digits2_gt p k Hk Hm). lia.
Qed.

Lemma div_core mx ex my ey :
  let e' := Z.min (Z.max (Zpos (digits2_pos mx) + ex - (Zpos (digits2_pos my) + ey) - 53) (-1074)) (ex - ey) in
  let M := Zpos mx * 2 ^ (ex - ey - e') / Zpos my in
  exists l, SFdiv_core_binary 53 1024 (Zpos mx) ex (Zpos my) ey = (M, e', l).
Proof.
  intros e' M. unfold SFdiv_core_binary. rewrite fexp_eq. cbn [Zdigits2]. fold e'.
  set (s := ex - ey - e') in *. assert (0 <= s) by (unfold s, e'; lia).
  assert ((match s with Z0 => Zpos mx | Zpos _ => Z.shiftl (Zpos mx) s | Zneg _ => 0 end) = Zpos mx * 2 ^ s) as ->.
  { destruct s as [|p|p]; [by rewrite Z.mul_1_r|by apply Z.shiftl_mul_pow2|lia]. }
  pose proof (Z.div_eucl_eq (Zpos mx * 2 ^ s) (Zpos my) ltac:(lia)) as E.
  unfold M, Z.div. destruct (Z.div_eucl (Zpos mx * 2 ^ s) (Zpos my)) as [q r]. eauto.
Qed.

Lemma div_near mx ex my ey :
  -1074 <= ex <= 971 -> -1074 <= ey <= 971 ->
  let X := Zpos mx * 2 ^ (ex + 1074) in let Y := Zpos my * 2 ^ (ey + 1074) in
  exists q E, S754_finite false mx ex /f S754_finite false my ey = pack false q E /\
    0 <= q <= 2 ^ 53 /\ -1074 <= E /\ (-1074 < E -> 2 ^ 52 <= q) /\
    Z.abs (q * 2 ^ (E + 1074) * Y - X * 2 ^ 1074) <= 2 ^ (E + 1074) * Y.
Proof.
  intros Bx By X Y.
  cbn [ndiv SFdiv xorb]. destruct (div_core mx ex my ey) as [l ->].
  set (e' := Z.min _ _). set (M := _ / _).
  pose proof (digits2_bounds mx) as [Gx1 Gx2]. pose proof (digits2_bounds my) as [Gy1 Gy2].
  set (dx := Zpos (digits2_pos mx)) in *. set (dy := Zpos (digits2_pos my)) in *.
  assert (Hs : 0 <= ex - ey - e') by (unfold e'; lia). pose proof (pow2_pos _ Hs) as Hps.
  assert (HM0 : 0 <= M) by (apply Z.div_pos; nia).
  assert (Hn : 0 <= Z.max (Zdigits2 M + e' - 53) (-1074) - e').
  { destruct (Z.le_gt_cases e' (-1074)); [lia|].
    assert (52 + 1 <= Zdigits2 M); [|lia]. apply Zdigits2_ge; [lia|]. apply Z.div_le_lower_bound; [lia|].
    assert (2 ^ dy * 2 ^ 52 <= 2 ^ (dx - 1) * 2 ^ (ex - ey - e')); [|nia].
    rewrite <- !Z.pow_add_r by (unfold dx, dy in *; lia). apply Z.pow_le_mono_r; [lia|].
    assert (e' <= dx + ex - (dy + ey) - 53) by (unfold e', dx, dy in *; lia). lia. }
  destruct (round_aux_near false M e' l HM0 Hn) as (q & Q1 & Q2 & Q3 & Q4 & ->).
  set (n := Z.max _ _ - e') in *. exists q, (e' + n). split; [done|]. split; [done|]. split; [done|]. split; [done|].
  assert (HM : M * Zpos my <= Zpos mx * 2 ^ (ex - ey - e') < (M + 1) * Zpos my).
  { unfold M. pose proof (Z.div_mod (Zpos mx * 2 ^ (ex - ey - e')) (Zpos my) ltac:(lia)).
    pose proof (Z.mod_pos_bound (Zpos mx * 2 ^ (ex - ey - e')) (Zpos my) ltac:(lia)). lia. }
  pose proof (shifted_error _ _ M n q (Pos2Z.is_pos my) Hn HM Q1) as He.
  assert (Hk : 0 <= e' + ey + 2148) by (unfold e'; lia). pose proof (pow2_pos _ Hk) as Hpk.
  assert (EY : 2 ^ (e' + n + 1074) * Y = 2 ^ n * Zpos my * 2 ^ (e' + ey + 2148)).
  { unfold Y. transitivity (Zpos my * (2 ^ (e' + n + 1074) * 2 ^ (ey + 1074))); [ring|].
    transitivity (Zpos my * (2 ^ n * 2 ^ (e' + ey + 2148))); [|ring].
    rewrite <- !Z.pow_add_r by lia. do 2 f_equal. lia. }
  assert (EX : X * 2 ^ 1074 = Zpos mx * 2 ^ (ex - ey - e') * 2 ^ (e' + ey + 2148)).
  { unfold X. rewrite <- !Z.mul_assoc, <- !Z.pow_add_r by lia. do 2 f_equal. lia. }
  rewrite <- Z.mul_assoc, EY, EX.
  replace (q * (2 ^ n * Zpos my * 2 ^ (e' + ey + 2148)) - Zpos mx * 2 ^ (ex - ey - e') * 2 ^ (e' + ey + 2148))
    with ((q * 2 ^ n * Zpos my - Zpos mx * 2 ^ (ex - ey - e')) * 2 ^ (e' + ey + 2148)) by ring.
  rewrite Z.abs_mul, (Z.abs_eq (2 ^ (e' + ey + 2148))) by lia.
  apply Z.mul_le_mono_nonneg_r; lia.
Qed.

Lemma pack_nonneg q E : 0 <= q -> -1074 <= E -> 0 <= fval (pack false q E).
Proof.
  intros Hq HE. destruct (fin (pack false q E)) eqn:Hf.
  - rewrite pack_fval by done. cbn [cond_Zopp]. pose proof (pow2_pos (E + 1074) ltac:(lia)). nia.
  - unfold pack in *. destruct q; [done|..|done]. by repeat case_match.
Qed.

(** A nonnegative number is a zero or a positive finite number. *)
Lemma nonneg_value x :
  fin x = true -> valid x -> 0 <= fval x ->
  (exists s, x = S754_zero s) \/ exists m e, x = S754_finite false m e /\ bounded 53 1024 m e = true.
Proof.
  intros Fx Vx Hx. destruct x as [s| | |[] m e]; [by eauto|done|done| |right; by eauto].
  exfalso. unfold valid in Vx. cbn [valid_binary] in Vx. destruct (bounded_facts _ _ Vx) as [B _].
  pose proof (fval_pos m e ltac:(lia)). cbn [fval cond_Zopp] in Hx. lia.
Qed.

Lemma ndiv_close x y :
  fin x = true -> fin y = true -> valid x -> valid y -> 0 <= fval x -> 0 < fval y ->
  fval x * 2 ^ 1074 < (2 ^ 52 - 1) * 2 ^ 2045 * fval y ->
  fin (x /f y) = true /\ valid (x /f y) /\ 0 <= fval (x /f y) /\ close (fval (x /f y)) (fval x * 2 ^ 1074) (fval y).
Proof.
  intros Fx Fy Vx Vy Hx Hy Hs.
  destruct (nonneg_value y Fy Vy ltac:(lia)) as [[s ->]|(my & ey & -> & By)]; [cbn in Hy; lia|].
  destruct (nonneg_value x Fx Vx Hx) as [[s ->]|(mx & ex & -> & Bx)].
  { cbn [ndiv SFdiv]. change (fval (S754_zero ?s)) with 0. unfold close. rewrite !Z.mul_0_l. repeat split; lia. }
  destruct (div_near mx ex my ey) as (q & E & -> & Hq & HE & Hn & He);
    [by apply bounded_facts in Bx as [? _]|by apply bounded_facts in By as [? _]|].
  cbn [fval cond_Zopp] in *. set (X := Zpos mx * _) in *. set (Y := Zpos my * _) in *.
  assert (Hf : fin (pack false q E) = true).
  { apply pack_fin; [done|]. destruct (Z.lt_ge_cases E 971) as [|HE']; [done|exfalso].
    assert (2 ^ 52 <= q) by (apply Hn; lia).
    assert (2 ^ 2045 <= 2 ^ (E + 1074)) by (apply Z.pow_le_mono_r; lia).
    set (U := 2 ^ (E + 1074)) in *. set (T := 2 ^ 2045) in *.
    assert (0 < T) by (apply pow2_pos; lia).
    assert ((q - 1) * (U * Y) <= X * 2 ^ 1074) by lia.
    assert ((2 ^ 52 - 1) * (U * Y) <= (q - 1) * (U * Y)) by (apply Z.mul_le_mono_nonneg_r; nia).
    assert (T * Y <= U * Y) by (apply Z.mul_le_mono_nonneg_r; lia).
    rewrite <- Z.mul_assoc in Hs. lia. }
  split; [done|]. split; [by apply pack_valid|]. split; [apply pack_nonneg; lia|].
  apply pack_close; done || lia.
Qed.

(** ** Sums and differences *)

Lemma normalize_near z e :
  0 < z -> -1074 <= e ->
  exists q E, binary_normalize 53 1024 z e false = pack false q E /\
    0 <= q <= 2 ^ 53 /\ -1074 <= E /\ (-1074 < E -> 2 ^ 52 <= q) /\
    Z.abs (q * 2 ^ (E + 1074) * 1 - z * 2 ^ (e + 1074)) <= 2 ^ (E + 1074) * 1.
Proof.
  intros Hz He. destruct z as [|m|m]; [lia| |lia]. cbn [binary_normalize]. unfold binary_round. rewrite fexp_eq.
  set (ef := Z.max _ _). destruct (shl_align m e ef) as [mz ez] eqn:A.
  destruct (shl_align_spec m e ef) as [E1 E2]. rewrite A in E1, E2. cbn [fst snd] in E1, E2.
  pose proof (digits2_scale m mz (e - Z.min e ef) ltac:(lia) E2) as Hd.
  assert (Hn : 0 <= Z.max (Zdigits2 (Zpos mz) + ez - 53) (-1074) - ez) by (cbn [Zdigits2]; unfold ef in *; lia).
  destruct (round_aux_near false (Zpos mz) ez loc_Exact ltac:(lia) Hn) as (q & Q1 & Q2 & Q3 & Q4 & ->).
  set (n := Z.max _ _ - ez) in *. exists q, (ez + n). split; [done|]. split; [done|]. split; [done|]. split; [done|].
  pose proof (shifted_error (Zpos mz) 1 (Zpos mz) n q ltac:(lia) Hn ltac:(lia) Q1) as He'.
  assert (Hez : 0 <= ez + 1074) by (unfold ef in *; lia). pose proof (pow2_pos _ Hez).
  assert (Zpos m * 2 ^ (e + 1074) = Zpos mz * 2 ^ (ez + 1074)) as ->.
  { rewrite E2, <- Z.mul_assoc, <- Z.pow_add_r by lia. do 2 f_equal. lia. }
  assert (2 ^ (ez + n + 1074) = 2 ^ n * 2 ^ (ez + 1074)) as -> by (rewrite <- Z.pow_add_r by lia; f_equal; lia).
  replace (q * (2 ^ n * 2 ^ (ez + 1074)) * 1 - Zpos mz * 2 ^ (ez + 1074))
    with ((q * 2 ^ n * 1 - Zpos mz) * 2 ^ (ez + 1074)) by ring.
  rewrite Z.abs_mul, (Z.abs_eq (2 ^ (ez + 1074))) by lia.
  replace (2 ^ n * 2 ^ (ez + 1074) * 1) with (2 ^ n * 1 * 2 ^ (ez + 1074)) by ring.
  apply Z.mul_le_mono_nonneg_r; lia.
Qed.

(** A normalised number and its distance from the exact value. *)
Definition near (r : number) (v : Z) : Prop := fin r = true /\ valid r /\ 0 <= fval r /\ close (fval r) v 1.

Lemma near_exact x : fin x = true -> valid x -> 0 <= fval x -> near x (fval x).
Proof. intros. repeat split; try done. unfold close. replace (fval x * 1 - fval x) with 0 by lia. lia. Qed.

Lemma normalize_close z e v :
  0 <= v < 2 ^ 2000 -> -1074 <= e -> z * 2 ^ (e + 1074) = v -> near (binary_normalize 53 1024 z e false) v.
Proof.
  intros Hv He E. pose proof (pow2_pos (e + 1074) ltac:(lia)).
  destruct (Z.eq_dec z 0) as [->|Hz].
  { rewrite Z.mul_0_l in E. subst v. by apply (near_exact (S754_zero false)). }
  destruct (normalize_near z e ltac:(nia) He) as (q & E' & -> & Hq & HE & Hn & Herr). rewrite E in Herr.
  assert (Hf : fin (pack false q E') = true).
  { apply pack_fin; [done|]. destruct (Z.lt_ge_cases E' 971) as [|HE']; [done|exfalso].
    assert (2 ^ 52 <= q) by (apply Hn; lia).
    assert (2 ^ 2045 <= 2 ^ (E' + 1074)) by (apply Z.pow_le_mono_r; lia).
    assert (2 ^ 2000 <= 2 ^ 2045) by (apply Z.pow_le_mono_r; lia).
    set (U := 2 ^ (E' + 1074)) in *. set (T := 2 ^ 2045) in *. set (W := 2 ^ 2000) in *.
    assert ((q - 1) * U <= v) by lia. nia. }
  split; [done|]. split; [by apply pack_valid|]. split; [apply pack_nonneg; lia|]. apply pack_close; done || lia.
Qed.

Lemma nsub_close x y :
  fin x = true -> fin y = true -> valid x -> valid y -> 0 <= fval y <= fval x -> fval x < 2 ^ 2000 ->
  near (x -f y) (fval x - fval y).
Proof.
  intros Fx Fy Vx Vy Hxy Hb.
  destruct (nonneg_value x Fx Vx ltac:(lia)) as [[s ->]|(mx & ex & -> & Bx)];
    (destruct (nonneg_value y Fy Vy ltac:(lia)) as [[s' ->]|(my & ey & -> & By)]).
  - cbn [fval]. cbn [nsub SFsub]. destruct s, s'; by apply (near_exact (S754_zero _)).
  - exfalso. destruct (bounded_facts _ _ By) as [B _]. pose proof (fval_pos my ey ltac:(lia)).
    cbn [fval cond_Zopp] in Hxy. lia.
  - change (fval (S754_zero s')) with 0. rewrite Z.sub_0_r. cbn [nsub SFsub]. apply near_exact; done || lia.
  - destruct (nsub_finite false mx ex false my ey Bx By) as (z & e & He & E & ->).
    apply normalize_close; [lia|done|done].
Qed.

Lemma nadd_close x y :
  fin x = true -> fin y = true -> valid x -> valid y -> 0 <= fval x -> 0 < fval y -> fval x + fval y < 2 ^ 2000 ->
  near (x +f y) (fval x + fval y).
Proof.
  intros Fx Fy Vx Vy Hx Hy Hb.
  destruct (nonneg_value y Fy Vy ltac:(lia)) as [[s' ->]|(my & ey & -> & By)]; [cbn in Hy; lia|].
  destruct (nonneg_value x Fx Vx Hx) as [[s ->]|(mx & ex & -> & Bx)].
  - change (fval (S754_zero s)) with 0. rewrite Z.add_0_l. cbn [nadd SFadd]. apply near_exact; done || lia.
  - destruct (nadd_finite false mx ex false my ey Bx By) as (z & e & He & E & ->).
    apply normalize_close; [lia|done|done].
Qed.

(** ** Square roots *)

Lemma sqrt_digits A k : 0 <= k -> 2 ^ k <= A < 2 ^ (k + 1) -> Zdigits2 (Z.sqrt A) = k / 2 + 1.
Proof.
  intros Hk HA. pose proof (pow2_pos k Hk). pose proof (Z.sqrt_spec A ltac:(lia)) as Hs. cbn zeta in Hs. set (q := Z.sqrt A) in *.
  assert (Hq0 : 0 <= q) by apply Z.sqrt_nonneg.
  assert (Hh : 0 <= k / 2) by (apply Z.div_pos; lia). pose proof (pow2_pos _ Hh).
  assert (Hk2 : k = 2 * (k / 2) + k mod 2) by (apply Z.div_mod; lia). pose proof (Z.mod_pos_bound k 2 ltac:(lia)).
  assert (Hlow : 2 ^ (k / 2) <= q).
  { apply Z.lt_succ_r, Z.nle_gt. intros Hle.
    assert (2 ^ (k / 2) * 2 ^ (k / 2) <= 2 ^ k)
      by (rewrite <- Z.pow_add_r by lia; apply Z.pow_le_mono_r; lia).
    set (P := 2 ^ (k / 2)) in *. assert (Z.succ q * Z.succ q <= P * P) by (apply Z.mul_le_mono_nonneg; lia). lia. }
  assert (Hhigh : q < 2 ^ (k / 2 + 1)).
  { apply Z.nle_gt. intros Hle. pose proof (pow2_pos (k / 2 + 1) ltac:(lia)).
    assert (2 ^ (k + 1) <= 2 ^ (k / 2 + 1) * 2 ^ (k / 2 + 1))
      by (rewrite <- Z.pow_add_r by lia; apply Z.pow_le_mono_r; lia).
    set (P := 2 ^ (k / 2 + 1)) in *. assert (P * P <= q * q) by (apply Z.mul_le_mono_nonneg; lia). lia. }
  destruct q as [|p|p] eqn:Eq; [lia| |lia]. cbn [Zdigits2].
  apply digits2_unique; [lia|]. by replace (k / 2 + 1 - 1) with (k / 2) by lia.
Qed.

(** The square root of a number of at least 1 is at least 1. *)
Lemma sqrt_positive m e :
  bounded 53 1024 m e = true -> 1 <= Zpos (digits2_pos m) + e ->
  let r := Math_sqrt (S754_finite false m e) in fin r = true /\ valid r /\ 2 ^ 1074 <= fval r.
Proof.
  intros B Hde. destruct (bounded_facts _ _ B) as (Be & Bm & _). pose proof (digits2_bounds m) as [G1 G2].
  pose proof (digits2_le m 53 ltac:(lia) Bm) as Hd53.
  cbn [Math_sqrt SFsqrt]. unfold SFsqrt_core_binary. rewrite fexp_eq. cbn [Zdigits2].
  set (d := Zpos (digits2_pos m)) in *. set (h := Z.div2 (d + e + 1)).
  assert (Hh : h = (d + e + 1) / 2) by apply Z.div2_div.
  set (e' := Z.min (Z.max (h - 53) (-1074)) (Z.div2 e)).
  assert (He2 : 2 * Z.div2 e <= e) by (rewrite Z.div2_div; Z.div_mod_to_equations; lia).
  set (s := e - 2 * e'). assert (Hs : 0 <= s) by (unfold s, e'; lia).
  assert ((match s with Z0 => Zpos m | Zpos _ => Z.shiftl (Zpos m) s | Zneg _ => 0 end) = Zpos m * 2 ^ s) as ->.
  { destruct s as [|p|p]; [by rewrite Z.mul_1_r|by apply Z.shiftl_mul_pow2|lia]. }
  pose proof (Z.sqrtrem_sqrt (Zpos m * 2 ^ s)) as Esq. destruct (Z.sqrtrem _) as [q r]. cbn [fst] in Esq. subst q.
  pose proof (pow2_pos s Hs) as Hps.
  assert (Hdig : Zdigits2 (Z.sqrt (Zpos m * 2 ^ s)) + e' = h).
  { rewrite (sqrt_digits _ (d - 1 + s)); [|unfold d; lia|].
    - unfold s. rewrite Hh. Z.div_mod_to_equations. lia.
    - rewrite (Z.pow_add_r 2 (d - 1)), (Z.add_shuffle0 (d - 1) s 1), (Z.pow_add_r 2 (d - 1 + 1)) by (unfold d; lia).
      replace (d - 1 + 1) with d by lia. nia. }
  match goal with |- context [binary_round_aux 53 1024 false ?M ?E ?L] =>
    destruct (round_aux_near false M E L (Z.sqrt_nonneg _)) as (q & _ & Q2 & Q3 & Q4 & ->) end.
  { rewrite Hdig. unfold e'. lia. }
  rewrite Hdig in *. replace (e' + (Z.max (h - 53) (-1074) - e')) with (Z.max (h - 53) (-1074)) in * by lia.
  assert (-52 <= h - 53 <= 971 - 1) by (rewrite Hh; Z.div_mod_to_equations; lia).
  assert (Hq : 2 ^ 52 <= q) by (apply Q4; lia).
  assert (Hf : fin (pack false q (Z.max (h - 53) (-1074))) = true) by (apply pack_fin; lia).
  split; [done|]. split; [by apply pack_valid|]. rewrite pack_fval by (done || lia). cbn [cond_Zopp].
  assert (2 ^ 1022 <= 2 ^ (Z.max (h - 53) (-1074) + 1074)) by (apply Z.pow_le_mono_r; lia).
  change (2 ^ 1074) with (2 ^ 52 * 2 ^ 1022). apply Z.mul_le_mono_nonneg; lia.
Qed.

(** ** [Math.floor] *)

Lemma numer_denom m e : -1074 <= e ->
  numer m e / denom e = Zpos m * 2 ^ (e + 1074) / 2 ^ 1074.
Proof.
  intros He. unfold numer, denom. pose proof (pow2_pos 1074 ltac:(lia)).
  destruct (Z.le_gt_cases 0 e).
  - rewrite (Z.max_l e 0), (Z.max_r (- e) 0), Z.div_1_r, Z.pow_add_r, Z.mul_assoc by lia. by rewrite Z.div_mul by lia.
  - rewrite (Z.max_r e 0), (Z.max_l (- e) 0), Z.mul_1_r by lia.
    assert (2 ^ 1074 = 2 ^ (- e) * 2 ^ (e + 1074)) as -> by (rewrite <- Z.pow_add_r by lia; f_equal; lia).
    pose proof (pow2_pos (e + 1074) ltac:(lia)). pose proof (pow2_pos (- e) ltac:(lia)).
    by rewrite Z.div_mul_cancel_r by lia.
Qed.

(** The floor of a nonnegative number is the integer part of its value. *)
Lemma floor_value x :
  fin x = true -> valid x -> 0 <= fval x ->
  (fval x / 2 ^ 1074 = 0 /\ exists s, Math_floor x = S754_zero s) \/
  (0 < fval x / 2 ^ 1074 /\ Math_floor x = num (fval x / 2 ^ 1074)).
Proof.
  intros Fx Vx Hx. destruct (nonneg_value x Fx Vx Hx) as [[s ->]|(m & e & -> & B)].
  - left. cbn [fval Math_floor]. rewrite Z.div_0_l by (apply Z.pow_nonzero; lia). eauto.
  - destruct (bounded_facts _ _ B) as [Be _]. cbn [fval cond_Zopp Math_floor] in *. rewrite numer_denom by lia.
    pose proof (Z.div_pos _ _ Hx (pow2_pos 1074 ltac:(lia))).
    case_match; bools; [left|right]; split; eauto; lia.
Qed.

(** ** Decimal fractions *)

(** A positive decimal fraction with few digits is not rounded to zero. *)
Lemma of_decimal_pos n k : 0 < n -> 0 < k <= 16 -> (of_decimal n (- k) =f num 0) = false.
Proof.
  intros Hn Hk. unfold of_decimal. rewrite (proj2 (Z.leb_gt 0 (- k))), Z.opp_involutive by lia.
  destruct n as [|p|p]; [lia| |lia].
  assert (H10 : 0 < 10 ^ k) by (apply Z.pow_pos_nonneg; lia).
  assert (Hle : 10 ^ k <= 10 ^ 16) by (apply Z.pow_le_mono_r; lia).
  destruct (div_near p 0 (Z.to_pos (10 ^ k)) 0 ltac:(lia) ltac:(lia)) as (q & E & -> & Hq & HE & Hlow & He).
  rewrite Z2Pos.id in He by done. rewrite Z.add_0_l in He.
  assert (0 < q).
  { destruct (Z.eq_dec E (-1074)) as [->|]; [|pose proof (Hlow ltac:(lia)); lia].
    change (2 ^ (-1074 + 1074)) with 1 in He. destruct (Z.eq_dec q 0) as [->|]; [exfalso|lia].
    assert (2 ^ 1074 * 2 ^ 1074 <= Zpos p * 2 ^ 1074 * 2 ^ 1074) by nia.
    assert (10 ^ k * 2 ^ 1074 <= 10 ^ 16 * 2 ^ 1074) by (apply Z.mul_le_mono_nonneg_r; lia). lia. }
  destruct q as [|q|q]; [lia| |lia]. unfold pack. by repeat case_match.
Qed.
