(* ===== verification/JsSort.v ===== *)
(** * [Array.prototype.sort]

    The specification (ES2019) asks for a stable sort and, when the comparator
    is a consistent one, leaves no other freedom.  The model is a stable
    insertion sort; [stable_sort_unique] shows that for a consistent comparator
    every stable sort returns the same array, so the choice of algorithm does
    not matter. *)

From S2P Require Import Prelude JsString JsNumber JsNumberFacts.

(** [x] may stay before [y]: the comparator's result is not positive ([NaN]
    counts as zero). *)
Definition stays {A} (cmp : A -> A -> number) (x y : A) : bool :=
  negb (cmp x y >f num 0).

Fixpoint insert_by {A} (le : A -> A -> bool) (x : A) (l : list A) : list A :=
  match l with
  | [] => [x]
  | y :: l' => if le x y then x :: y :: l' else y :: insert_by le x l'
  end.

Definition stable_sort {A} (le : A -> A -> bool) (l : list A) : list A :=
  foldr (insert_by le) [] l.

(** [l.sort(cmp)]. *)
Definition js_sort {A} (cmp : A -> A -> number) (l : list A) : list A :=
  stable_sort (stays cmp) l.

(** A consistent comparator. *)
Record consistent {A} (le : A -> A -> bool) : Prop := {
  consistent_total : forall x y, le x y = true \/ le y x = true;
  consistent_trans : forall x y z, le x y = true -> le y z = true -> le x z = true
}.

Definition sorted_by {A} (le : A -> A -> bool) (l : list A) : Prop :=
  StronglySorted (fun x y => le x y = true) l.

(** The elements of [l] that compare equal to [x], in order. *)
Definition ties {A} (le : A -> A -> bool) (x : A) (l : list A) : list A :=
  List.filter (fun y => le x y && le y x) l.

Section stable_sort.
Context {A : Type} (le : A -> A -> bool).

Lemma insert_by_perm x l : insert_by le x l ≡ₚ x :: l.
Proof.
  induction l as [|y l IH]; cbn; [done|]. destruct (le x y); [done|].
  rewrite IH. apply perm_swap.
Qed.

Lemma stable_sort_perm l : stable_sort le l ≡ₚ l.
Proof. induction l as [|x l IH]; cbn; [done|]. by rewrite insert_by_perm, IH. Qed.

Context (C : consistent le).

Lemma insert_by_sorted x l : sorted_by le l -> sorted_by le (insert_by le x l).
Proof.
  intros H. induction H as [|y l Hs IH Hy]; cbn; [repeat constructor|].
  destruct (le x y) eqn:E.
  - constructor; [by constructor|]. constructor; [done|].
    eapply Forall_impl; [exact Hy|]. intros z Hz. by apply (consistent_trans le C x y z).
  - constructor; [done|].
    assert (le y x = true) by (destruct (consistent_total le C x y); congruence).
    rewrite insert_by_perm. by constructor.
Qed.

Lemma stable_sort_sorted l : sorted_by le (stable_sort le l).
Proof. induction l; cbn; [constructor|by apply insert_by_sorted]. Qed.

Lemma ties_insert_eq z x l :
  le z x && le x z = true -> ties le z (insert_by le x l) = x :: ties le z l.
Proof.
  intros Hz. induction l as [|y l IH]; cbn.
  - by rewrite Hz.
  - destruct (le x y) eqn:E; cbn; [by rewrite Hz|].
    fold (ties le z (insert_by le x l)). rewrite IH.
    destruct (le z y && le y z) eqn:Ey; [|done]. exfalso. bools.
    rewrite (consistent_trans le C x z y) in E; congruence.
Qed.

Lemma ties_insert_ne z x l :
  le z x && le x z = false -> ties le z (insert_by le x l) = ties le z l.
Proof.
  intros Hz. induction l as [|y l IH]; cbn.
  - by rewrite Hz.
  - destruct (le x y) eqn:E; cbn; [by rewrite Hz|].
    fold (ties le z (insert_by le x l)). by rewrite IH.
Qed.

(** Elements that compare equal keep their order. *)
Lemma stable_sort_ties z l : ties le z (stable_sort le l) = ties le z l.
Proof.
  induction l as [|x l IH]; [done|].
  change (stable_sort le (x :: l)) with (insert_by le x (stable_sort le l)).
  destruct (le z x && le x z) eqn:E.
  - rewrite ties_insert_eq, IH by done. cbn. by rewrite E.
  - rewrite ties_insert_ne, IH by done. cbn. by rewrite E.
Qed.

Lemma le_refl x : le x x = true.
Proof. by destruct (consistent_total le C x x). Qed.

Lemma ties_self x l : ties le x (x :: l) = x :: ties le x l.
Proof. cbn. by rewrite le_refl. Qed.

Lemma elem_of_ties x l : x ∈ l <-> x ∈ ties le x l.
Proof. unfold ties. rewrite list_filter_In, le_refl. tauto. Qed.

Lemma sorted_head_le x l y : sorted_by le (x :: l) -> y ∈ x :: l -> le x y = true.
Proof.
  intros [Hs Hf]%StronglySorted_inv [->|Hy]%elem_of_cons; [apply le_refl|].
  by apply (proj1 (Forall_forall _ _) Hf).
Qed.

(** A sorted list is determined by its ties. *)
Lemma sorted_ties_unique l1 l2 :
  sorted_by le l1 -> sorted_by le l2 -> (forall z, ties le z l1 = ties le z l2) -> l1 = l2.
Proof.
  revert l2; induction l1 as [|x l1 IH]; intros l2 S1 S2 T.
  - destruct l2 as [|y l2]; [done|]. specialize (T y). by rewrite ties_self in T.
  - destruct l2 as [|y l2]; [specialize (T x); by rewrite ties_self in T|].
    assert (Hx : x ∈ y :: l2) by (apply elem_of_ties; rewrite <- T, ties_self; left).
    assert (Hy : y ∈ x :: l1) by (apply elem_of_ties; rewrite T, ties_self; left).
    assert (Hxy : le x y = true) by by apply (sorted_head_le x l1).
    assert (Hyx : le y x = true) by by apply (sorted_head_le y l2).
    assert (x = y) as <-.
    { pose proof (T x) as Tx. rewrite ties_self in Tx. cbn in Tx.
      rewrite Hxy, Hyx in Tx. by injection Tx. }
    f_equal. apply IH; [by inversion S1|by inversion S2|].
    intros z. specialize (T z). cbn in T. destruct (le z x && le x z); [by injection T|done].
Qed.

(** Any stable sort gives the same array. *)
Lemma stable_sort_unique l l' :
  sorted_by le l' -> (forall z, ties le z l' = ties le z l) -> l' = stable_sort le l.
Proof.
  intros S T. apply sorted_ties_unique; [done|apply stable_sort_sorted|].
  intros z. by rewrite T, stable_sort_ties.
Qed.

End stable_sort.

(** ** Sorting by a numeric key *)

(** A key whose differences are meaningful: finite and canonical. *)
Definition good_key (x : number) : Prop := fin x = true /\ valid x.

Lemma sgn_pos_gt0 x : is_nan x = false -> nlt (num 0) x = (0 <? sgn x).
Proof. destruct x as [[]|[]| |[]]; done. Qed.

Lemma stays_asc {A} (key : A -> number) x y :
  good_key (key x) -> good_key (key y) ->
  stays (fun a b => key a -f key b) x y = (fval (key x) <=? fval (key y)).
Proof.
  intros [Fx Vx] [Fy Vy]. unfold stays.
  destruct (nsub_spec _ _ Fx Fy Vx Vy) as (_ & N & S).
  rewrite sgn_pos_gt0, S by done.
  destruct (Z.ltb_spec 0 (Z.sgn (fval (key x) - fval (key y)))),
    (Z.leb_spec (fval (key x)) (fval (key y))); done || lia.
Qed.

Lemma sgn_neg x : sgn (nneg x) = - sgn x.
Proof. by destruct x as [[]|[]| |[]]. Qed.

Lemma is_nan_neg x : is_nan (nneg x) = is_nan x.
Proof. by destruct x. Qed.

Lemma stays_desc {A} (key : A -> number) x y :
  good_key (key x) -> good_key (key y) ->
  stays (fun a b => nneg (key a -f key b)) x y = (fval (key y) <=? fval (key x)).
Proof.
  intros [Fx Vx] [Fy Vy]. unfold stays.
  destruct (nsub_spec _ _ Fx Fy Vx Vy) as (_ & N & S).
  rewrite sgn_pos_gt0, sgn_neg, S by by rewrite is_nan_neg.
  destruct (Z.ltb_spec 0 (- Z.sgn (fval (key x) - fval (key y)))),
    (Z.leb_spec (fval (key y)) (fval (key x))); done || lia.
Qed.

(** Two comparators that agree on the elements of a list sort it alike. *)
Lemma stable_sort_ext {A} (le le' : A -> A -> bool) l :
  (forall x y, x ∈ l -> y ∈ l -> le x y = le' x y) -> stable_sort le l = stable_sort le' l.
Proof.
  induction l as [|x l IH]; intros H; [done|]. cbn.
  fold (stable_sort le l) (stable_sort le' l).
  rewrite <- IH by (intros; apply H; by right).
  assert (Hs : forall y, y ∈ stable_sort le l -> le x y = le' x y).
  { intros y Hy. apply H; [left|right]. by rewrite stable_sort_perm in Hy. }
  clear IH. induction (stable_sort le l) as [|y s IHs]; cbn; [done|].
  rewrite <- (Hs y) by left. destruct (le x y); [done|]. f_equal.
  apply IHs. intros z Hz. apply Hs. by right.
Qed.

Lemma consistent_zkey {A} (k : A -> Z) : consistent (fun x y => k x <=? k y).
Proof. split; intros; rewrite !Z.leb_le in *; lia. Qed.

Lemma consistent_zkey_desc {A} (k : A -> Z) : consistent (fun x y => k y <=? k x).
Proof. split; intros; rewrite !Z.leb_le in *; lia. Qed.

(** Sorting by a key that is computed beforehand. *)
Lemma stable_sort_map {A B} (f : A -> B) (le : B -> B -> bool) l :
  stable_sort le (map f l) = map f (stable_sort (fun x y => le (f x) (f y)) l).
Proof.
  induction l as [|x l IH]; [done|].
  change (stable_sort le (map f (x :: l))) with (insert_by le (f x) (stable_sort le (map f l))).
  rewrite IH.
  change (stable_sort (fun x y => le (f x) (f y)) (x :: l)) with
    (insert_by (fun x y => le (f x) (f y)) x (stable_sort (fun x y => le (f x) (f y)) l)).
  generalize (stable_sort (fun x y => le (f x) (f y)) l) as r. intros r.
  induction r as [|y r IHr]; cbn; [done|]. destruct (le (f x) (f y)); cbn; [done|]. by rewrite IHr.
Qed.
