(* ===== verification/JsObject.v ===== *)
(** * Objects used as dictionaries, and [Map]

    Both keep their entries in insertion order.  An entry is replaced in place;
    a new key goes to the end.  Enumerating a plain object ([for ... in],
    [Object.keys]) lists the keys that are array indices first, in increasing
    order, then the others in insertion order; a [Map] has insertion order
    only.  Assigning to [__proto__], which would replace the prototype of a
    plain object, is out of scope: no key of the web UI has that form. *)

From S2P Require Import Prelude JsString JsNumber JsSort.

Section omap.
Context {K V : Type} `{EqDecision K}.

Abbreviation omap := (list (K * V)).

Fixpoint mget (k : K) (m : omap) : option V :=
  match m with
  | [] => None
  | (k', v) :: m' => if decide (k = k') then Some v else mget k m'
  end.

Definition mhas (k : K) (m : omap) : bool :=
  match mget k m with Some _ => true | None => false end.

Fixpoint mset (k : K) (v : V) (m : omap) : omap :=
  match m with
  | [] => [(k, v)]
  | (k', v') :: m' => if decide (k = k') then (k', v) :: m' else (k', v') :: mset k v m'
  end.

Definition mkeys (m : omap) : list K := map fst m.

Lemma mget_mset k k' v m : mget k' (mset k v m) = if decide (k' = k) then Some v else mget k' m.
Proof.
  induction m as [|[k0 v0] m IH]; cbn.
  - by repeat case_decide.
  - destruct (decide (k = k0)); subst; cbn; rewrite ?IH; repeat case_decide; congruence.
Qed.

Lemma mget_mset_eq k v m : mget k (mset k v m) = Some v.
Proof. rewrite mget_mset. by case_decide. Qed.

Lemma mget_mset_ne k k' v m : k' <> k -> mget k' (mset k v m) = mget k' m.
Proof. rewrite mget_mset. by case_decide. Qed.

Lemma mget_elem k v m : mget k m = Some v -> (k, v) ∈ m.
Proof.
  induction m as [|[k0 v0] m IH]; cbn; [done|]. case_decide; subst.
  - intros [= ->]. left.
  - intros. right. auto.
Qed.

Lemma mget_None k m : mget k m = None <-> k ∉ mkeys m.
Proof.
  induction m as [|[k0 v0] m IH]; cbn.
  - split; [intros _ H; inversion H|done].
  - rewrite not_elem_of_cons. case_decide; subst; [|rewrite IH; tauto].
    split; [done|]. by intros [? _].
Qed.

Lemma mget_Some_nodup k v m : NoDup (mkeys m) -> (k, v) ∈ m -> mget k m = Some v.
Proof.
  induction m as [|[k0 v0] m IH]; cbn; intros Hn Hin; [inversion Hin|].
  apply NoDup_cons in Hn as [Hk Hn]. apply elem_of_cons in Hin as [[= -> ->]|Hin].
  - by case_decide.
  - case_decide; subst; [|auto]. destruct Hk.
    apply list_elem_of_In, in_map_iff. exists (k0, v). split; [done|].
    by apply list_elem_of_In.
Qed.

Lemma mkeys_mset_new k v m : k ∉ mkeys m -> mset k v m = m ++ [(k, v)].
Proof.
  induction m as [|[k0 v0] m IH]; cbn; [done|]. rewrite not_elem_of_cons. intros [H1 H2].
  case_decide; [done|]. by rewrite IH.
Qed.

Lemma mkeys_mset_old k v m : k ∈ mkeys m -> mkeys (mset k v m) = mkeys m.
Proof.
  induction m as [|[k0 v0] m IH]; cbn; [intros H; inversion H|].
  intros [->|H]%elem_of_cons; case_decide; subst; try done. cbn. f_equal. by apply IH.
Qed.

Lemma mset_nodup k v m : NoDup (mkeys m) -> NoDup (mkeys (mset k v m)).
Proof.
  intros H. destruct (decide (k ∈ mkeys m)).
  - by rewrite mkeys_mset_old.
  - rewrite mkeys_mset_new by done. unfold mkeys. rewrite map_app. cbn.
    apply NoDup_app. repeat split; [done| |apply NoDup_singleton].
    intros x Hx ->%list_elem_of_singleton. done.
Qed.

Lemma mset_elem k v m x : x ∈ mset k v m -> x = (k, v) \/ (x ∈ m /\ (NoDup (mkeys m) -> x.1 <> k)).
Proof.
  induction m as [|[k0 v0] m IH]; cbn.
  - intros ->%list_elem_of_singleton. by left.
  - case_decide; subst.
    + intros [->|H]%elem_of_cons; [by left|right]. split; [by right|].
      intros [Hk _]%NoDup_cons <-. apply Hk. destruct x.
      apply list_elem_of_In, in_map_iff. eexists; split; [|by apply list_elem_of_In]. done.
    + intros [->|Hx]%elem_of_cons.
      * right. split; [left|done].
      * destruct (IH Hx) as [->|[Hin Hn]]; [by left|right]. split; [by right|].
        intros [_ ?]%NoDup_cons. auto.
Qed.

Lemma mhas_spec k m : mhas k m = true <-> k ∈ mkeys m.
Proof.
  unfold mhas. destruct (mget k m) eqn:E.
  - split; [|done]. intros _. apply mget_elem in E.
    apply list_elem_of_In, in_map_iff. exists (k, v). split; [done|by apply list_elem_of_In].
  - apply mget_None in E. by split.
Qed.

End omap.

(** ** Plain objects with string keys *)

Abbreviation jsobj V := (list (jsstring * V)).

(** A key that is an array index: a canonical decimal below 2^32 - 1. *)
Definition is_array_index (k : jsstring) : bool :=
  forallb is_digit k &&
  match k with
  | [] => false
  | [c] => true
  | c :: _ => negb (c =? 48)
  end && (undec k <? 2 ^ 32 - 1).

(** The order in which [for ... in] and [Object.keys] list the own keys. *)
Definition own_keys {V} (o : jsobj V) : list jsstring :=
  stable_sort (fun a b => undec a <=? undec b) (List.filter is_array_index (mkeys o)) ++
  List.filter (fun k => negb (is_array_index k)) (mkeys o).

(** The names every plain object inherits from [Object.prototype]: [k in o]
    holds for them too. *)
Definition object_prototype : list jsstring :=
  [ js "constructor"; js "__defineGetter__"; js "__defineSetter__"; js "hasOwnProperty";
    js "__lookupGetter__"; js "__lookupSetter__"; js "isPrototypeOf"; js "propertyIsEnumerable";
    js "toString"; js "valueOf"; js "__proto__"; js "toLocaleString" ].

(** [k in o]. *)
Definition js_in {V} (k : jsstring) (o : jsobj V) : bool :=
  mhas k o || bool_decide (k ∈ object_prototype).

Lemma own_keys_perm {V} (o : jsobj V) : own_keys o ≡ₚ mkeys o.
Proof.
  unfold own_keys. rewrite stable_sort_perm.
  induction (mkeys o) as [|k ks IH]; cbn; [done|].
  destruct (is_array_index k); cbn.
  - by rewrite IH.
  - by rewrite <- Permutation_middle, IH.
Qed.

(** Without array-index keys the enumeration is the insertion order. *)
Lemma own_keys_plain {V} (o : jsobj V) :
  Forall (fun k => is_array_index k = false) (mkeys o) -> own_keys o = mkeys o.
Proof.
  unfold own_keys. intros H.
  assert (List.filter is_array_index (mkeys o) = []) as ->
    by (induction H as [|k ks Hk _ IH]; cbn; [done|]; by rewrite Hk).
  cbn. induction H as [|k ks Hk _ IH]; cbn; [done|]. rewrite Hk. cbn. by rewrite IH.
Qed.
