(* ===== verification/JsonFacts.v ===== *)
(** * JSON: printing and parsing are inverse *)

From S2P Require Import Prelude JsString JsNumber JsSort JsObject Json.

(** ** Strings *)

(** UTF-16 code units. *)
Definition units (s : jsstring) : Prop := Forall (fun c => 0 <= c < 65536) s.

Lemma hex_value_digit d : 0 <= d < 16 -> hex_value (hex_digit d) = Some d.
Proof.
  intros H. unfold hex_value, hex_digit, is_digit.
  repeat case_match; bools; rewrite ?andb_false_iff in *; f_equal; bools; lia.
Qed.

Lemma unhex4_digits a b c d :
  0 <= a < 16 -> 0 <= b < 16 -> 0 <= c < 16 -> 0 <= d < 16 ->
  unhex4 (hex_digit a) (hex_digit b) (hex_digit c) (hex_digit d) = Some (16 * (16 * (16 * a + b) + c) + d).
Proof.
  intros. unfold unhex4, is_hex, unhex. cbn [fold_left]. rewrite !hex_value_digit by done.
  cbn [andb default]. change (id ?x) with x. f_equal; lia.
Qed.

Lemma unquote_unicode c r :
  0 <= c < 65536 -> unquote (unicode_escape c ++ r) =
    match unquote r with Some (t, rest) => Some (c :: t, rest) | None => None end.
Proof.
  intros H. unfold unicode_escape. cbn [app unquote Z.eqb Pos.eqb].
  rewrite unhex4_digits by (apply Z.mod_pos_bound; lia).
  replace (16 * _ + _) with c; [done|].
  Z.div_mod_to_equations. lia.
Qed.

Lemma unquote_plain c r :
  32 <= c -> c <> 34 -> c <> 92 ->
  unquote (c :: r) = match unquote r with Some (t, rest) => Some (c :: t, rest) | None => None end.
Proof.
  intros H1 H2 H3. cbn [unquote].
  by rewrite (proj2 (Z.eqb_neq c 34)), (proj2 (Z.eqb_neq c 92)), (proj2 (Z.ltb_ge c 32)) by lia.
Qed.

Lemma unquote_unit c r :
  0 <= c < 65536 -> unquote (escape_unit c ++ r) =
    match unquote r with Some (t, rest) => Some (c :: t, rest) | None => None end.
Proof.
  intros H. unfold escape_unit.
  repeat (destruct (_ =? _) eqn:? in |- *; bools; [subst; reflexivity|]).
  destruct (c <? 32) eqn:?; bools; [by apply unquote_unicode|]. by apply unquote_plain.
Qed.

Lemma unquote_escape s rest : units s -> unquote (escape s ++ 34 :: rest) = Some (s, rest).
Proof.
  unfold units. induction s as [s IH] using (induction_ltof1 _ (@length Z)). unfold ltof in IH.
  destruct s as [|c s]; [done|]. intros [Hc Hs]%Forall_cons. cbn [escape].
  assert (Hr : unquote (escape s ++ 34 :: rest) = Some (s, rest)) by (apply IH; [cbn; lia|done]).
  destruct (is_lead c) eqn:Hl.
  - unfold is_lead in Hl. bools. destruct s as [|d s].
    + rewrite unquote_unicode by done. done.
    + destruct (is_trail d) eqn:Ht.
      * unfold is_trail in Ht. bools. cbn [app]. rewrite !unquote_plain by lia.
        apply Forall_cons in Hs as [_ Hs]. rewrite IH; [done|cbn; lia|done].
      * by rewrite <- app_assoc, unquote_unicode, Hr by done.
  - destruct (is_trail c).
    + by rewrite <- app_assoc, unquote_unicode, Hr by done.
    + by rewrite <- app_assoc, unquote_unit, Hr by done.
Qed.

Lemma units_js s : units (js s).
Proof.
  induction s as [|a s IH]; [constructor|]. apply Forall_cons_2; [|exact IH].
  pose proof (Ascii.N_ascii_bounded a). lia.
Qed.

(** ** Values *)

(** A value without numbers, with the keys of every object distinct. *)
Fixpoint textual (v : Json) : Prop :=
  match v with
  | JvNull | JvBool _ => True
  | JvNumber _ => False
  | JvString s => units s
  | JvArray l => (fix all l := match l with [] => True | x :: l => textual x /\ all l end) l
  | JvObject o =>
      NoDup (mkeys o) /\
      (fix all o := match o with [] => True | (k, x) :: o => (units k /\ textual x) /\ all o end) o
  end.

(** The value with the entries of its objects in the order of enumeration. *)
Fixpoint normal (v : Json) : Json :=
  match v with
  | JvArray l => JvArray (map normal l)
  | JvObject o => JvObject (enumerate (map (fun '(k, x) => (k, normal x)) o))
  | _ => v
  end.

Lemma textual_array l : textual (JvArray l) <-> Forall textual l.
Proof.
  cbn [textual]. induction l as [|x l IH]; [split; [constructor|done]|]. by rewrite Forall_cons, IH.
Qed.

Lemma textual_object o :
  textual (JvObject o) <-> NoDup (mkeys o) /\ Forall (fun e => units e.1 /\ textual e.2) o.
Proof.
  cbn [textual]. apply and_iff_compat_l. induction o as [|[k x] o IH]; [split; [constructor|done]|].
  by rewrite Forall_cons, IH.
Qed.

(** ** Enumeration *)

Definition on_value {A B} (f : jsstring -> A -> B) (e : jsstring * A) : jsstring * B := (e.1, f e.1 e.2).

(** Enumerating an object keeps what its keys are mapped to. *)
Lemma mget_enumerate {A} (o : jsobj A) k : mget k (enumerate o) = mget k o.
Proof.
  assert (Hg : forall ks, mget k (omap (fun k => option_map (pair k) (mget k o)) ks) =
                          if decide (k ∈ ks) then mget k o else None).
  { induction ks as [|k' ks IH]; [by rewrite decide_False by apply not_elem_of_nil|]. cbn [omap list_omap].
    destruct (decide (k' = k)) as [->|Hne].
    - rewrite (decide_True (P := k ∈ k :: ks)) by left. destruct (mget k o) as [v|]; cbn; [by rewrite decide_True|].
      rewrite IH. by case_decide.
    - assert (Hd : (if decide (k ∈ k' :: ks) then mget k o else None) = if decide (k ∈ ks) then mget k o else None).
      { destruct (decide (k ∈ ks)) as [Hin|Hin]; [by rewrite decide_True by by right|].
        rewrite decide_False; [done|]. by intros [->|?]%elem_of_cons. }
      rewrite Hd, <- IH. destruct (mget k' o) as [v|]; cbn; [by rewrite decide_False|done]. }
  unfold enumerate. rewrite Hg. case_decide as Hk; [done|]. rewrite own_keys_perm in Hk.
  destruct (mget k o) as [v|] eqn:E; [|done]. destruct Hk. apply mhas_spec. unfold mhas. by rewrite E.
Qed.

Lemma mget_on_value {A B} (f : jsstring -> A -> B) (o : jsobj A) k :
  mget k (map (on_value f) o) = option_map (f k) (mget k o).
Proof. induction o as [|[k' x] o IH]; [done|]. cbn. case_decide; [by subst|exact IH]. Qed.

Lemma mkeys_on_value {A B} (f : jsstring -> A -> B) (o : jsobj A) : mkeys (map (on_value f) o) = mkeys o.
Proof. unfold mkeys. by rewrite map_map. Qed.

Lemma enumerate_on_value {A B} (f : jsstring -> A -> B) (o : jsobj A) :
  enumerate (map (on_value f) o) = map (on_value f) (enumerate o).
Proof.
  unfold enumerate.
  assert (own_keys (map (on_value f) o) = own_keys o) as -> by (unfold own_keys; by rewrite mkeys_on_value).
  induction (own_keys o) as [|k ks IH]; [done|]. cbn. rewrite mget_on_value, IH.
  by destruct (mget k o).
Qed.

Lemma omap_keys {A} (o o' : jsobj A) :
  NoDup (mkeys o) -> (forall e, e ∈ o' -> e ∈ o) ->
  omap (fun k => option_map (pair k) (mget k o)) (mkeys o') = o'.
Proof.
  intros Hn. induction o' as [|[k x] o' IH]; intros Hin; [done|]. cbn.
  rewrite (mget_Some_nodup k x o Hn) by (apply Hin; left). cbn. f_equal. apply IH.
  intros. apply Hin. by right.
Qed.

Lemma enumerate_perm {A} (o : jsobj A) : NoDup (mkeys o) -> enumerate o ≡ₚ o.
Proof.
  intros Hn. unfold enumerate. rewrite own_keys_perm. by rewrite omap_keys.
Qed.

Lemma mkeys_enumerate {A} (o : jsobj A) : mkeys (enumerate o) = own_keys o.
Proof.
  unfold enumerate. assert (H : forall k, k ∈ own_keys o -> is_Some (mget k o)).
  { intros k Hk. rewrite own_keys_perm in Hk. destruct (mget k o) eqn:E; [eauto|]. by apply mget_None in E. }
  revert H. induction (own_keys o) as [|k ks IH]; intros H; [done|]. cbn.
  destruct (H k ltac:(left)) as [x ->]. cbn. f_equal. apply IH. intros. apply H. by right.
Qed.

(** ** The round trip *)

Definition member_text (e : jsstring * Json) : jsstring := quote e.1 ++ 58 :: stringify e.2.

Lemma stringify_object o :
  stringify (JvObject o) = 123 :: join comma (map member_text (enumerate o)) ++ [125].
Proof.
  cbn [stringify]. do 3 f_equal.
  rewrite (map_ext _ (on_value (fun k x => quote k ++ 58 :: stringify x))) by (by intros [k x]).
  rewrite enumerate_on_value, map_map. done.
Qed.

Lemma normal_object o :
  normal (JvObject o) = JvObject (map (on_value (fun _ => normal)) (enumerate o)).
Proof.
  cbn [normal]. f_equal. rewrite (map_ext _ (on_value (fun _ => normal))) by (by intros [k x]).
  apply enumerate_on_value.
Qed.

Lemma skip_id c r : is_json_space c = false -> skip (c :: r) = c :: r.
Proof. intros H. unfold skip. cbn [span]. by rewrite H. Qed.

(** The text of a value starts with neither white space nor a bracket that ends
    an array. *)
Lemma stringify_head v :
  textual v -> exists c r, stringify v = c :: r /\ is_json_space c = false /\ c <> 93.
Proof. destruct v as [|[]| | |l|o]; [..|by intros []| | |]; intros _; do 2 eexists; repeat split; done. Qed.

Lemma quote_parts s r : quote s ++ r = 34 :: escape s ++ 34 :: r.
Proof. unfold quote. cbn [app]. by rewrite <- app_assoc. Qed.

Definition roundtrips (v : Json) : Prop :=
  textual v -> forall fuel rest, (2 * length (stringify v) <= fuel)%nat ->
  parse_value fuel (stringify v ++ rest) = Some (normal v, rest).

Lemma join_cons2 sep (w w' : jsstring) ws : join sep (w :: w' :: ws) = w ++ sep ++ join sep (w' :: ws).
Proof. done. Qed.

Lemma elements_roundtrip l fuel rest :
  l <> [] -> Forall (fun v => roundtrips v /\ textual v) l ->
  (2 * length (join comma (map stringify l)) < fuel)%nat ->
  parse_elements fuel (join comma (map stringify l) ++ 93 :: rest) = Some (map normal l, rest).
Proof.
  revert fuel. induction l as [|v l IH]; intros fuel Hne Hl Hf; [done|].
  apply Forall_cons in Hl as [[Hv Hx] Hl]. destruct fuel as [|fuel]; [lia|]. cbn [parse_elements].
  destruct l as [|w l].
  - cbn [map join] in *. rewrite (Hv Hx) by lia. done.
  - change (map stringify (v :: w :: l)) with (stringify v :: stringify w :: map stringify l) in *.
    rewrite join_cons2 in *. rewrite !length_app in Hf. cbn [length comma] in Hf.
    rewrite <- !app_assoc. rewrite (Hv Hx) by lia. cbn [mbind option_bind].
    change (skip (comma ++ ?r)) with (44 :: r). cbn [Z.eqb Pos.eqb].
    rewrite IH by (done || (cbn [map]; lia)). done.
Qed.

Lemma members_roundtrip o acc fuel rest :
  o <> [] -> Forall (fun e => roundtrips e.2 /\ units e.1 /\ textual e.2) o ->
  NoDup (mkeys acc ++ mkeys o) ->
  (2 * length (join comma (map member_text o)) < fuel)%nat ->
  parse_members fuel acc (join comma (map member_text o) ++ 125 :: rest) =
    Some (acc ++ map (on_value (fun _ => normal)) o, rest).
Proof.
  revert acc fuel. induction o as [|[k x] o IH]; intros acc fuel Hne Ho Hn Hf; [done|].
  apply Forall_cons in Ho as [(Hx & Hk & Ht) Ho]. cbn [fst snd] in *.
  destruct fuel as [|fuel]; [lia|]. cbn [parse_members].
  assert (Hnew : mset k (normal x) acc = acc ++ [(k, normal x)]).
  { apply mkeys_mset_new. intros Hin. apply NoDup_app in Hn as (_ & Hd & _).
    apply (Hd k Hin). cbn. left. }
  destruct o as [|e o].
  - cbn [map join] in *. unfold member_text in *. cbn [fst snd] in *. rewrite length_app in Hf. cbn [length] in Hf.
    rewrite <- app_assoc, quote_parts. cbn [app]. rewrite skip_id by done. cbn [Z.eqb Pos.eqb].
    rewrite unquote_escape by done. cbn [mbind option_bind]. rewrite skip_id by done. cbn [Z.eqb Pos.eqb].
    rewrite (Hx Ht) by lia. cbn [mbind option_bind]. rewrite skip_id by done. cbn [Z.eqb Pos.eqb].
    by rewrite Hnew.
  - change (map member_text ((k, x) :: e :: o)) with (member_text (k, x) :: member_text e :: map member_text o) in *.
    rewrite join_cons2 in *. rewrite !length_app in Hf. unfold member_text in Hf at 1 |- * at 1.
    cbn [fst snd] in *. rewrite length_app in Hf. cbn [length comma] in Hf.
    rewrite <- !app_assoc, quote_parts. cbn [app]. rewrite skip_id by done. cbn [Z.eqb Pos.eqb].
    rewrite unquote_escape by done. cbn [mbind option_bind]. rewrite skip_id by done. cbn [Z.eqb Pos.eqb].
    rewrite (Hx Ht) by lia. cbn [mbind option_bind].
    change (skip (comma ++ ?r)) with (44 :: r). cbn [Z.eqb Pos.eqb]. rewrite Hnew.
    change (member_text e :: map member_text o) with (map member_text (e :: o)) in *.
    rewrite IH; [|done|done| |lia].
    + by rewrite <- app_assoc.
    + unfold mkeys in *. rewrite map_app, <- app_assoc. done.
Qed.

Lemma value_roundtrip v : roundtrips v.
Proof.
  induction v as [|b|x|s|l IH|o IH] using Json_nested_ind; intros Hv fuel rest Hf;
    (destruct fuel as [|fuel];
      [destruct (stringify_head _ Hv) as (? & ? & E & _); rewrite E in Hf; cbn [length] in Hf; lia|]).
  - done.
  - by destruct b.
  - destruct Hv.
  - cbn [stringify normal parse_value]. rewrite quote_parts, skip_id by done. cbn [Z.eqb Pos.eqb].
    by rewrite unquote_escape by done.
  - apply textual_array in Hv. cbn [stringify normal parse_value] in *. cbn [app].
    rewrite skip_id by done. cbn [Z.eqb Pos.eqb length] in *. rewrite length_app in Hf. cbn [length] in Hf.
    destruct l as [|v l]; [done|]. rewrite <- app_assoc.
    assert (exists c r, join comma (map stringify (v :: l)) = c :: r /\ is_json_space c = false /\ c <> 93)
      as (c & r & E & Hc1 & Hc2).
    { apply Forall_cons in Hv as [Hv _]. destruct (stringify_head v Hv) as (c & r & E & H).
      destruct l; cbn [map join]; rewrite E; do 2 eexists; (split; [reflexivity|exact H]). }
    pose proof (elements_roundtrip (v :: l) fuel rest) as He. rewrite E in *. cbn [app length] in *.
    rewrite skip_id by done. rewrite (proj2 (Z.eqb_neq c 93)) by done.
    rewrite He; [done|done| |lia]. apply Forall_and. by split.
  - apply textual_object in Hv as [Hn Hv]. rewrite stringify_object, normal_object in *.
    pose proof (enumerate_perm o Hn) as Hp.
    assert (Hn' : NoDup (mkeys (enumerate o))) by (unfold mkeys in *; by rewrite Hp).
    rewrite <- Hp in IH, Hv. destruct (enumerate o) as [|[k x] o']; [done|].
    cbn [parse_value app]. rewrite skip_id by done. cbn [Z.eqb Pos.eqb length] in *.
    rewrite length_app in Hf. cbn [length] in Hf. rewrite <- app_assoc.
    pose proof (members_roundtrip ((k, x) :: o') [] fuel rest) as Hm.
    assert (exists r, join comma (map member_text ((k, x) :: o')) = 34 :: r) as (r & E)
      by (destruct o'; cbn [map join]; unfold member_text; cbn [fst]; rewrite !quote_parts || unfold quote; eauto).
    rewrite E in *. cbn [app length] in *. rewrite skip_id by done. cbn [Z.eqb Pos.eqb].
    rewrite Hm; [done|done| |done|lia]. apply Forall_and. by split.
Qed.

(** [JSON.parse(JSON.stringify(v))] is [v] with the keys of its objects in the
    order of enumeration. *)
Lemma parse_stringify v : textual v -> JSON_parse (stringify v) = Some (normal v).
Proof.
  intros Hv. unfold JSON_parse. pose proof (value_roundtrip v Hv (2 * length (stringify v))%nat []) as H.
  rewrite app_nil_r in H. by rewrite H.
Qed.

(** ** Enumerating twice *)

Lemma filter_all {A} (p : A -> bool) l : (forall x, x ∈ l -> p x = true) -> List.filter p l = l.
Proof.
  induction l as [|x l IH]; intros H; [done|]. cbn. rewrite H by left. f_equal. apply IH. intros. apply H. by right.
Qed.

Lemma filter_empty {A} (p : A -> bool) l : (forall x, x ∈ l -> p x = false) -> List.filter p l = [].
Proof.
  induction l as [|x l IH]; intros H; [done|]. cbn. rewrite H by left. apply IH. intros. apply H. by right.
Qed.

Lemma own_keys_enumerate {A} (o : jsobj A) : own_keys (enumerate o) = own_keys o.
Proof.
  unfold own_keys at 1. rewrite mkeys_enumerate. unfold own_keys.
  set (le := fun a b => undec a <=? undec b). set (l := List.filter is_array_index (mkeys o)).
  assert (Hl : forall x, x ∈ stable_sort le l -> is_array_index x = true).
  { intros x. rewrite stable_sort_perm. unfold l. rewrite list_filter_In. tauto. }
  assert (Hr : forall x, x ∈ List.filter (fun k => negb (is_array_index k)) (mkeys o) -> is_array_index x = false).
  { intros x. rewrite list_filter_In, negb_true_iff. tauto. }
  rewrite !List.filter_app, (filter_all _ _ Hl), (filter_empty _ _ Hr), app_nil_r.
  rewrite (filter_empty _ (stable_sort le l)) by (intros x Hx; by rewrite Hl).
  rewrite (filter_all _ (List.filter _ _)) by (intros x Hx; by rewrite Hr).
  cbn [app]. f_equal. symmetry. apply stable_sort_unique; [apply consistent_zkey|apply stable_sort_sorted, consistent_zkey|done].
Qed.

Lemma enumerate_idem {A} (o : jsobj A) : NoDup (mkeys o) -> enumerate (enumerate o) = enumerate o.
Proof.
  intros Hn. unfold enumerate at 1. rewrite own_keys_enumerate, <- mkeys_enumerate.
  apply omap_keys; [|done]. rewrite mkeys_enumerate. by rewrite own_keys_perm.
Qed.

(** ** Texts consist of code units *)

Lemma escape_units s : units s -> units (escape s).
Proof.
  unfold units. induction s as [s IH] using (induction_ltof1 _ (@length Z)). unfold ltof in IH.
  assert (Hhex : forall z, 0 <= hex_digit (z mod 16) < 65536).
  { intros z. pose proof (Z.mod_pos_bound z 16 ltac:(lia)). unfold hex_digit. case_match; lia. }
  assert (Huni : forall c, Forall (fun c => 0 <= c < 65536) (unicode_escape c)).
  { intros c. unfold unicode_escape. repeat (apply Forall_cons_2; [first [lia|apply Hhex]|]). apply Forall_nil_2. }
  destruct s as [|c s]; [done|]. intros [Hc Hs]%Forall_cons. cbn [escape].
  assert (Hr : Forall (fun c => 0 <= c < 65536) (escape s)) by (apply IH; [cbn; lia|done]).
  destruct (is_lead c).
  - destruct s as [|d s]; [apply Huni|]. apply Forall_cons in Hs as [Hd Hs]. destruct (is_trail d).
    + do 2 (apply Forall_cons_2; [done|]). apply IH; [cbn; lia|done].
    + by apply Forall_app.
  - destruct (is_trail c); apply Forall_app; (split; [|done]); [apply Huni|].
    unfold escape_unit. case_ifs; try apply Huni; repeat (apply Forall_cons_2; [lia|]); apply Forall_nil_2.
Qed.

Lemma units_app a b : units (a ++ b) <-> units a /\ units b.
Proof. apply Forall_app. Qed.

Lemma units_quote s : units s -> units (quote s).
Proof.
  intros H. unfold quote. apply Forall_cons_2; [lia|]. apply units_app. split; [by apply escape_units|].
  apply Forall_singleton. lia.
Qed.

Lemma units_join l : Forall units l -> units (join comma l).
Proof.
  induction 1 as [|w l Hw Hl IH]; [constructor|]. destruct l as [|w' l]; [done|].
  rewrite join_cons2. apply units_app. split; [done|]. apply Forall_cons_2; [lia|done].
Qed.

Lemma stringify_units v : textual v -> units (stringify v).
Proof.
  induction v as [|b|x|s|l IH|o IH] using Json_nested_ind; intros Hv.
  - cbn. repeat (apply Forall_cons_2; [lia|]). apply Forall_nil_2.
  - destruct b; cbn; repeat (apply Forall_cons_2; [lia|]); apply Forall_nil_2.
  - destruct Hv.
  - by apply units_quote.
  - apply textual_array in Hv. cbn [stringify]. apply Forall_cons_2; [lia|]. apply units_app.
    split; [|apply Forall_singleton; lia]. apply units_join, Forall_map.
    rewrite Forall_forall in *. intros x Hx. cbn. auto.
  - apply textual_object in Hv as [Hn Hv]. rewrite stringify_object. apply Forall_cons_2; [lia|].
    apply units_app. split; [|apply Forall_singleton; lia]. rewrite <- (enumerate_perm o Hn) in IH, Hv.
    apply units_join, Forall_map. rewrite Forall_forall in *. intros e He. change (units (quote e.1 ++ 58 :: stringify e.2)).
    apply units_app. split; [by apply units_quote, Hv|]. apply Forall_cons_2; [lia|]. apply IH; [done|]. by apply Hv.
Qed.
