(* ===== verification/DecimalFacts.v ===== *)
(** * Decimal strings: facts about [dec], [undec], [parseFloat], [parseInt] and
    exact products of integers *)

From S2P Require Import Prelude JsString JsNumber JsNumberFacts.

Definition digits (s : jsstring) : Prop := Forall (fun c => is_digit c = true) s.

Lemma undec_app a b : undec (a ++ b) = undec a * 10 ^ Z.of_nat (length b) + undec b.
Proof.
  unfold undec. rewrite fold_left_app.
  set (x := fold_left _ a 0). clearbody x. clear a.
  assert (G : forall acc, fold_left (fun acc c => 10 * acc + (c - 48)) b acc =
                     acc * 10 ^ Z.of_nat (length b) +
                     fold_left (fun acc c => 10 * acc + (c - 48)) b 0).
  { induction b as [|c b IH]; intros acc; cbn [fold_left length]; [cbn; lia|].
    rewrite IH, (IH (10 * 0 + (c - 48))), Nat2Z.inj_succ, Z.pow_succ_r by lia. lia. }
  apply G.
Qed.

(** What [dec_aux] prepends to its accumulator. *)
Lemma dec_aux_spec fuel n acc :
  (0 < fuel)%nat -> 0 <= n < 2 ^ Z.of_nat fuel ->
  exists ds, dec_aux fuel n acc = ds ++ acc /\ digits ds /\ undec ds = n /\
    (0 < length ds)%nat /\ n < 10 ^ Z.of_nat (length ds) /\
    (0 < n -> 10 ^ (Z.of_nat (length ds) - 1) <= n) /\ (n = 0 -> ds = [48]).
Proof.
  revert n acc; induction fuel as [|fuel IH]; intros n acc Hf Hn; [lia|].
  pose proof (Z.mod_pos_bound n 10 ltac:(lia)) as Hmod.
  pose proof (Z.div_mod n 10 ltac:(lia)) as Hdm.
  assert (Hd : is_digit (48 + n mod 10) = true)
    by (unfold is_digit; rewrite andb_true_iff, !Z.leb_le; lia).
  cbn [dec_aux]. destruct (Z.eqb_spec (n / 10) 0) as [Hz|Hz].
  - exists [48 + n mod 10]. split; [done|]. split; [by repeat constructor|].
    cbn. repeat split; try lia. intros ->. done.
  - assert (0 <= n / 10) by (apply Z.div_pos; lia).
    assert (Hlt : n / 10 < 2 ^ Z.of_nat fuel).
    { rewrite Nat2Z.inj_succ, Z.pow_succ_r in Hn by lia. apply Z.div_lt_upper_bound; lia. }
    destruct fuel as [|fuel']; [cbn in Hlt; lia|].
    destruct (IH (n / 10) ((48 + n mod 10) :: acc) ltac:(lia) ltac:(lia))
      as (ds & -> & D & U & L & B & M & _).
    exists (ds ++ [48 + n mod 10]). rewrite <- app_assoc. split; [done|].
    split; [apply Forall_app; split; [done|by repeat constructor]|].
    rewrite undec_app, length_app, U. cbn [length undec fold_left].
    replace (Z.of_nat (length ds + 1)) with (Z.succ (Z.of_nat (length ds))) by lia.
    split; [cbn; lia|]. split; [lia|]. split; [rewrite Z.pow_succ_r; lia|].
    split; [|lia]. intros _. specialize (M ltac:(lia)).
    replace (Z.succ _ - 1) with (Z.succ (Z.of_nat (length ds) - 1)) by lia.
    rewrite Z.pow_succ_r by lia. lia.
Qed.

Lemma dec_spec n :
  0 <= n -> digits (dec n) /\ undec (dec n) = n /\ (0 < length (dec n))%nat /\
  n < 10 ^ Z.of_nat (length (dec n)) /\
  (0 < n -> 10 ^ (Z.of_nat (length (dec n)) - 1) <= n) /\ (n = 0 -> dec n = [48]).
Proof.
  intros Hn. unfold dec.
  destruct (dec_aux_spec (S (Z.to_nat (Z.log2 n))) n []) as (ds & -> & H); [lia| |].
  - rewrite Nat2Z.inj_succ, Z2Nat.id by apply Z.log2_nonneg.
    destruct (Z.eq_dec n 0) as [->|]; [cbn; lia|].
    pose proof (Z.log2_spec n ltac:(lia)). lia.
  - by rewrite app_nil_r.
Qed.

Lemma dec_digits n : 0 <= n -> digits (dec n).
Proof. by intros (? & _)%dec_spec. Qed.

Lemma undec_dec n : 0 <= n -> undec (dec n) = n.
Proof. by intros (_ & ? & _)%dec_spec. Qed.

Lemma dec_nonempty n : 0 <= n -> dec n <> [].
Proof. intros (_ & _ & H & _)%dec_spec E. rewrite E in H. cbn in H. lia. Qed.

Lemma dec_inj a b : 0 <= a -> 0 <= b -> dec a = dec b -> a = b.
Proof. intros Ha Hb E. rewrite <- (undec_dec a Ha), <- (undec_dec b Hb). by rewrite E. Qed.

(** A number below [10^k] has at most [k] digits. *)
Lemma dec_length n k : 0 <= n < 10 ^ k -> 0 < k -> str_length (dec n) <= k.
Proof.
  intros Hn Hk. destruct (dec_spec n ltac:(lia)) as (_ & _ & _ & _ & H & H0).
  unfold str_length. destruct (Z.eq_dec n 0) as [->|].
  - rewrite H0 by done. cbn. lia.
  - specialize (H ltac:(lia)).
    assert (Z.of_nat (length (dec n)) - 1 < k); [|lia].
    apply (Z.pow_lt_mono_r_iff 10); lia.
Qed.

Lemma undec_nonneg s : digits s -> 0 <= undec s.
Proof.
  unfold undec. intros H. assert (G : forall acc, 0 <= acc ->
    0 <= fold_left (fun acc c => 10 * acc + (c - 48)) s acc); [|apply G; lia].
  induction H as [|c s Hc _ IH]; intros acc Ha; cbn; [done|].
  apply IH. unfold is_digit in Hc. bools. lia.
Qed.

Lemma span_digits s r :
  digits s -> match r with [] => True | c :: _ => is_digit c = false end ->
  span is_digit (s ++ r) = (s, r).
Proof. apply span_unique. Qed.

Lemma parseFloat_int s : digits s -> parseFloat s = num (undec s).
Proof.
  intros H. unfold parseFloat. rewrite <- (app_nil_r s) at 1.
  rewrite span_digits by done. unfold of_decimal. cbn [Z.leb]. by rewrite Z.mul_1_r.
Qed.

(** A digit is not white space, not a sign and not [x]. *)
Lemma is_digit_not_space c : is_digit c = true -> is_space c = false.
Proof.
  unfold is_digit, is_space. intros H; bools.
  repeat (apply orb_false_iff; split); try (apply Z.eqb_neq; lia);
    apply andb_false_iff; rewrite !Z.leb_gt; lia.
Qed.

Lemma trimStart_nonspace c s : is_space c = false -> trimStart (c :: s) = c :: s.
Proof. intros H. unfold trimStart. cbn. by rewrite H. Qed.

(** A number printed in decimal reads back, whatever follows that is no digit
    and no hexadecimal prefix. *)
Lemma parseInt_dec n r :
  0 <= n -> match r with [] => True | c :: _ => is_digit c = false /\ c <> 120 /\ c <> 88 end ->
  parseInt (dec n ++ r) = num n.
Proof.
  intros Hn Hr. destruct (dec_spec n Hn) as (D & U & L & _ & _ & H0).
  assert (Hs : span is_digit (dec n ++ r) = (dec n, r))
    by (apply span_digits; [done|]; destruct r; [done|]; tauto).
  unfold parseInt. destruct (dec n) as [|c ds] eqn:E; [cbn in L; lia|].
  assert (Dc : is_digit c = true) by (by inversion D).
  cbn [app] in *. rewrite trimStart_nonspace by by apply is_digit_not_space.
  assert (c <> 45 /\ c <> 43) as [N1 N2] by (unfold is_digit in Dc; bools; lia).
  assert (G : match c :: ds ++ r with
              | 45 :: r0 => (true, r0) | 43 :: r0 => (false, r0) | _ => (false, c :: ds ++ r) end
              = (false, c :: ds ++ r)).
  { destruct c as [|p|p]; try done. do 6 (destruct p as [p|p|]; try done). }
  rewrite G, Hs. cbn [fst]. rewrite U.
  destruct (Z.eq_dec c 48) as [->|N3].
  - destruct (ds ++ r) as [|x t] eqn:Et; [done|].
    assert ((x =? 120) || (x =? 88) = false) as ->; [|done].
    apply orb_false_iff; rewrite !Z.eqb_neq.
    destruct ds as [|d ds']; cbn in Et; subst.
    + tauto.
    + injection Et as <- _. inversion D as [|? ? _ D']. inversion D' as [|? ? D'' _].
      unfold is_digit in D''. bools. lia.
  - destruct c as [|p|p]; try done. do 6 (destruct p as [p|p|]; try done).
Qed.

(** ** Products of integers *)

(** An integer below 2^53 as a significand and an exponent. *)
Lemma num_pos_form a :
  0 < a < 2 ^ 53 ->
  exists m e, num a = S754_finite false m e /\ e <= 0 /\ 2 ^ 52 <= Zpos m /\
              Zpos m = a * 2 ^ (- e).
Proof.
  intros Ha. destruct (num_cases a ltac:(lia)) as [[-> _]|(s & m & e & E & B & F)]; [lia|].
  exists m, e. pose proof (bounded_facts _ _ B) as (B1 & B2 & B3).
  pose proof (fval_pos m e ltac:(lia)). pose proof (pow2_pos 1074 ltac:(lia)).
  assert (s = false) as -> by (destruct s; [cbn [fval cond_Zopp] in F; nia|done]).
  cbn [fval cond_Zopp] in F. split; [done|].
  assert (He : e <= 0).
  { destruct (Z.le_gt_cases e 0) as [|Hgt]; [done|]. exfalso. specialize (B3 ltac:(lia)).
    replace (e + 1074) with (1074 + e) in F by lia. rewrite Z.pow_add_r, Z.mul_assoc in F by lia.
    replace (Zpos m * 2 ^ 1074 * 2 ^ e) with (Zpos m * 2 ^ e * 2 ^ 1074) in F by ring.
    apply Z.mul_reg_r in F; [|lia].
    assert (2 ^ 1 <= 2 ^ e) by (apply Z.pow_le_mono_r; lia). nia. }
  split; [done|]. assert (Hm : Zpos m = a * 2 ^ (- e)).
  2: { split; [|done]. apply B3. assert (- e < 53); [|lia].
       apply (Z.pow_lt_mono_r_iff 2); [lia..|]. nia. }
  apply (Z.mul_reg_r _ _ (2 ^ (e + 1074))); [pose proof (pow2_pos (e + 1074) ltac:(lia)); lia|].
  rewrite F, <- Z.mul_assoc, <- Z.pow_add_r by lia. do 2 f_equal. lia.
Qed.

Lemma nmul_int a b :
  0 <= a -> 0 <= b -> a < 2 ^ 53 -> b < 2 ^ 53 -> a * b < 2 ^ 53 ->
  num a *f num b = num (a * b).
Proof.
  intros Ha Hb La Lb Lab.
  destruct (Z.eq_dec a 0) as [->|Na].
  { destruct (Z.eq_dec b 0) as [->|Nb]; [done|].
    destruct (num_pos_form b ltac:(lia)) as (m & e & -> & _). done. }
  destruct (Z.eq_dec b 0) as [->|Nb].
  { destruct (num_pos_form a ltac:(lia)) as (m & e & -> & _). by rewrite Z.mul_0_r. }
  destruct (num_pos_form a ltac:(lia)) as (m1 & e1 & -> & He1 & Hn1 & Hm1).
  destruct (num_pos_form b ltac:(lia)) as (m2 & e2 & -> & He2 & Hn2 & Hm2).
  cbn [nmul SFmul xorb]. set (e := e1 + e2).
  assert (Hm : Zpos (m1 * m2) = a * b * 2 ^ (- e)).
  { unfold e. rewrite Pos2Z.inj_mul, Hm1, Hm2, Z.opp_add_distr, Z.pow_add_r by lia. ring. }
  destruct (a * b) as [|ab|ab] eqn:Eab; [nia| |nia].
  pose proof (digits2_scale ab (m1 * m2) (- e) ltac:(lia) Hm) as Hd.
  pose proof (digits2_le ab 53 ltac:(lia) ltac:(lia)).
  assert (104 < Zpos (digits2_pos (m1 * m2))).
  { apply digits2_gt; [lia|]. rewrite Pos2Z.inj_mul. change (2 ^ 104) with (2 ^ 52 * 2 ^ 52). nia. }
  destruct (round_aux_spec false (m1 * m2) e) as (q & Q1 & Q2 & Q3 & Q4 & Q5 & ->); [lia|].
  set (n := Z.max (Zpos (digits2_pos (m1 * m2)) + e - 53) (-1074) - e) in *.
  assert (Hn : 0 <= n <= - e) by (unfold n; lia).
  assert (Hdiv : Zpos (m1 * m2) = Zpos ab * 2 ^ (- e - n) * 2 ^ n)
    by (rewrite Hm, <- Z.mul_assoc, <- Z.pow_add_r by lia; do 2 f_equal; lia).
  pose proof (pow2_pos n ltac:(lia)).
  assert (q = Zpos ab * 2 ^ (- e - n)) as Hq.
  { rewrite Q2 by (rewrite Hdiv; apply Z.mod_mul; lia).
    rewrite Hdiv. apply Z.div_mul. lia. }
  apply num_unique; [lia|by apply pack_valid|apply pack_fin; [done|unfold n; lia]| |lia].
  rewrite pack_fval; [|lia|lia|apply pack_fin; [done|unfold n; lia]].
  cbn [cond_Zopp]. rewrite Hq, <- Z.mul_assoc, <- Z.pow_add_r by lia. do 2 f_equal. lia.
Qed.

(** ** Text of numbers *)

Lemma num_to_string_int k : 0 <= k < 2 ^ 53 -> num_to_string (num k) = dec k.
Proof.
  intros Hk. destruct (Z.eq_dec k 0) as [->|Hne]; [done|].
  destruct (num_pos_form k ltac:(lia)) as (m & e & -> & He & _ & Hm).
  cbn [num_to_string]. unfold pos_to_string, numer, denom.
  rewrite Z.max_r, Z.max_l, Z.pow_0_r, Z.mul_1_r, Hm by lia.
  pose proof (pow2_pos (- e) ltac:(lia)).
  rewrite Z.mod_mul, Z.div_mul by lia. cbn [Z.eqb andb].
  by rewrite (proj2 (Z.leb_le k (2 ^ 53))) by lia.
Qed.

Lemma denom_pos e : 0 < denom e.
Proof. apply pow2_pos. lia. Qed.

Lemma numer_nonneg m e : 0 <= numer m e.
Proof. unfold numer. pose proof (pow2_pos (Z.max e 0)). lia. Qed.

Lemma numer_fval m e :
  -1074 <= e -> fval (S754_finite false m e) * denom e = numer m e * 2 ^ 1074.
Proof.
  intros He. cbn [fval cond_Zopp]. unfold numer, denom.
  rewrite <- !Z.mul_assoc, <- !Z.pow_add_r by lia. do 2 f_equal. lia.
Qed.

(** A positive number below the integer [k], as a fraction. *)
Lemma numer_below m e k :
  0 < k < 2 ^ 53 -> valid (S754_finite false m e) ->
  (S754_finite false m e <f num k) = true -> numer m e < k * denom e.
Proof.
  intros Hk V. destruct (num_spec k ltac:(lia)) as (Vk & Fk & Ek).
  rewrite nlt_fval, Ek, Z.ltb_lt by done. intros H.
  unfold valid in V. cbn [valid_binary] in V. apply bounded_facts in V as [V _].
  pose proof (numer_fval m e ltac:(lia)) as E. pose proof (denom_pos e).
  pose proof (pow2_pos 1074 ltac:(lia)). nia.
Qed.

Lemma point_digits_length n f :
  0 <= f -> str_length (point_digits n f) = Z.max (str_length (dec n)) (f + 1) + 1.
Proof.
  intros Hf. unfold point_digits, str_length, zeros.
  rewrite !length_app. cbn [js length]. rewrite length_take, length_drop, length_app, length_replicate.
  change (length (js ".")) with 1%nat. lia.
Qed.

(** [toFixed] of a number of [[0, 10^d)] shows at most [d + 1] digits before
    the point, or the zero-padded minimum. *)
Lemma toFixed_length x d f :
  0 < d -> 0 < f -> d + f <= 15 -> valid x -> nonneg x = true ->
  (x <f num (10 ^ d)) = true -> str_length (toFixed x f) <= d + f + 2.
Proof.
  intros Hd Hf Hdf V N H.
  assert (P : 0 < 10 ^ d < 2 ^ 53).
  { split; [lia|]. apply Z.le_lt_trans with (10 ^ 15); [apply Z.pow_le_mono_r; lia|done]. }
  apply nonneg_cases in N as [[s ->]|[->|(m & e & ->)]].
  - cbn [toFixed]. rewrite point_digits_length by lia.
    change (str_length (dec 0)) with 1. lia.
  - exfalso. destruct (num_pos_form (10 ^ d) ltac:(lia)) as (m & e & E & _). by rewrite E in H.
  - pose proof (numer_below m e _ P V H) as B. pose proof (denom_pos e) as D.
    pose proof (numer_nonneg m e). cbn [toFixed].
    assert (10 ^ d <= 10 ^ 21) by (apply Z.pow_le_mono_r; lia).
    rewrite (proj2 (Z.leb_gt _ _)) by nia. cbn [app].
    rewrite point_digits_length by lia.
    assert (0 <= fixed_int m e f < 10 ^ (d + f + 1)).
    { unfold fixed_int. split; [apply Z.div_pos; nia|].
      apply Z.div_lt_upper_bound; [lia|].
      rewrite !Z.pow_add_r by lia. change (10 ^ 1) with 10.
      assert (0 < 10 ^ f) by lia. nia. }
    pose proof (dec_length (fixed_int m e f) (d + f + 1) ltac:(lia) ltac:(lia)). lia.
Qed.

Lemma Math_round_length x d :
  0 < d <= 14 -> valid x -> nonneg x = true -> (x <f num (10 ^ d)) = true ->
  str_length (num_to_string (Math_round x)) <= d + 1.
Proof.
  intros Hd V N H.
  assert (P : 0 < 10 ^ d < 2 ^ 53).
  { split; [lia|]. apply Z.le_lt_trans with (10 ^ 15); [apply Z.pow_le_mono_r; lia|done]. }
  apply nonneg_cases in N as [[s ->]|[->|(m & e & ->)]].
  - change (str_length _) with 1. lia.
  - exfalso. destruct (num_pos_form (10 ^ d) ltac:(lia)) as (m & e & E & _). by rewrite E in H.
  - pose proof (numer_below m e _ P V H) as B. pose proof (denom_pos e) as D.
    pose proof (numer_nonneg m e). cbn [Math_round cond_Zopp].
    assert (R : 0 <= (2 * numer m e + denom e) / (2 * denom e) <= 10 ^ d).
    { split; [apply Z.div_pos; lia|]. apply Z.lt_succ_r, Z.div_lt_upper_bound; nia. }
    case_match; [change (str_length _) with 1; lia|]. rewrite num_to_string_int by lia.
    apply dec_length; [|lia]. rewrite Z.pow_add_r by lia. lia.
Qed.
