(* ===== verification/Data.v ===== *)
(** * The server's answers

    The JSON documents the web UI reads ([/v1/query], [/v1/query/<id>],
    [/v1/cluster], [/v1/worker/<id>/status]), restricted to the properties the
    code mentions.  A property the code tests for presence, or reads although
    the server may leave it out or send [null], is an [option]; a numeric one
    is a [jsnum]. *)

From S2P Require Import Prelude JsString JsNumber JsObject.

(** [o.p] where [o] is [null] or [undefined] throws. *)
Definition get_prop {A} (what : string) (o : option A) : res A :=
  match o with
  | Some a => Ok a
  | None => Throw (TypeError what)
  end.

(** Truth value of an optional string: [null], [undefined] and the empty string
    are falsy. *)
Definition str_truthy (o : option jsstring) : bool :=
  match o with Some (_ :: _) => true | _ => false end.

(** [x === lit] for an optional string. *)
Definition opt_str_eqb (o : option jsstring) (s : jsstring) : bool :=
  match o with Some t => str_eqb t s | None => false end.

(** ** Failures *)

(** A message, [null], or no such property. *)
Inductive Message := MText (s : jsstring) | MNull | MUndefined.

(** The frames of a stack, [null], or no such property. *)
Inductive Stack := Frames (frames : list jsstring) | StackNull | StackUndefined.

Inductive FailureInfo := mkFailureInfo {
  fi_type : jsstring;
  fi_message : Message;
  fi_stack : Stack;
  fi_suppressed : option (list FailureInfo);
  fi_cause : option FailureInfo
}.

Record ErrorCode := mkErrorCode { ec_name : jsstring; ec_code : number }.

Record Warning := mkWarning { w_code_name : jsstring; w_message : jsstring }.

(** ** Plans *)

(** A plan node as [StageDetail] reads it: the [@type] tag, the node id and the
    properties that may hold its children. *)
Inductive PlanNode := mkPlanNode {
  pn_type : jsstring;
  pn_id : jsstring;
  pn_source : option PlanNode;
  pn_left : option PlanNode;
  pn_right : option PlanNode;
  pn_filteringSource : option PlanNode;
  pn_probeSource : option PlanNode;
  pn_indexSource : option PlanNode;
  pn_sources : option (list PlanNode)
}.

(** A node of the tree that a fragment's [jsonRepresentation] describes, which
    [LivePlan] reads.  The plan has the text; [pl_jsonRepresentation] is what
    [JSON.parse] makes of it, a tree or a [SyntaxError]. *)
Inductive JsonNode := mkJsonNode {
  jn_id : jsstring;
  jn_name : jsstring;
  jn_identifier : jsstring;
  jn_details : jsstring;
  jn_children : list JsonNode;
  jn_remoteSources : list jsstring
}.

Record Plan := mkPlan {
  pl_id : jsstring;
  pl_root : PlanNode;
  pl_jsonRepresentation : res JsonNode;
  pl_distribution : jsstring
}.

(** ** Operators, tasks and stages *)

Record OperatorSummary := mkOperator {
  op_pipelineId : number;
  op_operatorId : number;
  op_planNodeId : jsstring;
  op_operatorType : jsstring;
  op_addInputWall : jsstring;
  op_getOutputWall : jsstring;
  op_finishWall : jsstring;
  op_blockedWall : jsstring;
  op_inputPositions : number;
  op_inputDataSize : jsstring;
  op_outputPositions : number;
  op_outputDataSize : jsstring;
  op_totalDrivers : number
}.

Record Pipeline := mkPipeline {
  pi_pipelineId : number;
  pi_operatorSummaries : list OperatorSummary
}.

Record TaskStats := mkTaskStats {
  ts_elapsedTimeInNanos : number;
  ts_totalCpuTimeInNanos : number;
  ts_totalScheduledTimeInNanos : number;
  ts_createTime : jsstring;
  ts_firstStartTime : option jsstring;
  ts_lastStartTime : option jsstring;
  ts_lastEndTime : option jsstring;
  ts_endTime : option jsstring;
  ts_fullyBlocked : bool;
  ts_rawInputPositions : number;
  ts_rawInputDataSizeInBytes : number;
  ts_queuedDrivers : number;
  ts_runningDrivers : number;
  ts_blockedDrivers : number;
  ts_completedDrivers : number;
  ts_pipelines : list Pipeline
}.

Record Task := mkTask {
  t_taskId : jsstring;
  t_self : jsstring;            (* taskStatus.self *)
  t_state : jsstring;           (* taskStatus.state *)
  t_nodeId : jsstring;
  t_stats : TaskStats;
  t_totalBufferedBytes : number (* outputBuffers.totalBufferedBytes *)
}.

Record StageStats := mkStageStats {
  ss_fullyBlocked : bool;
  ss_totalScheduledTime : jsstring;
  ss_totalBlockedTime : jsstring;
  ss_totalCpuTime : jsstring;
  ss_cumulativeUserMemory : number;
  ss_userMemoryReservation : jsstring;
  ss_peakUserMemoryReservation : jsstring;
  ss_bufferedDataSize : jsstring;
  ss_queuedDrivers : number;
  ss_runningDrivers : number;
  ss_completedDrivers : number;
  ss_completedLifespans : number;
  ss_totalLifespans : number;
  ss_rawInputDataSize : jsstring;
  ss_rawInputPositions : number;
  ss_outputDataSize : jsstring;
  ss_outputPositions : number;
  ss_operatorSummaries : option (list OperatorSummary)
}.

Record StageExecutionInfo := mkStageExecutionInfo {
  se_state : jsstring;
  se_stats : option StageStats;
  se_tasks : list Task
}.

(** [sg_state] and [sg_tasks] are properties the code reads from a stage
    although the server sends them inside [latestAttemptExecutionInfo]. *)
Inductive Stage := mkStage {
  sg_stageId : jsstring;
  sg_plan : option Plan;
  sg_latestAttemptExecutionInfo : StageExecutionInfo;
  sg_previousAttemptsExecutionInfos : list StageExecutionInfo;
  sg_subStages : option (list Stage);
  sg_state : option jsstring;
  sg_tasks : option (list Task)
}.

(** ** Queries *)

Record QueryStats := mkQueryStats {
  qs_createTime : jsstring;
  qs_endTime : option jsstring;
  qs_elapsedTime : jsstring;
  qs_executionTime : jsstring;
  qs_queuedTime : jsstring;
  qs_totalPlanningTime : jsstring;
  qs_totalCpuTime : jsstring;
  qs_totalScheduledTime : jsstring;
  qs_totalBlockedTime : jsstring;
  qs_fullyBlocked : bool;
  qs_blockedReasons : option (list jsstring);
  qs_totalDrivers : number;
  qs_queuedDrivers : number;
  qs_runningDrivers : number;
  qs_completedDrivers : number;
  qs_progressPercentage : jsnum;
  qs_cumulativeUserMemory : number;
  qs_userMemoryReservation : jsstring;
  qs_peakUserMemoryReservation : jsstring;
  qs_peakTotalMemoryReservation : jsstring;
  qs_processedInputPositions : number;
  qs_processedInputDataSize : jsstring;
  qs_rawInputPositions : number;
  qs_rawInputDataSize : jsstring;
  qs_outputPositions : number;
  qs_outputDataSize : jsstring;
  qs_writtenOutputPositions : number;
  qs_writtenOutputLogicalDataSize : jsstring;
  qs_writtenOutputPhysicalDataSize : jsstring;
  qs_spilledDataSize : jsstring
}.

Record Session := mkSession {
  se_user : option jsstring;
  se_source : option jsstring;
  se_principal : option jsstring;
  se_catalog : option jsstring;
  se_schema : option jsstring;
  se_remoteUserAddress : option jsstring;
  se_clientTags : list jsstring;
  se_systemProperties : jsobj jsstring;
  se_catalogProperties : jsobj (jsobj jsstring);
  se_resourceEstimates : jsobj jsstring
}.

Record Query := mkQuery {
  q_queryId : jsstring;
  q_state : jsstring;
  q_scheduled : bool;
  q_memoryPool : jsstring;
  q_errorType : option jsstring;
  q_errorCode : option ErrorCode;
  q_queryStats : option QueryStats;
  q_warnings : option (list Warning);
  q_session : Session;
  q_resourceGroupId : option (list jsstring);
  q_query : jsstring;
  q_outputStage : option Stage;
  q_finalQueryInfo : bool;
  q_failureInfo : option FailureInfo
}.

(** The shape of every query document the server sends: the statistics are
    there, and a failed query names its error code. *)
Definition wf_query (q : Query) : Prop :=
  is_Some (q_queryStats q) /\
  (q_state q = js "FAILED" -> is_Some (q_errorCode q)) /\
  is_Some (q_warnings q).

(** A fixed document the examples of the development use. *)
Definition sample_stats : QueryStats := {|
  qs_createTime := "2020-06-01T00:00:00.000Z"; qs_endTime := None;
  qs_elapsedTime := "1.50s"; qs_executionTime := "1.20s"; qs_queuedTime := "0.30s";
  qs_totalPlanningTime := "0.10s"; qs_totalCpuTime := "2.00s";
  qs_totalScheduledTime := "3.00s"; qs_totalBlockedTime := "0.00ns";
  qs_fullyBlocked := false; qs_blockedReasons := Some [];
  qs_totalDrivers := num 10; qs_queuedDrivers := num 1; qs_runningDrivers := num 4;
  qs_completedDrivers := num 5; qs_progressPercentage := num 50;
  qs_cumulativeUserMemory := num 1000; qs_userMemoryReservation := "1kB";
  qs_peakUserMemoryReservation := "2kB"; qs_peakTotalMemoryReservation := "3kB";
  qs_processedInputPositions := num 100; qs_processedInputDataSize := "5kB";
  qs_rawInputPositions := num 100; qs_rawInputDataSize := "5kB";
  qs_outputPositions := num 1; qs_outputDataSize := "1kB";
  qs_writtenOutputPositions := num 0; qs_writtenOutputLogicalDataSize := "0B";
  qs_writtenOutputPhysicalDataSize := "0B"; qs_spilledDataSize := "0B" |}.

Definition sample_session : Session := {|
  se_user := Some (js "alice"); se_source := Some (js "presto-cli"); se_principal := None;
  se_catalog := Some (js "hive"); se_schema := Some (js "default");
  se_remoteUserAddress := None; se_clientTags := [];
  se_systemProperties := []; se_catalogProperties := []; se_resourceEstimates := [] |}.

Definition sample_query (id state : jsstring) : Query := {|
  q_queryId := id; q_state := state; q_scheduled := true; q_memoryPool := "general";
  q_errorType := None; q_errorCode := None; q_queryStats := Some sample_stats;
  q_warnings := Some []; q_session := sample_session; q_resourceGroupId := None;
  q_query := "SELECT 1"; q_outputStage := None; q_finalQueryInfo := false;
  q_failureInfo := None |}.
