(* ===== verification/Utils.v ===== *)
(** * [utils.js]: state display, histories, formatting and parsing helpers *)

From S2P Require Import Prelude JsString JsNumber JsSort JsObject Data.

(** ** Query display *)

Definition GLYPHICON_DEFAULT : list (string * jsstring) := [("color", js "#1edcff")].
Definition GLYPHICON_HIGHLIGHT : list (string * jsstring) := [("color", js "#999999")].

Record StateColors := mkStateColors {
  QUEUED : jsstring; RUNNING : jsstring; PLANNING : jsstring; FINISHED : jsstring;
  BLOCKED : jsstring; USER_ERROR : jsstring; CANCELED : jsstring;
  INSUFFICIENT_RESOURCES : jsstring; EXTERNAL_ERROR : jsstring; UNKNOWN_ERROR : jsstring
}.

Definition STATE_COLOR_MAP : StateColors := {|
  QUEUED := "#1b8f72";
  RUNNING := "#19874e";
  PLANNING := "#674f98";
  FINISHED := "#1a4629";
  BLOCKED := "#61003b";
  USER_ERROR := "#9a7d66";
  CANCELED := "#858959";
  INSUFFICIENT_RESOURCES := "#7f5b72";
  EXTERNAL_ERROR := "#ca7640";
  UNKNOWN_ERROR := "#943524" |}.

Definition getQueryStateColor (query : Query) : res jsstring :=
  let state := q_state query in
  if state === "QUEUED" then Ok (QUEUED STATE_COLOR_MAP)
  else if state === "PLANNING" then Ok (PLANNING STATE_COLOR_MAP)
  else if (state === "STARTING") || (state === "FINISHING") || (state === "RUNNING") then
    if match q_queryStats query with Some stats => qs_fullyBlocked stats | None => false end
    then Ok (BLOCKED STATE_COLOR_MAP)
    else Ok (RUNNING STATE_COLOR_MAP)
  else if state === "FAILED" then
    let errorType := q_errorType query in
    if opt_str_eqb errorType "USER_ERROR" then
      errorCode ← get_prop "query.errorCode" (q_errorCode query);
      if ec_name errorCode === "USER_CANCELED"
      then Ok (CANCELED STATE_COLOR_MAP)
      else Ok (USER_ERROR STATE_COLOR_MAP)
    else if opt_str_eqb errorType "EXTERNAL" then Ok (EXTERNAL_ERROR STATE_COLOR_MAP)
    else if opt_str_eqb errorType "INSUFFICIENT_RESOURCES"
      then Ok (INSUFFICIENT_RESOURCES STATE_COLOR_MAP)
    else Ok (UNKNOWN_ERROR STATE_COLOR_MAP)
  else if state === "FINISHED" then Ok (FINISHED STATE_COLOR_MAP)
  else Ok (QUEUED STATE_COLOR_MAP).

(** [getStageStateColor(stage)] reads [stage.state] and [stage.stageStats]. *)
Definition getStageStateColor (state : option jsstring) (stageStats : option StageStats) : jsstring :=
  if opt_str_eqb state "PLANNED" then QUEUED STATE_COLOR_MAP
  else if opt_str_eqb state "SCHEDULING" || opt_str_eqb state "SCHEDULING_SPLITS" ||
          opt_str_eqb state "SCHEDULED" then PLANNING STATE_COLOR_MAP
  else if opt_str_eqb state "RUNNING" then
    if match stageStats with Some stats => ss_fullyBlocked stats | None => false end
    then BLOCKED STATE_COLOR_MAP
    else RUNNING STATE_COLOR_MAP
  else if opt_str_eqb state "FINISHED" then FINISHED STATE_COLOR_MAP
  else if opt_str_eqb state "CANCELED" || opt_str_eqb state "ABORTED" then CANCELED STATE_COLOR_MAP
  else if opt_str_eqb state "FAILED" then UNKNOWN_ERROR STATE_COLOR_MAP
  else js "#b5b5b5".

(** The part of [getHumanReadableState] after the [RUNNING] block. *)
Definition failed_state_text (query : Query) : res jsstring :=
  if q_state query === "FAILED" then
    let errorType := q_errorType query in
    if opt_str_eqb errorType "USER_ERROR" then
      errorCode ← get_prop "query.errorCode" (q_errorCode query);
      if ec_name errorCode === "USER_CANCELED" then Ok (js "USER CANCELED")
      else Ok (js "USER ERROR")
    else if opt_str_eqb errorType "INTERNAL_ERROR" then Ok (js "INTERNAL ERROR")
    else if opt_str_eqb errorType "INSUFFICIENT_RESOURCES" then Ok (js "INSUFFICIENT RESOURCES")
    else if opt_str_eqb errorType "EXTERNAL" then Ok (js "EXTERNAL ERROR")
    else Ok (q_state query)
  else Ok (q_state query).

Definition getHumanReadableState (query : Query) : res jsstring :=
  if q_state query === "RUNNING" then
    if q_scheduled query then
      stats ← get_prop "query.queryStats" (q_queryStats query);
      if (qs_totalDrivers stats >f num 0) && (qs_runningDrivers stats >=f num 0) then
        let title :=
          if qs_fullyBlocked stats then
            js "BLOCKED" ++
            match qs_blockedReasons stats with
            | Some (r :: rs) => js " (" ++ join ", " (r :: rs) ++ js ")"
            | _ => []
            end
          else js "RUNNING" in
        Ok (if q_memoryPool query === "reserved" then title ++ js " (RESERVED)" else title)
      else failed_state_text query
    else failed_state_text query
  else failed_state_text query.

(** Truth value of a number that may be missing. *)
Definition jsnum_truthy (v : jsnum) : bool :=
  match v with JNum x => truthy x | _ => false end.

Definition getProgressBarPercentage (query : Query) : res number :=
  stats ← get_prop "query.queryStats" (q_queryStats query);
  let progress := qs_progressPercentage stats in
  if negb (jsnum_truthy progress) || (q_state query !== "RUNNING") then Ok (num 100)
  else Ok (Math_round (ToNumber progress)).

Definition getProgressBarTitle (query : Query) : res jsstring :=
  stats ← get_prop "query.queryStats" (q_queryStats query);
  if jsnum_truthy (qs_progressPercentage stats) && (q_state query === "RUNNING") then
    text ← getHumanReadableState query;
    pct ← getProgressBarPercentage query;
    Ok (text ++ js " (" ++ num_to_string pct ++ js "%)")
  else getHumanReadableState query.

Definition isQueryEnded (query : Query) : bool :=
  existsb (fun s => str_eqb s (q_state query)) [js "FINISHED"; js "FAILED"; js "CANCELED"].

(** ** Sparkline histories *)

Definition MAX_HISTORY : Z := 60 * 5.
Definition MOVING_AVERAGE_ALPHA : number := of_decimal 2 (-1).

(** [values.concat([value]).slice(Math.max(values.length - MAX_HISTORY, 0))]. *)
Definition append_bounded {A} (value : A) (values : list A) : list A :=
  drop (Z.to_nat (Z.max (Z.of_nat (length values) - MAX_HISTORY) 0)) (values ++ [value]).

Definition addToHistory {A} (value : A) (valuesArray : list A) : list A :=
  match valuesArray with
  | [] => valuesArray ++ [value]
  | _ => append_bounded value valuesArray
  end.

Definition addExponentiallyWeightedToHistory (value : number) (valuesArray : list number) : list number :=
  match valuesArray with
  | [] => valuesArray ++ [value]
  | _ =>
      let movingAverage := (value *f MOVING_AVERAGE_ALPHA) +f
        (List.last valuesArray NaN *f (num 1 -f MOVING_AVERAGE_ALPHA)) in
      let movingAverage := if value <f num 1 then num 0 else movingAverage in
      append_bounded movingAverage valuesArray
  end.

(** [history[history.length - 1]], [undefined] for an empty history. *)
Definition latest (history : list number) : jsnum :=
  match history with
  | [] => JUndef
  | _ => List.last history NaN
  end.

(** ** Plan nodes *)

Definition removeNodeTypePackage (nodeType : jsstring) : jsstring :=
  let classEndIndex := lastIndexOf nodeType 46 in
  substr_from nodeType (classEndIndex + 1).

Definition single_source_types : list jsstring :=
  [ js "OutputNode"; js "ExplainAnalyzeNode"; js "ProjectNode"; js "FilterNode";
    js "AggregationNode"; js "SortNode"; js "MarkDistinctNode"; js "WindowNode";
    js "RowNumberNode"; js "TopNRowNumberNode"; js "LimitNode"; js "DistinctLimitNode";
    js "TopNNode"; js "SampleNode"; js "TableWriterNode"; js "DeleteNode";
    js "MetadataDeleteNode"; js "TableFinishNode"; js "GroupIdNode"; js "UnnestNode";
    js "EnforceSingleRowNode" ].

Definition one_of (s : jsstring) (l : list jsstring) : bool := existsb (str_eqb s) l.

(** [None] is [undefined], as an element and as the whole result.  The note on
    the console for an unknown type is left out. *)
Definition getChildren (nodeInfo : PlanNode) : option (list (option PlanNode)) :=
  let nodeType := removeNodeTypePackage (pn_type nodeInfo) in
  if one_of nodeType single_source_types then Some [pn_source nodeInfo]
  else if nodeType === "JoinNode" then Some [pn_left nodeInfo; pn_right nodeInfo]
  else if nodeType === "SemiJoinNode" then Some [pn_source nodeInfo; pn_filteringSource nodeInfo]
  else if nodeType === "SpatialJoinNode" then Some [pn_left nodeInfo; pn_right nodeInfo]
  else if nodeType === "IndexJoinNode" then Some [pn_probeSource nodeInfo; pn_indexSource nodeInfo]
  else if (nodeType === "UnionNode") || (nodeType === "ExchangeNode") then
    map Some <$> pn_sources nodeInfo
  else Some [].

(** ** Utility functions *)

(** The argument may be [null] or [undefined]. *)
Definition truncateString (inputString : option jsstring) (length : Z) : option jsstring :=
  match inputString with
  | Some s =>
      if str_truthy (Some s) && (str_length s >? length)
      then Some (substring s 0 length ++ js "...")
      else Some s
  | None => None
  end.

Definition getStageNumber (stageId : jsstring) : number :=
  parseInt (slice stageId (indexOf stageId "." + 1) (str_length stageId)).

Definition getTaskIdSuffix (taskId : jsstring) : jsstring :=
  slice taskId (indexOf taskId "." + 1) (str_length taskId).

Definition getTaskNumber (taskId : jsstring) : number :=
  parseInt (getTaskIdSuffix (getTaskIdSuffix taskId)).

Definition getFirstParameter (searchString : jsstring) : jsstring :=
  let searchText := substring_from searchString 1 in
  if negb (indexOf searchText "&" =? -1)
  then substring searchText 0 (indexOf searchText "&")
  else searchText.

(** The browser's [URL] class: host name and port of a URL; [None] when the
    constructor throws. *)
Class URLApi := {
  parse_url : jsstring -> option (jsstring * jsstring)
}.

Section url.
Context `{URLApi}.

Definition getHostname (url : jsstring) : res jsstring :=
  '(hostname, _) ← get_prop "Invalid URL" (parse_url url);
  if (charAt hostname 0 === "[") && (charAt hostname (str_length hostname - 1) === "]")
  then Ok (substr hostname 1 (str_length hostname - 2))
  else Ok hostname.

Definition getPort (url : jsstring) : res jsstring :=
  '(_, port) ← get_prop "Invalid URL" (parse_url url); Ok port.

Definition getHostAndPort (urlStr : jsstring) : res jsstring :=
  '(hostname, port) ← get_prop "Invalid URL" (parse_url urlStr);
  Ok (hostname ++ js ":" ++ port).
End url.


(** [x.toFixed(f)] throws when [x] is [null] or [undefined]. *)
Definition call_toFixed (v : jsnum) (f : Z) : res jsstring :=
  match v with
  | JNum x => Ok (toFixed x f)
  | _ => Throw (TypeError "toFixed")
  end.

Definition precisionRound (n : jsnum) : res jsstring :=
  if ToNumber n <f num 10 then call_toFixed n 2
  else if ToNumber n <f num 100 then call_toFixed n 1
  else Ok (num_to_string (Math_round (ToNumber n))).

Definition formatDuration (duration : jsnum) : res jsstring :=
  let '(duration, unit) :=
    if ToNumber duration >f num 1000 then (JNum (ToNumber duration /f num 1000), js "s")
    else (duration, js "ms") in
  let '(duration, unit) :=
    if (unit === "s") && (ToNumber duration >f num 60)
    then (JNum (ToNumber duration /f num 60), js "m") else (duration, unit) in
  let '(duration, unit) :=
    if (unit === "m") && (ToNumber duration >f num 60)
    then (JNum (ToNumber duration /f num 60), js "h") else (duration, unit) in
  let '(duration, unit) :=
    if (unit === "h") && (ToNumber duration >f num 24)
    then (JNum (ToNumber duration /f num 24), js "d") else (duration, unit) in
  let '(duration, unit) :=
    if (unit === "d") && (ToNumber duration >f num 7)
    then (JNum (ToNumber duration /f num 7), js "w") else (duration, unit) in
  s ← precisionRound duration; Ok (s ++ unit).

Definition formatCount (count : jsnum) : res jsstring :=
  let '(count, unit) :=
    if ToNumber count >f num 1000 then (JNum (ToNumber count /f num 1000), js "K")
    else (count, js "") in
  let '(count, unit) :=
    if ToNumber count >f num 1000 then (JNum (ToNumber count /f num 1000), js "M")
    else (count, unit) in
  let '(count, unit) :=
    if ToNumber count >f num 1000 then (JNum (ToNumber count /f num 1000), js "B")
    else (count, unit) in
  let '(count, unit) :=
    if ToNumber count >f num 1000 then (JNum (ToNumber count /f num 1000), js "T")
    else (count, unit) in
  let '(count, unit) :=
    if ToNumber count >f num 1000 then (JNum (ToNumber count /f num 1000), js "Q")
    else (count, unit) in
  s ← precisionRound count; Ok (s ++ unit).

(** [v === n] for a numeric [n]. *)
Definition strict_eq_num (v : jsnum) (n : number) : bool :=
  match v with JNum x => x =f n | _ => false end.

Definition computeRate (count : number) (ms : jsnum) : number :=
  if strict_eq_num ms (num 0) then num 0 else (count /f ToNumber ms) *f num 1000.

Definition formatRows (count : jsnum) : res jsstring :=
  if strict_eq_num count (num 1) then Ok (js "1 row")
  else s ← formatCount count; Ok (s ++ js " rows").

Definition formatDataSizeMinUnit (size : jsnum) (minUnit : jsstring) : res jsstring :=
  if strict_eq_num size (num 0) then Ok (js "0" ++ minUnit)
  else
    let '(size, unit) :=
      if ToNumber size >=f num 1024 then (JNum (ToNumber size /f num 1024), js "K" ++ minUnit)
      else (size, minUnit) in
    let '(size, unit) :=
      if ToNumber size >=f num 1024 then (JNum (ToNumber size /f num 1024), js "M" ++ minUnit)
      else (size, unit) in
    let '(size, unit) :=
      if ToNumber size >=f num 1024 then (JNum (ToNumber size /f num 1024), js "G" ++ minUnit)
      else (size, unit) in
    let '(size, unit) :=
      if ToNumber size >=f num 1024 then (JNum (ToNumber size /f num 1024), js "T" ++ minUnit)
      else (size, unit) in
    let '(size, unit) :=
      if ToNumber size >=f num 1024 then (JNum (ToNumber size /f num 1024), js "P" ++ minUnit)
      else (size, unit) in
    s ← precisionRound size; Ok (s ++ unit).

Definition formatDataSizeBytes (size : jsnum) : res jsstring := formatDataSizeMinUnit size "".

Definition formatDataSize (size : jsnum) : res jsstring := formatDataSizeMinUnit size "B".

(** [/^\s*(\d+(?:\.\d+)?)\s*([a-zA-Z]+)\s*$/.exec(value)]: the two captures.
    The pattern leaves no choice to the matcher, so a left-to-right scan finds
    the only match. *)
Definition match_number (s : jsstring) : option (jsstring * jsstring) :=
  let '(i, r) := span is_digit s in
  match i with
  | [] => None
  | _ =>
      match r with
      | 46 :: r' =>
          match span is_digit r' with
          | ([], _) => Some (i, r)
          | (fr, r'') => Some (i ++ 46 :: fr, r'')
          end
      | _ => Some (i, r)
      end
  end.

Definition match_unit (s : jsstring) : option jsstring :=
  let '(unit, r) := span is_alpha (trimStart s) in
  match unit, trimStart r with
  | _ :: _, [] => Some unit
  | _, _ => None
  end.

Definition exec_pattern (value : jsstring) : option (jsstring * jsstring) :=
  '(number, r) ← match_number (trimStart value);
  unit ← match_unit r;
  Some (number, unit).

Definition parseDataSize (value : jsstring) : jsnum :=
  match exec_pattern value with
  | None => JNull
  | Some (m1, m2) =>
      let number := parseFloat m1 in
      if m2 === "B" then number
      else if m2 === "kB" then number *f num (2 ^ 10)
      else if m2 === "MB" then number *f num (2 ^ 20)
      else if m2 === "GB" then number *f num (2 ^ 30)
      else if m2 === "TB" then number *f num (2 ^ 40)
      else if m2 === "PB" then number *f num (2 ^ 50)
      else JNull
  end.

Definition parseDuration (value : jsstring) : jsnum :=
  match exec_pattern value with
  | None => JNull
  | Some (m1, m2) =>
      let number := parseFloat m1 in
      if m2 === "ns" then number /f num 1000000
      else if m2 === "us" then number /f num 1000
      else if m2 === "ms" then number
      else if m2 === "s" then number *f num 1000
      else if m2 === "m" then number *f num 1000 *f num 60
      else if m2 === "h" then number *f num 1000 *f num 60 *f num 60
      else if m2 === "d" then number *f num 1000 *f num 60 *f num 60 *f num 24
      else JNull
  end.

(** ** Dates

    A [Date] as its local-time fields; an invalid date has [NaN] fields. *)
Inductive jsdate :=
  | InvalidDate
  | LocalDate (year month day hours minutes : Z).

Definition int_to_string (z : Z) : jsstring := if z <? 0 then js "-" ++ dec (- z) else dec z.

Definition formatShortTime (date : jsdate) : jsstring :=
  match date with
  | InvalidDate => js "12:NaNam"
  | LocalDate _ _ _ getHours getMinutes =>
      let hours := if getHours mod 12 =? 0 then 12 else getHours mod 12 in
      let minutes := (if getMinutes <? 10 then js "0" else js "") ++ int_to_string getMinutes in
      int_to_string hours ++ js ":" ++ minutes ++ (if getHours >=? 12 then js "pm" else js "am")
  end.

(** [x[1] ? x : "0" + x[0]] for a decimal string [x]. *)
Definition pad2 (x : jsstring) : jsstring :=
  match x with
  | _ :: _ :: _ => x
  | _ => js "0" ++ charAt x 0
  end.

Definition formatShortDateTime (date : jsdate) : jsstring :=
  match date with
  | InvalidDate => js "NaN-NaN-NaN " ++ formatShortTime date
  | LocalDate year getMonth getDate _ _ =>
      let month := int_to_string (getMonth + 1) in
      let dayOfMonth := int_to_string getDate in
      int_to_string year ++ js "-" ++ pad2 month ++ js "-" ++ pad2 dayOfMonth ++ js " " ++
      formatShortTime date
  end.
