(* ===== verification/UtilsFacts.v ===== *)
(** * Properties of [utils.js] *)

From S2P Require Import Prelude JsString JsNumber JsNumberFacts DecimalFacts Data Utils.

(** ** The size and duration pattern *)

Definition spaces (s : jsstring) : Prop := Forall (fun c => is_space c = true) s.
Definition letters (s : jsstring) : Prop := Forall (fun c => is_alpha c = true) s.

(** [n] and [u] are the two captures of a match of
    [/^\s*(\d+(?:\.\d+)?)\s*([a-zA-Z]+)\s*$/] against [s]. *)
Definition pattern_match (s n u : jsstring) : Prop :=
  exists w1 i f w2 w3,
    s = w1 ++ n ++ w2 ++ u ++ w3 /\ n = i ++ f /\
    spaces w1 /\ spaces w2 /\ spaces w3 /\
    digits i /\ i <> [] /\
    (f = [] \/ exists fr, f = 46 :: fr /\ digits fr /\ fr <> []) /\
    letters u /\ u <> [].

Lemma trimStart_spaces w r :
  spaces w -> match r with [] => True | c :: _ => is_space c = false end ->
  trimStart (w ++ r) = r.
Proof. intros Hw Hr. unfold trimStart. by rewrite span_unique. Qed.

Lemma trimStart_split s :
  exists w, s = w ++ trimStart s /\ spaces w /\
            match trimStart s with [] => True | c :: _ => is_space c = false end.
Proof.
  exists (span is_space s).1. unfold trimStart.
  split; [by rewrite span_app|]. split; [apply span_fst|apply span_snd].
Qed.

Lemma is_alpha_not_digit c : is_alpha c = true -> is_digit c = false.
Proof.
  unfold is_alpha, is_digit. intros [H|H]%orb_true_iff; bools;
    apply andb_false_iff; rewrite !Z.leb_gt; lia.
Qed.

Lemma is_alpha_not_space c : is_alpha c = true -> is_space c = false.
Proof.
  unfold is_alpha, is_space. intros [H|H]%orb_true_iff; bools;
    repeat (apply orb_false_iff; split); try (apply Z.eqb_neq; lia);
    apply andb_false_iff; rewrite !Z.leb_gt; lia.
Qed.

Lemma is_space_not_digit c : is_space c = true -> is_digit c = false.
Proof.
  intros H. destruct (is_digit c) eqn:E; [|done]. apply is_digit_not_space in E. congruence.
Qed.

Lemma is_space_not_alpha c : is_space c = true -> is_alpha c = false.
Proof.
  intros H. destruct (is_alpha c) eqn:E; [|done]. apply is_alpha_not_space in E. congruence.
Qed.

#[export] Hint Resolve is_digit_not_space is_alpha_not_digit is_alpha_not_space
  is_space_not_digit is_space_not_alpha : js.

(** The first unit of [w ++ r]: from [w] when it is not empty. *)
Definition head_is (p : Z -> Prop) (s : jsstring) : Prop :=
  match s with [] => True | c :: _ => p c end.

Lemma head_is_app (P Q : Z -> Prop) w r :
  Forall P w -> (forall c, P c -> Q c) -> head_is Q r -> head_is Q (w ++ r).
Proof. intros Hw HPQ Hr. destruct Hw; cbn; auto. Qed.

Lemma match_unit_spec s u :
  match_unit s = Some u <->
  exists w2 w3, s = w2 ++ u ++ w3 /\ spaces w2 /\ spaces w3 /\ letters u /\ u <> [].
Proof.
  unfold match_unit. split.
  - destruct (trimStart_split s) as (w2 & E2 & S2 & _).
    pose proof (span_app is_alpha (trimStart s)) as Ea.
    pose proof (span_fst is_alpha (trimStart s)) as La.
    destruct (span is_alpha (trimStart s)) as [v r]. cbn [fst snd] in *.
    destruct v as [|c v]; [done|].
    destruct (trimStart_split r) as (w3 & E3 & S3 & _).
    destruct (trimStart r); [|done]. intros [= <-]. rewrite app_nil_r in E3. subst w3.
    exists w2, r. by rewrite E2 at 1; rewrite <- Ea.
  - intros (w2 & w3 & -> & S2 & S3 & L & N).
    rewrite trimStart_spaces; [|done|destruct L; [done|]; cbn; auto with js].
    rewrite span_unique; [|done|destruct S3; [done|]; auto with js].
    destruct u; [done|]. by rewrite <- (app_nil_r w3), trimStart_spaces.
Qed.

(** The shape of the first capture. *)
Definition number_text (n : jsstring) : Prop :=
  exists i f, n = i ++ f /\ digits i /\ i <> [] /\
              (f = [] \/ exists fr, f = 46 :: fr /\ digits fr /\ fr <> []).

Lemma match_number_sound s n r : match_number s = Some (n, r) -> s = n ++ r /\ number_text n.
Proof.
  unfold match_number. pose proof (span_app is_digit s) as Ea.
  pose proof (span_fst is_digit s) as Da. destruct (span is_digit s) as [i t]. cbn [fst snd] in *.
  destruct i as [|c i]; [done|].
  assert (Plain : Some (c :: i, t) = Some (n, r) -> s = n ++ r /\ number_text n).
  { intros [= <- <-]. split; [done|]. exists (c :: i), []. rewrite app_nil_r.
    split; [done|]. split; [done|]. split; [done|]. by left. }
  destruct t as [|x t']; [exact Plain|].
  destruct (Z.eq_dec x 46) as [->|Hx].
  - pose proof (span_app is_digit t') as Eb. pose proof (span_fst is_digit t') as Db.
    destruct (span is_digit t') as [fr t'']. cbn [fst snd] in *.
    destruct fr as [|d fr]; [exact Plain|].
    intros [= <- <-]. split; [rewrite <- Ea, <- Eb; cbn; by rewrite <- app_assoc|].
    exists (c :: i), (46 :: d :: fr). split; [done|]. split; [done|]. split; [done|].
    right. eauto.
  - destruct x as [|p|p]; try exact Plain. do 6 (destruct p as [p|p|]; try exact Plain). done.
Qed.

(** What follows the number cannot continue it. *)
Lemma match_number_complete n r :
  number_text n -> head_is (fun c => is_digit c = false /\ c <> 46) r ->
  match_number (n ++ r) = Some (n, r).
Proof.
  intros (i & f & -> & Di & Ni & Hf) Hr. unfold match_number. rewrite <- app_assoc.
  assert (Hr' : match r with [] => True | c :: _ => is_digit c = false end)
    by (destruct r; [done|]; by destruct Hr).
  destruct Hf as [->|(fr & -> & Df & Nf)]; cbn [app].
  - rewrite span_digits by done. rewrite app_nil_r. destruct i; [done|].
    destruct r as [|x t]; [done|]. destruct Hr as [_ Hx].
    destruct x as [|p|p]; try done. do 6 (destruct p as [p|p|]; try done).
  - rewrite span_digits by done. destruct i; [done|].
    rewrite span_digits by done. by destruct fr.
Qed.

Lemma exec_pattern_complete s n u : pattern_match s n u -> exec_pattern s = Some (n, u).
Proof.
  unfold exec_pattern.
  intros (w1 & i & f & w2 & w3 & -> & -> & S1 & S2 & S3 & Di & Ni & Hf & L & N).
  rewrite trimStart_spaces; [|done|].
  2: { destruct Di; [done|]. cbn. auto with js. }
  rewrite match_number_complete; [|by exists i, f|].
  - cbn. by rewrite (proj2 (match_unit_spec (w2 ++ u ++ w3) u)); [|exists w2, w3].
  - eapply head_is_app; [exact S2|intros c Hc; split; [auto with js|intros ->; done]|].
    eapply head_is_app; [exact L|intros c Hc; split; [auto with js|intros ->; done]|].
    destruct S3; [done|]. split; [auto with js|]. intros ->. done.
Qed.

Lemma exec_pattern_dec n u :
  0 <= n -> letters u -> u <> [] -> exec_pattern (dec n ++ u) = Some (dec n, u).
Proof.
  intros Hn L N. apply exec_pattern_complete. exists [], (dec n), [], [], [].
  rewrite !app_nil_r. cbn. pose proof (dec_nonempty n Hn). pose proof (dec_digits n Hn).
  repeat split; try done; by (left || constructor).
Qed.

(** The conversion factors. *)
Definition size_units : list (string * Z) :=
  [("B", 1); ("kB", 2 ^ 10); ("MB", 2 ^ 20); ("GB", 2 ^ 30); ("TB", 2 ^ 40); ("PB", 2 ^ 50)].
Definition duration_units : list (string * Z) :=
  [("ms", 1); ("s", 1000); ("m", 60000); ("h", 3600000); ("d", 86400000)].

(** ** Unit ladders *)

(** Divide by the thresholds while the value is above them. *)
Fixpoint scale_while (above : number -> number -> bool) (steps : list (number * jsstring))
    (x : jsnum) (unit : jsstring) : jsnum * jsstring :=
  match steps with
  | [] => (x, unit)
  | (d, u) :: rest =>
      if above (ToNumber x) d then scale_while above rest (JNum (ToNumber x /f d)) u
      else (x, unit)
  end.

Definition render_scaled (r : jsnum * jsstring) : res jsstring :=
  s ← precisionRound r.1; Ok (s ++ r.2).

Definition gt (x y : number) : bool := x >f y.
Definition ge (x y : number) : bool := x >=f y.

Definition duration_steps : list (number * jsstring) :=
  [(num 1000, js "s"); (num 60, js "m"); (num 60, js "h"); (num 24, js "d"); (num 7, js "w")].
Definition count_steps : list (number * jsstring) :=
  map (fun u => (num 1000, u)) [js "K"; js "M"; js "B"; js "T"; js "Q"].
Definition size_steps (minUnit : jsstring) : list (number * jsstring) :=
  map (fun u => (num 1024, u ++ minUnit)) [js "K"; js "M"; js "G"; js "T"; js "P"].

(** Evaluate the comparisons of string literals. *)
Ltac eval_str_eqb :=
  repeat match goal with
  | |- context [str_eqb (js ?a) (js ?b)] =>
      let v := eval vm_compute in (str_eqb (js a) (js b)) in
      change (str_eqb (js a) (js b)) with v
  end; cbn [andb].

(** One rung: test the value, and in the branch that stops let the remaining
    tests fail for the same reason. *)
Ltac climb :=
  let E := fresh "E" in
  match goal with
  | |- _ = (s ← precisionRound (if ?c then _ else _).1; _) =>
      destruct c eqn:E; cbn beta iota; eval_str_eqb;
      [|repeat (rewrite E; cbn beta iota); reflexivity]
  end.

Lemma formatDuration_ladder d :
  formatDuration d = render_scaled (scale_while gt duration_steps d "ms").
Proof.
  unfold formatDuration, render_scaled, duration_steps, gt. cbn [scale_while].
  repeat climb. reflexivity.
Qed.

Lemma formatCount_ladder c :
  formatCount c = render_scaled (scale_while gt count_steps c "").
Proof.
  unfold formatCount, render_scaled, count_steps, gt. cbn [scale_while map].
  repeat climb. reflexivity.
Qed.

Lemma formatDataSize_ladder c m :
  strict_eq_num c (num 0) = false ->
  formatDataSizeMinUnit c m = render_scaled (scale_while ge (size_steps m) c m).
Proof.
  intros H0. unfold formatDataSizeMinUnit, render_scaled, size_steps, ge. rewrite H0.
  cbn [scale_while map].
  repeat climb. reflexivity.
Qed.

(** ** The parsers *)

(** C23: [exec_pattern] finds a match of the size pattern exactly when there is
    one, and then its two captures are the number and the unit of that match:
    the pattern determines the captures. *)
Theorem exec_pattern_correct s n u : exec_pattern s = Some (n, u) <-> pattern_match s n u.
Proof.
  split; [|apply exec_pattern_complete]. unfold exec_pattern.
  destruct (trimStart_split s) as (w1 & E1 & S1 & _).
  destruct (match_number (trimStart s)) as [[n' r]|] eqn:En; [|done]. cbn.
  destruct (match_unit r) as [u'|] eqn:Eu; [|done]. intros [= -> ->].
  apply match_number_sound in En as [E2 (i & f & Hn & Hi & Ni & Hf)].
  apply match_unit_spec in Eu as (w2 & w3 & E3 & S2 & S3 & L & N).
  exists w1, i, f, w2, w3. subst r. split; [by rewrite E1, E2 at 1|].
  repeat split; done.
Qed.

(** A list of literal units: each unit is a non-empty word. *)
Lemma units_are_words (t : list (string * Z)) u k :
  forallb (fun p => forallb is_alpha (js p.1) && negb (js p.1 === "")) t = true ->
  In (u, k) t -> letters (js u) /\ js u <> [].
Proof.
  rewrite forallb_forall. intros H Hin. specialize (H _ Hin). cbn [fst] in H.
  apply andb_prop in H as [H1 H2]. split.
  - apply Forall_forall. intros c Hc. rewrite forallb_forall in H1. apply H1.
    by apply list_elem_of_In.
  - intros E. rewrite E in H2. done.
Qed.

Lemma parse_number_dec n : 0 <= n -> parseFloat (dec n) = num n.
Proof. intros H. rewrite parseFloat_int, undec_dec; auto using dec_digits. Qed.

(** C10: A whole number of bytes, kilobytes, ... or petabytes is read back
    exactly: [parseDataSize] of the decimal text of [n] followed by the unit is
    [n] times the power of two of the unit, for every size below 2^53 bytes. *)
Theorem parseDataSize_exact n u k :
  In (u, k) size_units -> 0 <= n -> n * k < 2 ^ 53 ->
  parseDataSize (dec n ++ js u) = JNum (num (n * k)).
Proof.
  intros Hin Hn Hk. unfold parseDataSize.
  destruct (units_are_words size_units u k eq_refl Hin) as [L N].
  rewrite (exec_pattern_dec n (js u)), parse_number_dec by done.
  unfold size_units in Hin. cbn [In] in Hin. f_equal.
  repeat destruct Hin as [[= <- <-]|Hin]; try done; eval_str_eqb;
    rewrite ?Z.mul_1_r; try done; f_equal; apply nmul_int; lia.
Qed.

Lemma parseDataSize_exact_witness :
  In ("GB"%string, 2 ^ 30) size_units /\ parseDataSize (dec 12 ++ js "GB") = JNum (num (12 * 2 ^ 30)).
Proof.
  split; [right; right; right; left; reflexivity|].
  apply (parseDataSize_exact 12 "GB" (2 ^ 30)); [right; right; right; left; reflexivity|lia..].
Defined.

(** A whole number of milliseconds, seconds, minutes, hours or days is read
    back exactly in milliseconds, as long as the result is below 2^53: the
    successive multiplications by 1000, 60, 60 and 24 do not round. *)
Theorem parseDuration_exact n u k :
  In (u, k) duration_units -> 0 <= n -> n * k < 2 ^ 53 ->
  parseDuration (dec n ++ js u) = JNum (num (n * k)).
Proof.
  intros Hin Hn Hk. unfold parseDuration.
  destruct (units_are_words duration_units u k eq_refl Hin) as [L N].
  rewrite (exec_pattern_dec n (js u)), parse_number_dec by done.
  unfold duration_units in Hin. cbn [In] in Hin. f_equal.
  repeat destruct Hin as [[= <- <-]|Hin]; try done; eval_str_eqb;
    rewrite ?Z.mul_1_r; try done; f_equal;
    repeat (rewrite nmul_int by lia); f_equal; lia.
Qed.

Lemma parseDuration_exact_witness :
  In ("d"%string, 86400000) duration_units /\ parseDuration (dec 7 ++ js "d") = JNum (num (7 * 86400000)).
Proof.
  split; [do 4 right; left; reflexivity|].
  apply (parseDuration_exact 7 "d" 86400000); [do 4 right; left; reflexivity|lia..].
Defined.

(** ** The formatters *)

Lemma nonneg_fval x : fin x = true -> valid x -> nonneg x = (0 <=? fval x).
Proof. intros. unfold nonneg. by rewrite nle_fval. Qed.

(** The prefixes [us] divide by exact powers of 1024. *)
Lemma size_scale m us u0 x :
  fin x = true -> valid x ->
  exists (k : nat) y, (k <= length us)%nat /\
    scale_while ge (map (fun u => (num 1024, u ++ m)) us) (JNum x) (u0 ++ m) =
      (JNum y, nth k (u0 :: us) [] ++ m) /\
    fin y = true /\ valid y /\ fval y * 1024 ^ Z.of_nat k = fval x /\
    ((k < length us)%nat -> (y <f num 1024) = true) /\ ((0 < k)%nat -> (num 1 <=f y) = true).
Proof.
  revert u0 x. induction us as [|u us IH]; intros u0 x F V; cbn [scale_while map].
  - exists 0%nat, x. repeat split; try done; cbn; lia.
  - unfold ge at 1. cbn [ToNumber]. destruct (num 1024 <=f x) eqn:E.
    + destruct (div_1024_fval x F V E) as (F' & V' & E').
      destruct (IH u (x /f num 1024) F' V') as (k & y & Hk & Hs & Fy & Vy & Ey & Hlt & Hge).
      exists (S k), y. rewrite Hs. repeat split; try done.
      * cbn. lia.
      * rewrite <- E', <- Ey, Nat2Z.inj_succ, Z.pow_succ_r by lia. ring.
      * intros H. apply Hlt. cbn in H. lia.
      * intros _. destruct k as [|k]; [|apply Hge; lia].
        destruct (num_spec 1024 ltac:(lia)) as (V1 & F1 & E1).
        destruct (num_spec 1 ltac:(lia)) as (V2 & F2 & E2).
        rewrite nle_fval, E1, Z.leb_le in E by done.
        rewrite nle_fval, E2, Z.leb_le by done. rewrite Z.pow_0_r in Ey. lia.
    + exists 0%nat, x. repeat split; try done; [cbn; lia|rewrite Z.pow_0_r; lia| |lia].
      intros _. destruct (num_spec 1024 ltac:(lia)) as (V1 & F1 & E1).
      rewrite nle_fval, E1, Z.leb_gt in E by done.
      by rewrite nlt_fval, E1, Z.ltb_lt by done.
Qed.

Definition size_prefixes : list jsstring := [js ""; js "K"; js "M"; js "G"; js "T"; js "P"].

(** C22: A data size is scaled without rounding: the value that
    [formatDataSizeMinUnit] rounds and prints is the size divided by the exact
    power of 1024 of the printed prefix, it is below 1024 unless the prefix is
    the largest one, and at least 1 unless there is no prefix. *)
Theorem formatDataSize_scaling x m :
  fin x = true -> valid x -> (x =f num 0) = false ->
  exists (k : nat) (y : number), (k <= 5)%nat /\
    formatDataSizeMinUnit x m = (s ← precisionRound y; Ok (s ++ nth k size_prefixes [] ++ m)) /\
    fval y * 1024 ^ Z.of_nat k = fval x /\
    ((k < 5)%nat -> (y <f num 1024) = true) /\ ((0 < k)%nat -> (num 1 <=f y) = true).
Proof.
  intros F V N. rewrite formatDataSize_ladder by done. unfold size_steps.
  destruct (size_scale m [js "K"; js "M"; js "G"; js "T"; js "P"] (js "") x F V)
    as (k & y & Hk & Hs & _ & _ & H). exists k, y. split; [done|]. split; [|exact H].
  change (js "" ++ m) with m in Hs. by rewrite Hs.
Qed.

Lemma formatDataSize_scaling_witness :
  exists (k : nat) (y : number), (k <= 5)%nat /\
    formatDataSizeMinUnit (num 1536) (js "B") =
      (s ← precisionRound y; Ok (s ++ nth k size_prefixes [] ++ js "B")) /\
    fval y * 1024 ^ Z.of_nat k = fval (num 1536) /\
    ((k < 5)%nat -> (y <f num 1024) = true) /\ ((0 < k)%nat -> (num 1 <=f y) = true).
Proof. apply (formatDataSize_scaling (num 1536) (js "B")); vm_compute; reflexivity. Defined.

(** [precisionRound] returns at most five characters on [[0, 10000)]. *)
Lemma precisionRound_short x :
  valid x -> nonneg x = true -> (x <f num 10000) = true ->
  exists s, precisionRound x = Ok s /\ str_length s <= 5.
Proof.
  intros V N H. unfold precisionRound. cbn [ToNumber call_toFixed].
  destruct (x <f num 10) eqn:E1.
  { eexists. split; [done|]. by apply (toFixed_length x 1 2). }
  destruct (x <f num 100) eqn:E2; eexists; (split; [done|]).
  - by apply (toFixed_length x 2 1).
  - by apply (Math_round_length x 4).
Qed.

(** A size below 1024 PB never makes the formatter throw and takes at most
    five characters, a prefix and the unit: the columns of the tables that show
    sizes have a fixed width. *)
Theorem formatDataSize_width x m :
  fin x = true -> valid x -> nonneg x = true -> fval x < 1024 ^ 6 * 2 ^ 1074 ->
  exists s, formatDataSizeMinUnit x m = Ok s /\ str_length s <= 6 + str_length m.
Proof.
  intros F V N H. unfold str_length in *.
  destruct (x =f num 0) eqn:E0.
  { exists (js "0" ++ m). unfold formatDataSizeMinUnit, strict_eq_num. rewrite E0.
    split; [done|]. rewrite length_app. cbn. lia. }
  rewrite formatDataSize_ladder by done. unfold size_steps, render_scaled.
  destruct (size_scale m [js "K"; js "M"; js "G"; js "T"; js "P"] (js "") x F V)
    as (k & y & Hk & Hs & Fy & Vy & Ey & Hlt & Hge). change (js "" ++ m) with m in Hs.
  rewrite Hs. cbn [fst snd length] in *.
  destruct (num_spec 1024 ltac:(lia)) as (V1 & F1 & E1).
  destruct (num_spec 10000 ltac:(lia)) as (V2 & F2 & E2).
  assert (P : 0 < 1024 ^ Z.of_nat k) by lia.
  assert (Ny : nonneg y = true).
  { rewrite nonneg_fval, Z.leb_le in N |- * by done. nia. }
  assert (By : (y <f num 10000) = true).
  { rewrite nlt_fval, E2, Z.ltb_lt by done. destruct (Nat.eq_dec k 5) as [->|Hne].
    - change (1024 ^ Z.of_nat 5) with (1024 ^ 5) in Ey. lia.
    - specialize (Hlt ltac:(lia)). rewrite nlt_fval, E1, Z.ltb_lt in Hlt by done. lia. }
  destruct (precisionRound_short y Vy Ny By) as (s & -> & Ls). unfold str_length in Ls.
  eexists. split; [reflexivity|]. rewrite !length_app.
  assert ((length (nth k ([] :: [js "K"; js "M"; js "G"; js "T"; js "P"]) []) <= 1)%nat);
    [|cbn in *; lia].
  do 6 (destruct k as [|k]; [cbn; lia|]). lia.
Qed.

Lemma formatDataSize_width_witness :
  exists s, formatDataSizeMinUnit (num (3 * 2 ^ 41)) (js "B") = Ok s /\ str_length s <= 6 + str_length (js "B").
Proof. apply (formatDataSize_width (num (3 * 2 ^ 41)) (js "B")); vm_compute; reflexivity. Defined.

(** [formatDuration] climbs the ladder milliseconds, seconds, minutes,
    hours, days, weeks as long as the value exceeds the threshold of its unit,
    and prints the value it stops at with the unit it stops at. *)
Theorem formatDuration_spec d :
  formatDuration d = render_scaled (scale_while gt duration_steps d "ms").
Proof. apply formatDuration_ladder. Qed.

(** The formatters do not accept [null]: it compares like zero but has no
    [toFixed].  On [undefined] they print [NaN] and the smallest unit. *)
Theorem formatters_missing :
  (forall f, In f [formatDuration; formatCount; formatRows; formatDataSize; formatDataSizeBytes] ->
     f JNull = Throw (TypeError "toFixed")) /\
  formatDuration JUndef = Ok (js "NaNms") /\ formatCount JUndef = Ok (js "NaN") /\
  formatDataSize JUndef = Ok (js "NaNB").
Proof.
  split; [|vm_compute; auto].
  intros f Hf. cbn [In] in Hf. repeat destruct Hf as [<-|Hf]; try done; vm_compute; reflexivity.
Qed.

Lemma precisionRound_total x : exists s, precisionRound (JNum x) = Ok s.
Proof. unfold precisionRound. cbn. case_ifs; eauto. Qed.

(** Climbing keeps a number a number. *)
Lemma scale_while_num above steps y u : exists z w, scale_while above steps (JNum y) u = (JNum z, w).
Proof.
  revert y u. induction steps as [|[d u'] steps IH]; intros y u; cbn; [eauto|].
  destruct (above y d); eauto.
Qed.

Lemma render_scaled_total above steps y u :
  exists t, render_scaled (scale_while above steps (JNum y) u) = Ok t.
Proof.
  destruct (scale_while_num above steps y u) as (z & w & ->). unfold render_scaled. cbn.
  destruct (precisionRound_total z) as [t ->]. cbn. eauto.
Qed.

Lemma formatDataSize_total x m : exists s, formatDataSizeMinUnit (JNum x) m = Ok s.
Proof.
  destruct (strict_eq_num x (num 0)) eqn:E.
  { unfold formatDataSizeMinUnit. rewrite E. eauto. }
  rewrite formatDataSize_ladder by done. apply render_scaled_total.
Qed.

Lemma formatCount_total v : v <> JNull -> exists t, formatCount v = Ok t.
Proof.
  intros Hv. rewrite formatCount_ladder. destruct v as [x| |]; [|done|vm_compute; eauto].
  apply render_scaled_total.
Qed.

Lemma formatDuration_total v : v <> JNull -> exists t, formatDuration v = Ok t.
Proof.
  intros Hv. rewrite formatDuration_ladder. destruct v as [x| |]; [|done|vm_compute; eauto].
  apply render_scaled_total.
Qed.

Lemma formatSize_total v m : v <> JNull -> exists t, formatDataSizeMinUnit v m = Ok t.
Proof.
  intros Hv. destruct v as [x| |]; [|done|]; [apply formatDataSize_total|].
  rewrite formatDataSize_ladder by done. cbn. eauto.
Qed.

Lemma formatSize_total_bytes v : v <> JNull -> exists t, formatDataSizeBytes v = Ok t.
Proof. apply formatSize_total. Qed.

(** ** Query state *)

Definition palette : list jsstring :=
  map (fun f => f STATE_COLOR_MAP)
    [QUEUED; RUNNING; PLANNING; FINISHED; BLOCKED; USER_ERROR; CANCELED;
     INSUFFICIENT_RESOURCES; EXTERNAL_ERROR; UNKNOWN_ERROR].

(** The documents for which none of the display functions throws. *)
Definition displayable (q : Query) : Prop :=
  (exists c, getQueryStateColor q = Ok c /\ In c palette) /\
  (exists t, getHumanReadableState q = Ok t) /\
  (exists p, getProgressBarPercentage q = Ok p) /\
  (exists t, getProgressBarTitle q = Ok t).

Lemma failed_state_text_total q : wf_query q -> exists t, failed_state_text q = Ok t.
Proof.
  intros (_ & He & _). unfold failed_state_text.
  destruct (str_eqb_spec (q_state q) "FAILED") as [E|]; [|eauto].
  destruct (He E) as [c ->]. cbn. case_ifs; eauto.
Qed.

Lemma getHumanReadableState_total q : wf_query q -> exists t, getHumanReadableState q = Ok t.
Proof.
  intros W. pose proof (failed_state_text_total q W). destruct W as ([st Hst] & _ & _).
  unfold getHumanReadableState. rewrite Hst. cbn. case_ifs; eauto.
Qed.

Lemma getQueryStateColor_total q :
  wf_query q -> exists c, getQueryStateColor q = Ok c /\ In c palette.
Proof.
  intros (_ & He & _). unfold getQueryStateColor.
  assert (Hin : forall f, In (f STATE_COLOR_MAP) palette -> exists c, Ok (f STATE_COLOR_MAP) = Ok c /\ In c palette)
    by eauto.
  destruct (str_eqb_spec (q_state q) "FAILED") as [E|].
  - destruct (He E) as [c ->]. cbn [get_prop mbind res_bind].
    case_ifs; apply Hin; cbn; tauto.
  - case_ifs; apply Hin; cbn; tauto.
Qed.

(** None of the functions that display a query's state throws on a document
    the server sends, whatever the state is; the color is one of the ten of the
    color map. *)
Theorem query_display_total q : wf_query q -> displayable q.
Proof.
  intros W. pose proof (getHumanReadableState_total q W) as [t Ht].
  split; [by apply getQueryStateColor_total|]. split; [eauto|].
  destruct W as ([st Hst] & _ & _).
  unfold getProgressBarTitle, getProgressBarPercentage. rewrite Hst, Ht. cbn.
  split; case_ifs; eauto.
Qed.

Lemma query_display_total_witness :
  wf_query (sample_query "q" "RUNNING") /\ displayable (sample_query "q" "RUNNING").
Proof.
  assert (W : wf_query (sample_query "q" "RUNNING")).
  { split; [eexists; reflexivity|]. split; [intros H; discriminate H|eexists; reflexivity]. }
  split; [exact W|apply (query_display_total _ W)].
Defined.

(** C35: For a progress between 0 and 100 percent the progress bar is an integer
    between 0 and 100; a progress that is missing, or a query that does not
    run, shows a full bar. *)
Theorem progress_percentage_range q st :
  q_queryStats q = Some st ->
  match qs_progressPercentage st with
  | JNum p => fin p = true /\ valid p /\ nonneg p = true /\ (p <=f num 100) = true
  | _ => True
  end ->
  exists k, 0 <= k <= 100 /\
    (getProgressBarPercentage q = Ok (num k)) /\
    (q_state q <> js "RUNNING" \/ qs_progressPercentage st = JNull \/
     qs_progressPercentage st = JUndef -> k = 100).
Proof.
  intros Hst Hp. unfold getProgressBarPercentage. rewrite Hst. cbn [get_prop mbind res_bind].
  destruct (qs_progressPercentage st) as [p| |] eqn:Ep; try (exists 100; by repeat split; try lia).
  destruct Hp as (F & V & N & H). cbn [jsnum_truthy ToNumber].
  destruct (str_eqb_spec (q_state q) "RUNNING") as [Es|Es].
  2: { rewrite orb_true_r. exists 100. repeat split; lia. }
  rewrite orb_false_r.
  apply nonneg_cases in N as [[s ->]|[->|(m & e & ->)]]; [|done|].
  { exists 100. repeat split; lia. }
  destruct (num_spec 100 ltac:(lia)) as (V1 & F1 & E1).
  rewrite nle_fval, E1, Z.leb_le in H by done.
  pose proof (denom_pos e). pose proof (numer_nonneg m e). pose proof (pow2_pos 1074 ltac:(lia)).
  assert (numer m e <= 100 * denom e).
  { unfold valid in V. cbn [valid_binary] in V. apply bounded_facts in V as [V _].
    pose proof (numer_fval m e ltac:(lia)). nia. }
  exists ((2 * numer m e + denom e) / (2 * denom e)). split; [split|].
  - apply Z.div_pos; lia.
  - apply Z.lt_succ_r, Z.div_lt_upper_bound; lia.
  - split; [|intros [?|[?|?]]; done]. cbn [truthy negb Math_round cond_Zopp].
    case_match; [|done]. bools. by f_equal; rewrite H4.
Qed.

Lemma progress_percentage_range_witness :
  exists k, 0 <= k <= 100 /\
    (getProgressBarPercentage (sample_query "q" "RUNNING") = Ok (num k)) /\
    (q_state (sample_query "q" "RUNNING") <> js "RUNNING" \/
     qs_progressPercentage sample_stats = JNull \/
     qs_progressPercentage sample_stats = JUndef -> k = 100).
Proof.
  apply (progress_percentage_range (sample_query "q" "RUNNING") sample_stats); [reflexivity|].
  vm_compute. repeat split; reflexivity.
Defined.

(** ** Histories *)

(** The last [n] elements. *)
Definition lastn {A} (n : nat) (l : list A) : list A := drop (length l - n) l.

Lemma lastn_length {A} n (l : list A) : length (lastn n l) = (length l `min` n)%nat.
Proof. unfold lastn. rewrite length_drop. lia. Qed.

Lemma append_bounded_length {A} (v : A) l :
  (length l <= 301)%nat -> length (append_bounded v l) = (S (length l) `min` 301)%nat.
Proof.
  intros H. unfold append_bounded, MAX_HISTORY. rewrite length_drop, length_app. cbn [length]. lia.
Qed.

Lemma append_bounded_lastn {A} (v : A) l :
  append_bounded v (lastn 301 l) = lastn 301 (l ++ [v]).
Proof.
  unfold append_bounded, MAX_HISTORY. rewrite lastn_length.
  unfold lastn. rewrite length_app. cbn [length].
  rewrite (drop_app_le l [v]) by lia.
  destruct (decide (length l <= 300)%nat) as [H|H].
  - replace (Z.to_nat (Z.max (Z.of_nat (length l `min` 301)%nat - 60 * 5) 0)) with 0%nat by lia.
    replace (length l - 301)%nat with 0%nat by lia.
    by replace (length l + 1 - 301)%nat with 0%nat by lia.
  - replace (Z.to_nat (Z.max (Z.of_nat (length l `min` 301)%nat - 60 * 5) 0)) with 1%nat by lia.
    rewrite drop_app_le by (rewrite length_drop; lia). rewrite drop_drop. do 2 f_equal. lia.
Qed.

Lemma addToHistory_append {A} (v : A) l : addToHistory v l = append_bounded v l.
Proof. by destruct l. Qed.

(** A history to which samples are only added through [addToHistory] holds
    exactly the last 301 samples, in the order they arrived. *)
Theorem history_window {A} (samples : list A) :
  fold_left (fun h v => addToHistory v h) samples [] = lastn 301 samples.
Proof.
  induction samples as [|v l IH] using rev_ind; [done|].
  rewrite fold_left_app, IH. cbn [fold_left].
  rewrite addToHistory_append. apply append_bounded_lastn.
Qed.

Definition history_ok (h : list number) : Prop :=
  (length h <= 301)%nat /\ Forall (fun x => nonneg x = true) h.

Lemma Forall_drop_app {A} (P : A -> Prop) n l v : Forall P l -> P v -> Forall P (drop n (l ++ [v])).
Proof. intros. apply Forall_drop, Forall_app. auto. Qed.

Lemma last_Forall {A} (P : A -> Prop) (l : list A) d : l <> [] -> Forall P l -> P (List.last l d).
Proof.
  intros N H. destruct (exists_last N) as (l' & x & ->). rewrite last_last.
  apply Forall_app in H as [_ H]. by inversion H.
Qed.

Lemma average_ok h v :
  history_ok h -> nonneg v = true ->
  history_ok (addExponentiallyWeightedToHistory v h) /\
  length (addExponentiallyWeightedToHistory v h) = (S (length h) `min` 301)%nat.
Proof.
  intros [L N] V. unfold addExponentiallyWeightedToHistory.
  destruct h as [|x h'] eqn:E; [repeat split; cbn; [lia|by constructor]|]. rewrite <- E in *.
  unfold history_ok. rewrite append_bounded_length by done. repeat split; [lia|].
  apply Forall_drop_app; [done|]. destruct (v <f num 1); [done|].
  apply nonneg_add; apply nonneg_mul_pos; try done.
  apply (last_Forall (fun x => nonneg x = true)); [by rewrite E|done].
Qed.

(** The moving average keeps a history of rates well formed: at most 301
    samples, none of them negative or [NaN], one more sample at every tick
    until the bound is reached. *)
Theorem moving_average_ok h v :
  history_ok h -> nonneg v = true ->
  history_ok (addExponentiallyWeightedToHistory v h) /\
  length (addExponentiallyWeightedToHistory v h) = (S (length h) `min` 301)%nat.
Proof. apply average_ok. Qed.

Lemma moving_average_ok_witness :
  history_ok (addExponentiallyWeightedToHistory (num 5) [num 3; num 10]) /\
  length (addExponentiallyWeightedToHistory (num 5) [num 3; num 10]) = (S 2 `min` 301)%nat.
Proof.
  apply (moving_average_ok [num 3; num 10] (num 5)); [|reflexivity].
  split; [cbn; lia|]. repeat constructor.
Defined.

(** ** Identifiers *)

Lemma dec_notin c n : 0 <= n -> is_digit c = false -> c ∉ dec n.
Proof.
  intros Hn Hc Hin. pose proof (dec_digits n Hn) as D. unfold digits in D.
  rewrite Forall_forall in D. specialize (D c Hin). congruence.
Qed.

Lemma drop_past (a : jsstring) c b : drop (Z.to_nat (str_length a + 1)) (a ++ c :: b) = b.
Proof.
  unfold str_length. replace (Z.to_nat (Z.of_nat (length a) + 1)) with (length (a ++ [c]))
    by (rewrite length_app; cbn; lia).
  change (a ++ c :: b) with (a ++ [c] ++ b). rewrite app_assoc. by rewrite drop_app_length.
Qed.

Lemma length_past (a : jsstring) c b : 0 <= str_length a + 1 <= str_length (a ++ c :: b).
Proof. unfold str_length. rewrite length_app. cbn [length]. lia. Qed.

Lemma suffix_after_dot a b : 46 ∉ a -> getTaskIdSuffix (a ++ js "." ++ b) = b.
Proof.
  intros H. unfold getTaskIdSuffix. change (js ".") with [46]. cbn [app].
  rewrite indexOf_unit by done. rewrite slice_drop by apply length_past. apply drop_past.
Qed.

(** Stage and task ids as the server prints them: [query.stage] and
    [query.stage.stageExecution.task]. *)
Definition stage_id (query : jsstring) (stage : Z) : jsstring := query ++ js "." ++ dec stage.
Definition task_id (query : jsstring) (stage execution task : Z) : jsstring :=
  query ++ js "." ++ dec stage ++ js "." ++ dec execution ++ js "." ++ dec task.

Lemma getTaskNumber_id query stage execution task :
  46 ∉ query -> 0 <= stage -> 0 <= execution -> 0 <= task ->
  getTaskNumber (task_id query stage execution task) = num execution.
Proof.
  intros Hq Hs He Ht. unfold getTaskNumber, task_id.
  rewrite !suffix_after_dot by (done || by apply dec_notin).
  apply parseInt_dec; [done|]. cbn. repeat split; lia.
Qed.

(** On the ids the server prints, [getStageNumber] is the stage number and
    [getTaskIdSuffix] drops the query id, but [getTaskNumber], which skips only
    two components, is the number of the stage execution (the attempt) and not
    the task's. *)
Theorem id_numbers query stage execution task :
  46 ∉ query -> 0 <= stage -> 0 <= execution -> 0 <= task ->
  getStageNumber (stage_id query stage) = num stage /\
  getTaskIdSuffix (task_id query stage execution task) =
    dec stage ++ js "." ++ dec execution ++ js "." ++ dec task /\
  getTaskNumber (task_id query stage execution task) = num execution.
Proof.
  intros Hq Hs He Ht. split; [|split; [|by apply getTaskNumber_id]]; unfold stage_id, task_id.
  - change (parseInt (getTaskIdSuffix (query ++ js "." ++ dec stage)) = num stage).
    rewrite suffix_after_dot by done. rewrite <- (app_nil_r (dec stage)).
    by apply parseInt_dec.
  - by rewrite suffix_after_dot.
Qed.

Lemma id_numbers_witness :
  getStageNumber (stage_id "20200601_000000_00001_abcde" 3) = num 3 /\
  getTaskIdSuffix (task_id "20200601_000000_00001_abcde" 3 0 17) =
    dec 3 ++ js "." ++ dec 0 ++ js "." ++ dec 17 /\
  getTaskNumber (task_id "20200601_000000_00001_abcde" 3 0 17) = num 0.
Proof.
  apply (id_numbers "20200601_000000_00001_abcde" 3 0 17); [|lia..].
  intros H. apply (bool_decide_eq_true_2 _) in H. vm_compute in H. discriminate H.
Defined.

(** [removeNodeTypePackage] keeps exactly what follows the last dot of a
    class name, and the whole name when there is none. *)
Theorem removeNodeTypePackage_spec package name :
  46 ∉ name ->
  removeNodeTypePackage (package ++ js "." ++ name) = name /\ removeNodeTypePackage name = name.
Proof.
  intros H. unfold removeNodeTypePackage, lastIndexOf. change (js ".") with [46]. cbn [app]. split.
  - rewrite find_last_app by done. fold (str_length package).
    rewrite substr_from_drop by apply length_past. apply drop_past.
  - rewrite find_last_none by done. apply substr_from_drop. unfold str_length. lia.
Qed.

Lemma removeNodeTypePackage_spec_witness :
  removeNodeTypePackage (js "com.facebook" ++ js "." ++ js "JoinNode") = js "JoinNode" /\
  removeNodeTypePackage (js "JoinNode") = js "JoinNode".
Proof.
  apply (removeNodeTypePackage_spec (js "com.facebook") (js "JoinNode")).
  intros H. apply (bool_decide_eq_true_2 _) in H. vm_compute in H. discriminate H.
Defined.

(** ** Dates *)

Definition read_short_time (s : jsstring) : Z * Z :=
  let '(h, r) := span is_digit s in
  let '(mi, r) := span is_digit (drop 1 r) in
  (undec h mod 12 + (if r === "pm" then 12 else 0), undec mi).

Definition read_short_date_time (s : jsstring) : Z * Z * Z * (Z * Z) :=
  let '(y, r) := span is_digit s in
  (undec y, undec (take 2 (drop 1 r)), undec (take 2 (drop 4 r)), read_short_time (drop 7 r)).

(** The integers from [0] to [n - 1]. *)
Definition upto (n : Z) : list Z := map Z.of_nat (seq 0 (Z.to_nat n)).

Lemma upto_in n k : 0 <= k < n -> In k (upto n).
Proof.
  intros H. apply in_map_iff. exists (Z.to_nat k). split; [lia|]. apply in_seq. lia.
Qed.

Lemma forall_upto (p : Z -> bool) n : forallb p (upto n) = true -> forall k, 0 <= k < n -> p k = true.
Proof. rewrite forallb_forall. intros H k Hk. by apply H, upto_in. Qed.

Lemma read_short_time_format y mo d h mi :
  0 <= h < 24 -> 0 <= mi < 60 ->
  read_short_time (formatShortTime (LocalDate y mo d h mi)) = (h, mi).
Proof.
  intros Hh Hm.
  assert (C : forallb (fun h => forallb (fun mi =>
      bool_decide (read_short_time (formatShortTime (LocalDate 0 0 0 h mi)) = (h, mi)))
      (upto 60)) (upto 24) = true) by (vm_compute; reflexivity).
  pose proof (forall_upto _ _ C h Hh) as C'. cbn beta in C'.
  pose proof (forall_upto _ _ C' mi Hm) as C''. by apply bool_decide_eq_true in C''.
Qed.

Lemma pad2_two k : 0 <= k < 100 -> exists a b, pad2 (int_to_string k) = [a; b] /\ undec [a; b] = k.
Proof.
  intros Hk.
  assert (C : forallb (fun k => match pad2 (int_to_string k) with
      | [a; b] => undec [a; b] =? k | _ => false end) (upto 100) = true) by (vm_compute; reflexivity).
  pose proof (forall_upto _ _ C k Hk) as C'. cbn beta in C'.
  destruct (pad2 (int_to_string k)) as [|a [|b [|]]]; try done. exists a, b. by bools.
Qed.

(** [formatShortDateTime] loses nothing: year, month, day, hour and minute
    can be read back from its text, so two different minutes never look the
    same (midnight is 12:00am, noon 12:00pm). *)
Theorem formatShortDateTime_roundtrip y mo d h mi :
  0 <= y -> 0 <= mo < 12 -> 1 <= d <= 31 -> 0 <= h < 24 -> 0 <= mi < 60 ->
  read_short_date_time (formatShortDateTime (LocalDate y mo d h mi)) = (y, mo + 1, d, (h, mi)).
Proof.
  intros Hy Hmo Hd Hh Hm. unfold read_short_date_time. cbn [formatShortDateTime].
  unfold int_to_string at 1. rewrite (proj2 (Z.ltb_ge y 0)) by done.
  destruct (pad2_two (mo + 1) ltac:(lia)) as (a & b & -> & Ea).
  destruct (pad2_two d ltac:(lia)) as (a' & b' & -> & Ea').
  change (js "-") with [45]. change (js " ") with [32].
  rewrite span_digits; [|by apply dec_digits|done].
  rewrite undec_dec by done. cbn [app drop take].
  by rewrite drop_0, read_short_time_format, Ea, Ea' by done.
Qed.

Lemma formatShortDateTime_roundtrip_witness :
  read_short_date_time (formatShortDateTime (LocalDate 2020 0 9 12 5)) = (2020, 0 + 1, 9, (12, 5)).
Proof. apply (formatShortDateTime_roundtrip 2020 0 9 12 5); lia. Defined.
