(* ===== verification/JsDate.v ===== *)
(** * Dates

    [Date.parse] on the timestamps the server sends and the local-time fields
    of a [Date].  A timestamp has the ECMAScript date-time format
    [YYYY-MM-DDTHH:mm:ss.sssZ]; what a browser does with any other text, and
    the local time zone, belong to the environment. *)

From S2P Require Import Prelude JsString JsNumber Utils.

Class DateEnv := {
  (** [Date.parse] of a text that is not in the date-time format. *)
  parse_other : jsstring -> option Z;
  (** Minutes to add to UTC at an instant given in milliseconds. *)
  tz_minutes : Z -> Z
}.

(** Days from 1970-01-01 to a date of the proleptic Gregorian calendar; months
    count from March so that the leap day ends the year. *)
Definition days_from_civil (y m d : Z) : Z :=
  let y := if m <=? 2 then y - 1 else y in
  let mp := (m + 9) mod 12 in
  365 * y + y / 4 - y / 100 + y / 400 + (153 * mp + 2) / 5 + d - 1 - 719468.

(** The date of a day number. *)
Definition civil_from_days (z : Z) : Z * Z * Z :=
  let z := z + 719468 in
  let era := z / 146097 in
  let doe := z mod 146097 in
  let yoe := (doe - doe / 1460 + doe / 36524 - doe / 146096) / 365 in
  let doy := doe - (365 * yoe + yoe / 4 - yoe / 100) in
  let mp := (5 * doy + 2) / 153 in
  let d := doy - (153 * mp + 2) / 5 + 1 in
  let m := if mp <? 10 then mp + 3 else mp - 9 in
  (yoe + era * 400 + (if m <=? 2 then 1 else 0), m, d).

Definition leap (y : Z) : bool := (y mod 4 =? 0) && (negb (y mod 100 =? 0) || (y mod 400 =? 0)).
Definition days_in_month (y m : Z) : Z :=
  if m =? 2 then if leap y then 29 else 28
  else if (m =? 4) || (m =? 6) || (m =? 9) || (m =? 11) then 30 else 31.

(** Milliseconds since the epoch of a UTC date and time. *)
Definition utc (y mo d h mi s ms : Z) : Z :=
  (((days_from_civil y mo d * 24 + h) * 60 + mi) * 60 + s) * 1000 + ms.

(** [n] digits, then the unit [c]. *)
Definition field (n : nat) (c : Z) (s : jsstring) : option (Z * jsstring) :=
  let ds := take n s in
  match drop n s with
  | x :: r => if (length ds =? n)%nat && forallb is_digit ds && (x =? c) then Some (undec ds, r) else None
  | [] => None
  end.

(** The date-time format, [None] when the text has another shape or a field is
    out of range. *)
Definition parse_iso (s : jsstring) : option Z :=
  '(y, s) ← field 4 45 s; '(mo, s) ← field 2 45 s; '(d, s) ← field 2 84 s;
  '(h, s) ← field 2 58 s; '(mi, s) ← field 2 58 s; '(sec, s) ← field 2 46 s;
  '(ms, s) ← field 3 90 s;
  match s with
  | [] =>
      if (1 <=? mo) && (mo <=? 12) && (1 <=? d) && (d <=? days_in_month y mo) &&
         (h <=? 23) && (mi <=? 59) && (sec <=? 59)
      then Some (utc y mo d h mi sec ms) else None
  | _ => None
  end.

Section date.
Context `{DateEnv}.

Definition parse_time (s : jsstring) : option Z :=
  match parse_iso s with Some t => Some t | None => parse_other s end.

(** [Date.parse(s)]. *)
Definition Date_parse (s : jsstring) : number :=
  match parse_time s with Some t => num t | None => NaN end.

(** [new Date(t)] for a time in milliseconds. *)
Definition date_of (t : option Z) : jsdate :=
  match t with
  | None => InvalidDate
  | Some t =>
      let minutes := t / 60000 + tz_minutes t in
      let '(y, m, d) := civil_from_days (minutes / 1440) in
      LocalDate y (m - 1) d (minutes mod 1440 / 60) (minutes mod 60)
  end.
End date.

(** A fixed environment: UTC, and no other format understood. *)
#[local] Instance utc_env : DateEnv := {| parse_other := fun _ => None; tz_minutes := fun _ => 0 |}.

Example parse_epoch_day : parse_iso "2020-06-01T10:20:30.456Z" = Some 1591006830456.
Proof. vm_compute. reflexivity. Qed.
Example date_fields : date_of (Some 1591006830456) = LocalDate 2020 5 1 10 20.
Proof. vm_compute. reflexivity. Qed.
Example leap_day : civil_from_days (days_from_civil 2000 2 29) = (2000, 2, 29).
Proof. vm_compute. reflexivity. Qed.
