(* ===== verification/EventLoop.v ===== *)
(** * Component instances and the browser's event loop

    A mounted React component is an object with its React state, the fields in
    which it remembers the ids of the timers it armed, and what the browser
    holds for it: armed timers and requests that have not been answered.
    [S] is the type of its state, [T] its timers (each with the callback it
    runs and the field that keeps its id) and [R] its requests.  Callbacks run
    one at a time to completion; an exception that nobody catches ends the
    callback and is reported on the console. *)

From S2P Require Import Prelude.
From stdpp Require Import functions.

Section instance.
Context {S T R : Type} `{EqDecision T}.

Record Inst := mkInst {
  st : S;                        (** this.state *)
  ids : T -> option nat;         (** this.timeoutId and the like; undefined at first *)
  timers : list (nat * T);       (** armed timers *)
  next_id : nat;
  inflight : list R;             (** requests without an answer yet *)
  console : list js_error        (** uncaught exceptions *)
}.

Definition mount (s : S) : Inst := mkInst s (fun _ => None) [] 0 [] [].

Definition setState (f : S -> S) (i : Inst) : Inst :=
  mkInst (f (st i)) (ids i) (timers i) (next_id i) (inflight i) (console i).

Definition disarm (n : nat) (l : list (nat * T)) : list (nat * T) :=
  List.filter (fun t => negb (t.1 =? n)%nat) l.

(** [clearTimeout(this.<field of k>)]. *)
Definition clear (k : T) (i : Inst) : Inst :=
  match ids i k with
  | None => i
  | Some n => mkInst (st i) (ids i) (disarm n (timers i)) (next_id i) (inflight i) (console i)
  end.

(** [this.<field of k> = setTimeout(<callback of k>, ...)]. *)
Definition arm (k : T) (i : Inst) : Inst :=
  mkInst (st i) (<[k := Some (next_id i)]> (ids i)) ((next_id i, k) :: timers i)
    (Datatypes.S (next_id i)) (inflight i) (console i).

(** [$.get(...)]. *)
Definition send (r : R) (i : Inst) : Inst :=
  mkInst (st i) (ids i) (timers i) (next_id i) (r :: inflight i) (console i).

Definition report (e : js_error) (i : Inst) : Inst :=
  mkInst (st i) (ids i) (timers i) (next_id i) (inflight i) (console i ++ [e]).

(** The rest [k] of a callback runs only when [r] did not throw. *)
Definition attempt {A} (r : res A) (k : A -> Inst) (i : Inst) : Inst :=
  match r with Ok a => k a | Throw e => report e i end.

(** Number of armed timers of kind [k]. *)
Definition armed (k : T) (i : Inst) : nat :=
  length (List.filter (fun t => bool_decide (t.2 = k)) (timers i)).

(** What the browser does with the instance, for callbacks [on_timer] and
    [on_answer] of a component: a timer fires, an answer arrives ([admissible]
    ones only), or the user does something. *)
Section steps.
Context {Answer Event : Type}.
Variables (on_timer : T -> Inst -> Inst)
          (on_answer : R -> Answer -> Inst -> Inst)
          (on_event : Event -> Inst -> Inst)
          (admissible : Answer -> Prop).

Inductive step : Inst -> Inst -> Prop :=
  | step_timer i n k l1 l2 :
      timers i = l1 ++ (n, k) :: l2 ->
      step i (on_timer k (mkInst (st i) (ids i) (l1 ++ l2) (next_id i) (inflight i) (console i)))
  | step_answer i r a l1 l2 :
      inflight i = l1 ++ r :: l2 -> admissible a ->
      step i (on_answer r a (mkInst (st i) (ids i) (timers i) (next_id i) (l1 ++ l2) (console i)))
  | step_event i e : step i (on_event e i).

(** The states of an instance from the one [i0] it is mounted in. *)
Definition reachable (i0 : Inst) : Inst -> Prop := rtc step i0.

Lemma reachable_ind_inv (i0 : Inst) (P : Inst -> Prop) :
  P i0 -> (forall i i', reachable i0 i -> P i -> step i i' -> P i') ->
  forall i, reachable i0 i -> P i.
Proof.
  intros H0 Hs. apply rtc_ind_r; [exact H0|]. intros y z Hy Hyz IH. by eapply Hs.
Qed.

(** The same with the answers that arrived on the way, the first one first. *)
Inductive trace (i0 : Inst) : list Answer -> Inst -> Prop :=
  | trace_start : trace i0 [] i0
  | trace_timer l i n k l1 l2 :
      trace i0 l i -> timers i = l1 ++ (n, k) :: l2 ->
      trace i0 l (on_timer k (mkInst (st i) (ids i) (l1 ++ l2) (next_id i) (inflight i) (console i)))
  | trace_answer l i r a l1 l2 :
      trace i0 l i -> inflight i = l1 ++ r :: l2 -> admissible a ->
      trace i0 (l ++ [a]) (on_answer r a (mkInst (st i) (ids i) (timers i) (next_id i) (l1 ++ l2) (console i)))
  | trace_event l i e : trace i0 l i -> trace i0 l (on_event e i).

Lemma trace_reachable i0 l i : trace i0 l i -> reachable i0 i.
Proof.
  unfold reachable.
  induction 1 as [|l i n k l1 l2 _ IH Ht|l i r a l1 l2 _ IH Ht Ha|l i e _ IH]; [apply rtc_refl|..];
    (eapply rtc_r; [exact IH|]); by econstructor.
Qed.

Lemma reachable_trace i0 i : reachable i0 i -> exists l, trace i0 l i.
Proof.
  revert i. apply reachable_ind_inv; [exists []; constructor|]. intros i i' _ [l IH] Hs.
  destruct Hs as [i n k l1 l2 Ht|i r a l1 l2 Ht Ha|i e].
  - exists l. by econstructor.
  - exists (l ++ [a]). by econstructor.
  - exists l. by constructor.
Qed.
End steps.

(** ** Timer discipline

    Every armed timer is the one its field remembers: a component that clears a
    field before it arms the timer again never has two of a kind. *)
Definition timers_ok (i : Inst) : Prop :=
  NoDup (map fst (timers i)) /\
  (forall n k, (n, k) ∈ timers i -> ids i k = Some n) /\
  (forall n k, ids i k = Some n -> (n < next_id i)%nat) /\
  (forall n k k', ids i k = Some n -> ids i k' = Some n -> k = k').

Lemma mount_ok s : timers_ok (mount s).
Proof. repeat split; [constructor|intros n k H; inversion H|done|done]. Qed.

Lemma setState_ok f i : timers_ok i -> timers_ok (setState f i).
Proof. done. Qed.

Lemma send_ok r i : timers_ok i -> timers_ok (send r i).
Proof. done. Qed.

Lemma report_ok e i : timers_ok i -> timers_ok (report e i).
Proof. done. Qed.

Lemma disarm_in n l x : x ∈ disarm n l <-> x ∈ l /\ x.1 <> n.
Proof. unfold disarm. rewrite list_filter_In, negb_true_iff. by rewrite Nat.eqb_neq. Qed.

Lemma sublist_in {A} (l l' : list A) x : l `sublist_of` l' -> x ∈ l -> x ∈ l'.
Proof.
  induction 1 as [|y l l' _ IH|y l l' _ IH]; rewrite ?elem_of_cons; intuition.
Qed.

(** Timers may disappear: they fire or are cleared. *)
Lemma fewer_timers_ok i l :
  timers_ok i -> l `sublist_of` timers i ->
  timers_ok (mkInst (st i) (ids i) l (next_id i) (inflight i) (console i)).
Proof.
  intros (N & H & Hb & Hu) Hs. split; [|split; [|done]]; cbn.
  - eapply sublist_NoDup; [exact N|by apply (fmap_sublist fst)].
  - intros n k Hin. apply H. by apply (sublist_in _ _ _ Hs).
Qed.

Lemma fired_ok i n k l1 l2 :
  timers i = l1 ++ (n, k) :: l2 -> timers_ok i ->
  timers_ok (mkInst (st i) (ids i) (l1 ++ l2) (next_id i) (inflight i) (console i)).
Proof.
  intros E Hok. apply fewer_timers_ok; [done|]. rewrite E.
  apply sublist_app; [done|]. by apply sublist_cons.
Qed.

Lemma answered_ok i l :
  timers_ok i -> timers_ok (mkInst (st i) (ids i) (timers i) (next_id i) l (console i)).
Proof. done. Qed.

Lemma filter_sublist {A} (p : A -> bool) l : List.filter p l `sublist_of` l.
Proof.
  induction l as [|x l IH]; cbn; [done|].
  destruct (p x); [by apply sublist_skip|by apply sublist_cons].
Qed.

Lemma clear_ok k i : timers_ok i -> timers_ok (clear k i).
Proof.
  intros Hok. unfold clear. destruct (ids i k) as [n|]; [|done].
  apply fewer_timers_ok; [done|]. apply filter_sublist.
Qed.

Lemma clear_none k i n : timers_ok i -> (n, k) ∉ timers (clear k i).
Proof.
  intros (_ & H & _) Hin. unfold clear in Hin. destruct (ids i k) as [m|] eqn:E; cbn in Hin.
  - apply disarm_in in Hin as [Hin Hne]. apply H in Hin. cbn in Hne. congruence.
  - apply H in Hin. congruence.
Qed.

Lemma clear_ids k i : ids (clear k i) = ids i /\ next_id (clear k i) = next_id i.
Proof. unfold clear. by destruct (ids i k). Qed.

Lemma clear_st k i : st (clear k i) = st i.
Proof. unfold clear. by destruct (ids i k). Qed.
Lemma clear_inflight k i : inflight (clear k i) = inflight i.
Proof. unfold clear. by destruct (ids i k). Qed.
Lemma clear_console k i : console (clear k i) = console i.
Proof. unfold clear. by destruct (ids i k). Qed.

Lemma arm_clear_ok k i : timers_ok i -> timers_ok (arm k (clear k i)).
Proof.
  intros Hok. pose proof (clear_ok k i Hok) as (N & H & Hb & Hu).
  pose proof (fun n => clear_none k i n Hok) as Hnone.
  repeat split; cbn.
  - constructor; [|done]. intros Hin.
    apply list_elem_of_In, in_map_iff in Hin as ([m k'] & E & Hin). cbn in E. subst m.
    apply list_elem_of_In, H, Hb in Hin. lia.
  - intros n k' [[= -> ->]|Hin]%elem_of_cons; [apply fn_lookup_insert|].
    assert (k' <> k) by (intros ->; exact (Hnone n Hin)).
    rewrite fn_lookup_insert_ne by done. by apply H.
  - intros n k'. destruct (decide (k = k')) as [<-|Hne].
    + rewrite fn_lookup_insert. intros [= <-]. lia.
    + rewrite fn_lookup_insert_ne by done. intros Hid%Hb. lia.
  - intros n k1 k2. destruct (decide (k = k1)) as [<-|H1], (decide (k = k2)) as [<-|H2]; [done| | |].
    + rewrite fn_lookup_insert, fn_lookup_insert_ne by done. intros [= <-] Hid%Hb. lia.
    + rewrite fn_lookup_insert, fn_lookup_insert_ne by done. intros Hid%Hb [= <-]. lia.
    + rewrite !fn_lookup_insert_ne by done. apply Hu.
Qed.

(** ** Counting timers *)

Lemma armed_arm_eq k i : armed k (arm k i) = Datatypes.S (armed k i).
Proof. unfold armed. cbn. by rewrite bool_decide_eq_true_2. Qed.

Lemma armed_arm_ne k k' i : k' <> k -> armed k (arm k' i) = armed k i.
Proof. intros. unfold armed. cbn. by rewrite bool_decide_eq_false_2. Qed.

Lemma filter_none {A} (p : A -> bool) l : (forall x, x ∈ l -> p x = false) -> List.filter p l = [].
Proof.
  induction l as [|x l IH]; intros H; [done|]. cbn. rewrite H by left.
  apply IH. intros y Hy. apply H. by right.
Qed.

Lemma armed_clear_eq k i : timers_ok i -> armed k (clear k i) = 0%nat.
Proof.
  intros Hok. unfold armed. rewrite filter_none; [done|]. intros [n k'] Hin. cbn.
  apply bool_decide_eq_false_2. intros ->. by apply (clear_none k i n Hok).
Qed.

Lemma filter_absorb {A} (p q : A -> bool) l :
  (forall x, x ∈ l -> p x = true -> q x = true) -> List.filter p (List.filter q l) = List.filter p l.
Proof.
  induction l as [|x l IH]; intros H; [done|]. cbn.
  destruct (q x) eqn:Q; cbn; rewrite IH by (intros; apply H; [by right|done]); [done|].
  destruct (p x) eqn:P; [|done]. rewrite H in Q; [done|left|done].
Qed.

Lemma armed_clear_ne k k' i : timers_ok i -> k' <> k -> armed k (clear k' i) = armed k i.
Proof.
  intros (N & H & Hb & Hu) Hne. unfold armed, clear. destruct (ids i k') as [n|] eqn:E; [|done]. cbn.
  f_equal. apply filter_absorb. intros [m k''] Hin Hp. cbn in *. apply bool_decide_eq_true in Hp. subst.
  apply negb_true_iff, Nat.eqb_neq. intros ->. apply H in Hin. eauto.
Qed.

(** The timer of kind [k] that fires was the only one of its kind. *)
Lemma armed_fired k n k' i l1 l2 :
  timers i = l1 ++ (n, k') :: l2 ->
  armed k i = ((if bool_decide (k' = k) then 1 else 0) +
    armed k (mkInst (st i) (ids i) (l1 ++ l2) (next_id i) (inflight i) (console i)))%nat.
Proof.
  intros E. unfold armed. rewrite E. cbn. rewrite !filter_app, !length_app. cbn.
  case_bool_decide; cbn; lia.
Qed.

Lemma at_most_one_armed k i : timers_ok i -> (armed k i <= 1)%nat.
Proof.
  intros (N & H & _). unfold armed.
  assert (Hall : forall t, t ∈ List.filter (fun t => bool_decide (t.2 = k)) (timers i) ->
                 ids i k = Some t.1).
  { intros [n k'] [Hin Hk]%list_filter_In. cbn in *. apply bool_decide_eq_true in Hk. subst. by apply H. }
  pose proof (NoDup_map_filter fst (fun t => bool_decide (t.2 = k)) _ N) as N'.
  destruct (List.filter _ _) as [|a [|b l]]; cbn; [lia..|]. exfalso.
  pose proof (Hall a ltac:(left)). pose proof (Hall b ltac:(right; left)).
  inversion N' as [|? ? Hn]. apply Hn. replace (a.1) with (b.1) by congruence. left.
Qed.

(** ** Polling

    The interface between a component that polls the server and the browser:
    the component has a refresh timer [k]; what it does on every callback keeps
    at most one refresh pending, be it as an armed timer or as a request. *)
Section polling.
Context {Answer Event : Type}.
Variables (k : T) (stopped : S -> bool).

Definition pending (i : Inst) : nat := (armed k i + length (inflight i))%nat.

(** At most one refresh is pending; none when the component has stopped, one
    when it has not and no callback has thrown. *)
Definition polls (i : Inst) : Prop :=
  timers_ok i /\ (pending i <= 1)%nat /\
  (stopped (st i) = true -> pending i = 0%nat) /\
  (console i = [] -> stopped (st i) = false -> pending i = 1%nat).

(** Nothing is pending: the state in which the callbacks of the timer and of the
    request start. *)
Definition idle (i : Inst) : Prop := timers_ok i /\ pending i = 0%nat.

Class Poller (on_timer : T -> Inst -> Inst) (on_answer : R -> Answer -> Inst -> Inst)
    (on_event : Event -> Inst -> Inst) : Prop := {
  poll_timer : forall i, idle i -> stopped (st i) = false -> polls (on_timer k i);
  poll_other : forall k' i, k' <> k -> polls i -> polls (on_timer k' i);
  poll_answer : forall r a i, idle i -> stopped (st i) = false -> polls (on_answer r a i);
  poll_event : forall e i, polls i -> polls (on_event e i)
}.

Lemma idle_pending i : pending i = 0%nat -> inflight i = [] /\ armed k i = 0%nat.
Proof. unfold pending. intros Hp. by destruct (inflight i); cbn in *; [split; [done|lia]|lia]. Qed.

(** What the callbacks of all the polling components are built from. *)
Lemma polls_arm i : idle i -> stopped (st i) = false -> polls (arm k (clear k i)).
Proof.
  intros [Hok Hp] Hs. pose proof (idle_pending i Hp) as [Hin _].
  unfold polls, pending. rewrite armed_arm_eq, armed_clear_eq by done. cbn. rewrite clear_inflight, Hin.
  cbn. split; [by apply arm_clear_ok|]. rewrite clear_st. split; [lia|]. split; [congruence|done].
Qed.

Lemma idle_clear k' i : idle i -> idle (clear k' i).
Proof.
  intros [Hok Hp]. pose proof (idle_pending i Hp) as [Hin Ha].
  split; [by apply clear_ok|]. unfold pending. rewrite clear_inflight, Hin.
  destruct (decide (k' = k)) as [->|Hne]; [by rewrite armed_clear_eq|]. by rewrite armed_clear_ne, Ha.
Qed.

Lemma polls_send r i : idle i -> stopped (st i) = false -> polls (send r i).
Proof.
  intros [Hok Hp] Hs. unfold polls.
  replace (pending (send r i)) with (Datatypes.S (pending i)) by (unfold pending, armed; cbn; lia).
  rewrite Hp. split; [done|]. split; [lia|]. split; [cbn; congruence|done].
Qed.

Lemma idle_setState f i : idle i -> idle (setState f i).
Proof. done. Qed.

Lemma polls_stopped i : idle i -> stopped (st i) = true -> polls i.
Proof. intros [Hok Hp] Hs. split; [done|]. split; [lia|]. split; [done|congruence]. Qed.

(** A timer that is armed again unless the component has stopped. *)
Lemma polls_reset i : idle i -> polls (let j := clear k i in if stopped (st j) then j else arm k j).
Proof.
  intros Hi. cbn zeta. rewrite clear_st. destruct (stopped (st i)) eqn:Hs.
  - apply polls_stopped; [by apply idle_clear|by rewrite clear_st].
  - by apply polls_arm.
Qed.

Lemma polls_report e i : polls i -> polls (report e i).
Proof.
  intros (Hok & Hp & H0 & _). split; [done|]. split; [done|]. split; [done|]. cbn. by destruct (console i).
Qed.

Lemma polls_report_idle e i : idle i -> polls (report e i).
Proof.
  intros [Hok Hp]. change (pending i) with (pending (report e i)) in Hp.
  split; [done|]. split; [lia|]. split; [done|]. cbn. by destruct (console i).
Qed.

Lemma polls_setState f i :
  stopped (f (st i)) = stopped (st i) -> polls i -> polls (setState f i).
Proof.
  intros Hf (Hok & Hp & H0 & H1). split; [done|]. split; [done|]. cbn. by rewrite Hf.
Qed.

(** A callback that leaves the refresh timer and the requests alone. *)
Lemma polls_keep i j :
  timers_ok j -> armed k j = armed k i -> inflight j = inflight i -> st j = st i ->
  console j = console i -> polls i -> polls j.
Proof. unfold polls, pending. intros Hj -> -> -> -> (_ & Hle & H1). auto. Qed.

Lemma polls_clear_other k' i : k' <> k -> polls i -> polls (clear k' i).
Proof.
  intros Hne Hp. pose proof Hp as (Hok & _). revert Hp.
  apply polls_keep; [by apply clear_ok|by apply armed_clear_ne|apply clear_inflight|apply clear_st|apply clear_console].
Qed.

Lemma no_other_request {A} (l1 l2 : list A) r n :
  (n + length (l1 ++ r :: l2) <= 1)%nat -> (n + length (l1 ++ l2) = 0)%nat.
Proof. rewrite !length_app. cbn. lia. Qed.

(** One refresh at a time, in every reachable state of every polling component. *)
Lemma poller_reachable on_timer on_answer on_event `{!Poller on_timer on_answer on_event} adm i0 i :
  polls i0 -> reachable on_timer on_answer on_event adm i0 i -> polls i.
Proof.
  intros H0. apply reachable_ind_inv; [done|].
  intros j j' _ Hp Hs. pose proof Hp as (Hok & Hle & Hz & H1).
  assert (Hst : pending j <> 0%nat -> stopped (st j) = false).
  { intros Hne. destruct (stopped (st j)); [|done]. by destruct Hne; apply Hz. }
  destruct Hs as [j n k' l1 l2 Ht|j r a l1 l2 Ht Ha|j e]; [| |by apply poll_event].
  - pose proof (fired_ok j n k' l1 l2 Ht Hok) as Hok'.
    pose proof (armed_fired k n k' j l1 l2 Ht) as Hf.
    case_bool_decide; subst.
    + apply poll_timer; [split; [done|]|apply Hst]; unfold pending in *; cbn in *; lia.
    + apply poll_other; [done|]. revert Hp. by apply polls_keep.
  - unfold pending in *. rewrite Ht in Hle, Hst. apply poll_answer; [split; [done|]|apply Hst].
    + unfold pending. cbn. by apply no_other_request in Hle.
    + rewrite length_app. cbn. lia.
Qed.

(** An answer arrives at a component that has not stopped. *)
Lemma answer_not_stopped i r l1 l2 : polls i -> inflight i = l1 ++ r :: l2 -> stopped (st i) = false.
Proof.
  intros (_ & _ & Hz & _) Hi. destruct (stopped (st i)); [|done]. specialize (Hz eq_refl). unfold pending in Hz.
  rewrite Hi, length_app in Hz. cbn in Hz. lia.
Qed.

Lemma polls_exact i :
  polls i -> console i = [] -> (armed k i + length (inflight i))%nat = if stopped (st i) then 0%nat else 1%nat.
Proof. intros (_ & _ & Hz & H1) Hc. destruct (stopped (st i)); auto. Qed.
End polling.
End instance.

Arguments Inst : clear implicits.

#[export] Hint Resolve mount_ok setState_ok send_ok report_ok clear_ok arm_clear_ok answered_ok : js.
#[export] Hint Resolve fired_ok : js.
#[export] Hint Resolve polls_arm idle_clear polls_send idle_setState polls_report polls_report_idle
  polls_clear_other polls_stopped : poll.
