(* ===== verification/React.v ===== *)
(** * React roots

    React renders a component whenever its state changes and runs
    [componentDidUpdate] of what it rendered.  [commit] of a component is that
    update as a function: the state after it, or the exception that one of the
    calls throws.  React removes a component whose update throws from the page,
    for good: [setState] does nothing from then on, but timers and requests of
    the component go on.  Outside React's own event handlers [setState] updates
    at once and the exception is thrown to its caller. *)

From S2P Require Import Prelude EventLoop.

Section root.
Context {S : Type}.

Record Root := mkRoot { r_state : S; r_mounted : bool }.

Definition new_root (s : S) : Root := mkRoot s true.

(** [this.setState(f)]: the root after the update, and what the call throws. *)
Definition update_root (commit : S -> res S) (f : S -> S) (r : Root) : Root * option js_error :=
  if r_mounted r then
    match commit (f (r_state r)) with
    | Ok s => (mkRoot s true, None)
    | Throw e => (mkRoot (f (r_state r)) false, Some e)
    end
  else (r, None).

(** What an update makes of a root. *)
Inductive updated (commit : S -> res S) (f : S -> S) : Root -> Root -> option js_error -> Prop :=
  | updated_shown s s' : commit (f s) = Ok s' -> updated commit f (mkRoot s true) (mkRoot s' true) None
  | updated_removed s e : commit (f s) = Throw e -> updated commit f (mkRoot s true) (mkRoot (f s) false) (Some e)
  | updated_gone s : updated commit f (mkRoot s false) (mkRoot s false) None.

Lemma update_root_spec commit f r : updated commit f r (update_root commit f r).1 (update_root commit f r).2.
Proof.
  unfold update_root. destruct r as [s []]; cbn; [|constructor].
  destruct (commit (f s)) eqn:E; by constructor.
Qed.

(** A removed component keeps its last state whatever is done to it. *)
Lemma update_gone commit f r : r_mounted r = false -> update_root commit f r = (r, None).
Proof. unfold update_root. by intros ->. Qed.

(** Nothing that [commit] does concerns a field [g] that [f] does not touch. *)
Lemma update_field {A} (g : S -> A) commit f r :
  (forall s s', commit s = Ok s' -> g s' = g s) -> (forall s, g (f s) = g s) ->
  g (r_state (update_root commit f r).1) = g (r_state r).
Proof.
  intros Hc Hf. destruct (update_root_spec commit f r) as [s s' E|s e E|s]; cbn; [|apply Hf|done].
  by rewrite (Hc _ _ E).
Qed.

Context {T R : Type}.

(** A callback that sets the state and goes on with [k]: an exception of the
    update ends it, and nobody catches it. *)
Definition set_then (commit : S -> res S) (f : S -> S) (k : Inst Root T R -> Inst Root T R)
    (i : Inst Root T R) : Inst Root T R :=
  let '(r, threw) := update_root commit f (st i) in
  let i := setState (fun _ => r) i in
  match threw with None => k i | Some e => report e i end.

(** A property of the state that neither [f] nor the update nor the rest breaks. *)
Lemma set_then_state (P : S -> Prop) commit f k i :
  (forall s s', commit s = Ok s' -> P s -> P s') -> (forall s, P s -> P (f s)) ->
  (forall i, P (r_state (st i)) -> P (r_state (st (k i)))) ->
  P (r_state (st i)) -> P (r_state (st (set_then commit f k i))).
Proof.
  intros Hc Hf Hk Hi. unfold set_then. pose proof (update_root_spec commit f (st i)) as Hs.
  destruct (update_root commit f (st i)) as [r e]. cbn in Hs.
  destruct Hs as [s s' E|s e E|s]; try apply Hk; cbn in *; eauto.
Qed.

(** A handler of an element: there is none once the component is removed. *)
Definition when_mounted (k : Inst Root T R -> Inst Root T R) (i : Inst Root T R) : Inst Root T R :=
  if r_mounted (st i) then k i else i.

(** A callback of a polling component that sets the state. *)
Lemma polls_set_then `{EqDecision T} (t : T) stopped commit f k i :
  (forall i, idle t i -> polls t stopped (k i)) -> idle t i -> polls t stopped (set_then commit f k i).
Proof.
  intros Hk Hi. unfold set_then. destruct (update_root _ _ _) as [r [e|]]; [by apply polls_report_idle|by apply Hk].
Qed.

(** A handler that sets something else than the end of the polling. *)
Lemma polls_set_event `{EqDecision T} (t : T) (stopped : S -> bool) commit f (i : Inst Root T R) :
  (forall s s', commit s = Ok s' -> stopped s' = stopped s) -> (forall s, stopped (f s) = stopped s) ->
  polls t (fun r => stopped (r_state r)) i -> polls t (fun r => stopped (r_state r)) (set_then commit f id i).
Proof.
  intros Hc Hf Hp. unfold set_then. pose proof (update_field stopped commit f (st i) Hc Hf) as E.
  destruct (update_root _ _ _) as [r [e|]]; [apply polls_report|]; by apply polls_setState.
Qed.

(** As long as nothing was thrown the component is there and its state is as [P] says. *)
Definition unless_thrown (P : S -> Prop) (i : Inst Root T R) : Prop :=
  console i = [] -> r_mounted (st i) = true /\ P (r_state (st i)).

Lemma report_unless P e i : unless_thrown P (report e i).
Proof. intros H. cbn in H. by destruct (console i). Qed.

Lemma set_then_unless (P Q : S -> Prop) commit f k i :
  (forall s s', commit s = Ok s' -> Q s -> Q s') -> (forall s, P s -> Q (f s)) ->
  (forall i, unless_thrown Q i -> unless_thrown Q (k i)) ->
  unless_thrown P i -> unless_thrown Q (set_then commit f k i).
Proof.
  intros Hc Hf Hk Hi. unfold set_then. pose proof (update_root_spec commit f (st i)) as Hs.
  destruct (update_root commit f (st i)) as [r threw]. cbn [fst snd] in Hs. unfold unless_thrown in Hi.
  destruct Hs as [s s' E|s e E|s]; [|apply report_unless|]; apply Hk; intros H0; cbn in H0 |- *;
    destruct (Hi H0) as [Hm Hp]; [|done].
  split; [done|]. apply (Hc _ _ E). by apply Hf.
Qed.
End root.

Arguments Root : clear implicits.
