(* ===== verification/VDom.v ===== *)
(** * Rendered trees

    What a [render] method returns: elements with attributes and children,
    text, numbers, and child components that are mounted with their props.
    [E] are the events of the component: an attribute such as
    [onClick={this.handleX.bind(this, a)}] carries the event that runs
    [handleX] with [a].  [C] are the child components with their props.  Keys,
    which only guide React's reconciliation, are left out of elements. *)

From S2P Require Import Prelude JsString JsNumber Data.

Section vdom.
Context {E C : Type}.

Inductive attr :=
  | AStr (s : jsstring)
  | ANum (x : jsnum)
  | AStyle (style : list (string * jsstring))
  | AOn (e : E)
  | AOnChange (e : jsstring -> E).

Inductive node :=
  | Txt (s : jsstring)
  | NumC (x : jsnum)
  | Nothing                       (* null, undefined, false *)
  | Arr (l : list node)
  | El (tag : string) (attrs : list (string * attr)) (children : list node)
  | Mount (c : C).

(** [{s}] where [s] may be [null] or [undefined]. *)
Definition opt_txt (s : option jsstring) : node :=
  match s with Some s => Txt s | None => Nothing end.

(** [className="..."] and the like. *)
Definition class_ (s : jsstring) : string * attr := ("className"%string, AStr s).
Definition sattr (n : string) (s : jsstring) : string * attr := (n, AStr s).
Definition style_ (l : list (string * jsstring)) : string * attr := ("style"%string, AStyle l).
Definition onClick (e : E) : string * attr := ("onClick"%string, AOn e).

(** Fold over a tree: every node, parents first. *)
Fixpoint nodes (n : node) : list node :=
  n :: match n with
       | Arr l | El _ _ l => (fix go l := match l with [] => [] | x :: l' => nodes x ++ go l' end) l
       | _ => []
       end.

Definition nodes_list (l : list node) : list node := flat_map nodes l.

Lemma nodes_El t a l : nodes (El t a l) = El t a l :: nodes_list l.
Proof. reflexivity. Qed.

Lemma nodes_Arr l : nodes (Arr l) = Arr l :: nodes_list l.
Proof. reflexivity. Qed.

Lemma nodes_list_app a b : nodes_list (a ++ b) = nodes_list a ++ nodes_list b.
Proof. apply flat_map_app. Qed.

(** The events a user can trigger in the tree, in document order. *)
Definition attr_events (a : string * attr) : list E :=
  match a.2 with AOn e => [e] | _ => [] end.
Definition node_events (n : node) : list E :=
  match n with El _ a _ => flat_map attr_events a | _ => [] end.
Definition events (n : node) : list E := flat_map node_events (nodes n).

(** The child components, in document order. *)
Definition node_mounts (n : node) : list C := match n with Mount c => [c] | _ => [] end.
Definition mounts (n : node) : list C := flat_map node_mounts (nodes n).

(** The [id] attributes, in document order. *)
Definition attr_id (a : string * attr) : list jsstring :=
  match a with (n, AStr s) => if String.eqb n "id" then [s] else [] | _ => [] end.
Definition node_ids (n : node) : list jsstring :=
  match n with El _ a _ => flat_map attr_id a | _ => [] end.
Definition html_ids (n : node) : list jsstring := flat_map node_ids (nodes n).

(** The element a CSS selector [#i] finds: the first with that id. *)
Definition has_id (i : jsstring) (n : node) : bool := existsb (str_eqb i) (node_ids n).
Definition by_id (i : jsstring) (n : node) : option node := List.find (has_id i) (nodes n).

(** The text content. *)
Definition node_text (n : node) : jsstring :=
  match n with Txt s => s | NumC x => jsnum_to_string x | _ => [] end.
Definition text_of (n : node) : jsstring := concat (map node_text (nodes n)).

(** Elements with a given tag. *)
Definition with_tag (t : string) (n : node) : list node :=
  List.filter (fun m => match m with El t' _ _ => String.eqb t t' | _ => false end) (nodes n).

Lemma flat_map_nodes {B} (f : node -> list B) l :
  flat_map f (nodes_list l) = flat_map (fun n => flat_map f (nodes n)) l.
Proof. unfold nodes_list. induction l as [|x l IH]; [done|]. cbn [flat_map]. by rewrite flat_map_app, IH. Qed.

Lemma events_El t a l : events (El t a l) = flat_map attr_events a ++ flat_map events l.
Proof. unfold events at 1. rewrite nodes_El. cbn [flat_map node_events]. by rewrite flat_map_nodes. Qed.

Lemma events_Arr l : events (Arr l) = flat_map events l.
Proof. unfold events at 1. rewrite nodes_Arr. cbn [flat_map node_events app]. by rewrite flat_map_nodes. Qed.

Lemma mounts_El t a l : mounts (El t a l) = flat_map mounts l.
Proof. unfold mounts at 1. rewrite nodes_El. cbn [flat_map node_mounts app]. by rewrite flat_map_nodes. Qed.

Lemma mounts_Arr l : mounts (Arr l) = flat_map mounts l.
Proof. unfold mounts at 1. rewrite nodes_Arr. cbn [flat_map node_mounts app]. by rewrite flat_map_nodes. Qed.

Lemma html_ids_El t a l : html_ids (El t a l) = flat_map attr_id a ++ flat_map html_ids l.
Proof. unfold html_ids at 1. rewrite nodes_El. cbn [flat_map node_ids]. by rewrite flat_map_nodes. Qed.

Lemma html_ids_Arr l : html_ids (Arr l) = flat_map html_ids l.
Proof. unfold html_ids at 1. rewrite nodes_Arr. cbn [flat_map node_ids app]. by rewrite flat_map_nodes. Qed.
End vdom.

Arguments node : clear implicits.
Arguments attr : clear implicits.

#[export] Hint Rewrite @events_El @events_Arr @mounts_El @mounts_Arr @html_ids_El @html_ids_Arr : vdom.

(** Events, children and ids of a tree that is given in full. *)
Ltac vdom := repeat (progress (autorewrite with vdom); cbn [flat_map app]).
