(* ===== verification/QueryList.v ===== *)
(** * The list of queries ([QueryList.jsx])

    The component keeps the last answer of [/v1/query] and the list it shows:
    filtered, sorted and limited as the toolbar says.  This file has the data and
    the computation of the lists; the callbacks are in [QueryListPage]. *)

From S2P Require Import Prelude JsString JsNumber JsSort JsObject JsDate Data Utils.

(** ** Filters and sort keys

    The source represents them by functions and compares them by identity. *)

Module FILTER_TYPE.
Inductive filter_type := RUNNING | QUEUED | FINISHED.

Definition test_filter (f : filter_type) (query : Query) : bool :=
  match f with
  | RUNNING => negb ((q_state query === "QUEUED") || (q_state query === "FINISHED") ||
                     (q_state query === "FAILED"))
  | QUEUED => q_state query === "QUEUED"
  | FINISHED => q_state query === "FINISHED"
  end.

#[export] Instance filter_type_eq_dec : EqDecision filter_type.
Proof. solve_decision. Defined.
End FILTER_TYPE.

Module ERROR_TYPE.
Inductive error_type := USER_ERROR | INTERNAL_ERROR | INSUFFICIENT_RESOURCES | EXTERNAL.

Definition error_name (e : error_type) : jsstring :=
  match e with
  | USER_ERROR => "USER_ERROR"
  | INTERNAL_ERROR => "INTERNAL_ERROR"
  | INSUFFICIENT_RESOURCES => "INSUFFICIENT_RESOURCES"
  | EXTERNAL => "EXTERNAL"
  end.

Definition test_error (e : error_type) (query : Query) : bool :=
  (q_state query === "FAILED") && opt_str_eqb (q_errorType query) (error_name e).

#[export] Instance error_type_eq_dec : EqDecision error_type.
Proof. solve_decision. Defined.
End ERROR_TYPE.

Module SORT_TYPE.
Inductive sort_type := CREATED | ELAPSED | EXECUTION | CPU | CUMULATIVE_MEMORY | CURRENT_MEMORY.

Definition sort_key `{DateEnv} (t : sort_type) (query : Query) : res jsnum :=
  stats ← get_prop "query.queryStats" (q_queryStats query);
  Ok (match t with
      | CREATED => JNum (Date_parse (qs_createTime stats))
      | ELAPSED => parseDuration (qs_elapsedTime stats)
      | EXECUTION => parseDuration (qs_executionTime stats)
      | CPU => parseDuration (qs_totalCpuTime stats)
      | CUMULATIVE_MEMORY => JNum (qs_cumulativeUserMemory stats)
      | CURRENT_MEMORY => parseDataSize (qs_userMemoryReservation stats)
      end).

#[export] Instance sort_type_eq_dec : EqDecision sort_type.
Proof. solve_decision. Defined.
End SORT_TYPE.

Module SORT_ORDER.
Inductive sort_order := ASCENDING | DESCENDING.

Definition order_value (o : sort_order) (value : number) : number :=
  match o with ASCENDING => value | DESCENDING => nneg value end.

#[export] Instance sort_order_eq_dec : EqDecision sort_order.
Proof. solve_decision. Defined.
End SORT_ORDER.

Import FILTER_TYPE ERROR_TYPE SORT_TYPE SORT_ORDER.

(** [arr.filter(p)] where [p] may throw. *)
Fixpoint res_filter {A} (p : A -> res bool) (l : list A) : res (list A) :=
  match l with
  | [] => Ok []
  | x :: l' => b ← p x; r ← res_filter p l'; Ok (if b : bool then x :: r else r)
  end.

(** ** The component *)

Record QLState := mkQLState {
  allQueries : list Query;
  displayedQueries : list Query;
  reorderInterval : Z;
  currentSortType : sort_type;
  currentSortOrder : sort_order;
  stateFilters : list filter_type;
  errorTypeFilters : list error_type;
  searchString : jsstring;
  maxQueries : Z;
  lastRefresh : Z;
  lastReorder : Z;
  initialized : bool
}.

Definition ql_init (now1 now2 : Z) : QLState := {|
  allQueries := [];
  displayedQueries := [];
  reorderInterval := 5000;
  currentSortType := CREATED;
  currentSortOrder := DESCENDING;
  stateFilters := [RUNNING; QUEUED];
  errorTypeFilters := [INTERNAL_ERROR; INSUFFICIENT_RESOURCES; EXTERNAL];
  searchString := "";
  maxQueries := 100;
  lastRefresh := now1;
  lastReorder := now2;
  initialized := false |}.

Definition with_displayed (d : list Query) (s : QLState) : QLState :=
  mkQLState (allQueries s) d (reorderInterval s) (currentSortType s) (currentSortOrder s)
    (stateFilters s) (errorTypeFilters s) (searchString s) (maxQueries s)
    (lastRefresh s) (lastReorder s) (initialized s).
Definition with_search (t : jsstring) (s : QLState) : QLState :=
  mkQLState (allQueries s) (displayedQueries s) (reorderInterval s) (currentSortType s)
    (currentSortOrder s) (stateFilters s) (errorTypeFilters s) t (maxQueries s)
    (lastRefresh s) (lastReorder s) (initialized s).
Definition with_max (m : Z) (s : QLState) : QLState :=
  mkQLState (allQueries s) (displayedQueries s) (reorderInterval s) (currentSortType s)
    (currentSortOrder s) (stateFilters s) (errorTypeFilters s) (searchString s) m
    (lastRefresh s) (lastReorder s) (initialized s).
Definition with_interval (r : Z) (s : QLState) : QLState :=
  mkQLState (allQueries s) (displayedQueries s) r (currentSortType s) (currentSortOrder s)
    (stateFilters s) (errorTypeFilters s) (searchString s) (maxQueries s)
    (lastRefresh s) (lastReorder s) (initialized s).
Definition with_sort (t : sort_type) (o : sort_order) (s : QLState) : QLState :=
  mkQLState (allQueries s) (displayedQueries s) (reorderInterval s) t o
    (stateFilters s) (errorTypeFilters s) (searchString s) (maxQueries s)
    (lastRefresh s) (lastReorder s) (initialized s).
Definition with_filters (f : list filter_type) (s : QLState) : QLState :=
  mkQLState (allQueries s) (displayedQueries s) (reorderInterval s) (currentSortType s)
    (currentSortOrder s) f (errorTypeFilters s) (searchString s) (maxQueries s)
    (lastRefresh s) (lastReorder s) (initialized s).
Definition with_error_filters (f : list error_type) (s : QLState) : QLState :=
  mkQLState (allQueries s) (displayedQueries s) (reorderInterval s) (currentSortType s)
    (currentSortOrder s) (stateFilters s) f (searchString s) (maxQueries s)
    (lastRefresh s) (lastReorder s) (initialized s).
Definition with_initialized (s : QLState) : QLState :=
  mkQLState (allQueries s) (displayedQueries s) (reorderInterval s) (currentSortType s)
    (currentSortOrder s) (stateFilters s) (errorTypeFilters s) (searchString s) (maxQueries s)
    (lastRefresh s) (lastReorder s) true.
Definition with_refresh (all displayed : list Query) (refreshed reordered : Z) (s : QLState) : QLState :=
  mkQLState all displayed (reorderInterval s) (currentSortType s)
    (currentSortOrder s) (stateFilters s) (errorTypeFilters s) (searchString s) (maxQueries s)
    refreshed reordered true.

(** The timers: [timeoutId] runs [refreshLoop], [searchTimeoutId] runs
    [executeSearch]. *)
Inductive QLTimer := Refresh | Search.
#[export] Instance QLTimer_eq_dec : EqDecision QLTimer.
Proof. solve_decision. Defined.

(** The answer to [GET /v1/query], with the two instants at which the callback
    reads the clock; [None] when the request failed. *)
Definition QLAnswer : Type := option (list Query * Z * Z).

Inductive QLEvent :=
  | SearchStringChange (newSearchString : jsstring)
  | MaxQueriesClick (newMaxQueries : Z)
  | ReorderClick (interval : Z)
  | SortClick (sortType : sort_type)
  | StateFilterClick (filter : filter_type)
  | ErrorTypeFilterClick (errorType : error_type).

Section querylist.
Context `{DateEnv} `{LowerCase}.

(** [queries.sort(...)]: an array of less than two elements is not compared at
    all, in a longer one every element is compared, so every key is computed. *)
Definition sort_queries (queries : list Query) (sortType : sort_type) (sortOrder : sort_order) :
    res (list Query) :=
  match queries with
  | [] | [_] => Ok queries
  | _ =>
      keyed ← res_map (fun q => k ← sort_key sortType q; Ok (k, q)) queries;
      Ok (map snd (js_sort (fun a b =>
            order_value sortOrder (ToNumber a.1 -f ToNumber b.1)) keyed))
  end.

(** [if (max !== 0 && l.length > max) l.splice(max, l.length - max)]; a missing
    argument is [None] and no length exceeds it. *)
Definition limit {A} (max : option Z) (l : list A) : list A :=
  match max with
  | Some m => if negb (m =? 0) && (Z.of_nat (length l) >? m) then take (Z.to_nat m) l else l
  | None => l
  end.

Definition sortAndLimitQueries (queries : list Query) (sortType : sort_type)
    (sortOrder : sort_order) (maxQueries : option Z) : res (list Query) :=
  sorted ← sort_queries queries sortType sortOrder; Ok (limit maxQueries sorted).

Definition state_filtered (stateFilters : list filter_type) (errorTypeFilters : list error_type)
    (query : Query) : bool :=
  existsb (fun f => test_filter f query) stateFilters ||
  existsb (fun f => test_error f query) errorTypeFilters.

Definition found (term s : jsstring) : bool := negb (indexOf (toLowerCase s) term =? -1).

Definition found_opt (term : jsstring) (s : option jsstring) : bool :=
  str_truthy s && match s with Some s => found term s | None => false end.

Definition search_matches (searchString : jsstring) (query : Query) : res bool :=
  let term := toLowerCase searchString in
  if found term (q_queryId query) then Ok true
  else
    stateText ← getHumanReadableState query;
    if found term stateText then Ok true
    else if found term (q_query query) then Ok true
    else if found_opt term (se_user (q_session query)) then Ok true
    else if found_opt term (se_source (q_session query)) then Ok true
    else if match q_resourceGroupId query with
            | Some group => found term (join "." group)
            | None => false
            end then Ok true
    else
      warnings ← get_prop "query.warnings" (q_warnings query);
      Ok (existsb (fun warning =>
            negb (indexOf "warning" term =? -1) ||
            found term (w_code_name warning) || found term (w_message warning)) warnings).

Definition filterQueries (queries : list Query) (stateFilters : list filter_type)
    (errorTypeFilters : list error_type) (searchString : jsstring) : res (list Query) :=
  let stateFilteredQueries := List.filter (state_filtered stateFilters errorTypeFilters) queries in
  if searchString === "" then Ok stateFilteredQueries
  else res_filter (search_matches searchString) stateFilteredQueries.

(** ** Refreshing *)

(** The queries of an answer by id; [None] stands for [false]. *)
Definition queryMap_of (queryList : list Query) : jsobj (option Query) :=
  fold_left (fun map query => mset (q_queryId query) (Some query) map) queryList [].

(** The displayed queries that the answer still has, in their order, and the
    map in which they are crossed out.  A displayed id that is crossed out
    already, or found on the prototype only, would put a value that is no query
    into the list; the code fails on it when it sorts or renders. *)
Fixpoint update_displayed (displayed : list Query) (queryMap : jsobj (option Query)) :
    res (list Query * jsobj (option Query)) :=
  match displayed with
  | [] => Ok ([], queryMap)
  | oldQuery :: rest =>
      if js_in (q_queryId oldQuery) queryMap then
        match mget (q_queryId oldQuery) queryMap with
        | Some (Some query) =>
            '(updated, queryMap) ← update_displayed rest (mset (q_queryId oldQuery) None queryMap);
            Ok (query :: updated, queryMap)
        | _ => Throw (TypeError "query.queryStats")
        end
      else update_displayed rest queryMap
  end.

(** [for (const queryId in queryMap) if (queryMap[queryId]) ...]. *)
Definition remaining (queryMap : jsobj (option Query)) : list Query :=
  flat_map (fun queryId => match mget queryId queryMap with
                           | Some (Some query) => [query]
                           | _ => []
                           end) (own_keys queryMap).

(** The new displayed list and [lastReorder]. *)
Definition refreshed (s : QLState) (queryList : list Query) (now1 now2 : Z) : res (list Query * Z) :=
  '(updatedQueries, queryMap) ← update_displayed (displayedQueries s) (queryMap_of queryList);
  newQueries ← filterQueries (remaining queryMap) (stateFilters s) (errorTypeFilters s) (searchString s);
  '(updatedQueries, lastReorder) ←
    (if negb (reorderInterval s =? 0) && (now1 - lastReorder s >=? reorderInterval s) then
       kept ← filterQueries updatedQueries (stateFilters s) (errorTypeFilters s) (searchString s);
       sorted ← sortAndLimitQueries (kept ++ newQueries) (currentSortType s) (currentSortOrder s) (Some 0);
       Ok (sorted, now2)
     else
       sorted ← sortAndLimitQueries newQueries (currentSortType s) (currentSortOrder s) (Some 0);
       Ok (updatedQueries ++ sorted, lastReorder s));
  Ok (limit (Some (maxQueries s)) updatedQueries, lastReorder).

(** ** The toolbar *)

(** The list as the toolbar describes it. *)
Definition selected (s : QLState) (max : option Z) : res (list Query) :=
  filtered ← filterQueries (allQueries s) (stateFilters s) (errorTypeFilters s) (searchString s);
  sortAndLimitQueries filtered (currentSortType s) (currentSortOrder s) max.

Definition next_sort_order (s : QLState) (sortType : sort_type) : sort_order :=
  if bool_decide (currentSortType s = sortType) && bool_decide (currentSortOrder s = DESCENDING)
  then ASCENDING else DESCENDING.

(** [if (filters.indexOf(f) > -1) remove its first occurrence, else push it]. *)
Fixpoint remove_first {A} `{EqDecision A} (x : A) (l : list A) : list A :=
  match l with
  | [] => []
  | y :: l' => if decide (y = x) then l' else y :: remove_first x l'
  end.
Definition toggle {A} `{EqDecision A} (x : A) (l : list A) : list A :=
  if bool_decide (x ∈ l) then remove_first x l else l ++ [x].

End querylist.
