(* ===== verification/QueryListFacts.v ===== *)
(** * Properties of the query list *)

From S2P Require Import Prelude JsString JsNumber JsNumberFacts JsSort JsObject JsDate Data.
From S2P Require Import Utils UtilsFacts EventLoop QueryList.
Import FILTER_TYPE ERROR_TYPE SORT_TYPE SORT_ORDER.

Section facts.
Context `{DateEnv} `{LowerCase}.

(** ** Filtering and sorting as total functions *)

Definition truth (r : res bool) : bool := match r with Ok b => b | Throw _ => false end.

Lemma res_filter_ok {A} (p : A -> res bool) l :
  (forall x, x ∈ l -> is_Ok (p x) = true) ->
  res_filter p l = Ok (List.filter (fun x => truth (p x)) l).
Proof.
  induction l as [|x l IH]; intros Hp; [done|]. cbn.
  pose proof (Hp x ltac:(left)) as Hx. destruct (p x) as [b|]; [|done]. cbn.
  rewrite IH by (intros; apply Hp; by right). by destruct b.
Qed.

Lemma search_matches_total term q : wf_query q -> is_Ok (search_matches term q) = true.
Proof.
  intros W. unfold search_matches. destruct (getHumanReadableState_total q W) as [t ->].
  destruct W as (_ & _ & [w ->]). cbn. case_ifs; done.
Qed.

(** The queries the toolbar selects. *)
Definition passes (sf : list filter_type) (ef : list error_type) (ss : jsstring) (q : Query) : bool :=
  state_filtered sf ef q && ((ss === "") || truth (search_matches ss q)).

Lemma filterQueries_ok qs sf ef ss :
  Forall wf_query qs -> filterQueries qs sf ef ss = Ok (List.filter (passes sf ef ss) qs).
Proof.
  intros W. unfold filterQueries, passes. destruct (ss === ""); cbn.
  - f_equal. apply filter_ext. intros. by rewrite andb_true_r.
  - rewrite res_filter_ok.
    + f_equal. clear W. induction qs as [|q qs IH]; cbn; [done|].
      destruct (state_filtered sf ef q); cbn; [|done]. by rewrite IH.
    + intros q [Hq _]%list_filter_In. apply search_matches_total.
      rewrite Forall_forall in W. by apply W.
Qed.

Definition key_of (t : sort_type) (q : Query) : number :=
  match sort_key t q with Ok k => ToNumber k | Throw _ => NaN end.
Definition query_cmp (t : sort_type) (o : sort_order) (a b : Query) : number :=
  order_value o (key_of t a -f key_of t b).

Lemma sort_key_total t q : wf_query q -> exists k, sort_key t q = Ok k.
Proof. intros ([st E] & _). unfold sort_key. rewrite E. cbn. eauto. Qed.

Lemma sort_queries_ok qs t o :
  Forall wf_query qs -> sort_queries qs t o = Ok (js_sort (query_cmp t o) qs).
Proof.
  intros W. unfold sort_queries. destruct qs as [|q1 [|q2 qs]]; try done.
  set (l := q1 :: q2 :: qs) in *.
  rewrite (res_map_ok _ (fun q => (match sort_key t q with Ok k => k | Throw _ => JUndef end, q))).
  - cbn [mbind res_bind]. f_equal. unfold js_sort. rewrite stable_sort_map.
    rewrite map_map, map_id. apply stable_sort_ext. intros x y Hx Hy.
    rewrite Forall_forall in W.
    destruct (sort_key_total t x (W x Hx)) as [kx Ex], (sort_key_total t y (W y Hy)) as [ky Ey].
    unfold stays, query_cmp, key_of. cbn. by rewrite Ex, Ey.
  - intros q Hq. rewrite Forall_forall in W.
    destruct (sort_key_total t q (W q Hq)) as [k Ek]. by rewrite Ek.
Qed.

Lemma sortAndLimit_ok qs t o m :
  Forall wf_query qs -> sortAndLimitQueries qs t o m = Ok (limit m (js_sort (query_cmp t o) qs)).
Proof. intros. unfold sortAndLimitQueries. by rewrite sort_queries_ok. Qed.

Lemma wf_filter p qs : Forall wf_query qs -> Forall wf_query (List.filter p qs).
Proof. rewrite !Forall_forall. intros W q [Hq _]%list_filter_In. auto. Qed.

(** The list the toolbar describes. *)
Definition selection (s : QLState) (m : option Z) : list Query :=
  limit m (js_sort (query_cmp (currentSortType s) (currentSortOrder s))
    (List.filter (passes (stateFilters s) (errorTypeFilters s) (searchString s)) (allQueries s))).

Lemma selected_ok s m : Forall wf_query (allQueries s) -> selected s m = Ok (selection s m).
Proof.
  intros W. unfold selected, selection. rewrite filterQueries_ok by done. cbn.
  apply sortAndLimit_ok. by apply wf_filter.
Qed.

Lemma js_sort_perm {A} (cmp : A -> A -> number) l : js_sort cmp l ≡ₚ l.
Proof. apply stable_sort_perm. Qed.

Lemma limit_sublist {A} m (l : list A) : limit m l `sublist_of` l.
Proof.
  unfold limit. destruct m as [m|]; [|done]. case_match; [|done].
  apply sublist_take.
Qed.

Lemma limit_length {A} m (l : list A) : 0 < m -> Z.of_nat (length (limit (Some m) l)) <= m.
Proof.
  intros Hm. unfold limit. rewrite (proj2 (Z.eqb_neq m 0)) by lia. cbn.
  rewrite Z.gtb_ltb. destruct (Z.ltb_spec m (Z.of_nat (length l))); [rewrite length_take|]; lia.
Qed.

Lemma limit_0 {A} (l : list A) : limit (Some 0) l = l.
Proof. done. Qed.

(** ** The refresh computation *)

(** The answers the server gives: well-formed documents with distinct ids, none
    of them the name of a property every object inherits. *)
Definition wf_answer (queryList : list Query) : Prop :=
  Forall wf_query queryList /\ NoDup (map q_queryId queryList) /\
  Forall (fun q => q_queryId q ∉ object_prototype) queryList.

Lemma queryMap_of_spec l :
  NoDup (map q_queryId l) -> queryMap_of l = map (fun q => (q_queryId q, Some q)) l.
Proof.
  unfold queryMap_of. change (map (fun q => (q_queryId q, Some q)) l)
    with ([] ++ map (fun q => (q_queryId q, Some q)) l).
  assert (G : forall acc, NoDup (mkeys acc ++ map q_queryId l) ->
    fold_left (fun map query => mset (q_queryId query) (Some query) map) l acc =
    acc ++ map (fun q => (q_queryId q, Some q)) l); [|intros; by apply G].
  induction l as [|q l IH]; intros acc N; cbn; [by rewrite app_nil_r|].
  cbn in N. apply NoDup_app in N as (N1 & N2 & N3). apply NoDup_cons in N3 as [N3 N4].
  assert (Hq : q_queryId q ∉ mkeys acc) by (intros Hin; apply (N2 _ Hin); left).
  rewrite mkeys_mset_new, IH by done || (unfold mkeys; rewrite map_app; cbn;
    rewrite <- app_assoc; cbn; apply NoDup_app; repeat split;
    [done|done|by constructor]).
  by rewrite <- app_assoc.
Qed.

Lemma flat_map_ext_elem {A B} (f g : A -> list B) l :
  (forall x, x ∈ l -> f x = g x) -> flat_map f l = flat_map g l.
Proof.
  induction l as [|x l IH]; intros Hx; [done|]. cbn. rewrite Hx by left. f_equal.
  apply IH. intros. apply Hx. by right.
Qed.

(** Entry of a key that still holds a query. *)
Definition entry (m : jsobj (option Query)) (k : jsstring) : list Query :=
  match mget k m with Some (Some q) => [q] | _ => [] end.

Lemma js_in_has {V} k (m : jsobj V) : k ∉ object_prototype -> js_in k m = mhas k m.
Proof. intros Hk. unfold js_in. rewrite bool_decide_eq_false_2 by done. apply orb_false_r. Qed.

Lemma update_displayed_ok d m :
  NoDup (map q_queryId d) -> Forall (fun q => q_queryId q ∉ object_prototype) d ->
  (forall q, q ∈ d -> mget (q_queryId q) m <> Some None) ->
  exists m', update_displayed d m = Ok (flat_map (fun q => entry m (q_queryId q)) d, m') /\
    mkeys m' = mkeys m /\
    forall k, entry m' k = if bool_decide (k ∈ map q_queryId d) then [] else entry m k.
Proof.
  revert m. induction d as [|q d IH]; intros m N P Hm.
  { exists m. split; [done|]. split; [done|]. intros k. by rewrite bool_decide_eq_false_2 by (intros Hin; inversion Hin). }
  cbn in N. apply NoDup_cons in N as [Nq N]. apply Forall_cons in P as [Pq P].
  cbn [update_displayed flat_map map]. rewrite js_in_has by done. unfold mhas, entry at 1.
  destruct (mget (q_queryId q) m) as [[v|]|] eqn:E.
  - destruct (IH (mset (q_queryId q) None m)) as (m' & -> & K & En); [done|done| |].
    { intros q' Hq'. rewrite mget_mset_ne; [apply Hm; by right|]. intros Heq. apply Nq.
      rewrite <- Heq. apply list_elem_of_In, in_map, list_elem_of_In, Hq'. }
    exists m'. cbn. repeat split.
    + do 3 f_equal. apply flat_map_ext_elem. intros q' Hq'. unfold entry.
      rewrite mget_mset_ne; [done|]. intros Heq. apply Nq. rewrite <- Heq.
      apply list_elem_of_In, in_map, list_elem_of_In, Hq'.
    + rewrite K. apply mkeys_mset_old. apply mhas_spec. unfold mhas. by rewrite E.
    + intros k. rewrite En. unfold entry. rewrite mget_mset.
      repeat case_bool_decide; repeat case_decide; subst; try done;
        exfalso; rewrite elem_of_cons in *; tauto.
  - exfalso. apply (Hm q); [left|done].
  - destruct (IH m) as (m' & -> & K & En); [done|done|intros; apply Hm; by right|].
    exists m'. repeat split; [done|]. intros k. rewrite En.
    destruct (decide (k = q_queryId q)) as [->|Hk].
    + rewrite bool_decide_eq_false_2, bool_decide_eq_true_2 by (done || left).
      unfold entry. by rewrite E.
    + by rewrite (bool_decide_ext (k ∈ q_queryId q :: map q_queryId d) (k ∈ map q_queryId d))
        by (rewrite elem_of_cons; tauto).
Qed.

Lemma mkeys_queryMap l : NoDup (map q_queryId l) -> mkeys (queryMap_of l) = map q_queryId l.
Proof. intros N. rewrite queryMap_of_spec by done. unfold mkeys. by rewrite map_map. Qed.

Lemma entry_queryMap l k q :
  NoDup (map q_queryId l) -> q ∈ entry (queryMap_of l) k <-> q ∈ l /\ q_queryId q = k.
Proof.
  intros N. unfold entry. pose proof (mkeys_queryMap l N) as K.
  assert (Hget : forall v, mget k (queryMap_of l) = Some v <-> (k, v) ∈ queryMap_of l).
  { intros v. split; [apply mget_elem|]. apply mget_Some_nodup. by rewrite K. }
  assert (Hin : forall v, (k, v) ∈ queryMap_of l <-> exists q', q' ∈ l /\ q_queryId q' = k /\ v = Some q').
  { intros v. rewrite queryMap_of_spec by done. rewrite list_elem_of_In, in_map_iff.
    setoid_rewrite list_elem_of_In. split; [intros (q' & [= <- <-] & ?)|intros (q' & ? & <- & ->)]; eauto. }
  split.
  - destruct (mget k (queryMap_of l)) as [[v|]|] eqn:E; [|intros Hq; inversion Hq..].
    intros ->%list_elem_of_singleton. destruct (proj1 (Hin _) (proj1 (Hget _) eq_refl)) as (q' & ? & ? & [= <-]). done.
  - intros [Hq Hk]. assert (E : mget k (queryMap_of l) = Some (Some q)) by (apply Hget, Hin; eauto).
    rewrite E. left.
Qed.

Lemma entry_length m k : (length (entry m k) <= 1)%nat.
Proof. unfold entry. repeat case_match; cbn; lia. Qed.

(** Ids of the queries found under a list of keys. *)
Lemma ids_of_entries m ks :
  (forall k q, q ∈ entry m k -> q_queryId q = k) ->
  map q_queryId (flat_map (entry m) ks) =
  List.filter (fun k => negb (bool_decide (entry m k = []))) ks.
Proof.
  intros Hid. induction ks as [|k ks IH]; cbn; [done|]. rewrite map_app, IH.
  pose proof (entry_length m k) as L. pose proof (Hid k) as Hk.
  destruct (entry m k) as [|q [|]]; cbn in *; [done| |lia].
  f_equal. apply Hk. left.
Qed.

Lemma NoDup_filter_list {A} (p : A -> bool) l : NoDup l -> NoDup (List.filter p l).
Proof. intros N. rewrite <- (map_id (List.filter p l)). apply NoDup_map_filter. by rewrite map_id. Qed.

Lemma NoDup_of_map {A B} (f : A -> B) l : NoDup (map f l) -> NoDup l.
Proof.
  induction l as [|x l IH]; cbn; [constructor|]. intros [Hx N]%NoDup_cons. constructor; [|auto].
  intros Hin. apply Hx. by apply list_elem_of_In, in_map, list_elem_of_In.
Qed.

Lemma elem_of_flat_map {A B} (f : A -> list B) l y : y ∈ flat_map f l <-> exists x, x ∈ l /\ y ∈ f x.
Proof. rewrite list_elem_of_In, in_flat_map. by setoid_rewrite list_elem_of_In. Qed.

(** The ids of the displayed queries that are in the answer. *)
Lemma surviving_ids l ks :
  NoDup (map q_queryId l) ->
  map q_queryId (flat_map (entry (queryMap_of l)) ks) = List.filter (fun k => bool_decide (k ∈ map q_queryId l)) ks.
Proof.
  intros Nl. rewrite ids_of_entries by (intros k q Hq; by apply entry_queryMap in Hq as [_ ?]).
  apply filter_ext. intros k.
  destruct (entry (queryMap_of l) k) as [|q r] eqn:E; cbn; symmetry.
  - apply bool_decide_eq_false. intros Hk.
    apply list_elem_of_In, in_map_iff in Hk as (q & Hq & Hin).
    assert (Hq' : q ∈ entry (queryMap_of l) k) by (apply entry_queryMap; [done|]; by rewrite list_elem_of_In).
    rewrite E in Hq'. inversion Hq'.
  - apply bool_decide_eq_true. assert (Hq : q ∈ entry (queryMap_of l) k) by (rewrite E; left).
    apply entry_queryMap in Hq as [Hin <-]; [|done]. by apply list_elem_of_In, in_map, list_elem_of_In.
Qed.

(** The displayed queries that survive and the remaining ones are the answer,
    rearranged; the survivors keep their order. *)
Lemma refresh_parts l d m' :
  NoDup (map q_queryId l) -> NoDup (map q_queryId d) ->
  mkeys m' = mkeys (queryMap_of l) ->
  (forall k, entry m' k = if bool_decide (k ∈ map q_queryId d) then [] else entry (queryMap_of l) k) ->
  let u := flat_map (fun q => entry (queryMap_of l) (q_queryId q)) d in
  map q_queryId u = List.filter (fun k => bool_decide (k ∈ map q_queryId l)) (map q_queryId d) /\
  u ++ remaining m' ≡ₚ l.
Proof.
  intros Nl Nd K En u.
  assert (Eid : forall k q, q ∈ entry (queryMap_of l) k -> q_queryId q = k)
    by (intros k q Hq; by apply entry_queryMap in Hq as [_ ?]).
  assert (Eu : u = flat_map (entry (queryMap_of l)) (map q_queryId d)).
  { unfold u. rewrite flat_map_concat_map, (flat_map_concat_map (entry _)). by rewrite map_map. }
  assert (Hu : map q_queryId u = List.filter (fun k => bool_decide (k ∈ map q_queryId l)) (map q_queryId d))
    by (rewrite Eu; by apply surviving_ids).
  split; [done|]. change (remaining m') with (flat_map (entry m') (own_keys m')).
  assert (Eid' : forall k q, q ∈ entry m' k -> q_queryId q = k).
  { intros k q. rewrite En. case_bool_decide; [intros Hq; inversion Hq|apply Eid]. }
  apply NoDup_Permutation; [|by apply (NoDup_of_map q_queryId)|].
  - apply NoDup_app. repeat split.
    + apply (NoDup_of_map q_queryId). rewrite Hu. by apply NoDup_filter_list.
    + intros q Hq1 Hq2. apply elem_of_flat_map in Hq1 as (q1 & Hd & Hq1), Hq2 as (k & _ & Hq2).
      rewrite En in Hq2. case_bool_decide as Hk; [inversion Hq2|]. apply Hk.
      apply Eid in Hq1, Hq2. rewrite <- Hq2, Hq1. by apply list_elem_of_In, in_map, list_elem_of_In.
    + apply (NoDup_of_map q_queryId). rewrite ids_of_entries by done. apply NoDup_filter_list.
      rewrite own_keys_perm, K, mkeys_queryMap by done. done.
  - intros q. rewrite elem_of_app, Eu, !elem_of_flat_map. split.
    + intros [(k & _ & Hq)|(k & _ & Hq)].
      * by apply entry_queryMap in Hq as [? _].
      * rewrite En in Hq. case_bool_decide; [inversion Hq|]. by apply entry_queryMap in Hq as [? _].
    + intros Hq. assert (Hk : q_queryId q ∈ map q_queryId l) by by apply list_elem_of_In, in_map, list_elem_of_In.
      destruct (decide (q_queryId q ∈ map q_queryId d)) as [Hd|Hd].
      * left. exists (q_queryId q). split; [done|]. by apply entry_queryMap.
      * right. exists (q_queryId q). rewrite own_keys_perm, K, mkeys_queryMap by done.
        split; [done|]. rewrite En, bool_decide_eq_false_2 by done. by apply entry_queryMap.
Qed.

Definition due (s : QLState) (now1 : Z) : bool :=
  negb (reorderInterval s =? 0) && (now1 - lastReorder s >=? reorderInterval s).

(** What a refresh shows, given the survivors [u] and the new queries [r]. *)
Definition refreshed_list (s : QLState) (now1 : Z) (u r : list Query) : list Query :=
  let p := passes (stateFilters s) (errorTypeFilters s) (searchString s) in
  let cmp := query_cmp (currentSortType s) (currentSortOrder s) in
  limit (Some (maxQueries s))
    (if due s now1 then js_sort cmp (List.filter p u ++ List.filter p r)
     else u ++ js_sort cmp (List.filter p r)).

(** The invariant of the state. *)
Definition ql_good (s : QLState) : Prop :=
  wf_answer (allQueries s) /\ NoDup (map q_queryId (displayedQueries s)) /\
  forall q, q ∈ displayedQueries s -> q ∈ allQueries s.

Lemma displayed_ids_plain s :
  ql_good s -> Forall (fun q => q_queryId q ∉ object_prototype) (displayedQueries s).
Proof.
  intros ((_ & _ & P) & _ & Hs). rewrite Forall_forall in *. auto.
Qed.

Lemma perm_wf l u r :
  Forall wf_query l -> u ++ r ≡ₚ l -> Forall wf_query u /\ Forall wf_query r.
Proof. intros W Hp. by rewrite <- Hp, Forall_app in W. Qed.

Lemma refreshed_ok s l now1 now2 :
  ql_good s -> wf_answer l ->
  exists u r, u ++ r ≡ₚ l /\
    map q_queryId u =
      List.filter (fun k => bool_decide (k ∈ map q_queryId l)) (map q_queryId (displayedQueries s)) /\
    refreshed s l now1 now2 =
      Ok (refreshed_list s now1 u r, if due s now1 then now2 else lastReorder s).
Proof.
  intros G (W & N & P). pose proof (displayed_ids_plain s G) as Pd. destruct G as (_ & Nd & _).
  destruct (update_displayed_ok (displayedQueries s) (queryMap_of l)) as (m' & Hup & K & En); [done|done| |].
  { intros q _ E. apply mget_elem in E. rewrite queryMap_of_spec in E by done.
    by apply list_elem_of_In, in_map_iff in E as (? & ? & _). }
  destruct (refresh_parts l (displayedQueries s) m' N Nd K En) as [Hids Hperm].
  eexists _, (remaining m'). split; [exact Hperm|]. split; [exact Hids|].
  destruct (perm_wf l _ _ W Hperm) as [Wu Wr].
  unfold refreshed. rewrite Hup. cbn [mbind res_bind]. rewrite (filterQueries_ok (remaining m')) by done.
  cbn [mbind res_bind]. unfold refreshed_list. fold (due s now1). destruct (due s now1).
  - rewrite filterQueries_ok by done. cbn [mbind res_bind].
    rewrite sortAndLimit_ok by (apply Forall_app; split; by apply wf_filter). done.
  - rewrite sortAndLimit_ok by by apply wf_filter. done.
Qed.

(** Every list the component shows is made of entries of the answer. *)
Lemma filter_app_part {A} (p : A -> bool) (u r l : list A) :
  u ++ r ≡ₚ l -> exists rest, (List.filter p u ++ List.filter p r) ++ rest ≡ₚ l.
Proof.
  intros Hp. exists (List.filter (fun x => negb (p x)) (u ++ r)). rewrite <- Hp. clear Hp.
  rewrite <- List.filter_app. generalize (u ++ r). intros k.
  induction k as [|x k IH]; cbn; [done|]. destruct (p x); cbn; [by rewrite IH|].
  by rewrite <- Permutation_middle, IH.
Qed.

Lemma sublist_map {A B} (f : A -> B) l l' : l `sublist_of` l' -> map f l `sublist_of` map f l'.
Proof. intros Hs. by apply (fmap_sublist f). Qed.

Lemma shown_of_answer (l part full : list Query) :
  NoDup (map q_queryId l) -> part `sublist_of` full ->
  (exists rest, full ++ rest ≡ₚ l) ->
  NoDup (map q_queryId part) /\ forall q, q ∈ part -> q ∈ l.
Proof.
  intros N Hs (rest & Hp). split.
  - assert (N' : NoDup (map q_queryId (full ++ rest))) by (rewrite Hp; done).
    rewrite map_app in N'. apply NoDup_app in N' as (N' & _).
    eapply sublist_NoDup; [exact N'|by apply sublist_map].
  - intros q Hq. rewrite <- Hp, elem_of_app. left. by apply (sublist_in _ _ _ Hs).
Qed.

Lemma refreshed_list_part s now1 u r l :
  u ++ r ≡ₚ l -> exists full rest, refreshed_list s now1 u r `sublist_of` full /\ full ++ rest ≡ₚ l.
Proof.
  intros Hp. unfold refreshed_list. destruct (due s now1).
  - destruct (filter_app_part (passes (stateFilters s) (errorTypeFilters s) (searchString s)) u r l Hp)
      as [rest Hr].
    eexists _, rest. split; [apply limit_sublist|]. by rewrite js_sort_perm.
  - destruct (filter_app_part (passes (stateFilters s) (errorTypeFilters s) (searchString s)) [] r r
      ltac:(done)) as [rest Hr]. cbn in Hr.
    eexists _, rest. split; [apply limit_sublist|]. rewrite js_sort_perm, <- app_assoc, Hr. done.
Qed.

Lemma selection_part s m :
  exists full rest, selection s m `sublist_of` full /\ full ++ rest ≡ₚ allQueries s.
Proof.
  destruct (filter_app_part (passes (stateFilters s) (errorTypeFilters s) (searchString s)) []
    (allQueries s) (allQueries s) ltac:(done)) as [rest Hr]. cbn in Hr.
  eexists _, rest. split; [apply limit_sublist|]. by rewrite js_sort_perm.
Qed.

(** ** What the lists contain *)

(** The order the toolbar asks for, on exact values. *)
Definition in_order (t : sort_type) (o : sort_order) (a b : Query) : bool :=
  match o with
  | ASCENDING => fval (key_of t a) <=? fval (key_of t b)
  | DESCENDING => fval (key_of t b) <=? fval (key_of t a)
  end.

Lemma in_order_consistent t o : consistent (in_order t o).
Proof. destruct o; [apply consistent_zkey|apply consistent_zkey_desc]. Qed.

Lemma js_sort_in_order t o l :
  (forall q, q ∈ l -> good_key (key_of t q)) ->
  js_sort (query_cmp t o) l = stable_sort (in_order t o) l.
Proof.
  intros Hk. apply stable_sort_ext. intros x y Hx Hy. destruct o.
  - apply (stays_asc (key_of t)); auto.
  - apply (stays_desc (key_of t)); auto.
Qed.

(** The selected queries of a list: those that pass the filters and the search,
    sorted as asked, queries with equal keys in the order of the answer. *)
Definition arranged (s : QLState) (from full : list Query) : Prop :=
  let le := in_order (currentSortType s) (currentSortOrder s) in
  let p := passes (stateFilters s) (errorTypeFilters s) (searchString s) in
  full ≡ₚ List.filter p from /\ sorted_by le full /\
  forall z, ties le z full = ties le z (List.filter p from).

Lemma selection_arranged s m :
  (forall q, q ∈ allQueries s -> good_key (key_of (currentSortType s) q)) ->
  exists full, selection s m = limit m full /\ arranged s (allQueries s) full.
Proof.
  intros Hk. eexists. split; [reflexivity|]. unfold arranged.
  rewrite js_sort_in_order by (intros q [Hq _]%list_filter_In; auto).
  split; [apply stable_sort_perm|]. split; [|intros z].
  - apply stable_sort_sorted, in_order_consistent.
  - apply stable_sort_ties, in_order_consistent.
Qed.

End facts.

Lemma sample_wf id s : s <> js "FAILED" -> wf_query (sample_query id s).
Proof.
  intros Hs. split; [by eexists|]. split; [|by eexists]. intros E. by destruct Hs.
Qed.
