(* ===== verification/QueryListView.v ===== *)
(** * What the query list renders ([QueryList.jsx], [render] methods) *)

From S2P Require Import Prelude JsString JsNumber JsDate Data Utils VDom EventLoop QueryList.
Import FILTER_TYPE ERROR_TYPE SORT_TYPE SORT_ORDER.

(** ** The query text *)

(** The smallest indentation of the lines that are not blank, -1 when there is
    none; the loop stops at the first line without indentation. *)
Fixpoint min_leading (lines : list jsstring) (minLeadingWhitespace : Z) : Z :=
  match lines with
  | [] => minLeadingWhitespace
  | line :: rest =>
      if minLeadingWhitespace =? 0 then minLeadingWhitespace
      else if str_length (trim line) =? 0 then min_leading rest minLeadingWhitespace
      else
        let leadingWhitespace := search_nonspace line in
        min_leading rest
          (if (leadingWhitespace >? -1) &&
              ((leadingWhitespace <? minLeadingWhitespace) || (minLeadingWhitespace =? -1))
           then leadingWhitespace else minLeadingWhitespace)
  end.

(** The lines without that indentation and without trailing white space; blank
    lines disappear, and a line break follows every line but the last of the
    array. *)
Fixpoint strip_lines (lines : list jsstring) (minLeadingWhitespace : Z) : jsstring :=
  match lines with
  | [] => []
  | line :: rest =>
      let trimmedLine := trimEnd (substring_from line minLeadingWhitespace) in
      (if str_length trimmedLine >? 0
       then trimmedLine ++ (match rest with [] => [] | _ => [10] end)
       else []) ++ strip_lines rest minLeadingWhitespace
  end.

Definition stripQueryTextWhitespace (queryText : jsstring) : jsstring :=
  let lines := split 10 queryText in
  let minLeadingWhitespace := min_leading lines (-1) in
  let formattedQueryText := strip_lines lines minLeadingWhitespace in
  default [] (truncateString (Some formattedQueryText) 300).

(** ** One query *)

(** The toolbar's component mounts one [DisplayedQueriesList], which mounts one
    [QueryListItem] per query. *)
Inductive QLChild :=
  | DisplayedQueriesList (queries : list Query)
  | QueryListItem (key : jsstring) (query : Query).

Abbreviation QLNode := (node QLEvent QLChild).

Definition warning_codes (warnings : list Warning) : list jsstring := map w_code_name warnings.

Definition renderWarning (query : Query) : QLNode :=
  match q_warnings query with
  | Some (w :: ws) =>
      El "span" [class_ "glyphicon glyphicon-warning-sign query-warning";
                 sattr "data-toggle" "tooltip";
                 sattr "title" (join ", " (warning_codes (w :: ws)))] []
  | _ => Nothing
  end.

(** [<span className="tinystat" ...><span className=icon .../>&nbsp;&nbsp;{child}</span>]. *)
Definition tinystat (title icon : string) (child : QLNode) : QLNode :=
  El "span" [class_ "tinystat"; sattr "data-toggle" "tooltip"; sattr "data-placement" "top";
             sattr "title" title]
    [El "span" [class_ icon; style_ GLYPHICON_HIGHLIGHT] []; Txt (nbsp ++ nbsp); child].

(** A row with an icon and a text, below the query id. *)
Definition stat_row (title icon : string) (child : QLNode) : QLNode :=
  El "div" [class_ "row stat-row"]
    [El "div" [class_ "col-xs-12"]
       [El "span" [sattr "data-toggle" "tooltip"; sattr "data-placement" "right"; sattr "title" title]
          [El "span" [class_ icon; style_ GLYPHICON_DEFAULT] [];
           Txt (nbsp ++ nbsp);
           El "span" [] [child]]]].

Definition splitDetails (query : Query) (stats : QueryStats) : QLNode :=
  let ended := (q_state query === "FINISHED") || (q_state query === "FAILED") in
  El "div" [class_ "col-xs-12 tinystat-row"]
    [tinystat "Completed splits" "glyphicon glyphicon-ok" (NumC (qs_completedDrivers stats));
     tinystat "Running splits" "glyphicon glyphicon-play"
       (NumC (if ended then num 0 else qs_runningDrivers stats));
     tinystat "Queued splits" "glyphicon glyphicon-pause"
       (NumC (if ended then num 0 else qs_queuedDrivers stats))].

Definition timingDetails (stats : QueryStats) : QLNode :=
  El "div" [class_ "col-xs-12 tinystat-row"]
    [tinystat "Wall time spent executing the query (not including queued time)"
       "glyphicon glyphicon-hourglass" (Txt (qs_executionTime stats));
     tinystat "Total query wall time" "glyphicon glyphicon-time" (Txt (qs_elapsedTime stats));
     tinystat "CPU time spent by this query" "glyphicon glyphicon-dashboard"
       (Txt (qs_totalCpuTime stats))].

Definition memoryDetails (stats : QueryStats) (cumulative : jsstring) : QLNode :=
  El "div" [class_ "col-xs-12 tinystat-row"]
    [tinystat "Current reserved memory" "glyphicon glyphicon-scale"
       (Txt (qs_userMemoryReservation stats));
     tinystat "Peak memory" "glyphicon glyphicon-fire" (Txt (qs_peakUserMemoryReservation stats));
     tinystat "Cumulative user memory" "glyphicon glyphicon-equalizer" (Txt cumulative)].

(** The [user] element. *)
Definition user_node (session : Session) : QLNode :=
  if str_truthy (se_principal session)
  then El "span" [] [opt_txt (se_user session);
                     El "span" [class_ "glyphicon glyphicon-lock-inverse"; style_ GLYPHICON_DEFAULT] []]
  else El "span" [] [opt_txt (se_user session)].

Section view.
Context `{DateEnv}.

(** [truncateString(user, 35)] receives an element: it has no [length], and
    comes back unchanged. *)
Definition renderItem (query : Query) : res QLNode :=
  percentage ← getProgressBarPercentage query;
  color ← getQueryStateColor query;
  stats ← get_prop "query.queryStats" (q_queryStats query);
  cumulative ← formatDataSizeBytes (qs_cumulativeUserMemory stats /f num 1000);
  title ← getProgressBarTitle query;
  let progressBarStyle := [("width"%string, num_to_string percentage ++ js "%");
                           ("backgroundColor"%string, color)] in
  let session := q_session query in
  Ok (El "div" [class_ "query"]
    [El "div" [class_ "row"]
      [El "div" [class_ "col-xs-4"]
        [El "div" [class_ "row stat-row query-header query-header-queryid"]
          [El "div" [class_ "col-xs-9"; sattr "data-placement" "bottom"]
            [El "a" [sattr "href" (js "query.html?" ++ q_queryId query); sattr "target" "_blank";
                     sattr "data-toggle" "tooltip"; sattr "title" "Query ID"]
               [Txt (q_queryId query)];
             renderWarning query];
           El "div" [class_ "col-xs-3 query-header-timestamp"; sattr "data-toggle" "tooltip";
                     sattr "data-placement" "bottom"; sattr "title" "Submit time"]
             [El "span" [] [Txt (formatShortTime (date_of (parse_time (qs_createTime stats))))]]];
         stat_row "User" "glyphicon glyphicon-user" (user_node session);
         stat_row "Source" "glyphicon glyphicon-log-in" (opt_txt (truncateString (se_source session) 35));
         stat_row "Resource Group" "glyphicon glyphicon-road"
           (opt_txt (truncateString
              (Some (match q_resourceGroupId query with
                     | Some group => join "." group
                     | None => js "n/a"
                     end)) 35));
         El "div" [class_ "row stat-row"] [splitDetails query stats];
         El "div" [class_ "row stat-row"] [timingDetails stats];
         El "div" [class_ "row stat-row"] [memoryDetails stats cumulative]];
       El "div" [class_ "col-xs-8"]
        [El "div" [class_ "row query-header"]
          [El "div" [class_ "col-xs-12 query-progress-container"]
            [El "div" [class_ "progress"]
              [El "div" [class_ "progress-bar progress-bar-info"; sattr "role" "progressbar";
                         ("aria-valuenow"%string, ANum percentage); sattr "aria-valuemin" "0";
                         sattr "aria-valuemax" "100"; style_ progressBarStyle]
                 [Txt title]]]];
         El "div" [class_ "row query-row-bottom"]
          [El "div" [class_ "col-xs-12"]
            [El "pre" [class_ "query-snippet"]
              [El "code" [class_ "sql"] [Txt (stripQueryTextWhitespace (q_query query))]]]]]]]).
End view.

Definition renderDisplayed (queries : list Query) : QLNode :=
  El "div" [] [Arr (map (fun query => Mount (QueryListItem (q_queryId query) query)) queries)].

(** ** The toolbar *)

Definition renderMaxQueriesListItem (s : QLState) (max : Z) (maxQueriesText : string) : QLNode :=
  El "li" [] [El "a" [sattr "href" "#"; class_ (if maxQueries s =? max then js "selected" else js "");
                      onClick (MaxQueriesClick max)] [Txt maxQueriesText]].

Definition renderReorderListItem (s : QLState) (interval : Z) (intervalText : string) : QLNode :=
  El "li" [] [El "a" [sattr "href" "#";
                      class_ (if reorderInterval s =? interval then js "selected" else js "");
                      onClick (ReorderClick interval)] [Txt intervalText]].

Definition renderSortListItem (s : QLState) (sortType : sort_type) (sortText : string) : QLNode :=
  if bool_decide (currentSortType s = sortType) then
    let directionArrow :=
      if bool_decide (currentSortOrder s = ASCENDING)
      then El "span" [class_ "glyphicon glyphicon-triangle-top"] []
      else El "span" [class_ "glyphicon glyphicon-triangle-bottom"] [] in
    El "li" [] [El "a" [sattr "href" "#"; class_ "selected"; onClick (SortClick sortType)]
                  [Txt sortText; Txt " "; directionArrow]]
  else
    El "li" [] [El "a" [sattr "href" "#"; onClick (SortClick sortType)] [Txt sortText]].

Definition renderFilterButton (s : QLState) (filterType : filter_type) (filterText : string) : QLNode :=
  let on := bool_decide (filterType ∈ stateFilters s) in
  let checkmarkStyle := [("color"%string, if on then js "#ffffff" else js "#57aac7")] in
  let classNames := js "btn btn-sm btn-info style-check" ++ (if on then js " active" else js "") in
  El "button" [sattr "type" "button"; class_ classNames; onClick (StateFilterClick filterType)]
    [El "span" [class_ "glyphicon glyphicon-ok"; style_ checkmarkStyle] []; Txt nbsp; Txt filterText].

Definition renderErrorTypeListItem (s : QLState) (errorType : error_type) (errorTypeText : string) : QLNode :=
  let checkmarkStyle :=
    if bool_decide (errorType ∈ errorTypeFilters s) then GLYPHICON_HIGHLIGHT
    else [("color"%string, js "#ffffff")] in
  El "li" [] [El "a" [sattr "href" "#"; onClick (ErrorTypeFilterClick errorType)]
                [El "span" [class_ "glyphicon glyphicon-ok"; style_ checkmarkStyle] [];
                 Txt nbsp; Txt errorTypeText]].

(** [<button ... data-toggle="dropdown">{text} <span className="caret"/></button>]. *)
Definition dropdown_button (text : string) : QLNode :=
  El "button" [sattr "type" "button"; class_ "btn btn-default dropdown-toggle";
               sattr "data-toggle" "dropdown"; sattr "aria-haspopup" "true"; sattr "aria-expanded" "false"]
    [Txt text; El "span" [class_ "caret"] []].

Definition divider : QLNode := El "li" [sattr "role" "separator"; class_ "divider"] [].

(** The lists of the state are arrays from the start, never [null]. *)
Definition query_list_part (s : QLState) : QLNode :=
  match displayedQueries s with
  | [] =>
      let label :=
        if initialized s then
          match allQueries s with
          | [] => Txt "No queries"
          | _ => Txt "No queries matched filters"
          end
        else El "div" [class_ "loader"] [Txt "Loading..."] in
      El "div" [class_ "row error-message"]
        [El "div" [class_ "col-xs-12"] [El "h4" [] [label]]]
  | _ => Mount (DisplayedQueriesList (displayedQueries s))
  end.

Definition renderList (s : QLState) : QLNode :=
  El "div" []
    [El "div" [class_ "row toolbar-row"]
      [El "div" [class_ "col-xs-12 toolbar-col"]
        [El "div" [class_ "input-group input-group-sm"]
          [El "input" [sattr "type" "text"; class_ "form-control form-control-small search-bar";
                       sattr "placeholder" "User, source, query ID, resource group, or query text";
                       ("onChange"%string, AOnChange SearchStringChange);
                       sattr "value" (searchString s)] [];
           El "span" [class_ "input-group-addon filter-addon"] [Txt "State:"];
           El "div" [class_ "input-group-btn"]
             [renderFilterButton s RUNNING "Running";
              renderFilterButton s QUEUED "Queued";
              renderFilterButton s FINISHED "Finished";
              El "button" [sattr "type" "button"; sattr "id" "error-type-dropdown";
                           class_ "btn btn-default dropdown-toggle"; sattr "data-toggle" "dropdown";
                           sattr "aria-haspopup" "true"; sattr "aria-expanded" "false"]
                [Txt "Failed "; El "span" [class_ "caret"] []];
              El "ul" [class_ "dropdown-menu error-type-dropdown-menu"]
                [renderErrorTypeListItem s INTERNAL_ERROR "Internal Error";
                 renderErrorTypeListItem s EXTERNAL "External Error";
                 renderErrorTypeListItem s INSUFFICIENT_RESOURCES "Resources Error";
                 renderErrorTypeListItem s USER_ERROR "User Error"]];
           Txt nbsp;
           El "div" [class_ "input-group-btn"]
             [dropdown_button "Sort ";
              El "ul" [class_ "dropdown-menu"]
                [renderSortListItem s CREATED "Creation Time";
                 renderSortListItem s ELAPSED "Elapsed Time";
                 renderSortListItem s CPU "CPU Time";
                 renderSortListItem s EXECUTION "Execution Time";
                 renderSortListItem s CURRENT_MEMORY "Current Memory";
                 renderSortListItem s CUMULATIVE_MEMORY "Cumulative User Memory"]];
           Txt nbsp;
           El "div" [class_ "input-group-btn"]
             [dropdown_button "Reorder Interval ";
              El "ul" [class_ "dropdown-menu"]
                [renderReorderListItem s 1000 "1s";
                 renderReorderListItem s 5000 "5s";
                 renderReorderListItem s 10000 "10s";
                 renderReorderListItem s 30000 "30s";
                 divider;
                 renderReorderListItem s 0 "Off"]];
           Txt nbsp;
           El "div" [class_ "input-group-btn"]
             [dropdown_button "Show ";
              El "ul" [class_ "dropdown-menu"]
                [renderMaxQueriesListItem s 20 "20 queries";
                 renderMaxQueriesListItem s 50 "50 queries";
                 renderMaxQueriesListItem s 100 "100 queries";
                 divider;
                 renderMaxQueriesListItem s 0 "All queries"]]]]];
     query_list_part s].

(** ** The whole list *)

Section tree.
Context `{DateEnv}.

(** The list of displayed queries and its entries. *)
Definition render_item_child (c : QLChild) : res QLNode :=
  match c with
  | DisplayedQueriesList queries => Ok (renderDisplayed queries)
  | QueryListItem _ query => renderItem query
  end.

Definition render_list_tree (s : QLState) : res (list QLNode) :=
  lists ← res_map render_item_child (mounts (renderList s));
  res_map render_item_child (flat_map mounts lists).
End tree.
