(* ===== verification/QueryListViewFacts.v ===== *)
(** * Properties of what the query list renders *)

From S2P Require Import Prelude JsString JsNumber JsNumberFacts DecimalFacts JsDate Data Utils.
From S2P Require Import UtilsFacts VDom EventLoop QueryList QueryListFacts QueryListView.
Import FILTER_TYPE ERROR_TYPE SORT_TYPE SORT_ORDER.

(** ** Query text *)

(** A text without its white space. *)
Definition ink (s : jsstring) : jsstring := List.filter (fun c => negb (is_space c)) s.

Lemma ink_app a b : ink (a ++ b) = ink a ++ ink b.
Proof. apply List.filter_app. Qed.

Lemma ink_spaces s : spaces s <-> ink s = [].
Proof.
  unfold spaces. induction s as [|c s IH]; cbn; [done|]. rewrite Forall_cons, IH.
  destruct (is_space c); cbn; [|split; [by intros [? _]|done]].
  split; [by intros [_ ?]|done].
Qed.

Lemma ink_trimStart s : ink (trimStart s) = ink s.
Proof.
  destruct (trimStart_split s) as (w & E & Sw & _). rewrite E at 2.
  rewrite ink_app. by apply ink_spaces in Sw as ->.
Qed.

Lemma ink_reverse s : ink (reverse s) = reverse (ink s).
Proof.
  induction s as [|c s IH]; [done|]. rewrite reverse_cons, ink_app, IH.
  unfold ink. cbn [List.filter]. destruct (is_space c); cbn [negb].
  - by rewrite app_nil_r.
  - by rewrite reverse_cons.
Qed.

Lemma ink_trimEnd s : ink (trimEnd s) = ink s.
Proof. unfold trimEnd. by rewrite ink_reverse, ink_trimStart, ink_reverse, reverse_involutive. Qed.

Lemma ink_trim s : ink (trim s) = ink s.
Proof. unfold trim. by rewrite ink_trimEnd, ink_trimStart. Qed.

Lemma find_nonspace_spec s :
  match find_nonspace s with
  | Some i => spaces (take i s)
  | None => spaces s
  end.
Proof.
  induction s as [|c s IH]; cbn; [constructor|].
  destruct (is_space c) eqn:E; cbn; [|constructor].
  destruct (find_nonspace s); cbn; by constructor.
Qed.

Definition blank (line : jsstring) : bool := str_length (trim line) =? 0.

Lemma blank_ink line : blank line = true -> ink line = [].
Proof.
  unfold blank, str_length. intros Hb. bools. rewrite <- ink_trim.
  destruct (trim line); [done|cbn in Hb; lia].
Qed.

Lemma nonblank_lead line :
  blank line = false -> 0 <= search_nonspace line /\ spaces (take (Z.to_nat (search_nonspace line)) line).
Proof.
  intros Hb. pose proof (find_nonspace_spec line) as Hf. unfold search_nonspace.
  destruct (find_nonspace line) as [n|]; [split; [lia|by rewrite Nat2Z.id]|].
  exfalso. unfold blank, str_length, trim, trimEnd in Hb. apply Z.eqb_neq in Hb. apply Hb.
  rewrite <- (app_nil_r line), trimStart_spaces; done.
Qed.

(** The indentation that is removed is one every non-blank line has. *)
Lemma min_leading_spec lines m :
  -1 <= m ->
  let r := min_leading lines m in
  -1 <= r /\ (m <> -1 -> 0 <= r <= m) /\
  forall line, line ∈ lines -> blank line = false -> 0 <= r <= search_nonspace line.
Proof.
  revert m. induction lines as [|line lines IH]; intros m Hm; cbn.
  { split; [lia|]. split; [lia|]. intros line Hl. inversion Hl. }
  destruct (Z.eqb_spec m 0) as [->|Hm0].
  { split; [lia|]. split; [lia|]. intros line' _ Hb'. by apply nonblank_lead in Hb' as [? _]. }
  fold (blank line). destruct (blank line) eqn:Hb.
  - destruct (IH m Hm) as (H1 & H2 & H3). split; [done|]. split; [done|].
    intros line' [->|Hin]%elem_of_cons Hb'; [congruence|]. by apply H3.
  - destruct (nonblank_lead line Hb) as [Hl _].
    set (m' := if _ && _ then _ else _).
    assert (Hm' : 0 <= m' /\ m' <= search_nonspace line /\ (m <> -1 -> m' <= m)).
    { unfold m'. rewrite !Z.gtb_ltb. destruct (Z.ltb_spec (-1) (search_nonspace line)); cbn; [|lia].
      destruct (Z.ltb_spec (search_nonspace line) m); cbn; [lia|].
      destruct (Z.eqb_spec m (-1)); lia. }
    destruct (IH m' ltac:(lia)) as (H1 & H2 & H3). specialize (H2 ltac:(lia)).
    split; [done|]. split; [lia|].
    intros line' [->|Hin]%elem_of_cons Hb'; [lia|]. by apply H3.
Qed.

Lemma ink_drop_spaces s n : spaces (take n s) -> ink (drop n s) = ink s.
Proof. intros Hs. rewrite <- (take_drop n s) at 2. rewrite ink_app. by apply ink_spaces in Hs as ->. Qed.

Lemma ink_nil_drop s n : ink s = [] -> ink (drop n s) = [].
Proof. rewrite <- !ink_spaces. apply Forall_drop. Qed.

Lemma ink_stripped_line line r :
  -1 <= r -> (blank line = false -> 0 <= r <= search_nonspace line) ->
  ink (substring_from line r) = ink line.
Proof.
  intros Hr Hl. destruct (Z.eq_dec r (-1)) as [->|Hne].
  { by change (substring_from line (-1)) with (substring_from line 0);
      rewrite substring_from_drop, drop_0 by lia. }
  rewrite substring_from_drop by lia. destruct (blank line) eqn:Hb.
  - apply blank_ink in Hb. by rewrite Hb, ink_nil_drop.
  - destruct (nonblank_lead line Hb) as [_ Hs]. specialize (Hl eq_refl).
    apply ink_drop_spaces.
    replace (take (Z.to_nat r) line) with
      (take (Z.to_nat r) (take (Z.to_nat (search_nonspace line)) line))
      by (rewrite take_take; f_equal; lia).
    by apply Forall_take.
Qed.

Lemma ink_strip_lines lines r :
  -1 <= r -> (forall line, line ∈ lines -> blank line = false -> 0 <= r <= search_nonspace line) ->
  ink (strip_lines lines r) = concat (map ink lines).
Proof.
  intros Hr. induction lines as [|line lines IH]; intros Hl; [done|]. cbn [strip_lines map concat].
  rewrite ink_app, IH by (intros; apply Hl; [by right|done]). f_equal.
  rewrite <- (ink_stripped_line line r Hr (Hl line ltac:(left))).
  rewrite <- (ink_trimEnd (substring_from line r)).
  destruct (trimEnd (substring_from line r)) as [|c t]; [done|].
  change (str_length (c :: t) >? 0) with true. cbv iota. rewrite ink_app.
  destruct lines; by rewrite app_nil_r.
Qed.

Lemma ink_join lines : ink (join [10] lines) = concat (map ink lines).
Proof.
  induction lines as [|l lines IH]; [done|]. destruct lines as [|l' lines].
  - cbn. by rewrite app_nil_r.
  - change (join [10] (l :: l' :: lines)) with (l ++ [10] ++ join [10] (l' :: lines)).
    rewrite !ink_app, IH. done.
Qed.

(** The formatted text before truncation. *)
Definition stripped (queryText : jsstring) : jsstring :=
  strip_lines (split 10 queryText) (min_leading (split 10 queryText) (-1)).

(** Removing the common indentation loses nothing but white space: without
    its white space the formatted text of a query equals the query, and what is
    shown is that text, cut to 300 characters and an ellipsis when it is
    longer. *)
Theorem stripQueryTextWhitespace_spec queryText :
  ink (stripped queryText) = ink queryText /\
  stripQueryTextWhitespace queryText =
    (if (length (stripped queryText) <=? 300)%nat then stripped queryText
     else take 300 (stripped queryText) ++ js "...").
Proof.
  split.
  - unfold stripped. rewrite ink_strip_lines; [|apply min_leading_spec; lia..].
    rewrite <- ink_join. by rewrite join_split.
  - unfold stripQueryTextWhitespace. fold (stripped queryText). unfold truncateString, str_length.
    rewrite Z.gtb_ltb. destruct (Nat.leb_spec (length (stripped queryText)) 300).
    + rewrite (proj2 (Z.ltb_ge _ _)) by lia. by rewrite andb_false_r.
    + rewrite (proj2 (Z.ltb_lt _ _)) by lia. rewrite substring_take by lia.
      destruct (stripped queryText); [cbn in *; lia|done].
Qed.

Example strip_example :
  stripQueryTextWhitespace ("  SELECT *" ++ [10] ++ "" ++ [10] ++ "    FROM t  " ++ [10]) =
  js "SELECT *" ++ [10] ++ js "  FROM t" ++ [10].
Proof. vm_compute. reflexivity. Qed.

(** ** Rendering *)

Section render.
Context `{DateEnv}.

(** A query of a well-formed answer can always be rendered: no property
    access of [QueryListItem.render] throws. *)
Theorem renderItem_total q : wf_query q -> exists n, renderItem q = Ok n.
Proof.
  intros W. destruct (getQueryStateColor_total q W) as (c & Hc & _).
  destruct (getHumanReadableState_total q W) as [t Ht]. destruct W as ([st Hst] & _ & _).
  unfold renderItem, getProgressBarTitle, getProgressBarPercentage. rewrite Hc, Ht, Hst.
  cbn [get_prop mbind res_bind].
  destruct (formatDataSize_total (qs_cumulativeUserMemory st /f num 1000) "") as [s Hs].
  unfold formatDataSizeBytes. rewrite Hs. case_ifs; cbn [mbind res_bind]; eauto.
Qed.
End render.

Lemma renderItem_total_witness :
  wf_query (sample_query "q" "RUNNING") /\
  exists n, renderItem (H := utc_env) (sample_query "q" "RUNNING") = Ok n.
Proof.
  assert (W : wf_query (sample_query "q" "RUNNING")) by (apply sample_wf; discriminate).
  split; [exact W|exact (renderItem_total (H := utc_env) _ W)].
Defined.

(** What the toolbar offers. *)
Definition toolbar_events : list QLEvent :=
  map StateFilterClick [RUNNING; QUEUED; FINISHED] ++
  map ErrorTypeFilterClick [INTERNAL_ERROR; EXTERNAL; INSUFFICIENT_RESOURCES; USER_ERROR] ++
  map SortClick [CREATED; ELAPSED; CPU; EXECUTION; CURRENT_MEMORY; CUMULATIVE_MEMORY] ++
  map ReorderClick [1000; 5000; 10000; 30000; 0] ++
  map MaxQueriesClick [20; 50; 100; 0].

Lemma sort_item_parts s t x :
  events (renderSortListItem s t x) = [SortClick t] /\ mounts (renderSortListItem s t x) = [].
Proof. unfold renderSortListItem. case_ifs; split; reflexivity. Qed.

Lemma list_part_parts s :
  events (query_list_part s) = [] /\
  mounts (query_list_part s) =
    (match displayedQueries s with [] => [] | l => [DisplayedQueriesList l] end).
Proof.
  unfold query_list_part. destruct (displayedQueries s); [|split; reflexivity].
  destruct (initialized s), (allQueries s); split; reflexivity.
Qed.

(** In every state the toolbar offers every filter, sort key, reorder
    interval and limit exactly once, and the page mounts the list of displayed
    queries exactly when there is something to show. *)
Theorem toolbar_complete s :
  events (renderList s) = toolbar_events /\
  mounts (renderList s) =
    (match displayedQueries s with [] => [] | l => [DisplayedQueriesList l] end).
Proof.
  unfold renderList. split; vdom.
  - rewrite !(fun t x => proj1 (sort_item_parts s t x)), (proj1 (list_part_parts s)). reflexivity.
  - rewrite !(fun t x => proj2 (sort_item_parts s t x)), (proj2 (list_part_parts s)).
    destruct (displayedQueries s); reflexivity.
Qed.

(** ** The whole list *)

Section tree.
Context `{DateEnv}.

(** The keys React tells the entries apart by. *)
Definition item_keys (l : list QLChild) : list jsstring :=
  omap (fun c => match c with QueryListItem key _ => Some key | _ => None end) l.

Lemma displayed_mounts l : mounts (renderDisplayed l) = map (fun q => QueryListItem (q_queryId q) q) l.
Proof. unfold renderDisplayed. vdom. induction l as [|q l IH]; [done|]. cbn in *. by f_equal. Qed.

Lemma items_total l :
  Forall wf_query l ->
  exists items, res_map render_item_child (map (fun q => QueryListItem (q_queryId q) q) l) = Ok items /\ length items = length l.
Proof.
  induction 1 as [|q l Hq _ (items & E & Hl)]; cbn; [by eexists|].
  destruct (renderItem_total q Hq) as [n ->]. cbn. rewrite E. cbn. eexists. split; [reflexivity|]. cbn. by rewrite Hl.
Qed.

Lemma list_tree_ok s :
  Forall wf_query (displayedQueries s) ->
  exists items, render_list_tree s = Ok items /\ length items = length (displayedQueries s).
Proof.
  intros Hd. destruct (items_total _ Hd) as (items & E & Hl). exists items. split; [|done].
  unfold render_list_tree. rewrite (proj2 (toolbar_complete s)).
  destruct (displayedQueries s) as [|q l]; [done|]. cbn [res_map render_item_child mbind res_bind flat_map].
  by rewrite app_nil_r, displayed_mounts.
Qed.

Lemma displayed_keys l : NoDup (map q_queryId l) -> NoDup (item_keys (mounts (renderDisplayed l))).
Proof.
  rewrite displayed_mounts. unfold item_keys. induction l as [|q l IH]; intros Hn; [done|].
  cbn in *. apply NoDup_cons in Hn as [Hq Hn]. apply NoDup_cons. split; [|by apply IH].
  intros Hin. apply Hq. clear -Hin. induction l as [|q' l IH]; [done|]. cbn in *.
  apply elem_of_cons in Hin as [->|Hin]; [left|right; auto].
Qed.
End tree.
