(* ===== verification/QueryListPage.v ===== *)
(** * The list of queries as React runs it ([QueryList.jsx])

    The callbacks of the component: it polls the server once per second and
    re-filters at once when the toolbar changes.  An update renders the toolbar,
    the list and its entries; when that throws the component is removed. *)

From S2P Require Import Prelude JsString JsDate Data EventLoop React VDom QueryList QueryListView.
Import FILTER_TYPE ERROR_TYPE SORT_TYPE SORT_ORDER.

Abbreviation QL := (Inst (Root QLState) QLTimer jsstring).

Section querylist.
Context `{DateEnv} `{LowerCase}.

Definition commit (s : QLState) : res QLState := _ ← render_list_tree s; Ok s.

(** ** Refreshing *)

(** [this.state] has neither [query] nor [ended]: [undefined === null] is false
    but [!undefined] is true, and the timer is always armed. *)
Definition resetTimer (i : QL) : QL := arm Refresh (clear Refresh i).

Definition refreshLoop (i : QL) : QL := send (js "/v1/query") (clear Search (clear Refresh i)).

Definition on_success (queryList : list Query) (now1 now2 : Z) (i : QL) : QL :=
  attempt (refreshed (r_state (st i)) queryList now1 now2)
    (fun '(displayed, lastReorder) =>
       set_then commit (with_refresh queryList displayed now1 lastReorder) resetTimer i) i.

Definition on_error : QL -> QL := set_then commit with_initialized resetTimer.

Definition componentDidMount (i : QL) : QL := refreshLoop i.

(** ** The toolbar

    React updates the component when the handler of an element is done. *)

Definition handleSearchStringChange (newSearchString : jsstring) (i : QL) : QL :=
  set_then commit (with_search newSearchString) id (arm Search (clear Search i)).

Definition executeSearch (i : QL) : QL :=
  let i := clear Search i in
  let s := r_state (st i) in
  attempt (selected s (Some (maxQueries s)))
    (fun newDisplayedQueries => set_then commit (with_displayed newDisplayedQueries) id i) i.

Definition handleMaxQueriesClick (newMaxQueries : Z) (i : QL) : QL :=
  attempt (selected (r_state (st i)) (Some newMaxQueries))
    (fun filteredQueries =>
       set_then commit (fun s => with_displayed filteredQueries (with_max newMaxQueries s)) id i) i.

Definition handleReorderClick (interval : Z) (i : QL) : QL :=
  if negb (reorderInterval (r_state (st i)) =? interval) then set_then commit (with_interval interval) id i else i.

Definition handleSortClick (sortType : sort_type) (i : QL) : QL :=
  let s := r_state (st i) in
  let newSortOrder := next_sort_order s sortType in
  attempt (selected (with_sort sortType newSortOrder s) (Some (maxQueries s)))
    (fun newDisplayedQueries =>
       set_then commit (fun s => with_displayed newDisplayedQueries (with_sort sortType newSortOrder s)) id i) i.

(** The limit is not passed here. *)
Definition handleStateFilterClick (filter : filter_type) (i : QL) : QL :=
  let s := r_state (st i) in
  let newFilters := toggle filter (stateFilters s) in
  attempt (selected (with_filters newFilters s) None)
    (fun filteredQueries =>
       set_then commit (fun s => with_displayed filteredQueries (with_filters newFilters s)) id i) i.

Definition handleErrorTypeFilterClick (errorType : error_type) (i : QL) : QL :=
  let s := r_state (st i) in
  let newFilters := toggle errorType (errorTypeFilters s) in
  attempt (selected (with_error_filters newFilters s) None)
    (fun filteredQueries =>
       set_then commit (fun s => with_displayed filteredQueries (with_error_filters newFilters s)) id i) i.

(** ** Steps *)

Definition ql_timer (k : QLTimer) : QL -> QL :=
  match k with Refresh => refreshLoop | Search => executeSearch end.

Definition ql_answer (_ : jsstring) (a : QLAnswer) : QL -> QL :=
  match a with
  | Some (queryList, now1, now2) => on_success queryList now1 now2
  | None => on_error
  end.

Definition ql_event (e : QLEvent) : QL -> QL :=
  when_mounted
    (match e with
     | SearchStringChange s => handleSearchStringChange s
     | MaxQueriesClick n => handleMaxQueriesClick n
     | ReorderClick n => handleReorderClick n
     | SortClick t => handleSortClick t
     | StateFilterClick f => handleStateFilterClick f
     | ErrorTypeFilterClick e => handleErrorTypeFilterClick e
     end).

Definition ql_step (admissible : QLAnswer -> Prop) : QL -> QL -> Prop :=
  step ql_timer ql_answer ql_event admissible.
Definition ql_start (now1 now2 : Z) : QL := componentDidMount (mount (new_root (ql_init now1 now2))).
Definition ql_reachable (admissible : QLAnswer -> Prop) (i : QL) : Prop :=
  exists now1 now2, reachable ql_timer ql_answer ql_event admissible (ql_start now1 now2) i.
End querylist.
