(* ===== verification/QueryListPageFacts.v ===== *)
(** * The list of queries: what it shows, and that it never breaks *)

From S2P Require Import Prelude JsString JsNumber JsNumberFacts JsSort JsObject JsDate Data Utils UtilsFacts.
From S2P Require Import EventLoop React VDom QueryList QueryListFacts QueryListView QueryListViewFacts QueryListPage.
Import FILTER_TYPE ERROR_TYPE SORT_TYPE SORT_ORDER.

(** The state of the component. *)
Abbreviation ql_state := (fun i : QL => r_state (st i)).

(** The filters of the toolbar, and the sort order it asks for. *)
Abbreviation wanted s := (passes (stateFilters s) (errorTypeFilters s) (searchString s)).
Abbreviation order s := (in_order (currentSortType s) (currentSortOrder s)).

Section facts.
Context `{DateEnv} `{LowerCase}.

(** ** Updates *)

Lemma commit_same s s' : commit s = Ok s' -> s' = s.
Proof. unfold commit. intros E. by inv_ok. Qed.

(** The list can be shown when it is made of well-formed queries. *)
Lemma good_displayed s : ql_good s -> Forall wf_query (displayedQueries s).
Proof. intros ((Hw & _) & _ & Hs). rewrite Forall_forall in Hw |- *. auto. Qed.

Lemma commit_good s : ql_good s -> commit s = Ok s.
Proof. unfold commit. intros (items & -> & _)%good_displayed%list_tree_ok. done. Qed.

(** What a callback sets is the state afterwards, whether it can be shown or not. *)
Lemma set_state f k (i : QL) :
  r_mounted (st i) = true -> (forall j, st (k j) = st j) -> ql_state (set_then commit f k i) = f (ql_state i).
Proof.
  intros Hm Hk. unfold set_then. pose proof (update_root_spec commit f (st i)) as Hs.
  destruct (update_root commit f (st i)) as [r e]. cbn in Hs.
  destruct Hs as [s s' E|s e E|s]; rewrite ?Hk; [by apply commit_same in E|done|done].
Qed.

(** It leaves the timers alone. *)
Lemma set_frame f (i : QL) :
  (forall k, armed k (set_then commit f id i) = armed k i) /\ (timers_ok i -> timers_ok (set_then commit f id i)).
Proof. unfold set_then. by destruct (update_root _ _ _) as [r [e|]]. Qed.

Lemma reset_st (i : QL) : st (resetTimer i) = st i.
Proof. apply clear_st. Qed.

(** ** The displayed list in every reachable state *)

Definition good_answer (a : QLAnswer) : Prop :=
  match a with Some (l, _, _) => wf_answer l | None => True end.

Definition ql_inv (i : QL) : Prop := r_mounted (st i) = true /\ ql_good (ql_state i) /\ console i = [].

Lemma ql_inv_st (i j : QL) : st j = st i -> console j = console i -> ql_inv i -> ql_inv j.
Proof. unfold ql_inv. by intros -> ->. Qed.

Lemma ql_inv_clear k i : ql_inv i -> ql_inv (clear k i).
Proof. apply ql_inv_st; [apply clear_st|apply clear_console]. Qed.

Lemma ql_inv_resetTimer i : ql_inv i -> ql_inv (resetTimer i).
Proof. apply ql_inv_clear. Qed.

Lemma set_ql_inv f k (i : QL) :
  ql_good (f (ql_state i)) -> (forall j, ql_inv j -> ql_inv (k j)) -> ql_inv i -> ql_inv (set_then commit f k i).
Proof.
  intros Hf Hk (Hm & _ & Hc). unfold set_then, update_root. rewrite Hm, commit_good by done. by apply Hk.
Qed.

(** Settings that leave the two lists alone. *)
Lemma ql_good_fields s s' :
  allQueries s' = allQueries s -> displayedQueries s' = displayedQueries s -> ql_good s -> ql_good s'.
Proof. unfold ql_good. by intros -> ->. Qed.

Lemma selected_inv s' m f (i : QL) :
  ql_inv i -> allQueries s' = allQueries (ql_state i) ->
  (forall d, allQueries (f d (ql_state i)) = allQueries (ql_state i) /\ displayedQueries (f d (ql_state i)) = d) ->
  ql_inv (attempt (selected s' m) (fun d => set_then commit (f d) id i) i).
Proof.
  intros Hi Ha Hf. pose proof Hi as (_ & ((W & N & P) & _ & _) & _).
  rewrite selected_ok by by rewrite Ha. cbn [attempt]. apply set_ql_inv; [|done|done].
  destruct (Hf (selection s' m)) as [Fa Fd].
  destruct (selection_part s' m) as (full & rest & Hs & Hp). rewrite Ha in Hp.
  destruct (shown_of_answer (allQueries (ql_state i)) (selection s' m) full N Hs (ex_intro _ rest Hp)).
  unfold ql_good. by rewrite Fa, Fd.
Qed.

Lemma ql_inv_success l now1 now2 i :
  wf_answer l -> ql_inv i -> ql_inv (on_success l now1 now2 i).
Proof.
  intros Wl Hi. pose proof Hi as (_ & G & _). unfold on_success.
  destruct (refreshed_ok (ql_state i) l now1 now2 G Wl) as (u & r & Hp & _ & ->). cbn [attempt].
  apply set_ql_inv; [|apply ql_inv_resetTimer|done].
  destruct (refreshed_list_part (ql_state i) now1 u r l Hp) as (full & rest & Hs & Hr).
  destruct Wl as (W & N & P). by destruct (shown_of_answer l _ full N Hs (ex_intro _ rest Hr)).
Qed.

Lemma ql_inv_timer k i : ql_inv i -> ql_inv (ql_timer k i).
Proof.
  intros G. destruct k; cbn.
  - apply (ql_inv_clear Search), (ql_inv_clear Refresh), G.
  - unfold executeSearch.
    apply (selected_inv _ _ (fun d => with_displayed d)); [by apply ql_inv_clear|done|done].
Qed.

Lemma ql_inv_event e i : ql_inv i -> ql_inv (ql_event e i).
Proof.
  intros Hi. pose proof Hi as (Hm & G & _). unfold ql_event, when_mounted. rewrite Hm.
  destruct e; cbn.
  - apply set_ql_inv; [|done|by apply (ql_inv_clear Search)]. cbn [arm st]. rewrite clear_st. by eapply ql_good_fields.
  - by apply (selected_inv _ _ (fun d s => with_displayed d (with_max newMaxQueries s))).
  - unfold handleReorderClick. case_match; [|done]. apply set_ql_inv; [by eapply ql_good_fields|done|done].
  - by apply (selected_inv _ _ (fun d s => with_displayed d (with_sort _ _ s))).
  - by apply (selected_inv _ _ (fun d s => with_displayed d (with_filters _ s))).
  - by apply (selected_inv _ _ (fun d s => with_displayed d (with_error_filters _ s))).
Qed.

Lemma ql_start_inv now1 now2 : ql_inv (ql_start now1 now2).
Proof.
  split; [done|]. split; [|done]. split; [|split; [constructor|intros q Hq; inversion Hq]].
  split; [constructor|split; constructor].
Qed.

Lemma ql_reachable_inv i : ql_reachable good_answer i -> ql_inv i.
Proof.
  intros (now1 & now2 & Hr). revert Hr. apply reachable_ind_inv; [apply ql_start_inv|].
  intros j j' _ G Hs. destruct Hs as [j n k l1 l2 Ht|j r a l1 l2 Ht Ha|j e].
  - by apply ql_inv_timer.
  - destruct a as [[[l now1'] now2']|]; cbn in *.
    + by apply ql_inv_success.
    + apply set_ql_inv; [|apply ql_inv_resetTimer|done]. destruct G as (_ & G & _). by eapply ql_good_fields.
  - by apply ql_inv_event.
Qed.

(** C1: Whatever the server answers (well-formed documents), whatever the user
    clicks and in whichever order timers fire, the list on the screen never
    shows a query twice, shows only queries of the last answer in their latest
    version, and no callback ever throws. *)
Theorem displayed_queries_invariant i :
  ql_reachable good_answer i ->
  NoDup (map q_queryId (displayedQueries (ql_state i))) /\
  (forall q, q ∈ displayedQueries (ql_state i) -> q ∈ allQueries (ql_state i)) /\
  console i = [].
Proof. intros (_ & (_ & Hn & Hs) & Hc)%ql_reachable_inv. done. Qed.

(** C29: The query list never breaks: in every state it can reach it is mounted and
    the whole tree renders, with one entry per displayed query, and React never
    finds two entries with the same key. *)
Theorem query_list_renders i :
  ql_reachable good_answer i ->
  r_mounted (st i) = true /\
  exists items, render_list_tree (ql_state i) = Ok items /\ length items = length (displayedQueries (ql_state i)) /\
    NoDup (item_keys (mounts (renderDisplayed (displayedQueries (ql_state i))))).
Proof.
  intros (Hm & G & _)%ql_reachable_inv. split; [done|].
  destruct (list_tree_ok _ (good_displayed _ G)) as (items & E & Hl). exists items.
  split; [done|]. split; [done|]. apply displayed_keys, G.
Qed.

(** ** Timers and requests *)

(** The list is refreshed for ever. *)
Definition ql_stopped (_ : Root QLState) : bool := false.

Abbreviation ql_polls := (polls (R := jsstring) Refresh ql_stopped).

Lemma polls_set f (i : QL) : ql_polls i -> ql_polls (set_then commit f id i).
Proof. by apply (polls_set_event Refresh (fun _ => false)). Qed.

Lemma polls_attempt {A} (r : res A) f (i : QL) :
  ql_polls i -> ql_polls (attempt r (fun a => set_then commit (f a) id i) i).
Proof. intros Hp. destruct r; cbn; [by apply polls_set|by apply polls_report]. Qed.

Lemma polls_search i : ql_polls i -> ql_polls (arm Search (clear Search i)).
Proof.
  intros Hp. pose proof Hp as (Hok & _). revert Hp.
  apply polls_keep; [by apply arm_clear_ok| |apply clear_inflight|apply clear_st|apply clear_console].
  rewrite armed_arm_ne by done. by apply armed_clear_ne.
Qed.

#[export] Instance ql_poller : Poller Refresh ql_stopped ql_timer ql_answer ql_event.
Proof.
  split.
  - intros i Hi _. by apply polls_send; [apply idle_clear, idle_clear|].
  - intros [] i Hne Hp; [done|]. cbn. apply polls_attempt. by apply polls_clear_other.
  - assert (Hr : forall i, idle Refresh i -> ql_polls (resetTimer i)) by (intros i Hi; by apply polls_arm).
    intros r [[[l now1] now2]|] i Hi _; cbn; [|by apply polls_set_then].
    unfold on_success. destruct (refreshed _ _ _ _) as [[d re]|e]; cbn [attempt];
      [by apply polls_set_then|by apply polls_report_idle].
  - intros e i Hp. unfold ql_event, when_mounted. destruct (r_mounted (st i)); [|done].
    destruct e; try by apply polls_attempt.
    + by apply polls_set, polls_search.
    + unfold handleReorderClick. case_match; [|done]. by apply polls_set.
Qed.

Lemma ql_reachable_polling adm i : ql_reachable adm i -> ql_polls i.
Proof.
  intros (now1 & now2 & Hr). revert Hr.
  apply (poller_reachable Refresh ql_stopped); [apply ql_poller|].
  apply polls_send; [|done]. apply idle_clear, idle_clear. split; [apply mount_ok|done].
Qed.

(** C5: There is never more than one series of refreshes: at any time the
    refresh timer is armed or one request is in flight, never both and never
    two; and while no callback has thrown exactly one of them holds, so the
    list keeps being refreshed.  At most one search is waiting. *)
Theorem single_refresh_series adm i :
  ql_reachable adm i ->
  (armed Refresh i + length (inflight i) <= 1)%nat /\
  (console i = [] -> (armed Refresh i + length (inflight i) = 1)%nat) /\
  (armed Search i <= 1)%nat.
Proof.
  intros (Hok & Hle & _ & H1)%ql_reachable_polling. split; [done|]. split; [by intros; apply H1|].
  by apply at_most_one_armed.
Qed.

(** With well-formed answers polling never dies: in every reachable state a
    refresh is due or on its way. *)
Theorem polling_never_stops i :
  ql_reachable good_answer i -> (armed Refresh i + length (inflight i) = 1)%nat.
Proof.
  intros Hr. destruct (ql_reachable_polling _ _ Hr) as (_ & _ & _ & H1).
  destruct (ql_reachable_inv _ Hr) as (_ & _ & Hc). by apply H1.
Qed.

(** C4: [executeSearch] shows exactly the queries of the last answer that pass
    the state filters, the error filters and the search string, sorted by the
    chosen key in the chosen direction with ties in the order of the answer,
    cut to the first [maxQueries]. *)
Theorem executeSearch_correct (i : QL) :
  r_mounted (st i) = true -> Forall wf_query (allQueries (ql_state i)) ->
  (forall q, q ∈ allQueries (ql_state i) -> good_key (key_of (currentSortType (ql_state i)) q)) ->
  exists full,
    displayedQueries (ql_state (executeSearch i)) = limit (Some (maxQueries (ql_state i))) full /\
    arranged (ql_state i) (allQueries (ql_state i)) full.
Proof.
  intros Hm W Hk. unfold executeSearch. rewrite clear_st, selected_ok by done. cbn [attempt].
  rewrite set_state by by rewrite ?clear_st. rewrite clear_st. by apply selection_arranged.
Qed.

(** Clicking a sort key arranges the list by that key: descending on the
    first click, ascending on the next click on the same key, and so on. *)
Theorem handleSortClick_correct (t : sort_type) (i : QL) :
  r_mounted (st i) = true -> Forall wf_query (allQueries (ql_state i)) ->
  (forall q, q ∈ allQueries (ql_state i) -> good_key (key_of t q)) ->
  let s' := ql_state (handleSortClick t i) in
  currentSortType s' = t /\
  currentSortOrder s' =
    (if decide (currentSortType (ql_state i) = t /\ currentSortOrder (ql_state i) = DESCENDING)
     then ASCENDING else DESCENDING) /\
  exists full, displayedQueries s' = limit (Some (maxQueries s')) full /\
               arranged s' (allQueries s') full.
Proof.
  intros Hm W Hk. unfold handleSortClick. rewrite selected_ok by done. cbn [attempt]. rewrite set_state by done.
  split; [done|]. split.
  - cbn. unfold next_sort_order. case_decide as Hd; repeat case_bool_decide; tauto.
  - by apply (selection_arranged (with_sort t (next_sort_order (ql_state i) t) (ql_state i))).
Qed.

(** After a refresh, a search, a sort click or a click on the number of
    queries to show, at most [maxQueries] queries are shown (unless it is 0,
    which means all). *)
Theorem displayed_within_limit (i : QL) l now1 now2 t n :
  r_mounted (st i) = true -> ql_good (ql_state i) -> wf_answer l -> 0 < maxQueries (ql_state i) -> 0 < n ->
  let count j := Z.of_nat (length (displayedQueries (ql_state j))) in
  count (on_success l now1 now2 i) <= maxQueries (ql_state i) /\
  count (executeSearch i) <= maxQueries (ql_state i) /\
  count (handleSortClick t i) <= maxQueries (ql_state i) /\
  count (handleMaxQueriesClick n i) <= n.
Proof.
  intros Hr G Wl Hm Hn count. unfold count. pose proof G as ((W & _ & _) & _ & _).
  unfold on_success, executeSearch, handleSortClick, handleMaxQueriesClick.
  destruct (refreshed_ok (ql_state i) l now1 now2 G Wl) as (u & r & _ & _ & ->).
  rewrite clear_st, !selected_ok by done. cbn [attempt].
  rewrite !set_state by (try apply reset_st; by rewrite ?clear_st). rewrite clear_st. cbn.
  repeat split; by apply limit_length.
Qed.

Lemma sorted_result s l :
  (forall q, q ∈ l -> good_key (key_of (currentSortType s) q)) ->
  sorted_by (order s) (js_sort (query_cmp (currentSortType s) (currentSortOrder s)) l).
Proof. intros Hk. rewrite js_sort_in_order by done. apply stable_sort_sorted, in_order_consistent. Qed.

(** The survivors and the new queries partition the answer: the new ones are
    those whose id is not on the screen. *)
Lemma new_queries (d l u r : list Query) :
  NoDup (map q_queryId l) -> u ++ r ≡ₚ l ->
  map q_queryId u = List.filter (fun k => bool_decide (k ∈ map q_queryId l)) (map q_queryId d) ->
  r ≡ₚ List.filter (fun q => negb (bool_decide (q_queryId q ∈ map q_queryId d))) l.
Proof.
  intros N Hp Hu. set (P := fun q => negb (bool_decide (q_queryId q ∈ map q_queryId d))).
  assert (Hid : forall q (k : list Query), q ∈ k -> q_queryId q ∈ map q_queryId k)
    by (intros q k Hq; by apply list_elem_of_In, in_map, list_elem_of_In).
  rewrite <- Hp, map_app in N. apply NoDup_app in N as (_ & N & _).
  rewrite <- Hp, List.filter_app, (filter_none P u), (List.forallb_filter_id P r); [done| |].
  - apply forallb_forall. intros q Hq%list_elem_of_In. apply negb_true_iff, bool_decide_eq_false. intros Hd.
    apply (N (q_queryId q)); [|by apply Hid]. rewrite Hu. apply list_filter_In. split; [done|].
    apply bool_decide_eq_true. rewrite <- Hp. apply Hid, elem_of_app. by right.
  - intros q Hq. apply negb_false_iff, bool_decide_eq_true. apply Hid in Hq. rewrite Hu in Hq.
    by apply list_filter_In in Hq as [Hq _].
Qed.

(** C7: A refresh that is not due for reordering leaves the rows in place: the
    screen shows the queries that were on it and that the server still reports,
    in their order and as the answer has them, followed by the queries of the
    answer that were not on the screen and pass the filters, in the sort order
    of the toolbar (for keys that are finite numbers), all of it cut to the
    limit. *)
Theorem refresh_keeps_rows (i : QL) l now1 now2 :
  r_mounted (st i) = true -> ql_good (ql_state i) -> wf_answer l -> due (ql_state i) now1 = false ->
  exists kept new,
    displayedQueries (ql_state (on_success l now1 now2 i)) = limit (Some (maxQueries (ql_state i))) (kept ++ new) /\
    map q_queryId kept =
      List.filter (fun k => bool_decide (k ∈ map q_queryId l)) (map q_queryId (displayedQueries (ql_state i))) /\
    (forall q, q ∈ kept -> q ∈ l) /\
    new ≡ₚ List.filter (fun q => wanted (ql_state i) q &&
             negb (bool_decide (q_queryId q ∈ map q_queryId (displayedQueries (ql_state i))))) l /\
    ((forall q, q ∈ l -> good_key (key_of (currentSortType (ql_state i)) q)) -> sorted_by (order (ql_state i)) new).
Proof.
  intros Hm G Wl Hd. unfold on_success.
  destruct (refreshed_ok (ql_state i) l now1 now2 G Wl) as (u & r & Hp & Hu & ->). cbn [attempt].
  rewrite set_state by (done || apply reset_st). cbn [displayedQueries with_refresh]. unfold refreshed_list. rewrite Hd.
  destruct Wl as (_ & N & _). pose proof (new_queries _ l u r N Hp Hu) as Hr.
  exists u. eexists. split; [reflexivity|]. split; [done|]. split.
  { intros q Hq. rewrite <- Hp. apply elem_of_app. by left. }
  split.
  - rewrite js_sort_perm, Hr. by rewrite (filter_filter_ext _ _ _ l (fun q => eq_refl)).
  - intros Hk. apply sorted_result. intros q [Hq _]%list_filter_In. apply Hk. rewrite <- Hp. apply elem_of_app. by right.
Qed.

(** C25: A refresh that is due for reordering arranges the whole screen anew, as a
    search over the new answer would: it shows the queries of the answer that
    pass the filters, in the sort order of the toolbar (for keys that are finite
    numbers), cut to the limit.  Only the order of queries with equal keys is
    left open. *)
Theorem refresh_reorders (i : QL) l now1 now2 :
  r_mounted (st i) = true -> ql_good (ql_state i) -> wf_answer l -> due (ql_state i) now1 = true ->
  exists full,
    displayedQueries (ql_state (on_success l now1 now2 i)) = limit (Some (maxQueries (ql_state i))) full /\
    full ≡ₚ List.filter (wanted (ql_state i)) l /\
    ((forall q, q ∈ l -> good_key (key_of (currentSortType (ql_state i)) q)) -> sorted_by (order (ql_state i)) full).
Proof.
  intros Hm G Wl Hd. unfold on_success.
  destruct (refreshed_ok (ql_state i) l now1 now2 G Wl) as (u & r & Hp & _ & ->). cbn [attempt].
  rewrite set_state by (done || apply reset_st). cbn. unfold refreshed_list. rewrite Hd.
  eexists. split; [reflexivity|]. rewrite <- List.filter_app. split; [by rewrite js_sort_perm, Hp|].
  intros Hk. apply sorted_result. intros q [Hq _]%list_filter_In. apply Hk. by rewrite <- Hp.
Qed.

(** A refresh that starts while a search is waiting cancels it: the search
    string is stored but the list has not been searched and no search is
    pending any more. *)
Theorem refresh_cancels_search (i : QL) s :
  r_mounted (st i) = true -> timers_ok i ->
  let j := refreshLoop (handleSearchStringChange s i) in
  armed Search (handleSearchStringChange s i) = 1%nat /\ armed Search j = 0%nat /\
  searchString (ql_state j) = s /\ displayedQueries (ql_state j) = displayedQueries (ql_state i).
Proof.
  intros Hm Hok j. destruct (set_frame (with_search s) (arm Search (clear Search i))) as (Ht & Ho).
  assert (Hok' : timers_ok (handleSearchStringChange s i)) by by apply Ho, (arm_clear_ok Search i).
  split; [|split].
  - unfold handleSearchStringChange. rewrite Ht, armed_arm_eq. f_equal. by apply (armed_clear_eq Search i).
  - unfold j, refreshLoop. apply (armed_clear_eq Search (clear Refresh (handleSearchStringChange s i))).
    by apply clear_ok.
  - unfold j, refreshLoop, send. cbn [st]. rewrite !clear_st. unfold handleSearchStringChange.
    rewrite set_state by (cbn [arm st]; by rewrite ?clear_st). cbn. by rewrite clear_st.
Qed.
End facts.

(** ** A concrete run

    The browser's clock in UTC and lower case on ASCII; the server answers with
    101 finished queries. *)

Definition demo_answer : list Query :=
  map (fun k => sample_query (js "q" ++ dec k) "FINISHED") (upto 101).

Lemma demo_answer_wf : wf_answer demo_answer.
Proof.
  split; [|split].
  - apply Forall_map, Forall_forall. intros k _. by apply sample_wf.
  - apply (bool_decide_unpack _). vm_compute. exact I.
  - apply (bool_decide_unpack _). vm_compute. exact I.
Qed.

#[local] Existing Instance utc_env.
#[local] Existing Instance ascii_lower.

Definition demo_start : QL := ql_start 0 0.
Definition demo_loaded : QL :=
  on_success demo_answer 1000 1001 (mkInst (st demo_start) (ids demo_start) [] 0 [] []).

Lemma demo_loaded_reachable : ql_reachable good_answer demo_loaded.
Proof.
  exists 0, 0. apply rtc_once.
  exact (step_answer ql_timer ql_answer ql_event good_answer demo_start _
    (Some (demo_answer, 1000, 1001)) [] [] eq_refl demo_answer_wf).
Qed.

Lemma demo_loaded_good : ql_good (ql_state demo_loaded).
Proof. exact (proj1 (proj2 (ql_reachable_inv _ demo_loaded_reachable))). Qed.

Lemma demo_loaded_mounted : r_mounted (st demo_loaded) = true.
Proof. exact (proj1 (ql_reachable_inv _ demo_loaded_reachable)). Qed.

Lemma demo_keys q : q ∈ demo_answer -> good_key (key_of CREATED q).
Proof.
  intros Hq. apply list_elem_of_In, in_map_iff in Hq as (k & <- & _).
  vm_compute. by split.
Qed.

Lemma filter_click_reachable : ql_reachable good_answer (handleStateFilterClick FINISHED demo_loaded).
Proof.
  destruct demo_loaded_reachable as (n1 & n2 & Hr). exists n1, n2. eapply rtc_r; [exact Hr|].
  apply (step_event ql_timer ql_answer ql_event good_answer demo_loaded (StateFilterClick FINISHED)).
Qed.

(** The clicks on state and error filters do not limit the list: from the
    first answer of a server with 101 finished queries, one click on the
    finished filter shows all 101 of them although the limit is 100. *)
Theorem filter_click_exceeds_limit :
  ql_reachable good_answer (handleStateFilterClick FINISHED demo_loaded) /\
  maxQueries (ql_state (handleStateFilterClick FINISHED demo_loaded)) = 100 /\
  length (displayedQueries (ql_state (handleStateFilterClick FINISHED demo_loaded))) = 101%nat.
Proof.
  split; [apply filter_click_reachable|split; vm_compute; reflexivity].
Qed.

Lemma displayed_queries_invariant_witness :
  NoDup (map q_queryId (displayedQueries (ql_state demo_loaded))) /\
  (forall q, q ∈ displayedQueries (ql_state demo_loaded) -> q ∈ allQueries (ql_state demo_loaded)) /\
  console demo_loaded = [].
Proof. apply (displayed_queries_invariant demo_loaded demo_loaded_reachable). Defined.

Lemma single_refresh_series_witness :
  (armed Refresh demo_loaded + length (inflight demo_loaded) <= 1)%nat /\
  (console demo_loaded = [] -> (armed Refresh demo_loaded + length (inflight demo_loaded) = 1)%nat) /\
  (armed Search demo_loaded <= 1)%nat.
Proof. apply (single_refresh_series good_answer demo_loaded demo_loaded_reachable). Defined.

Lemma polling_never_stops_witness :
  (armed Refresh demo_loaded + length (inflight demo_loaded) = 1)%nat.
Proof. apply (polling_never_stops demo_loaded demo_loaded_reachable). Defined.

Lemma executeSearch_correct_witness :
  exists full,
    displayedQueries (ql_state (executeSearch demo_loaded)) =
      limit (Some (maxQueries (ql_state demo_loaded))) full /\
    arranged (ql_state demo_loaded) (allQueries (ql_state demo_loaded)) full.
Proof. apply (executeSearch_correct demo_loaded demo_loaded_mounted (proj1 demo_answer_wf) demo_keys). Defined.

Lemma demo_elapsed_keys q : q ∈ demo_answer -> good_key (key_of ELAPSED q).
Proof.
  intros Hq. apply list_elem_of_In, in_map_iff in Hq as (k & <- & _).
  vm_compute. by split.
Qed.

Lemma handleSortClick_correct_witness :
  let s' := ql_state (handleSortClick ELAPSED demo_loaded) in
  currentSortType s' = ELAPSED /\
  currentSortOrder s' =
    (if decide (currentSortType (ql_state demo_loaded) = ELAPSED /\
                currentSortOrder (ql_state demo_loaded) = DESCENDING)
     then ASCENDING else DESCENDING) /\
  exists full, displayedQueries s' = limit (Some (maxQueries s')) full /\
               arranged s' (allQueries s') full.
Proof. apply (handleSortClick_correct ELAPSED demo_loaded demo_loaded_mounted (proj1 demo_answer_wf) demo_elapsed_keys). Defined.

Lemma displayed_within_limit_witness :
  let count j := Z.of_nat (length (displayedQueries (ql_state j))) in
  count (on_success demo_answer 2000 2001 demo_loaded) <= maxQueries (ql_state demo_loaded) /\
  count (executeSearch demo_loaded) <= maxQueries (ql_state demo_loaded) /\
  count (handleSortClick CPU demo_loaded) <= maxQueries (ql_state demo_loaded) /\
  count (handleMaxQueriesClick 20 demo_loaded) <= 20.
Proof.
  apply (displayed_within_limit demo_loaded demo_answer 2000 2001 CPU 20 demo_loaded_mounted demo_loaded_good demo_answer_wf);
    vm_compute; reflexivity.
Defined.

(** The next answer: half of the queries are gone and there is a new one. *)
Definition demo_new : Query := sample_query "q200" "RUNNING".
Definition demo_next : list Query := demo_new :: drop 50 demo_answer.

Lemma demo_next_wf : wf_answer demo_next.
Proof.
  split; [|split].
  - apply Forall_cons. split; [by apply sample_wf|]. apply Forall_drop, demo_answer_wf.
  - apply (bool_decide_unpack _). vm_compute. exact I.
  - apply (bool_decide_unpack _). vm_compute. exact I.
Qed.

(** The finished queries are on the screen. *)
Definition demo_all : QL := handleStateFilterClick FINISHED demo_loaded.

Lemma demo_all_inv : ql_inv demo_all.
Proof. exact (ql_reachable_inv _ filter_click_reachable). Qed.

Lemma demo_next_keys q : q ∈ demo_next -> good_key (key_of CREATED q).
Proof.
  intros [->|Hq]%elem_of_cons; [vm_compute; by split|]. apply demo_keys.
  eapply sublist_in; [|exact Hq]. apply sublist_drop.
Qed.

Lemma refresh_keeps_rows_witness :
  exists kept new,
    displayedQueries (ql_state (on_success demo_next 2000 2001 demo_all)) =
      limit (Some (maxQueries (ql_state demo_all))) (kept ++ new) /\
    length kept = 51%nat /\ new ≡ₚ [demo_new] /\ sorted_by (order (ql_state demo_all)) new.
Proof.
  destruct demo_all_inv as (Hm & G & _).
  destruct (refresh_keeps_rows demo_all demo_next 2000 2001 Hm G demo_next_wf)
    as (kept & new & Hd & Hk & _ & Hn & Hs); [vm_compute; reflexivity|].
  exists kept, new. split; [exact Hd|]. split; [|split].
  - rewrite <- (length_map q_queryId), Hk. vm_compute. reflexivity.
  - etrans; [exact Hn|]. vm_compute. reflexivity.
  - exact (Hs demo_next_keys).
Defined.

Lemma refresh_reorders_witness :
  exists full,
    displayedQueries (ql_state (on_success demo_next 9000 9001 demo_all)) =
      limit (Some (maxQueries (ql_state demo_all))) full /\
    length full = 52%nat /\ sorted_by (order (ql_state demo_all)) full.
Proof.
  destruct demo_all_inv as (Hm & G & _).
  destruct (refresh_reorders demo_all demo_next 9000 9001 Hm G demo_next_wf)
    as (full & Hd & Hp & Hs); [vm_compute; reflexivity|].
  exists full. split; [exact Hd|]. split; [rewrite Hp; vm_compute; reflexivity|]. exact (Hs demo_next_keys).
Defined.

Lemma refresh_cancels_search_witness :
  let j := refreshLoop (handleSearchStringChange "hive" demo_loaded) in
  armed Search (handleSearchStringChange "hive" demo_loaded) = 1%nat /\ armed Search j = 0%nat /\
  searchString (ql_state j) = js "hive" /\ displayedQueries (ql_state j) = displayedQueries (ql_state demo_loaded).
Proof.
  apply (refresh_cancels_search demo_loaded (js "hive") demo_loaded_mounted).
  exact (proj1 (ql_reachable_polling good_answer demo_loaded demo_loaded_reachable)).
Defined.

Lemma query_list_renders_witness :
  exists items, render_list_tree (ql_state (handleStateFilterClick FINISHED demo_loaded)) = Ok items /\ length items = 101%nat.
Proof.
  destruct (query_list_renders (handleStateFilterClick FINISHED demo_loaded)) as (_ & items & E & L & _).
  - apply filter_click_reachable.
  - exists items. split; [exact E|]. rewrite L. vm_compute. reflexivity.
Defined.
