(* ===== verification/ClusterHUD.v ===== *)
(** * The cluster overview ([ClusterHUD.jsx])

    Nine histories of cluster statistics, one new sample per answer of
    [/v1/cluster], drawn as sparklines. *)

From S2P Require Import Prelude JsString JsNumber JsNumberFacts Data Utils UtilsFacts.
From S2P Require Import EventLoop VDom.

(** The answer of [/v1/cluster]. *)
Record ClusterStats := mkClusterStats {
  cs_runningQueries : number; cs_queuedQueries : number; cs_blockedQueries : number;
  cs_activeWorkers : number; cs_runningDrivers : number; cs_reservedMemory : number;
  cs_totalInputRows : number; cs_totalInputBytes : number; cs_totalCpuTimeSecs : number
}.

Record HUDState := mkHUDState {
  runningQueries : list number;
  queuedQueries : list number;
  blockedQueries : list number;
  activeWorkers : list number;
  runningDrivers : list number;
  reservedMemory : list number;
  rowInputRate : list number;
  byteInputRate : list number;
  perWorkerCpuTimeRate : list number;
  lastRender : option Z;
  lastRefresh : option Z;
  lastInputRows : jsnum;
  lastInputBytes : jsnum;
  lastCpuTime : jsnum;
  initialized : bool
}.

Definition hud_init : HUDState := {|
  runningQueries := []; queuedQueries := []; blockedQueries := []; activeWorkers := [];
  runningDrivers := []; reservedMemory := []; rowInputRate := []; byteInputRate := [];
  perWorkerCpuTimeRate := [];
  lastRender := None; lastRefresh := None;
  lastInputRows := JNull; lastInputBytes := JNull; lastCpuTime := JNull;
  initialized := false |}.

(** The new state for an answer; [now1] is the clock when the rates are computed,
    [now2] when the state is stored. *)
Definition new_sample (clusterState : ClusterStats) (now1 now2 : Z) (s : HUDState) : HUDState :=
  let '(newRowInputRate, newByteInputRate, newPerWorkerCpuTimeRate) :=
    match lastRefresh s with
    | None => ([], [], [])
    | Some last =>
        let rowsInputSinceRefresh := cs_totalInputRows clusterState -f ToNumber (lastInputRows s) in
        let bytesInputSinceRefresh := cs_totalInputBytes clusterState -f ToNumber (lastInputBytes s) in
        let cpuTimeSinceRefresh := cs_totalCpuTimeSecs clusterState -f ToNumber (lastCpuTime s) in
        let secsSinceRefresh := num (now1 - last) /f num 1000 in
        (addExponentiallyWeightedToHistory (rowsInputSinceRefresh /f secsSinceRefresh) (rowInputRate s),
         addExponentiallyWeightedToHistory (bytesInputSinceRefresh /f secsSinceRefresh) (byteInputRate s),
         addExponentiallyWeightedToHistory
           ((cpuTimeSinceRefresh /f cs_activeWorkers clusterState) /f secsSinceRefresh)
           (perWorkerCpuTimeRate s))
    end in
  {| runningQueries := addToHistory (cs_runningQueries clusterState) (runningQueries s);
     queuedQueries := addToHistory (cs_queuedQueries clusterState) (queuedQueries s);
     blockedQueries := addToHistory (cs_blockedQueries clusterState) (blockedQueries s);
     activeWorkers := addToHistory (cs_activeWorkers clusterState) (activeWorkers s);
     runningDrivers := addExponentiallyWeightedToHistory (cs_runningDrivers clusterState) (runningDrivers s);
     reservedMemory := addExponentiallyWeightedToHistory (cs_reservedMemory clusterState) (reservedMemory s);
     rowInputRate := newRowInputRate;
     byteInputRate := newByteInputRate;
     perWorkerCpuTimeRate := newPerWorkerCpuTimeRate;
     lastRender := lastRender s;
     lastRefresh := Some now2;
     lastInputRows := cs_totalInputRows clusterState;
     lastInputBytes := cs_totalInputBytes clusterState;
     lastCpuTime := cs_totalCpuTimeSecs clusterState;
     initialized := true |}.

(** ** Sparklines *)

Inductive SparkOption :=
  | chartRangeMin (n : Z)
  | numberFormatter (f : jsnum -> res jsstring).

(** A call [$(selector).sparkline(values, $.extend({}, SPARKLINE_PROPERTIES, option))]. *)
Record Sparkline := mkSparkline { selector : jsstring; values : list number; option_ : SparkOption }.

Definition SPARKLINE_PROPERTIES : list (string * jsstring) :=
  [("width"%string, js "100%"); ("height"%string, js "75px"); ("fillColor"%string, js "#3F4552");
   ("lineColor"%string, js "#747F96"); ("spotColor"%string, js "#1EDCFF");
   ("tooltipClassname"%string, js "sparkline-tooltip"); ("disableHiddenCheck"%string, js "true")].

Definition sparklines (s : HUDState) : list Sparkline :=
  [mkSparkline "#running-queries-sparkline" (runningQueries s) (chartRangeMin 0);
   mkSparkline "#blocked-queries-sparkline" (blockedQueries s) (chartRangeMin 0);
   mkSparkline "#queued-queries-sparkline" (queuedQueries s) (chartRangeMin 0);
   mkSparkline "#active-workers-sparkline" (activeWorkers s) (chartRangeMin 0);
   mkSparkline "#running-drivers-sparkline" (runningDrivers s) (numberFormatter precisionRound);
   mkSparkline "#reserved-memory-sparkline" (reservedMemory s) (numberFormatter formatDataSizeBytes);
   mkSparkline "#row-input-rate-sparkline" (rowInputRate s) (numberFormatter formatCount);
   mkSparkline "#byte-input-rate-sparkline" (byteInputRate s) (numberFormatter formatDataSizeBytes);
   mkSparkline "#cpu-time-rate-sparkline" (perWorkerCpuTimeRate s) (numberFormatter precisionRound)].

Definition with_render (t : Z) (s : HUDState) : HUDState :=
  mkHUDState (runningQueries s) (queuedQueries s) (blockedQueries s) (activeWorkers s)
    (runningDrivers s) (reservedMemory s) (rowInputRate s) (byteInputRate s) (perWorkerCpuTimeRate s)
    (Some t) (lastRefresh s) (lastInputRows s) (lastInputBytes s) (lastCpuTime s) (initialized s).

Definition redraw_due (s : HUDState) (now : Z) : bool :=
  match lastRender s with None => true | Some t => now - t >=? 1000 end.

(** [componentDidUpdate]: its own [setState] runs it again.  [clock] lists the
    instants it reads, one pair per run; the result is what was drawn. *)
Fixpoint componentDidUpdate (clock : list (Z * Z)) (s : HUDState) : list (list Sparkline) * HUDState :=
  match clock with
  | [] => ([], s)
  | (now, renderTimestamp) :: clock' =>
      if redraw_due s now then
        let '(drawn, s') := componentDidUpdate clock' (with_render renderTimestamp s) in
        (sparklines s :: drawn, s')
      else ([], s)
  end.

(** ** Polling

    The state of the instance is the React state and what has been drawn. *)

Abbreviation HUD := (Inst (HUDState * list (list Sparkline)) unit jsstring).

(** The answer and the instants the callback reads; [None] for a failure. *)
Definition HUDAnswer : Type := option (ClusterStats * Z * Z * list (Z * Z)).

Definition resetTimer (i : HUD) : HUD := arm tt (clear tt i).
Definition refreshLoop (i : HUD) : HUD := send (js "/v1/cluster") (clear tt i).

Definition after_update (clock : list (Z * Z)) (s : HUDState * list (list Sparkline)) :
    HUDState * list (list Sparkline) :=
  let '(drawn, s') := componentDidUpdate clock s.1 in (s', s.2 ++ drawn).

Definition hud_answer (_ : jsstring) (a : HUDAnswer) (i : HUD) : HUD :=
  match a with
  | Some (clusterState, now1, now2, clock) =>
      resetTimer (setState (fun s => after_update clock (new_sample clusterState now1 now2 s.1, s.2)) i)
  | None => resetTimer i
  end.

Definition hud_timer (_ : unit) : HUD -> HUD := refreshLoop.
Definition hud_event (e : Empty_set) (i : HUD) : HUD := i.
Definition componentDidMount (i : HUD) : HUD := refreshLoop i.

(** ** Rendering *)

Abbreviation HUDNode := (node Empty_set Empty_set).

Definition stat_title (tooltip text : string) : HUDNode :=
  El "div" [class_ "col-xs-4"]
    [El "div" [class_ "stat-title"]
       [El "span" [class_ "text"; sattr "data-toggle" "tooltip"; sattr "data-placement" "right";
                   sattr "title" tooltip] [Txt text]]].

Definition stat_cell (value : HUDNode) (id : string) : HUDNode :=
  El "div" [class_ "col-xs-4"]
    [El "div" [class_ "stat stat-large"]
       [El "span" [class_ "stat-text"] [value];
        El "span" [class_ "sparkline"; sattr "id" id] [El "div" [class_ "loader"] [Txt "Loading ..."]]]].

(** [{history[history.length - 1]}]: [undefined] renders as nothing. *)
Definition latest_node (history : list number) : HUDNode :=
  match latest history with JNum x => NumC x | _ => Nothing end.

Definition render (s : HUDState) : res HUDNode :=
  rows ← formatCount (latest (rowInputRate s));
  drivers ← formatCount (latest (runningDrivers s));
  bytes ← formatDataSizeBytes (latest (byteInputRate s));
  memory ← formatDataSizeBytes (latest (reservedMemory s));
  parallelism ← formatCount (latest (perWorkerCpuTimeRate s));
  Ok (El "div" [class_ "row"]
    [El "div" [class_ "col-xs-12"]
      [El "div" [class_ "row"]
        [stat_title "Total number of queries currently running" "Running queries";
         stat_title "Total number of active worker nodes" "Active workers";
         stat_title "Moving average of input rows processed per second" "Rows/sec"];
       El "div" [class_ "row stat-line-end"]
        [stat_cell (latest_node (runningQueries s)) "running-queries-sparkline";
         stat_cell (latest_node (activeWorkers s)) "active-workers-sparkline";
         stat_cell (Txt rows) "row-input-rate-sparkline"];
       El "div" [class_ "row"]
        [stat_title "Total number of queries currently queued and awaiting execution" "Queued queries";
         stat_title "Moving average of total running drivers" "Runnable drivers";
         stat_title "Moving average of input bytes processed per second" "Bytes/sec"];
       El "div" [class_ "row stat-line-end"]
        [stat_cell (latest_node (queuedQueries s)) "queued-queries-sparkline";
         stat_cell (Txt drivers) "running-drivers-sparkline";
         stat_cell (Txt bytes) "byte-input-rate-sparkline"];
       El "div" [class_ "row"]
        [stat_title "Total number of queries currently blocked and unable to make progress" "Blocked Queries";
         stat_title "Total amount of memory reserved by all running queries" "Reserved Memory (B)";
         stat_title "Moving average of CPU time utilized per second per worker" "Worker Parallelism"];
       El "div" [class_ "row stat-line-end"]
        [stat_cell (latest_node (blockedQueries s)) "blocked-queries-sparkline";
         stat_cell (Txt memory) "reserved-memory-sparkline";
         stat_cell (Txt parallelism) "cpu-time-rate-sparkline"]]]).

(** ** Properties *)

(** The component refreshes for ever. *)
Definition hud_stopped (_ : HUDState * list (list Sparkline)) : bool := false.

#[export] Instance hud_poller : Poller tt hud_stopped hud_timer hud_answer hud_event.
Proof.
  split.
  - intros i Hi Hs. apply polls_send; [by apply idle_clear|by rewrite clear_st].
  - by intros [] i Hne.
  - intros r [[[[c now1] now2] clock]|] i Hi _; by apply polls_arm.
  - done.
Qed.

(** The run of a sequence of answers. *)
Definition run_samples (l : list (ClusterStats * Z * Z)) (s : HUDState) : HUDState :=
  fold_left (fun s '(c, now1, now2) => new_sample c now1 now2 s) l s.

Lemma run_samples_snoc l c now1 now2 s :
  run_samples (l ++ [(c, now1, now2)]) s = new_sample c now1 now2 (run_samples l s).
Proof. unfold run_samples. by rewrite fold_left_app. Qed.

(** The four counters of a state. *)
Definition counters (s : HUDState) : list (list number) :=
  [runningQueries s; queuedQueries s; blockedQueries s; activeWorkers s].
Definition counter_samples (l : list (ClusterStats * Z * Z)) : list (list number) :=
  map (fun f => map (fun a => f a.1.1) l)
    [cs_runningQueries; cs_queuedQueries; cs_blockedQueries; cs_activeWorkers].

Lemma counters_new c now1 now2 s :
  counters (new_sample c now1 now2 s) =
  [addToHistory (cs_runningQueries c) (runningQueries s); addToHistory (cs_queuedQueries c) (queuedQueries s);
   addToHistory (cs_blockedQueries c) (blockedQueries s); addToHistory (cs_activeWorkers c) (activeWorkers s)].
Proof. unfold new_sample. by destruct (lastRefresh s). Qed.

(** After any sequence of answers the history of each of the four counters
    (running, queued and blocked queries, active workers) is exactly the last
    301 values the server reported, oldest first. *)
Theorem hud_counters_window l :
  counters (run_samples l hud_init) = map (lastn 301) (counter_samples l).
Proof.
  induction l as [|[[c now1] now2] l IH] using rev_ind; [done|].
  rewrite run_samples_snoc, counters_new. unfold counters, counter_samples in *.
  cbn [map] in *. injection IH as -> -> -> ->.
  rewrite !addToHistory_append, !map_app. cbn [map]. by rewrite !append_bounded_lastn.
Qed.

(** *** Moving averages *)

Lemma nonneg_sgn x : is_nan x = false -> 0 <= sgn x -> nonneg x = true.
Proof. destruct x as [s|[]| |[] m e]; cbn; done || lia. Qed.

Lemma nonneg_sub x y :
  fin x = true -> fin y = true -> valid x -> valid y -> (x <=f y) = true -> nonneg (y -f x) = true.
Proof.
  intros Fx Fy Vx Vy Hle. rewrite nle_fval, Z.leb_le in Hle by done.
  destruct (nsub_spec y x Fy Fx Vy Vx) as (_ & N & Hs). apply nonneg_sgn; [done|]. rewrite Hs. lia.
Qed.

Lemma nonneg_div_fin x y :
  nonneg x = true -> gt_zero y = true -> fin y = true -> nonneg (x /f y) = true.
Proof.
  intros Nx Gy Fy. destruct (fin x) eqn:Fx; [by apply nonneg_div|].
  apply nonneg_cases in Nx as [[s ->]|[->|(m & e & ->)]]; try done.
  by destruct y as [|[]| |[]].
Qed.

(** A cumulative counter that did not decrease. *)
Definition grows (old : jsnum) (new : number) : Prop :=
  fin (ToNumber old) = true /\ valid (ToNumber old) /\ fin new = true /\ valid new /\
  (ToNumber old <=f new) = true.

Definition positive_number (x : number) : Prop := gt_zero x = true /\ fin x = true.

(** What an answer of a running server looks like next to the previous one. *)
Definition good_sample (c : ClusterStats) (now1 : Z) (s : HUDState) : Prop :=
  nonneg (cs_runningDrivers c) = true /\ nonneg (cs_reservedMemory c) = true /\
  match lastRefresh s with
  | None => True
  | Some last =>
      positive_number (num (now1 - last) /f num 1000) /\ positive_number (cs_activeWorkers c) /\
      grows (lastInputRows s) (cs_totalInputRows c) /\
      grows (lastInputBytes s) (cs_totalInputBytes c) /\
      grows (lastCpuTime s) (cs_totalCpuTimeSecs c)
  end.

Definition averages (s : HUDState) : list (list number) :=
  [runningDrivers s; reservedMemory s; rowInputRate s; byteInputRate s; perWorkerCpuTimeRate s].

Lemma rate_nonneg old new secs :
  grows old new -> positive_number secs -> nonneg ((new -f ToNumber old) /f secs) = true.
Proof. intros (F1 & V1 & F2 & V2 & L) [G F]. apply nonneg_div_fin; [by apply nonneg_sub|done..]. Qed.

(** As long as the server's cumulative counters grow and time passes, the
    five moving averages stay well formed: at most 301 samples, none of them
    negative or [NaN]. *)
Theorem hud_averages_ok c now1 now2 s :
  Forall history_ok (averages s) -> good_sample c now1 s ->
  Forall history_ok (averages (new_sample c now1 now2 s)).
Proof.
  unfold averages. intros Hs (Hd & Hm & Hr). repeat apply Forall_cons in Hs as [? Hs].
  unfold new_sample. destruct (lastRefresh s) as [last|]; cbn.
  - destruct Hr as (Hp & [Gw Fw] & Gr & Gb & Gc). pose proof Hp as [Gp Fp].
    destruct Gc as (F1 & V1 & F2 & V2 & L).
    repeat apply Forall_cons_2; try done; apply average_ok; try done; try by apply rate_nonneg.
    apply nonneg_div_fin; [|done..]. apply nonneg_div_fin; [by apply nonneg_sub|done..].
  - repeat apply Forall_cons_2; try (by apply average_ok); try done; split; cbn; lia || constructor.
Qed.

Definition demo_stats (n : Z) : ClusterStats :=
  mkClusterStats (num n) (num 1) (num 0) (num 4) (num 12) (num 4096) (num (1000 * n)) (num (2 ^ 20 * n)) (num n).
Definition demo_hud : HUDState := run_samples [(demo_stats 1, 0, 10); (demo_stats 2, 1010, 1015)] hud_init.

Lemma hud_averages_ok_witness :
  Forall history_ok (averages (new_sample (demo_stats 5) 2020 2021 demo_hud)).
Proof.
  apply (hud_averages_ok (demo_stats 5) 2020 2021 demo_hud).
  - repeat constructor; vm_compute; repeat constructor; lia.
  - vm_compute. repeat split; reflexivity.
Defined.

(** *** Sparklines *)

(** One update draws the nine sparklines at most once: the state change
    that records the time of the drawing does not draw again when less than a
    second has passed, and an update less than a second after the last drawing
    draws nothing. *)
Theorem redraw_once now t now' t' clock s :
  now' - t < 1000 ->
  (componentDidUpdate ((now, t) :: (now', t') :: clock) s).1 =
    (if redraw_due s now then [sparklines s] else []) /\
  lastRender (componentDidUpdate ((now, t) :: (now', t') :: clock) s).2 =
    (if redraw_due s now then Some t else lastRender s).
Proof.
  intros Hlt. cbn [componentDidUpdate]. destruct (redraw_due s now); [|done].
  unfold redraw_due. cbn [lastRender with_render].
  rewrite Z.geb_leb, (proj2 (Z.leb_gt _ _)) by lia. done.
Qed.

Lemma redraw_once_witness :
  (componentDidUpdate [(5000, 5001); (5002, 5002)] demo_hud).1 =
    (if redraw_due demo_hud 5000 then [sparklines demo_hud] else []) /\
  lastRender (componentDidUpdate [(5000, 5001); (5002, 5002)] demo_hud).2 =
    (if redraw_due demo_hud 5000 then Some 5001 else lastRender demo_hud).
Proof. apply (redraw_once 5000 5001 5002 5002 [] demo_hud). lia. Defined.

Lemma latest_not_null h : latest h <> JNull.
Proof. by destruct h. Qed.

Lemma stat_title_ids a b : html_ids (stat_title a b) = [].
Proof. reflexivity. Qed.
Lemma stat_cell_ids v i : html_ids (stat_cell v i) = html_ids v ++ [js i].
Proof. unfold stat_cell. vdom. cbn. by rewrite !app_nil_r. Qed.
Lemma latest_node_ids h : html_ids (latest_node h) = [].
Proof. unfold latest_node. by destruct (latest h). Qed.

(** Every state can be rendered, and the page has one element for each
    sparkline: the ids of the page are exactly the selectors that are drawn,
    without repetition. *)
Theorem hud_render_complete s :
  exists n, render s = Ok n /\
    map (app (js "#")) (html_ids n) ≡ₚ map selector (sparklines s) /\ NoDup (html_ids n).
Proof.
  unfold render.
  destruct (formatCount_total (latest (rowInputRate s)) (latest_not_null _)) as [t1 ->].
  destruct (formatCount_total (latest (runningDrivers s)) (latest_not_null _)) as [t2 ->].
  destruct (formatSize_total_bytes (latest (byteInputRate s)) (latest_not_null _)) as [t3 ->].
  destruct (formatSize_total_bytes (latest (reservedMemory s)) (latest_not_null _)) as [t4 ->].
  destruct (formatCount_total (latest (perWorkerCpuTimeRate s)) (latest_not_null _)) as [t5 ->].
  cbn [mbind res_bind]. eexists. split; [reflexivity|].
  vdom. rewrite !stat_title_ids, !stat_cell_ids, !latest_node_ids. split.
  - apply (bool_decide_unpack _). vm_compute. exact I.
  - apply (bool_decide_unpack _). vm_compute. exact I.
Qed.

(** Until the second answer the three rates have no value and the page
    shows [NaN] in their place. *)
Theorem hud_initial_text c now1 now2 :
  formatCount (latest (rowInputRate (new_sample c now1 now2 hud_init))) = Ok (js "NaN") /\
  formatDataSizeBytes (latest (byteInputRate (new_sample c now1 now2 hud_init))) = Ok (js "NaN") /\
  formatCount (latest (perWorkerCpuTimeRate (new_sample c now1 now2 hud_init))) = Ok (js "NaN").
Proof. vm_compute. auto. Qed.

(** The overview has one series of refreshes: in every reachable state
    exactly one of refresh timer and request is pending. *)
Theorem hud_single_refresh adm (i : HUD) :
  reachable hud_timer hud_answer hud_event adm (componentDidMount (mount (hud_init, []))) i ->
  console i = [] -> (armed tt i + length (inflight i) = 1)%nat.
Proof.
  intros Hr Hc.
  assert (H0 : polls tt hud_stopped (componentDidMount (mount (hud_init, []))))
    by (apply polls_send; [apply idle_clear; split; [apply mount_ok|done]|done]).
  destruct (poller_reachable tt hud_stopped _ _ _ adm _ i H0 Hr) as (_ & _ & _ & H1). by apply H1.
Qed.

(** Two answers and the timer between them. *)
Lemma hud_single_refresh_witness :
  let i0 := componentDidMount (mount (hud_init, [])) in
  let i1 := hud_answer (js "/v1/cluster") (Some (demo_stats 1, 0, 10, [(10, 11); (12, 12)])) (mount (hud_init, [])) in
  (armed tt i0 + length (inflight i0) = 1)%nat /\ (armed tt i1 + length (inflight i1) = 1)%nat.
Proof.
  cbn zeta. split.
  - apply (hud_single_refresh (fun _ => True)); [constructor|reflexivity].
  - apply (hud_single_refresh (fun _ => True)); [|reflexivity].
    apply rtc_once.
    by apply (step_answer _ _ _ _ (componentDidMount (mount (hud_init, []))) _ _ [] []).
Defined.
