(* ===== verification/PageTitle.v ===== *)
(** * The page header ([PageTitle.jsx])

    Polls [/v1/info], shows the version, a connection light and, when the
    server does not answer, a modal dialog. *)

From S2P Require Import Prelude JsString JsNumber Data EventLoop VDom.

(** The state of the server; it always has the three properties ([ServerInfo.java]
    requires them). *)
Record ServerInfo := mkServerInfo {
  in_version : jsstring;       (** nodeVersion.version *)
  in_environment : jsstring;
  in_uptime : jsstring
}.

Record State := mkState {
  noConnection : bool;
  lightShown : bool;
  info : option ServerInfo;
  lastSuccess : Z;
  modalShown : bool;
  errorText : option jsstring   (** the error as it is printed *)
}.

Definition title_init (now : Z) : State := mkState false false None now false None.

(** Calls of the dialog plugin. *)
Inductive ModalCall := ModalShow | ModalHide.

(** The React state and the calls so far. *)
Abbreviation PT := (Inst (State * list ModalCall) unit jsstring).

(** The promise is fulfilled at [now], with [None] for the document [null], or
    rejected; an error is an object, so it is always truthy, and [now] is what
    the clock says when it is consulted. *)
Inductive TitleAnswer :=
  | Fulfilled (i : option ServerInfo) (now : Z)
  | Rejected (error : jsstring) (now : Z).

Definition resetTimer (i : PT) : PT := arm tt (clear tt i).
Definition refreshLoop (i : PT) : PT := send (js "/v1/info") (clear tt i).
Definition componentDidMount (i : PT) : PT := refreshLoop i.

Definition on_info (inf : option ServerInfo) (now : Z) (s : State * list ModalCall) : State * list ModalCall :=
  (mkState false (lightShown s.1) inf now false (errorText s.1), s.2 ++ [ModalHide]).

Definition on_failure (error : jsstring) (s : State * list ModalCall) : State * list ModalCall :=
  (mkState true (negb (lightShown s.1)) (info s.1) (lastSuccess s.1) (modalShown s.1) (Some error), s.2).

(** [error || (Date.now() - this.state.lastSuccess) > 30 * 1000], for an error
    object. *)
Definition error_truthy : bool := true.
Definition show_modal (now : Z) (s : State) : bool :=
  negb (modalShown s) && (error_truthy || (now - lastSuccess s >? 30 * 1000)).

Definition with_modal (s : State * list ModalCall) : State * list ModalCall :=
  (mkState (noConnection s.1) (lightShown s.1) (info s.1) (lastSuccess s.1) true (errorText s.1),
   s.2 ++ [ModalShow]).

Definition title_answer (_ : jsstring) (a : TitleAnswer) (i : PT) : PT :=
  match a with
  | Fulfilled inf now => resetTimer (setState (on_info inf now) i)
  | Rejected error now =>
      let i := resetTimer (setState (on_failure error) i) in
      if show_modal now (st i).1 then setState with_modal i else i
  end.

Definition title_timer (_ : unit) : PT -> PT := refreshLoop.
Definition title_event (e : Empty_set) (i : PT) : PT := i.

(** ** Rendering *)

Abbreviation TNode := (node Empty_set Empty_set).

Definition renderStatusLight (s : State) : TNode :=
  if noConnection s then
    if lightShown s
    then El "span" [class_ "status-light status-light-red"; sattr "id" "status-indicator"] []
    else El "span" [class_ "status-light"; sattr "id" "status-indicator"] []
  else El "span" [class_ "status-light status-light-green"; sattr "id" "status-indicator"] [].

Definition cluster_info (label : string) (rest : list TNode) : TNode :=
  El "li" []
    [El "span" [class_ "navbar-cluster-info"]
       ([El "span" [class_ "uppercase"] [Txt label]; El "br" [] []] ++ rest)].

Definition render (title : jsstring) (s : State) : TNode :=
  match info s with
  | None => Nothing
  | Some inf =>
      El "div" []
        [El "nav" [class_ "navbar"]
          [El "div" [class_ "container-fluid"]
            [El "div" [class_ "navbar-header"]
              [El "table" [] [El "tbody" [] [El "tr" []
                 [El "td" [] [El "a" [sattr "href" "/ui/"] [El "img" [sattr "src" "assets/logo.png"] []]];
                  El "td" [] [El "span" [class_ "navbar-brand"] [Txt title]]]]]];
             El "div" [sattr "id" "navbar"; class_ "navbar-collapse collapse"]
              [El "ul" [class_ "nav navbar-nav navbar-right"]
                [cluster_info "Version"
                   [El "span" [class_ "text uppercase"; sattr "id" "version-number"] [Txt (in_version inf)]];
                 cluster_info "Environment"
                   [El "span" [class_ "text uppercase"; sattr "id" "environment"] [Txt (in_environment inf)]];
                 cluster_info "Uptime"
                   [El "span" [sattr "data-toggle" "tooltip"; sattr "data-placement" "bottom";
                               sattr "title" "Connection status"] [renderStatusLight s];
                    Txt nbsp;
                    El "span" [class_ "text"; sattr "id" "uptime"] [Txt (in_uptime inf)]]]]]];
         El "div" [sattr "id" "no-connection-modal"; class_ "modal"; sattr "tabIndex" "-1";
                   sattr "role" "dialog"]
          [El "div" [class_ "modal-dialog modal-sm"; sattr "role" "document"]
            [El "div" [class_ "modal-content"]
              [El "div" [class_ "row error-message"]
                [El "div" [class_ "col-xs-12"]
                  [El "br" [] [];
                   El "h4" [] [Txt "Unable to connect to server"];
                   El "p" [] [match errorText s with
                              | Some e => Txt (js "Error: " ++ e)
                              | None => Nothing
                              end]]]]]]]
  end.

(** ** Properties *)

Definition title_stopped (_ : State * list ModalCall) : bool := false.

#[export] Instance title_poller : Poller tt title_stopped title_timer title_answer title_event.
Proof.
  split.
  - intros i Hi Hs. apply polls_send; [by apply idle_clear|by rewrite clear_st].
  - by intros [] i Hne.
  - intros r [inf now|error now] i Hi _; cbn [title_answer].
    + by apply polls_arm.
    + assert (polls tt title_stopped (resetTimer (setState (on_failure error) i)))
        by by apply polls_arm.
      case_match; [|done]. by apply polls_setState.
  - done.
Qed.

(** The dialog is open when the last call opened it. *)
Definition modal_open (calls : list ModalCall) : bool :=
  match rev calls with ModalShow :: _ => true | _ => false end.

Lemma modal_open_snoc l c : modal_open (l ++ [c]) = match c with ModalShow => true | ModalHide => false end.
Proof. unfold modal_open. rewrite rev_app_distr. by destruct c. Qed.

(** The dialog, the connection state and the flag agree. *)
Definition title_ok (s : State * list ModalCall) : Prop :=
  modal_open s.2 = modalShown s.1 /\ noConnection s.1 = modalShown s.1.

Lemma resetTimer_st (i : PT) : st (resetTimer i) = st i.
Proof. unfold resetTimer, arm. cbn. apply clear_st. Qed.

Lemma title_answer_ok r a i : title_ok (st i) -> title_ok (st (title_answer r a i)).
Proof.
  intros [Hm Hn]. destruct a as [inf now|error now]; cbn [title_answer].
  - rewrite resetTimer_st. cbn. unfold title_ok. cbn. by rewrite modal_open_snoc.
  - destruct (show_modal _ _) eqn:E.
    + unfold setState at 1. cbn [st]. rewrite resetTimer_st. unfold title_ok. cbn.
      rewrite modal_open_snoc. auto.
    + rewrite resetTimer_st in E |- *. unfold show_modal in E. cbn in E.
      rewrite andb_true_r in E. bools. unfold title_ok. cbn. rewrite Hm, E. auto.
Qed.

(** In every reachable state the dialog is open exactly when the last
    answer was a failure: it opens with the first failure, stays open, and
    closes with the next success; the light is green otherwise. *)
Theorem title_dialog adm now (i : PT) :
  reachable title_timer title_answer title_event adm (componentDidMount (mount (title_init now, []))) i ->
  modal_open (st i).2 = noConnection (st i).1 /\ modalShown (st i).1 = noConnection (st i).1 /\
  (renderStatusLight (st i).1 =
     El "span" [class_ "status-light status-light-green"; sattr "id" "status-indicator"] [] <->
   noConnection (st i).1 = false).
Proof.
  intros Hr.
  assert (Hok : title_ok (st i)).
  { revert Hr. apply (reachable_ind_inv _ _ _ _ _ (fun i => title_ok (st i))).
    - done.
    - intros j j' _ Hj Hs. destruct Hs as [j n k l1 l2 Ht|j r a l1 l2 Ht Ha|j []].
      + unfold title_timer, refreshLoop, send. cbn. by rewrite clear_st.
      + by apply title_answer_ok. }
  destruct Hok as [Hm Hn]. split; [congruence|]. split; [done|].
  unfold renderStatusLight. destruct (noConnection (st i).1); [|done].
  destruct (lightShown (st i).1); split; intros E; discriminate E.
Qed.

Definition demo_info : ServerInfo := mkServerInfo "0.236" "production" "3.00d".
Definition demo_title : PT := componentDidMount (mount (title_init 0, [])).
Definition demo_title_failed : PT :=
  title_answer (js "/v1/info") (Rejected "TypeError: Failed to fetch" 100)
    (mkInst (st demo_title) (ids demo_title) [] 0 [] []).

Lemma demo_title_reachable :
  reachable title_timer title_answer title_event (fun _ => True) demo_title demo_title_failed.
Proof.
  apply rtc_once. exact (step_answer title_timer title_answer title_event (fun _ => True) demo_title _
    (Rejected "TypeError: Failed to fetch" 100) [] [] eq_refl I).
Qed.

Lemma title_dialog_witness :
  modal_open (st demo_title_failed).2 = noConnection (st demo_title_failed).1 /\
  modalShown (st demo_title_failed).1 = noConnection (st demo_title_failed).1 /\
  (renderStatusLight (st demo_title_failed).1 =
     El "span" [class_ "status-light status-light-green"; sattr "id" "status-indicator"] [] <->
   noConnection (st demo_title_failed).1 = false).
Proof. apply (title_dialog (fun _ => True) 0 demo_title_failed demo_title_reachable). Defined.

(** The condition that the last success be more than 30 seconds ago has no
    effect: any failure opens the dialog at once, however recent the last
    success is. *)
Theorem title_no_grace_period error now (i : PT) :
  modalShown (st i).1 = false ->
  modal_open (st (title_answer (js "/v1/info") (Rejected error now) i)).2 = true /\
  modalShown (st (title_answer (js "/v1/info") (Rejected error now) i)).1 = true.
Proof.
  intros Hm. cbn [title_answer].
  assert (E : show_modal now (st (resetTimer (setState (on_failure error) i))).1 = true)
    by (rewrite resetTimer_st; unfold show_modal; cbn; by rewrite Hm).
  rewrite E. cbn. by rewrite modal_open_snoc.
Qed.

Lemma title_no_grace_period_witness :
  modal_open (st (title_answer (js "/v1/info") (Rejected "TypeError: Failed to fetch" 1) demo_title)).2 = true /\
  modalShown (st (title_answer (js "/v1/info") (Rejected "TypeError: Failed to fetch" 1) demo_title)).1 = true.
Proof. apply (title_no_grace_period "TypeError: Failed to fetch" 1 demo_title). reflexivity. Defined.
