(* ===== verification/QueryHeader.v ===== *)
(** * The header of the pages about one query ([QueryHeader.jsx]) *)

From S2P Require Import Prelude JsString JsNumber Data Utils UtilsFacts VDom.

(** [$.ajax({url, type: 'PUT', data})]. *)
Inductive HeaderEvent := AjaxPut (url data : jsstring).

Abbreviation HNode := (node HeaderEvent Empty_set).

Definition progress_bar (percentage : number) (color title : jsstring) : HNode :=
  El "div" [class_ "progress-large"]
    [El "div" [class_ "progress-bar progress-bar-info"; sattr "role" "progressbar";
               ("aria-valuenow"%string, ANum percentage); sattr "aria-valuemin" "0";
               sattr "aria-valuemax" "100";
               style_ [("width"%string, num_to_string percentage ++ js "%"); ("backgroundColor"%string, color)]]
       [Txt title]].

Definition action_button (url data : jsstring) (text : string) : HNode :=
  El "td" [] [El "a" [onClick (AjaxPut url data); class_ "btn btn-warning"; sattr "target" "_blank"]
                [Txt text]].

Definition renderProgressBar (query : Query) : res HNode :=
  percentage ← getProgressBarPercentage query;
  color ← getQueryStateColor query;
  title ← getProgressBarTitle query;
  if isQueryEnded query then Ok (progress_bar percentage color title)
  else
    Ok (El "table" [] [El "tbody" [] [El "tr" []
      [El "td" [sattr "width" "100%"] [progress_bar percentage color title];
       action_button (js "/v1/query/" ++ q_queryId query ++ js "/preempted") "Preempted via web UI" "Preempt";
       action_button (js "/v1/query/" ++ q_queryId query ++ js "/killed") "Killed via web UI" "Kill"]]]).

(** [pathname] is [window.location.pathname]. *)
Definition renderTab (pathname : jsstring) (query : Query) (path name : jsstring) : HNode :=
  El "a" [sattr "href" (path ++ js "?" ++ q_queryId query);
          class_ (if includes pathname path then js "btn btn-info navbar-btn nav-disabled"
                  else js "btn btn-info navbar-btn")] [Txt name].

Definition render (pathname : jsstring) (query : Query) : res HNode :=
  bar ← renderProgressBar query;
  Ok (El "div" []
    [El "div" [class_ "row"]
      [El "div" [class_ "col-xs-6"]
        [El "h3" [class_ "query-id"]
          [El "span" [sattr "id" "query-id"] [Txt (q_queryId query)];
           El "a" [class_ "btn copy-button"; sattr "data-clipboard-target" "#query-id";
                   sattr "data-toggle" "tooltip"; sattr "data-placement" "right";
                   sattr "title" "Copy to clipboard"]
             [El "span" [class_ "glyphicon glyphicon-copy"; sattr "aria-hidden" "true";
                         sattr "alt" "Copy to clipboard"] []]]];
       El "div" [class_ "col-xs-6"]
        [El "table" [class_ "header-inline-links"] [El "tbody" [] [El "tr" [] [El "td" []
          [renderTab pathname query "query.html" "Overview"; Txt nbsp;
           renderTab pathname query "plan.html" "Live Plan"; Txt nbsp;
           renderTab pathname query "stage.html" "Stage Performance"; Txt nbsp;
           renderTab pathname query "timeline.html" "Splits"; Txt nbsp;
           El "a" [sattr "href" (js "/v1/query/" ++ q_queryId query ++ js "?pretty");
                   class_ "btn btn-info navbar-btn"; sattr "target" "_blank"] [Txt "JSON"]]]]]]];
     El "hr" [class_ "h2-hr"] [];
     El "div" [class_ "row"] [El "div" [class_ "col-xs-12"] [bar]]]).

(** ** Properties *)

Lemma progress_bar_events p c t : events (progress_bar p c t) = [].
Proof. reflexivity. Qed.

Lemma renderTab_events w q p n : events (renderTab w q p n) = [].
Proof. reflexivity. Qed.

Definition header_actions (query : Query) : list HeaderEvent :=
  if isQueryEnded query then []
  else [AjaxPut (js "/v1/query/" ++ q_queryId query ++ js "/preempted") "Preempted via web UI";
        AjaxPut (js "/v1/query/" ++ q_queryId query ++ js "/killed") "Killed via web UI"].

(** The header of a well-formed query always renders; it offers to preempt
    and to kill the query exactly as long as the query has not ended, and the
    two requests name the query that is shown. *)
Theorem header_offers_actions pathname q :
  wf_query q -> exists n, render pathname q = Ok n /\ events n = header_actions q.
Proof.
  intros W. destruct (getQueryStateColor_total q W) as (c & Hc & _).
  destruct (getHumanReadableState_total q W) as [t Ht]. destruct W as ([st Hst] & _ & _).
  assert (Hbar : exists n, renderProgressBar q = Ok n /\ events n = header_actions q).
  { unfold renderProgressBar, header_actions, getProgressBarTitle, getProgressBarPercentage.
    rewrite Hc, Ht, Hst. cbn [get_prop mbind res_bind].
    destruct (isQueryEnded q); case_ifs; cbn [mbind res_bind]; eexists; (split; [reflexivity|reflexivity]). }
  destruct Hbar as (n & Hn & En). unfold render. rewrite Hn. cbn [mbind res_bind].
  eexists. split; [reflexivity|]. vdom. rewrite !renderTab_events, En. cbn. by rewrite !app_nil_r.
Qed.

Lemma header_offers_actions_witness :
  exists n, render (js "/ui/query.html") (sample_query "q1" "RUNNING") = Ok n /\
            events n = header_actions (sample_query "q1" "RUNNING").
Proof.
  apply (header_offers_actions (js "/ui/query.html") (sample_query "q1" "RUNNING")).
  split; [eexists; reflexivity|]. split; [intros E; discriminate E|eexists; reflexivity].
Defined.

(** Class of a rendered tab. *)
Definition tab_disabled (n : HNode) : bool :=
  match n with
  | El _ attrs _ => existsb (fun a => match a with
                                      | (n, AStr s) => String.eqb n "className" && includes s "nav-disabled"
                                      | _ => false
                                      end) attrs
  | _ => false
  end.

(** On each of the four pages about a query exactly the tab of that page is
    disabled. *)
Theorem header_tabs page query :
  In page [js "query.html"; js "plan.html"; js "stage.html"; js "timeline.html"] ->
  map (fun p => tab_disabled (renderTab (js "/ui/" ++ page) query p []))
      [js "query.html"; js "plan.html"; js "stage.html"; js "timeline.html"] =
  map (str_eqb page) [js "query.html"; js "plan.html"; js "stage.html"; js "timeline.html"].
Proof.
  intros Hp. cbn [In] in Hp. repeat destruct Hp as [<-|Hp]; try done; vm_compute; reflexivity.
Qed.

Lemma header_tabs_witness :
  map (fun p => tab_disabled (renderTab (js "/ui/" ++ js "plan.html") (sample_query "q1" "RUNNING") p []))
      [js "query.html"; js "plan.html"; js "stage.html"; js "timeline.html"] =
  map (str_eqb (js "plan.html")) [js "query.html"; js "plan.html"; js "stage.html"; js "timeline.html"].
Proof. apply (header_tabs (js "plan.html") (sample_query "q1" "RUNNING")). right; left; reflexivity. Defined.
