(* ===== verification/WorkerThreadList.v ===== *)
(** * Thread snapshots of a worker ([WorkerThreadList.jsx]) *)

From S2P Require Import Prelude JsString JsNumber Data Utils JsObject EventLoop React VDom.

Definition ALL_THREADS : jsstring := "All Threads".
Definition QUERY_THREADS : jsstring := "Running Queries".
Definition ALL_THREAD_STATE : jsstring := "ALL".
Definition THREAD_STATES : list jsstring :=
  [ALL_THREAD_STATE; js "RUNNABLE"; js "BLOCKED"; js "WAITING"; js "TIMED_WAITING"; js "NEW"; js "TERMINATED"].

Record StackLine := mkStackLine {
  sl_className : jsstring; sl_method : jsstring; sl_file : option jsstring; sl_line : number
}.

Record Thread := mkThread {
  th_id : number;
  th_name : jsstring;
  th_state : jsstring;
  th_lockOwnerId : jsnum;
  th_stackTrace : list StackLine
}.

(** ** The two regular expressions *)

(** What [.] matches. *)
Definition not_newline (c : Z) : bool :=
  negb ((c =? 10) || (c =? 13) || (c =? 8232) || (c =? 8233)).

(** The unit [c] after a run of digits: what follows it. *)
Definition digits_then (c : Z) (s : jsstring) : option jsstring :=
  match (span is_digit s).2 with
  | x :: r => if x =? c then Some r else None
  | [] => None
  end.

(** [\.([0-9])*\.([0-9])*-([0-9])*-] at the start of [s]. *)
Definition task_part (s : jsstring) : bool :=
  match s with
  | c :: r =>
      (c =? 46) &&
      match (r ← digits_then 46 r; r ← digits_then 45 r; digits_then 45 r) with
      | Some _ => true
      | None => false
      end
  | [] => false
  end.

(** [.*?] before it. *)
Fixpoint lazy_task_part (s : jsstring) : bool :=
  task_part s ||
  match s with
  | c :: r => not_newline c && lazy_task_part r
  | [] => false
  end.

(** [([0-9])*_([0-9])*_([0-9])*_] at the start of [s], and the rest. *)
Definition query_part (s : jsstring) : bool :=
  match (r ← digits_then 95 s; r ← digits_then 95 r; digits_then 95 r) with
  | Some r => lazy_task_part r
  | None => false
  end.

(** [name.match(QUERY_THREAD_REGEX)]: at some position. *)
Fixpoint query_thread (s : jsstring) : bool :=
  query_part s || match s with _ :: r => query_thread r | [] => false end.

(** [(.*?)-[0-9]+] from the start of [s]: the group. *)
Definition starts_with_digit (s : jsstring) : bool :=
  match s with d :: _ => is_digit d | [] => false end.

Fixpoint lazy_group (s : jsstring) : option jsstring :=
  match s with
  | [] => None
  | c :: r =>
      if (c =? 45) && starts_with_digit r then Some []
      else if not_newline c then cons c <$> lazy_group r else None
  end.

(** [THREAD_GROUP_REGEXP.exec(name)]: the first position that matches. *)
Fixpoint exec_group (s : jsstring) : option jsstring :=
  match lazy_group s with
  | Some g => Some g
  | None => match s with _ :: r => exec_group r | [] => None end
  end.

Definition thread_group (thread : Thread) : jsstring := default (th_name thread) (exec_group (th_name thread)).

(** ** [processThreads]

    [result[ALL_THREADS]] is the very array the loop runs over; the other
    groups have arrays of their own. *)
Inductive group_array := TheThreads | Own (l : list Thread).

Abbreviation groups := (jsobj group_array).

(** [result[g].push(thread)] after [if (!result[g]) result[g] = []]: every
    array is truthy, and so is what a name of the prototype finds, which has no
    [push]. *)
Definition push_thread (g : jsstring) (thread : Thread) (s : list Thread * groups) :
    res (list Thread * groups) :=
  match mget g s.2 with
  | Some TheThreads => Ok (s.1 ++ [thread], s.2)
  | Some (Own l) => Ok (s.1, mset g (Own (l ++ [thread])) s.2)
  | None => if bool_decide (g ∈ object_prototype) then Throw (TypeError "result[threadGroup].push")
            else Ok (s.1, mset g (Own [thread]) s.2)
  end.

Definition process_thread (thread : Thread) (s : list Thread * groups) : res (list Thread * groups) :=
  s ← (if query_thread (th_name thread) then push_thread QUERY_THREADS thread s else Ok s);
  push_thread (thread_group thread) thread s.

(** The loop from index [i]; [None] when [fuel] rounds were not enough. *)
Fixpoint process_loop (fuel i : nat) (s : list Thread * groups) : option (res (list Thread * groups)) :=
  match s.1 !! i with
  | None => Some (Ok s)
  | Some thread =>
      match fuel with
      | O => None
      | S fuel' =>
          match process_thread thread s with
          | Throw e => Some (Throw e)
          | Ok s' => process_loop fuel' (S i) s'
          end
      end
  end.

Definition processThreads (fuel : nat) (threads : list Thread) : option (res (list Thread * groups)) :=
  process_loop fuel 0 (threads, [(ALL_THREADS, TheThreads); (QUERY_THREADS, Own [])]).

(** The arrays of a finished result, by group. *)
Definition threads_of (s : list Thread * groups) (g : jsstring) : option (list Thread) :=
  match mget g s.2 with
  | Some TheThreads => Some s.1
  | Some (Own l) => Some l
  | None => None
  end.

(** ** The component *)

Record WTState := mkWTState {
  initialized : bool;
  threads : option (list Thread * groups);
  snapshotTime : jsstring;       (** as [toTimeString] prints it *)
  selectedGroup : jsstring;
  selectedThreadState : jsstring
}.

Definition wt_init : WTState := mkWTState false None "" ALL_THREADS ALL_THREAD_STATE.

(** [event.preventDefault()] keeps the browser from following [href="#"]; it
    does not concern the component. *)
Inductive WTEvent :=
  | GroupClick (group : jsstring)
  | ThreadStateClick (threadState : jsstring)
  | NewSnapshotClick.

(** ** Rendering *)

Abbreviation WTNode := (node WTEvent Empty_set).

Definition has_state (state : jsstring) (t : Thread) : bool :=
  (th_state t === state) || (state === ALL_THREAD_STATE).

Definition filterThreads (result : list Thread * groups) (group state : jsstring) : res (list Thread) :=
  l ← get_prop "this.state.threads[group].filter" (threads_of result group);
  Ok (List.filter (has_state state) l).

Definition list_item (selected : bool) (e : WTEvent) (text : jsstring) (count : nat) : WTNode :=
  El "li" [] [El "a" [sattr "href" "#"; class_ (if selected then js "selected" else js ""); onClick e]
                [Txt text; Txt " ("; NumC (num (Z.of_nat count)); Txt ")"]].

Definition renderGroupListItem (s : WTState) (result : list Thread * groups) (group : jsstring) : res WTNode :=
  l ← filterThreads result group (selectedThreadState s);
  Ok (list_item (selectedGroup s === group) (GroupClick group) group (length l)).

Definition renderThreadStateListItem (s : WTState) (result : list Thread * groups) (threadState : jsstring) :
    res WTNode :=
  l ← filterThreads result (selectedGroup s) threadState;
  Ok (list_item (selectedThreadState s === threadState) (ThreadStateClick threadState) threadState (length l)).

Definition renderStackLine (l : StackLine) : WTNode :=
  El "div" [] [Txt (nbsp ++ nbsp ++ js "at "); Txt (sl_className l); Txt "."; Txt (sl_method l); Txt "(";
    El "span" [class_ "font-light"] [opt_txt (sl_file l); Txt ":"; NumC (sl_line l)]; Txt ")"].

Definition renderThread (t : Thread) : WTNode :=
  El "div" []
    [El "span" [class_ "font-white"]
       [Txt (th_name t); Txt " "; Txt (th_state t); Txt " #"; NumC (th_id t); Txt " ";
        match th_lockOwnerId t with JNum x => NumC x | _ => Nothing end];
     El "a" [class_ "copy-button";
             sattr "data-clipboard-target" (js "#stack-trace-" ++ num_to_string (th_id t));
             sattr "data-toggle" "tooltip"; sattr "data-placement" "right"; sattr "title" "Copy to clipboard"]
       [El "span" [class_ "glyphicon glyphicon-copy"; sattr "alt" "Copy to clipboard"] []];
     El "br" [] [];
     El "span" [class_ "stack-traces"; sattr "id" (js "stack-trace-" ++ num_to_string (th_id t))]
       [Arr (map renderStackLine (th_stackTrace t))];
     El "div" [] [Txt nbsp]].

Definition message_row (l : list WTNode) : WTNode :=
  El "div" [class_ "row error-message"] [El "div" [class_ "col-xs-12"] [El "h4" [] l]].

Definition displayed_threads (s : WTState) (filteredThreads : list Thread) : WTNode :=
  match filteredThreads with
  | [] =>
      if selectedThreadState s === ALL_THREAD_STATE then
        message_row [Txt "No threads in group '"; Txt (selectedGroup s); Txt "'"]
      else if selectedGroup s === ALL_THREADS then
        message_row [Txt "No threads with state "; Txt (selectedThreadState s)]
      else
        message_row [Txt "No threads in group '"; Txt (selectedGroup s); Txt "' with state ";
                     Txt (selectedThreadState s)]
  | _ => El "pre" [] [Arr (map renderThread filteredThreads)]
  end.

Definition dropdown (label : string) (value : jsstring) (items : list WTNode) : WTNode :=
  El "td" []
    [El "div" [class_ "input-group-btn text-right"]
      [El "button" [sattr "type" "button"; class_ "btn btn-default dropdown-toggle pull-right text-right";
                    sattr "data-toggle" "dropdown"; sattr "aria-haspopup" "true"; sattr "aria-expanded" "false"]
         [El "strong" [] [Txt label]; Txt " "; Txt value; Txt " "; El "span" [class_ "caret"] []];
       El "ul" [class_ "dropdown-menu"] [Arr items]]].

Definition thread_toolbar (s : WTState) (result : list Thread * groups) : res WTNode :=
  groupItems ← res_map (renderGroupListItem s result) (own_keys result.2);
  stateItems ← res_map (renderThreadStateListItem s result) THREAD_STATES;
  Ok (El "div" [class_ "col-xs-9"]
    [El "table" [class_ "header-inline-links"] [El "tbody" [] [El "tr" []
      [El "td" [] [El "small" [] [Txt "Snapshot at "; Txt (snapshotTime s)]; Txt (nbsp ++ nbsp)];
       El "td" []
         [El "button" [class_ "btn btn-info live-button"; onClick NewSnapshotClick] [Txt "New Snapshot"];
          Txt (nbsp ++ nbsp ++ js " " ++ nbsp ++ nbsp)];
       dropdown "Group:" (selectedGroup s) groupItems;
       dropdown "State:" (selectedThreadState s) stateItems]]]]).

Definition render (s : WTState) : res WTNode :=
  '(toolbar, display) ←
    (match threads s with
     | None =>
         Ok (Nothing,
           if initialized s then message_row [Txt "Thread snapshot could not be loaded"]
           else El "div" [class_ "row error-message"]
                  [El "div" [class_ "col-xs-12"]
                     [El "button" [class_ "btn btn-info live-button"; onClick NewSnapshotClick]
                        [Txt "Capture Snapshot"]]])
     | Some result =>
         toolbar ← thread_toolbar s result;
         filteredThreads ← filterThreads result (selectedGroup s) (selectedThreadState s);
         Ok (toolbar, El "div" [sattr "id" "stack-traces"] [displayed_threads s filteredThreads])
     end);
  Ok (El "div" []
    [El "div" [class_ "row"]
      [El "div" [class_ "col-xs-3"]
        [El "h3" []
          [Txt "Thread Snapshot";
           El "a" [class_ "btn copy-button"; sattr "data-clipboard-target" "#stack-traces";
                   sattr "data-toggle" "tooltip"; sattr "data-placement" "right";
                   sattr "title" "Copy to clipboard"]
             [El "span" [class_ "glyphicon glyphicon-copy"; sattr "alt" "Copy to clipboard"] []];
           Txt nbsp]];
       toolbar];
     El "div" [class_ "row"]
      [El "div" [class_ "col-xs-12"] [El "hr" [class_ "h3-hr"] []; display]]]).

(** ** Updates and callbacks *)

Abbreviation WT := (Inst (Root WTState) Empty_set jsstring).

(** The answer with the time it is stored at; [None] for a failure. *)
Definition WTAnswer : Type := option (list Thread * jsstring).

(** An update renders; [componentDidUpdate] only binds the copy buttons. *)
Definition commit (s : WTState) : res WTState := _ ← render s; Ok s.

(** [search] is [window.location.search]. *)
Definition captureSnapshot (search : jsstring) (i : WT) : WT :=
  let nodeId := getFirstParameter search in
  send (js "/v1/worker/" ++ nodeId ++ js "/thread") i.

Definition with_snapshot (result : list Thread * groups) (time : jsstring) (s : WTState) : WTState :=
  mkWTState true (Some result) time (selectedGroup s) (selectedThreadState s).
Definition with_initialized (b : bool) (s : WTState) : WTState :=
  mkWTState b (threads s) (snapshotTime s) (selectedGroup s) (selectedThreadState s).
Definition with_group (g : jsstring) (s : WTState) : WTState :=
  mkWTState (initialized s) (threads s) (snapshotTime s) g (selectedThreadState s).
Definition with_thread_state (t : jsstring) (s : WTState) : WTState :=
  mkWTState (initialized s) (threads s) (snapshotTime s) (selectedGroup s) t.

(** [fuel] is what the loop is given: a callback that does not end leaves the
    state as it was (and the page hangs). *)
Definition wt_answer (fuel : nat) (_ : jsstring) (a : WTAnswer) (i : WT) : WT :=
  match a with
  | Some (l, time) =>
      match processThreads fuel l with
      | Some r => attempt r (fun result => set_then commit (with_snapshot result time) id i) i
      | None => i
      end
  | None => set_then commit (with_initialized true) id i
  end.

(** Handlers of elements: React updates when the handler has returned. *)
Definition handleGroupClick (g : jsstring) : WT -> WT := set_then commit (with_group g) id.
Definition handleThreadStateClick (t : jsstring) : WT -> WT := set_then commit (with_thread_state t) id.
Definition handleNewSnapshotClick (search : jsstring) (i : WT) : WT :=
  set_then commit (with_initialized false) id (captureSnapshot search i).

Definition wt_event (search : jsstring) (e : WTEvent) : WT -> WT :=
  when_mounted
    match e with
    | GroupClick g => handleGroupClick g
    | ThreadStateClick t => handleThreadStateClick t
    | NewSnapshotClick => handleNewSnapshotClick search
    end.

(** ** Properties *)

Example query_thread_name : query_thread "20200601_101112_00001_abcde.1.0-3-42" = true.
Proof. reflexivity. Qed.
Example other_thread_name : query_thread "http-worker-17" = false.
Proof. reflexivity. Qed.
Example group_of_worker : exec_group "http-worker-17" = Some (js "http-worker").
Proof. reflexivity. Qed.

(** *** Grouping *)

(** Names whose group does not collide with the names the page uses itself or
    with a property every object inherits. *)
Definition plain_group (t : Thread) : Prop :=
  thread_group t <> ALL_THREADS /\ thread_group t <> QUERY_THREADS /\
  thread_group t ∉ object_prototype.

(** What the result holds after the threads [seen]. *)
Definition grouped (all seen : list Thread) (s : list Thread * groups) : Prop :=
  s.1 = all /\ mget ALL_THREADS s.2 = Some TheThreads /\
  mget QUERY_THREADS s.2 = Some (Own (List.filter (fun t => query_thread (th_name t)) seen)) /\
  forall g, g <> ALL_THREADS -> g <> QUERY_THREADS ->
    mget g s.2 = match List.filter (fun t => bool_decide (thread_group t = g)) seen with
                 | [] => None
                 | l => Some (Own l)
                 end.

Lemma push_query all seen t s :
  grouped all seen s ->
  exists s', (if query_thread (th_name t) then push_thread QUERY_THREADS t s else Ok s) = Ok s' /\
    s'.1 = all /\ mget ALL_THREADS s'.2 = Some TheThreads /\
    mget QUERY_THREADS s'.2 = Some (Own (List.filter (fun t => query_thread (th_name t)) (seen ++ [t]))) /\
    forall g, g <> QUERY_THREADS -> mget g s'.2 = mget g s.2.
Proof.
  intros (H1 & H2 & H3 & _). rewrite List.filter_app. cbn [List.filter].
  destruct (query_thread (th_name t)).
  - unfold push_thread. rewrite H3. eexists. split; [reflexivity|]. cbn [fst snd].
    split; [done|]. split; [by rewrite mget_mset_ne|]. split; [by rewrite mget_mset_eq|].
    intros g Hg. by rewrite mget_mset_ne.
  - exists s. by rewrite app_nil_r.
Qed.

Lemma process_thread_ok all seen t s :
  plain_group t -> grouped all seen s ->
  exists s', process_thread t s = Ok s' /\ grouped all (seen ++ [t]) s'.
Proof.
  intros (P1 & P2 & P3) G. pose proof G as (_ & _ & _ & H4).
  destruct (push_query all seen t s G) as (s1 & E1 & A1 & A2 & A3 & A4).
  unfold process_thread. rewrite E1. cbn [mbind res_bind].
  assert (Hg : mget (thread_group t) s1.2 =
    match List.filter (fun u => bool_decide (thread_group u = thread_group t)) seen with
    | [] => None | l => Some (Own l) end) by (rewrite A4 by done; by apply H4).
  set (old := List.filter (fun u => bool_decide (thread_group u = thread_group t)) seen) in *.
  assert (Hs : push_thread (thread_group t) t s1 = Ok (s1.1, mset (thread_group t) (Own (old ++ [t])) s1.2)).
  { unfold push_thread. rewrite Hg. destruct old; [|done].
    by rewrite bool_decide_eq_false_2. }
  rewrite Hs. eexists. split; [reflexivity|]. unfold grouped. cbn [fst snd].
  split; [done|]. split; [by rewrite mget_mset_ne|]. split; [by rewrite mget_mset_ne|].
  intros g G1 G2. rewrite List.filter_app. cbn [List.filter].
  destruct (decide (g = thread_group t)) as [->|Hne].
  - rewrite mget_mset_eq, bool_decide_eq_true_2 by done. fold old. by destruct old.
  - rewrite mget_mset_ne, bool_decide_eq_false_2, app_nil_r, A4 by congruence || done. by apply H4.
Qed.

Lemma process_loop_ok fuel all seen rest s :
  Forall plain_group rest -> all = seen ++ rest -> grouped all seen s -> (length rest <= fuel)%nat ->
  exists s', process_loop fuel (length seen) s = Some (Ok s') /\ grouped all all s'.
Proof.
  revert fuel seen s. induction rest as [|t rest IH]; intros fuel seen s P Ha G Hf.
  - rewrite app_nil_r in Ha. subst. exists s. split; [|done].
    pose proof G as (E & _). destruct fuel; cbn; by rewrite E, lookup_ge_None_2.
  - apply Forall_cons in P as [Pt P]. destruct fuel as [|fuel]; [cbn in Hf; lia|].
    cbn [process_loop]. pose proof G as (E & _). rewrite E.
    replace (all !! length seen) with (Some t) by (rewrite Ha; by rewrite list_lookup_middle).
    destruct (process_thread_ok all seen t s Pt G) as (s' & Es & G'). rewrite Es.
    destruct (IH fuel (seen ++ [t]) s' P) as (s'' & El & Gl); [by rewrite Ha, <- app_assoc|done|cbn in Hf; lia|].
    exists s''. split; [|done]. rewrite <- El. by rewrite length_app, Nat.add_1_r.
Qed.

(** C17: For thread names that do not collide with the page's own group names,
    the grouping loop ends after one round per thread and sorts the threads
    correctly: all of them under the first name, the threads of queries under
    the second, and under every other group exactly the threads whose name
    belongs to it, each list in the order of the snapshot. *)
Theorem processThreads_correct l :
  Forall plain_group l ->
  exists s, processThreads (length l) l = Some (Ok s) /\
    threads_of s ALL_THREADS = Some l /\
    threads_of s QUERY_THREADS = Some (List.filter (fun t => query_thread (th_name t)) l) /\
    forall g, g <> ALL_THREADS -> g <> QUERY_THREADS ->
      threads_of s g = match List.filter (fun t => bool_decide (thread_group t = g)) l with
                       | [] => None
                       | l' => Some l'
                       end.
Proof.
  intros P. destruct (process_loop_ok (length l) l [] l
    (l, [(ALL_THREADS, TheThreads); (QUERY_THREADS, Own [])])) as (s & E & G); [done|done| |done|].
  { repeat split. intros g G1 G2. cbn [snd List.filter mget].
    destruct (decide (g = ALL_THREADS)); [done|]. by destruct (decide (g = QUERY_THREADS)). }
  exists s. split; [exact E|]. destruct G as (G1 & G2 & G3 & G4). unfold threads_of.
  rewrite G2, G3, G1. repeat split; try done. intros g H1 H2. rewrite G4 by done. 
  destruct (List.filter (fun t => bool_decide (thread_group t = g)) l); reflexivity.
Qed.

Definition demo_thread (name state : jsstring) : Thread := mkThread (num 7) name state JNull [].
Definition demo_threads : list Thread :=
  [demo_thread "http-worker-1" "RUNNABLE"; demo_thread "http-worker-2" "WAITING";
   demo_thread "20200601_101112_00001_abcde.1.0-3-42" "RUNNABLE"].

Lemma processThreads_correct_witness :
  exists s, processThreads (length demo_threads) demo_threads = Some (Ok s) /\
    threads_of s ALL_THREADS = Some demo_threads /\
    threads_of s QUERY_THREADS = Some (List.filter (fun t => query_thread (th_name t)) demo_threads) /\
    forall g, g <> ALL_THREADS -> g <> QUERY_THREADS ->
      threads_of s g = match List.filter (fun t => bool_decide (thread_group t = g)) demo_threads with
                       | [] => None
                       | l' => Some l'
                       end.
Proof.
  apply (processThreads_correct demo_threads).
  repeat constructor; try (vm_compute; discriminate);
    intros H; apply (bool_decide_eq_true_2 _) in H; vm_compute in H; discriminate H.
Defined.

(** One round of the loop: the two own groups stay, and the array of all threads
    grows exactly when the thread belongs to that group. *)
Lemma process_keeps u s q :
  mget ALL_THREADS s.2 = Some TheThreads -> mget QUERY_THREADS s.2 = Some (Own q) ->
  thread_group u ∉ object_prototype ->
  exists s', process_thread u s = Ok s' /\ mget ALL_THREADS s'.2 = Some TheThreads /\
    (exists q', mget QUERY_THREADS s'.2 = Some (Own q')) /\
    (thread_group u = ALL_THREADS -> s'.1 = s.1 ++ [u]) /\ (s'.1 = s.1 \/ s'.1 = s.1 ++ [u]).
Proof.
  intros Ha Hq Hp. unfold process_thread.
  assert (H1 : exists s1, (if query_thread (th_name u) then push_thread QUERY_THREADS u s else Ok s) = Ok s1 /\
    mget ALL_THREADS s1.2 = Some TheThreads /\ (exists q', mget QUERY_THREADS s1.2 = Some (Own q')) /\ s1.1 = s.1).
  { destruct (query_thread (th_name u)); [|eauto 10]. unfold push_thread. rewrite Hq.
    eexists. split; [reflexivity|]. cbn. rewrite mget_mset_ne, mget_mset_eq by done. eauto. }
  destruct H1 as (s1 & -> & Ha1 & (q1 & Hq1) & E1). cbn [mbind res_bind]. unfold push_thread.
  destruct (mget (thread_group u) s1.2) as [[|l]|] eqn:E.
  - eexists. split; [reflexivity|]. cbn. rewrite E1.
    split; [done|]. split; [eauto|]. split; [done|by right].
  - assert (Hg : thread_group u <> ALL_THREADS) by (intros Hg; rewrite Hg in E; congruence).
    eexists. split; [reflexivity|]. cbn. rewrite mget_mset_ne by done. split; [done|].
    split; [rewrite mget_mset; case_decide; eauto|]. split; [done|by left].
  - assert (Hg : thread_group u <> ALL_THREADS) by (intros Hg; rewrite Hg in E; congruence).
    rewrite bool_decide_eq_false_2 by done. eexists. split; [reflexivity|]. cbn.
    rewrite mget_mset_ne by done. split; [done|].
    split; [rewrite mget_mset; case_decide; eauto|]. split; [done|by left].
Qed.

(** C40: A thread whose group is the page's own name for all threads (a thread
    named [All Threads], say) makes the grouping loop run for ever: its array is
    the one the loop runs over, and every round appends the thread again. *)
Theorem processThreads_diverges l t fuel :
  t ∈ l -> thread_group t = ALL_THREADS -> Forall (fun u => thread_group u ∉ object_prototype) l ->
  processThreads fuel l = None.
Proof.
  intros Hin Ht Hp. unfold processThreads.
  assert (G : forall fuel i s,
    mget ALL_THREADS s.2 = Some TheThreads -> (exists q, mget QUERY_THREADS s.2 = Some (Own q)) ->
    Forall (fun u => thread_group u ∉ object_prototype) s.1 ->
    (exists j, (i <= j)%nat /\ s.1 !! j = Some t) -> process_loop fuel i s = None).
  { clear l Hin Hp fuel. intros fuel. induction fuel as [|fuel IH]; intros i s Ha (q & Hq) Hp (j & Hj & Hjt).
    all: assert (Hlt : (i < length s.1)%nat) by (apply lookup_lt_Some in Hjt; lia).
    all: destruct (lookup_lt_is_Some_2 s.1 i Hlt) as [u Hu]; cbn [process_loop]; rewrite Hu.
    { done. }
    assert (Pu : thread_group u ∉ object_prototype) by (rewrite Forall_lookup in Hp; by eapply Hp).
    destruct (process_keeps u s q Ha Hq Pu) as (s' & E & Ha' & Hq' & Hall & Hl).
    rewrite E. apply IH; [done|done| |].
    - destruct Hl as [->| ->]; [done|]. apply Forall_app. split; [done|]. by constructor.
    - destruct (decide (j = i)) as [->|Hne].
      + rewrite Hjt in Hu. injection Hu as <-. exists (length s.1). rewrite Hall by done.
        split; [lia|]. by rewrite list_lookup_middle.
      + exists j. split; [lia|]. destruct Hl as [->| ->]; [done|]. by apply lookup_app_l_Some. }
  apply G; cbn; [done|by exists []|done|].
  apply list_elem_of_lookup in Hin as [j Hj]. exists j. split; [lia|done].
Qed.

Definition bad_threads : list Thread := demo_threads ++ [demo_thread "All Threads-1" "RUNNABLE"].

Lemma processThreads_diverges_witness : processThreads 1000 bad_threads = None.
Proof.
  apply (processThreads_diverges bad_threads (demo_thread "All Threads-1" "RUNNABLE") 1000).
  - apply elem_of_app. right. left.
  - vm_compute. reflexivity.
  - repeat constructor; intros H; apply (bool_decide_eq_true_2 _) in H; vm_compute in H; discriminate H.
Defined.

(** *** Rendering *)

Lemma filterThreads_ok r g state l :
  threads_of r g = Some l -> filterThreads r g state = Ok (List.filter (has_state state) l).
Proof. intros E. unfold filterThreads. by rewrite E. Qed.

Lemma threads_of_key (r : list Thread * groups) g : g ∈ mkeys r.2 -> is_Some (threads_of r g).
Proof.
  intros Hk%mhas_spec. unfold mhas in Hk. unfold threads_of. destruct (mget g r.2) as [v|] eqn:Hv; [|done]. destruct v; eauto.
Qed.

Lemma events_items {A} (f : A -> WTEvent) (g : A -> WTNode) l :
  (forall x, events (g x) = [f x]) -> flat_map events (map g l) = map f l.
Proof. intros Hx. induction l as [|x l IH]; [done|]. cbn. by rewrite Hx, IH. Qed.

Lemma events_none {A} (g : A -> WTNode) l :
  (forall x, events (g x) = []) -> flat_map events (map g l) = [].
Proof. intros Hx. induction l as [|x l IH]; [done|]. cbn. by rewrite Hx, IH. Qed.

Lemma renderThread_events t : events (renderThread t) = [].
Proof.
  unfold renderThread. vdom. rewrite events_none.
  - by destruct (th_lockOwnerId t).
  - intros x. unfold renderStackLine. vdom. by destruct (sl_file x).
Qed.

Lemma displayed_threads_events s l : events (displayed_threads s l) = [].
Proof.
  unfold displayed_threads. destruct l; [by case_ifs|]. vdom. by rewrite events_none by apply renderThread_events.
Qed.

(** The page of a snapshot renders whenever the selected group exists in
    it; the menu then offers every group of the snapshot and the seven thread
    states, after the button that takes a new snapshot. *)
Theorem thread_page_renders s r :
  threads s = Some r -> selectedGroup s ∈ mkeys r.2 ->
  exists n, render s = Ok n /\
    events n = NewSnapshotClick :: map GroupClick (own_keys r.2) ++ map ThreadStateClick THREAD_STATES.
Proof.
  intros Hr Hg. unfold render, thread_toolbar. rewrite Hr.
  destruct (threads_of_key r _ Hg) as [l Hl].
  rewrite (res_map_ok (renderGroupListItem s r) (fun g => list_item (selectedGroup s === g) (GroupClick g) g
    (length (List.filter (has_state (selectedThreadState s)) (default [] (threads_of r g)))))).
  2: { intros g Hin. rewrite own_keys_perm in Hin. destruct (threads_of_key r g Hin) as [lg Hlg].
       unfold renderGroupListItem. by rewrite (filterThreads_ok r g _ lg Hlg), Hlg. }
  cbn [mbind res_bind].
  rewrite (res_map_ok (renderThreadStateListItem s r) (fun t => list_item (selectedThreadState s === t) (ThreadStateClick t) t
    (length (List.filter (has_state t) l)))).
  2: { intros t _. unfold renderThreadStateListItem. by rewrite (filterThreads_ok r _ t l Hl). }
  cbn [mbind res_bind]. rewrite (filterThreads_ok r _ _ l Hl). cbn [mbind res_bind].
  eexists. split; [reflexivity|]. unfold dropdown. vdom.
  rewrite displayed_threads_events, (events_items GroupClick _ (own_keys r.2)),
    (events_items ThreadStateClick _ THREAD_STATES) by done.
  cbn [flat_map app attr_events snd]. by rewrite !app_nil_r.
Qed.

(** *** Clicks and snapshots *)

(** The page of a snapshot that has the selected group. *)
Definition coherent (s : WTState) : Prop :=
  match threads s with Some r => selectedGroup s ∈ mkeys r.2 | None => True end.

Lemma coherent_commit s : coherent s -> commit s = Ok s.
Proof.
  unfold coherent, commit. intros Hc. destruct (threads s) as [r|] eqn:E.
  - by destruct (thread_page_renders s r E Hc) as (n & -> & _).
  - unfold render. rewrite E. done.
Qed.

Lemma set_coherent (f : WTState -> WTState) (i : WT) :
  r_mounted (st i) = true -> coherent (f (r_state (st i))) ->
  set_then commit f id i = setState (fun _ => mkRoot (f (r_state (st i))) true) i.
Proof. intros Hm Hc. unfold set_then, update_root. rewrite Hm, coherent_commit by done. done. Qed.

(** C30: No click breaks the page: whatever the page of a coherent state offers, a
    click on it leaves a page that is still there, coherent again and without an
    error; a click for a new snapshot sends one request, the others none. *)
Theorem thread_clicks_safe search (i : WT) n e :
  r_mounted (st i) = true -> coherent (r_state (st i)) -> render (r_state (st i)) = Ok n -> e ∈ events n ->
  r_mounted (st (wt_event search e i)) = true /\ coherent (r_state (st (wt_event search e i))) /\ console (wt_event search e i) = console i /\
  length (inflight (wt_event search e i)) = (length (inflight i) + match e with NewSnapshotClick => 1 | _ => 0 end)%nat.
Proof.
  intros Hm Hc Hn He. unfold wt_event, when_mounted. rewrite Hm.
  assert (Hok : forall f, coherent (f (r_state (st i))) -> forall k : WT, st k = st i -> console k = console i ->
    r_mounted (st (set_then commit f id k)) = true /\ coherent (r_state (st (set_then commit f id k))) /\
    console (set_then commit f id k) = console i /\ inflight (set_then commit f id k) = inflight k).
  { intros f Hf k Hk Hck. rewrite set_coherent by by rewrite Hk. cbn. by rewrite Hk. }
  destruct e as [g|t|]; unfold handleGroupClick, handleThreadStateClick, handleNewSnapshotClick.
  - destruct (Hok (with_group g)) with (k := i) as (-> & H1 & -> & ->); [|done|done|split; [done|]; split; [done|]; split; [done|lia]].
    unfold coherent in *. cbn. destruct (threads (r_state (st i))) as [r|] eqn:E; [|done].
    destruct (thread_page_renders _ r E Hc) as (n' & Hn' & Ev). rewrite Hn in Hn'. injection Hn' as <-. rewrite Ev in He.
    apply elem_of_cons in He as [?|He]; [done|]. apply elem_of_app in He as [He|He].
    + apply list_elem_of_In, in_map_iff in He as (g' & [= ->] & Hg). apply list_elem_of_In in Hg.
      by rewrite own_keys_perm in Hg.
    + by apply list_elem_of_In, in_map_iff in He as (? & ? & _).
  - destruct (Hok (with_thread_state t)) with (k := i) as (-> & H1 & -> & ->);
      [by unfold coherent in *; cbn|done|done|split; [done|]; split; [done|]; split; [done|lia]].
  - destruct (Hok (with_initialized false)) with (k := captureSnapshot search i) as (-> & H1 & -> & ->);
      [by unfold coherent in *; cbn|done|done|]. cbn. split; [done|]. split; [done|]. split; [done|lia].
Qed.

(** An answer leaves the page coherent when the snapshot has the selected group. *)
Lemma snapshot_coherent fuel u (i : WT) l time r :
  r_mounted (st i) = true -> processThreads fuel l = Some (Ok r) -> selectedGroup (r_state (st i)) ∈ mkeys r.2 ->
  st (wt_answer fuel u (Some (l, time)) i) = mkRoot (with_snapshot r time (r_state (st i))) true /\
  console (wt_answer fuel u (Some (l, time)) i) = console i.
Proof. intros Hm Hp Hg. cbn [wt_answer]. rewrite Hp. cbn [attempt]. by rewrite set_coherent. Qed.

Lemma stale_throws s r :
  threads s = Some r -> selectedGroup s ∉ mkeys r.2 -> exists e, render s = Throw e.
Proof.
  intros Hr Hg. unfold render. rewrite Hr. unfold thread_toolbar.
  destruct (res_map (renderGroupListItem s r) (own_keys r.2)) as [items|e]; cbn [mbind res_bind]; [|eauto].
  assert (Ht : threads_of r (selectedGroup s) = None).
  { unfold threads_of. by rewrite (proj2 (mget_None _ _)). }
  assert (Hf : forall t, exists e, renderThreadStateListItem s r t = Throw e)
    by (intros t; unfold renderThreadStateListItem, filterThreads; rewrite Ht; cbn; eauto).
  unfold THREAD_STATES. cbn [res_map]. destruct (Hf ALL_THREAD_STATE) as [e ->]. cbn. eauto.
Qed.

(** A snapshot without the selected group ends the page.  The selection
    survives a new snapshot; when no thread of the new one belongs to it,
    rendering throws, React removes the page and no later answer brings it back. *)
Theorem stale_group_removes adm fuel search u (i j : WT) l time r :
  r_mounted (st i) = true -> processThreads fuel l = Some (Ok r) -> selectedGroup (r_state (st i)) ∉ mkeys r.2 ->
  reachable (fun k : Empty_set => match k with end) (wt_answer fuel) (wt_event search) adm
    (wt_answer fuel u (Some (l, time)) i) j ->
  r_mounted (st j) = false /\ console j <> [].
Proof.
  intros Hm Hp Hg.
  apply (reachable_ind_inv _ _ _ _ _ (fun j => r_mounted (st j) = false /\ console j <> [])).
  - cbn [wt_answer]. rewrite Hp. cbn [attempt]. unfold set_then, update_root, commit. rewrite Hm.
    destruct (stale_throws (with_snapshot r time (r_state (st i))) r) as [e ->]; [done|done|].
    cbn. split; [done|]. by destruct (console i).
  - intros k k' _ [Hk Hc] Hs.
    assert (Hset : forall f (m : WT), st m = st k -> console m = console k ->
      r_mounted (st (set_then commit f id m)) = false /\ console (set_then commit f id m) <> []).
    { intros f m Em Ec. unfold set_then. rewrite update_gone by by rewrite Em. cbn. by rewrite Em, Ec. }
    inversion Hs as [? n []|? u' a l1 l2 Hi|? e]; subst.
    + destruct a as [[l' t']|]; cbn [wt_answer]; [|by apply Hset].
      destruct (processThreads fuel l') as [[r'|e]|]; cbn [attempt]; [by apply Hset| |done].
      cbn. split; [done|]. by destruct (console k).
    + unfold wt_event, when_mounted. by rewrite Hk.
Qed.

Definition demo_url : jsstring := "/v1/worker/node-1/thread".

(** A snapshot taken with one thread, whose group is then selected. *)
Definition demo_page : WT :=
  handleGroupClick "http-worker"
    (wt_answer 10 demo_url (Some (demo_threads, js "10:00:00 GMT")) (mount (new_root wt_init))).

Lemma thread_page_renders_witness :
  exists r n, threads (r_state (st demo_page)) = Some r /\ render (r_state (st demo_page)) = Ok n /\
    events n = NewSnapshotClick :: map GroupClick (own_keys r.2) ++ map ThreadStateClick THREAD_STATES.
Proof.
  eexists.
  destruct (thread_page_renders (r_state (st demo_page)) _ eq_refl) as (n & Hn & En).
  - apply (bool_decide_unpack _). vm_compute. exact I.
  - exists n. split; [reflexivity|]. exact (conj Hn En).
Defined.

Lemma thread_clicks_safe_witness :
  r_mounted (st (wt_event "?node-1" (GroupClick QUERY_THREADS) demo_page)) = true.
Proof.
  assert (Hg : coherent (r_state (st demo_page))) by (apply (bool_decide_unpack _); vm_compute; exact I).
  destruct (threads (r_state (st demo_page))) as [r|] eqn:E; [|vm_compute in E; discriminate E].
  destruct (thread_page_renders (r_state (st demo_page)) r E) as (n & Hn & En); [unfold coherent in Hg; by rewrite E in Hg|].
  refine (proj1 (thread_clicks_safe "?node-1" demo_page n (GroupClick QUERY_THREADS) _ Hg Hn _)).
  - reflexivity.
  - rewrite En. right. apply elem_of_app. left. apply list_elem_of_In, in_map, list_elem_of_In.
    vm_compute in E. injection E as <-. apply (bool_decide_unpack _). vm_compute. exact I.
Defined.

Lemma stale_group_removes_witness :
  r_mounted (st (wt_answer 10 demo_url (Some ([demo_thread "main" "RUNNABLE"], js "10:01:00 GMT")) demo_page)) = false.
Proof.
  destruct (processThreads 10 [demo_thread "main" "RUNNABLE"]) as [[r|]|] eqn:E; [|vm_compute in E; discriminate E..].
  apply (stale_group_removes (fun _ => True) 10 "?node-1" demo_url demo_page _ [demo_thread "main" "RUNNABLE"] "10:01:00 GMT" r).
  - reflexivity.
  - exact E.
  - vm_compute in E. injection E as <-. apply (bool_decide_unpack _). vm_compute. exact I.
  - apply rtc_refl.
Defined.
