(* ===== verification/StatementClient.v ===== *)
(** * The statement client of the Tableau connector ([tableau/presto-client.js])

    Submits a query and pulls its result pages.  Requests are synchronous
    ([async: false]): a call returns after the callbacks have run. *)

From S2P Require Import Prelude JsString JsNumber Data JsObject.

Section client.
Context {Column Row : Type}.

Record QueryError := mkQueryError { errorName : jsstring; message : jsstring }.

(** A page of [/v1/statement]. *)
Record Response := mkResponse {
  nextUri : option jsstring;
  columns : option (list Column);
  data : option (list Row);
  error : option QueryError
}.

(** How a request ends: a page, or a failure with the text of the answer and
    the text of the error. *)
Inductive Outcome :=
  | Success (response : Response)
  | Failure (responseText errorStr : jsstring).

(** The calls of the three callbacks. *)
Inductive Call :=
  | HeaderCall (columns : option (list Column))
  | DataCall (data : list Row) (columns : option (list Column)) (lastRecordNumber : Z)
  | ErrorCall (name text : jsstring).

(** The [connectionData] argument; [sessionParameters] after [JSON.parse]. *)
Record ConnectionData := mkConnectionData {
  cd_query : jsstring;
  cd_catalog : option jsstring;
  cd_schema : option jsstring;
  cd_userName : option jsstring;
  cd_sessionParameters : option (jsobj jsstring)
}.

(** A header value: a string or a list of strings. *)
Inductive HeaderValue := HText (s : jsstring) | HList (l : list jsstring).

Definition session_headers (p : option (jsobj jsstring)) : list jsstring :=
  match p with
  | None => []
  | Some parameterMap =>
      flat_map (fun name => match mget name parameterMap with
                            | Some value => [name ++ js "=" ++ value]
                            | None => []
                            end) (own_keys parameterMap)
  end.

Definition client_headers (c : ConnectionData) : jsobj HeaderValue :=
  [(js "X-Presto-User", HText (match cd_userName c with Some (x :: u) => x :: u | _ => js "N/A" end));
   (js "X-Presto-Source", HText "Tableau Web Connector");
   (js "X-Presto-Session", HList (session_headers (cd_sessionParameters c)))] ++
  match cd_catalog c with Some x => [(js "X-Presto-Catalog", HText x)] | None => [] end ++
  match cd_schema c with Some x => [(js "X-Presto-Schema", HText x)] | None => [] end.

Inductive Request :=
  | Post (url : jsstring) (headers : jsobj HeaderValue) (body : jsstring)
  | Get (url : jsstring) (headers : jsobj HeaderValue).

(** The client with the requests it has made and the callbacks it has run. *)
Record Client := mkClient {
  currentResults : option Response;
  valid : bool;
  headers : jsobj HeaderValue;
  requests : list Request;
  calls : list Call
}.

Definition call (l : list Call) (c : Client) : Client :=
  mkClient (currentResults c) (valid c) (headers c) (requests c) (calls c ++ l).
Definition request (r : Request) (c : Client) : Client :=
  mkClient (currentResults c) (valid c) (headers c) (requests c ++ [r]) (calls c).
Definition received (r : Response) (c : Client) : Client :=
  mkClient (Some r) (valid c) (headers c) (requests c) (calls c).
Definition invalidate (c : Client) : Client :=
  mkClient (currentResults c) false (headers c) (requests c) (calls c).

Definition response_calls (response : Response) (lastRecordNumber : Z) : list Call :=
  match error response with Some e => [ErrorCall (errorName e) (message e)] | None => [] end ++
  match columns response with Some cs => [HeaderCall (Some cs)] | None => [] end ++
  match data response with
  | Some d => [HeaderCall (columns response); DataCall d (columns response) lastRecordNumber]
  | None => []
  end.

Definition responseHandler (response : Response) (lastRecordNumber : Z) (c : Client) : Client :=
  call (response_calls response lastRecordNumber) c.

(** The outcomes of the requests to come are given in order; [None] when the
    client asks for one that is not there. *)
Definition submitQuery (query : jsstring) (lastRecordNumber : Z) (c : Client) (server : list Outcome) :
    option (Client * list Outcome) :=
  let c := request (Post "/v1/statement" (headers c) query) c in
  match server with
  | [] => None
  | Failure t e :: server' => Some (call [ErrorCall t e] c, server')
  | Success response :: server' =>
      Some (responseHandler response lastRecordNumber (received response c), server')
  end.

Definition next_uri (c : Client) : option jsstring :=
  match currentResults c with
  | Some r => match nextUri r with Some (x :: u) => Some (x :: u) | _ => None end
  | None => None
  end.

Fixpoint advance (lastRecordNumber : Z) (c : Client) (server : list Outcome) :
    option (Client * list Outcome) :=
  match next_uri c with
  | None => Some (invalidate c, server)
  | Some uri =>
      let c := request (Get uri (headers c)) c in
      match server with
      | [] => None
      | Failure t e :: server' => Some (call [ErrorCall t e] c, server')
      | Success response :: server' =>
          let c := responseHandler response lastRecordNumber (received response c) in
          match data response, error response with
          | None, None => advance lastRecordNumber c server'
          | _, _ => Some (c, server')
          end
      end
  end.

(** The constructor. *)
Definition new_client (cd : ConnectionData) (server : list Outcome) : option (Client * list Outcome) :=
  submitQuery (cd_query cd) 0 (mkClient None true (client_headers cd) [] []) server.

(** [while (client.valid) client.advance(0)], the way the connector drains a
    client; [fuel] rounds. *)
Fixpoint drain (fuel : nat) (c : Client) (server : list Outcome) : option (Client * list Outcome) :=
  if valid c then
    match fuel with
    | O => None
    | S fuel' =>
        match advance 0 c server with
        | Some (c', server') => drain fuel' c' server'
        | None => None
        end
    end
  else Some (c, server).

(** ** Properties *)

(** A complete result: every page but the last names the next one. *)
Definition has_next (r : Response) : Prop := exists x u, nextUri r = Some (x :: u).
Fixpoint complete (pages : list Response) : Prop :=
  match pages with
  | [] => True
  | [r] => nextUri r = None
  | r :: rest => has_next r /\ complete rest
  end.

(** The client after it has received the pages [seen]. *)
Definition client_after (c0 : Client) (seen : list Response) (c : Client) : Prop :=
  calls c = calls c0 ++ flat_map (fun r => response_calls r 0) seen /\
  currentResults c = match rev seen with r :: _ => Some r | [] => currentResults c0 end.

Lemma client_after_step c0 seen r c q :
  client_after c0 seen c ->
  client_after c0 (seen ++ [r]) (responseHandler r 0 (received r (request q c))).
Proof.
  intros (H1 & H2). split.
  - cbn. rewrite H1, flat_map_app. cbn. by rewrite app_nil_r, app_assoc.
  - by rewrite rev_app_distr.
Qed.

Lemma next_uri_after c0 seen r c :
  client_after c0 (seen ++ [r]) c ->
  next_uri c = match nextUri r with Some (x :: u) => Some (x :: u) | _ => None end.
Proof. intros (_ & H2). unfold next_uri. by rewrite H2, rev_app_distr. Qed.

(** A page after which [advance] asks for the next one at once. *)
Definition quiet (r : Response) : Prop := data r = None /\ error r = None.

(** How [advance] stops: at a page that is not quiet, or at the end. *)
Definition stopped_at (c c' : Client) (more rest' : list Response) : Prop :=
  (valid c' = valid c /\ exists pre r, more = pre ++ [r] /\ Forall quiet pre /\ ~ quiet r) \/
  (valid c' = false /\ rest' = [] /\ Forall quiet more).

(** One call of [advance] receives pages up to the first one that is not quiet,
    or finds that there is none; it never skips one. *)
Lemma advance_pages c0 seen r rest c :
  client_after c0 (seen ++ [r]) c -> complete (r :: rest) ->
  exists more rest' c', advance 0 c (map Success rest) = Some (c', map Success rest') /\
    rest = more ++ rest' /\ client_after c0 ((seen ++ [r]) ++ more) c' /\ stopped_at c c' more rest'.
Proof.
  revert seen r c. induction rest as [|r' rest IH]; intros seen r c Ha Hc.
  { cbn [map advance]. rewrite (next_uri_after _ _ _ _ Ha). cbn [complete] in Hc. rewrite Hc.
    exists [], [], (invalidate c). split; [done|]. split; [done|]. rewrite app_nil_r. split; [exact Ha|].
    right. repeat split. constructor. }
  destruct Hc as [(x & u & Hx) Hc].
  cbn [map advance]. rewrite (next_uri_after _ _ _ _ Ha), Hx.
  set (c1 := responseHandler r' 0 (received r' (request (Get (x :: u) (headers c)) c))).
  pose proof (client_after_step c0 (seen ++ [r]) r' c (Get (x :: u) (headers c)) Ha) as Hs. fold c1 in Hs.
  assert (Stop : ~ quiet r' -> exists more rest' c', Some (c1, map Success rest) = Some (c', map Success rest') /\
    r' :: rest = more ++ rest' /\ client_after c0 ((seen ++ [r]) ++ more) c' /\ stopped_at c c' more rest').
  { intros Hq. exists [r'], rest, c1. split; [done|]. split; [done|]. split; [exact Hs|]. left. split; [done|].
    exists [], r'. repeat split; [constructor|done]. }
  unfold quiet in Stop. destruct (data r') eqn:Ed; [apply Stop; by intros []|].
  destruct (error r') eqn:Ee; [apply Stop; by intros []|]. clear Stop.
  destruct (IH (seen ++ [r]) r' c1 Hs Hc) as (more & rest' & c' & E & Er & Hf & Hv).
  exists (r' :: more), rest', c'. split; [exact E|]. split; [by rewrite Er|].
  split; [by rewrite <- (app_assoc (seen ++ [r])) in Hf|].
  assert (quiet r') by by split.
  destruct Hv as [[Hv (pre & l & -> & Hp & Hl)]|(Hv & Hr & Hq)]; [left|right].
  - split; [done|]. exists (r' :: pre), l. repeat split; [by constructor|done].
  - split; [done|]. split; [done|by constructor].
Qed.

Lemma last_default {A} (x : A) l d d' : List.last (x :: l) d = List.last (x :: l) d'.
Proof. revert x. induction l as [|y l IH]; intros x; [done|]. apply (IH y). Qed.

Lemma complete_suffix r more rest : complete (r :: more ++ rest) -> complete (List.last (r :: more) r :: rest).
Proof.
  revert r. induction more as [|r' more IH]; intros r Hc; [done|].
  destruct Hc as [_ Hc]. specialize (IH r' Hc).
  change (List.last (r :: r' :: more) r) with (List.last (r' :: more) r).
  by rewrite (last_default r' more r r').
Qed.

Lemma snoc_last {A} (r : A) more seen :
  (seen ++ [r]) ++ more = (seen ++ removelast (r :: more)) ++ [List.last (r :: more) r].
Proof. rewrite <- !app_assoc. f_equal. change ([r] ++ more) with (r :: more). by apply app_removelast_last. Qed.

Lemma drain_pages fuel c0 seen r rest c :
  valid c = true -> client_after c0 (seen ++ [r]) c -> complete (r :: rest) -> (length rest < fuel)%nat ->
  exists c', drain fuel c (map Success rest) = Some (c', []) /\ valid c' = false /\
    calls c' = calls c0 ++ flat_map (fun r => response_calls r 0) (seen ++ r :: rest).
Proof.
  revert seen r rest c. induction fuel as [|fuel IH]; intros seen r rest c Hv Ha Hc Hf; [lia|].
  cbn [drain]. rewrite Hv.
  destruct (advance_pages c0 seen r rest c Ha Hc) as (more & rest' & c' & -> & -> & Ha' & Hn).
  assert (Hn' : (valid c' = valid c /\ more <> []) \/ (valid c' = false /\ rest' = [])).
  { destruct Hn as [[? (pre & l & -> & _)]|(? & ? & _)]; [left; split; [done|by destruct pre]|by right]. }
  destruct Hn' as [[Hv' Hm]|[Hv' ->]].
  - rewrite snoc_last in Ha'. destruct (IH _ _ rest' c' ltac:(congruence) Ha') as (c'' & E & H1 & H2).
    + by apply complete_suffix.
    + rewrite length_app in Hf. destruct more; [done|]. cbn in Hf. lia.
    + exists c''. split; [exact E|]. split; [done|]. rewrite H2. do 2 f_equal.
      change (?l ++ ?x :: rest') with (l ++ [x] ++ rest'). rewrite app_assoc, <- snoc_last, <- app_assoc.
      by rewrite <- app_assoc.
  - destruct fuel; cbn [drain map]; rewrite Hv'; exists c'; (split; [done|]); (split; [done|]);
      destruct Ha' as [-> _]; rewrite app_nil_r; by rewrite <- app_assoc.
Qed.

(** A client takes only the answers to its own requests. *)
Lemma advance_frame n c server t c' rest :
  advance n c server = Some (c', rest) -> advance n c (server ++ t) = Some (c', rest ++ t).
Proof.
  revert c. induction server as [|o server IH]; intros c; cbn [app advance];
    [destruct t; cbn [advance]; destruct (next_uri c); (done || by intros [= <- <-])|].
  destruct (next_uri c) as [uri|]; [|by intros [= <- <-]].
  destruct o as [r|x e]; [|by intros [= <- <-]].
  destruct (data r), (error r); try (by intros [= <- <-]). apply IH.
Qed.

Lemma drain_frame fuel c server t c' rest :
  drain fuel c server = Some (c', rest) -> drain fuel c (server ++ t) = Some (c', rest ++ t).
Proof.
  revert c server. induction fuel as [|fuel IH]; intros c server; cbn [drain]; destruct (valid c);
    try (done || by intros [= <- <-]).
  destruct (advance 0 c server) as [[c1 server1]|] eqn:E; [|done]. rewrite (advance_frame _ _ _ t _ _ E). apply IH.
Qed.

End client.

Arguments Response : clear implicits.
Arguments Outcome : clear implicits.

Definition demo_pages : list (Response jsstring jsstring) :=
  [mkResponse (Some (js "/v1/statement/q/2")) None None None;
   mkResponse (Some (js "/v1/statement/q/3")) (Some [js "n"]) (Some [js "1"; js "2"]) None;
   mkResponse None (Some [js "n"]) (Some [js "3"]) None].
Definition demo_connection : ConnectionData :=
  mkConnectionData "SELECT n FROM t" (Some (js "hive")) None None None.


(** The statement client names the user it runs for, [N/A] when there is
    none, and sends a catalog or schema header exactly when one was given. *)
Theorem client_headers_spec cd :
  mget (js "X-Presto-User") (client_headers cd) =
    Some (HText (if str_truthy (cd_userName cd) then default [] (cd_userName cd) else js "N/A")) /\
  mget (js "X-Presto-Catalog") (client_headers cd) = HText <$> cd_catalog cd /\
  mget (js "X-Presto-Schema") (client_headers cd) = HText <$> cd_schema cd.
Proof.
  unfold client_headers. split; [|split].
  - by destruct (cd_userName cd) as [[|]|].
  - by destruct (cd_catalog cd), (cd_schema cd).
  - by destruct (cd_catalog cd), (cd_schema cd).
Qed.
