(* ===== verification/TableauConnector.v ===== *)
(** * The Tableau connector page ([tableau/presto-connector.html])

    The script of the page connects the statement client with Tableau's web
    data connector: it passes on the columns and the pages of rows of a query,
    and keeps the form in which the query and its session parameters are
    entered.  The global variables of the script are the record [Connector];
    the calls into Tableau's library are recorded in [sent].

    The callbacks of the client touch none of its fields, and only the last
    callback of a request can throw, so running the callbacks that a call of
    [advance] has recorded after that call gives the state the page has when
    [advance] returns. *)

From S2P Require Import Prelude JsString JsNumber JsObject Json Data StatementClient.

(** ** Data *)

Record Column := mkColumn { col_name : jsstring; col_type : jsstring }.

(** A row of a page, and a property of a row object: [None] is [undefined]. *)
Abbreviation Row := (list Json).
Abbreviation Cell := (option Json).

Inductive TableauCall :=
  | HeadersCallback (fieldNames fieldTypes : list jsstring)
  | DataCallback (tableauData : list (jsobj Cell)) (lastRecordNumber : Z) (moreData : bool)
  | AbortWithError (message : jsstring).

Record Connector := mkConnector {
  headersPushed : bool;
  statementClient : option (@Client Column Row);
  getTableDataCalled : bool;
  buffer : list (list Row);
  schema : option (list Column);
  con_errorName : option jsstring;
  con_errorMessage : option jsstring;
  sent : list TableauCall
}.

Definition initial_connector : Connector := mkConnector false None false [] None None None [].

Definition send_call (t : TableauCall) (c : Connector) : Connector :=
  mkConnector (headersPushed c) (statementClient c) (getTableDataCalled c) (buffer c) (schema c)
    (con_errorName c) (con_errorMessage c) (sent c ++ [t]).
Definition with_client (cl : option Client) (c : Connector) : Connector :=
  mkConnector (headersPushed c) cl (getTableDataCalled c) (buffer c) (schema c)
    (con_errorName c) (con_errorMessage c) (sent c).
Definition with_buffer (b : list (list Row)) (c : Connector) : Connector :=
  mkConnector (headersPushed c) (statementClient c) (getTableDataCalled c) b (schema c)
    (con_errorName c) (con_errorMessage c) (sent c).
Definition table_data_called (c : Connector) : Connector :=
  mkConnector (headersPushed c) (statementClient c) true (buffer c) (schema c)
    (con_errorName c) (con_errorMessage c) (sent c).

(** ** Callbacks of the client *)

Definition tableau_type (columnType : jsstring) : jsstring :=
  if columnType === "boolean" then "bool" else if columnType === "date" then "date" else "string".

Definition pushHeadersToTableau (columns : option (list Column)) (c : Connector) : Connector :=
  match columns with
  | Some cs =>
      if headersPushed c then c
      else mkConnector true (statementClient c) (getTableDataCalled c) (buffer c) (Some cs)
             (con_errorName c) (con_errorMessage c)
             (sent c ++ [HeadersCallback (map col_name cs) (map (fun col => tableau_type (col_type col)) cs)])
  | None => c
  end.

Definition isComplexType (typeName : jsstring) : bool :=
  (indexOf typeName "map" =? 0) || (indexOf typeName "array" =? 0) || (indexOf typeName "row" =? 0).

Definition cell (col : Column) (v : Cell) : Cell :=
  if isComplexType (col_type col) then option_map (fun x => JvString (stringify x)) v else v.

(** [row[name] = v] on an object created with [new Object()]: assigning to
    [__proto__] makes no property. *)
Definition set_property (name : jsstring) (v : Cell) (row : jsobj Cell) : jsobj Cell :=
  if name === "__proto__" then row else mset name v row.

Fixpoint fill_row (columns : list Column) (dataArray : Row) (row : jsobj Cell) : jsobj Cell :=
  match columns with
  | [] => row
  | col :: columns' =>
      fill_row columns' (tail dataArray) (set_property (col_name col) (cell col (head dataArray)) row)
  end.

Definition row_object (columns : list Column) (dataArray : Row) : jsobj Cell := fill_row columns dataArray [].

Definition pushDataToTableau (data : list Row) (columns : option (list Column)) (lastRecordNumber : Z)
    (c : Connector) : Connector * option js_error :=
  match data with
  | [] => (c, None)
  | _ =>
      if getTableDataCalled c then
        match columns with
        | Some cs => (send_call (DataCallback (map (row_object cs) data) lastRecordNumber true) c, None)
        | None => (c, Some (TypeError "columns.length"))
        end
      else (with_buffer (buffer c ++ [data]) c, None)
  end.

Definition errorHandler (errName errMessage : jsstring) (c : Connector) : Connector :=
  mkConnector (headersPushed c) (statementClient c) (getTableDataCalled c) (buffer c) (schema c)
    (Some errName) (Some errMessage) (sent c).

Definition run_call (k : @Call Column Row) (c : Connector) : Connector * option js_error :=
  match k with
  | HeaderCall columns => (pushHeadersToTableau columns c, None)
  | DataCall data columns n => pushDataToTableau data columns n c
  | ErrorCall name text => (errorHandler name text c, None)
  end.

Fixpoint run_calls (l : list (@Call Column Row)) (c : Connector) : Connector * option js_error :=
  match l with
  | [] => (c, None)
  | k :: l' => match run_call k c with
               | (c', None) => run_calls l' c'
               | (c', Some e) => (c', Some e)
               end
  end.

(** ** The connector's methods *)

(** [statementClient.advance(n)] with its callbacks; [None] when the server has
    no answer for a request. *)
Definition advance_client (n : Z) (c : Connector) (server : list (Outcome Column Row)) :
    option (Connector * option js_error * list (Outcome Column Row)) :=
  match statementClient c with
  | None => Some (c, Some (TypeError "statementClient.advance"), server)
  | Some cl =>
      '(cl', server') ← advance n cl server;
      Some (run_calls (drop (length (calls cl)) (calls cl')) (with_client (Some cl') c), server')
  end.

(** How a loop ends: with a result, because a request is not answered, or not
    within the given number of rounds. *)
Inductive Run (A : Type) := Finished (a : A) | NoAnswer | Unfinished.
Arguments Finished {A} _.
Arguments NoAnswer {A}.
Arguments Unfinished {A}.

Fixpoint wait_headers (fuel : nat) (c : Connector) (server : list (Outcome Column Row)) :
    Run (Connector * option js_error * list (Outcome Column Row)) :=
  if headersPushed c || str_truthy (con_errorMessage c) then Finished (c, None, server)
  else match fuel with
       | O => Unfinished
       | S fuel' =>
           match advance_client 0 c server with
           | None => NoAnswer
           | Some (c', None, server') => wait_headers fuel' c' server'
           | Some (c', Some e, server') => Finished (c', Some e, server')
           end
       end.

Definition error_text (c : Connector) : jsstring :=
  js "Error: [" ++ default (js "null") (con_errorName c) ++ js "]: " ++ default [] (con_errorMessage c).

Definition getColumnHeaders (fuel : nat) (connectionData : ConnectionData) (c : Connector)
    (server : list (Outcome Column Row)) : Run (Connector * option js_error * list (Outcome Column Row)) :=
  match new_client connectionData server with
  | None => NoAnswer
  | Some (cl, server) =>
      match run_calls (calls cl) c with
      | (c, Some e) => Finished (c, Some e, server)
      | (c, None) =>
          match wait_headers fuel (with_client (Some cl) c) server with
          | Finished (c, None, server) =>
              Finished (if str_truthy (con_errorMessage c) then send_call (AbortWithError (error_text c)) c else c,
                        None, server)
          | r => r
          end
      end
  end.

Definition getTableData (lastRecordNumber : Z) (c : Connector) (server : list (Outcome Column Row)) :
    option (Connector * option js_error * list (Outcome Column Row)) :=
  let c := table_data_called c in
  match buffer c with
  | data :: rest => Some (pushDataToTableau data (schema c) lastRecordNumber (with_buffer rest c), server)
  | [] =>
      match advance_client lastRecordNumber c server with
      | Some (c, None, server) =>
          Some (if match statementClient c with Some cl => valid cl | None => true end then c
                else send_call (DataCallback [] lastRecordNumber false) c, None, server)
      | r => r
      end
  end.
