(* ===== verification/TableauConnectorFacts.v ===== *)
(** * The Tableau connector page: properties *)

From S2P Require Import Prelude JsString JsNumber JsObject Json JsonFacts Data StatementClient TableauConnector.

Lemma run_calls_app l l' c :
  run_calls (l ++ l') c = match run_calls l c with (c', None) => run_calls l' c' | r => r end.
Proof.
  revert c. induction l as [|k l IH]; intros c; [done|]. cbn [app run_calls].
  destruct (run_call k c) as [c' [e|]]; [done|apply IH].
Qed.

(** The pages of rows among some pages. *)
Definition data_page (r : Response Column Row) : list (list Row) :=
  match data r with Some rows => [rows] | None => [] end.
Definition has_columns (r : Response Column Row) : bool :=
  match columns r with Some _ => true | None => false end.

Section delivery.
Variable cols : list Column.

(** A page of a result with the columns [cols]: no error, and rows only with
    their columns. *)
Definition good_page (r : Response Column Row) : Prop :=
  error r = None /\ (columns r = None \/ columns r = Some cols) /\
  (forall rows, data r = Some rows -> rows <> [] /\ columns r = Some cols).

Definition header_call : TableauCall :=
  HeadersCallback (map col_name cols) (map (fun col => tableau_type (col_type col)) cols).
Definition data_call (rows : list Row) : TableauCall := DataCallback (map (row_object cols) rows) 0 true.

(** The connector has passed on the pages of rows [del] and holds back [buf]. *)
Definition holds (pushed : bool) (buf del : list (list Row)) (c : Connector) : Prop :=
  headersPushed c = pushed /\ buffer c = buf /\ (pushed = true -> schema c = Some cols) /\
  con_errorMessage c = None /\ (pushed = false -> del = []) /\
  sent c = (if pushed then [header_call] else []) ++ map data_call del.

(** What the callbacks of a page do. *)
Definition takes (pages : list (Response Column Row)) (pushed : bool) (buf del : list (list Row))
    (c c' : Connector) : Prop :=
  statementClient c' = statementClient c /\ getTableDataCalled c' = getTableDataCalled c /\
  if getTableDataCalled c then holds true buf (del ++ flat_map data_page pages) c'
  else holds (pushed || existsb has_columns pages) (buf ++ flat_map data_page pages) del c'.

Lemma push_headers_again c pushed buf del :
  holds pushed buf del c -> pushHeadersToTableau (Some cols) c =
    if pushed then c else
    mkConnector true (statementClient c) (getTableDataCalled c) (buffer c) (Some cols)
      (con_errorName c) (con_errorMessage c) (sent c ++ [header_call]).
Proof. intros (H & _). unfold pushHeadersToTableau. by rewrite H. Qed.

Lemma push_headers_holds c pushed buf del :
  holds pushed buf del c ->
  let c' := pushHeadersToTableau (Some cols) c in
  holds true buf del c' /\ statementClient c' = statementClient c /\ getTableDataCalled c' = getTableDataCalled c.
Proof.
  intros Hh. pose proof Hh as (H1 & H2 & H3 & H4 & H5 & H6). cbn zeta. rewrite (push_headers_again _ _ _ _ Hh).
  destruct pushed; [done|]. split; [|done]. unfold holds. cbn. rewrite (H5 eq_refl) in *. by rewrite H6.
Qed.

Lemma push_data_holds c buf del rows :
  holds true buf del c -> rows <> [] ->
  exists c', pushDataToTableau rows (Some cols) 0 c = (c', None) /\ statementClient c' = statementClient c /\
    getTableDataCalled c' = getTableDataCalled c /\
    if getTableDataCalled c then holds true buf (del ++ [rows]) c' else holds true (buf ++ [rows]) del c'.
Proof.
  intros (H1 & H2 & H3 & H4 & H5 & H6) Hr. unfold pushDataToTableau. destruct rows as [|row rows]; [done|].
  destruct (getTableDataCalled c) eqn:Eg; eexists; (split; [reflexivity|]); (split; [done|]); (split; [done|]).
  - unfold holds. cbn -[data_call]. rewrite H6, map_app. by repeat split.
  - unfold holds. cbn. rewrite H2. by repeat split.
Qed.

Lemma page_taken r c pushed buf del :
  good_page r -> holds pushed buf del c -> (getTableDataCalled c = true -> pushed = true) ->
  exists c', run_calls (response_calls r 0) c = (c', None) /\ takes [r] pushed buf del c c'.
Proof.
  intros (He & Hc & Hd) Hh Hg. unfold response_calls, takes. cbn [existsb flat_map]. rewrite He, orb_false_r, app_nil_r.
  unfold data_page, has_columns. cbn [app].
  destruct (data r) as [rows|] eqn:Ed.
  - destruct (Hd rows eq_refl) as [Hr Hcols]. rewrite Hcols. cbn [app run_calls run_call].
    rewrite orb_true_r.
    destruct (push_headers_holds c pushed buf del Hh) as (H1 & S1 & G1).
    destruct (push_headers_holds _ _ _ _ H1) as (H2 & S2 & G2).
    destruct (push_data_holds _ _ _ rows H2 Hr) as (c' & E & S3 & G3 & H3). rewrite E.
    exists c'. split; [done|]. split; [congruence|]. split; [congruence|]. by rewrite G2, G1 in H3.
  - rewrite !app_nil_r. destruct Hc as [->| ->]; cbn [app run_calls run_call].
    + exists c. split; [done|]. split; [done|]. split; [done|]. rewrite orb_false_r.
      destruct (getTableDataCalled c); [|done]. by rewrite Hg in Hh.
    + destruct (push_headers_holds c pushed buf del Hh) as (H1 & S1 & G1).
      eexists. split; [reflexivity|]. split; [done|]. split; [done|]. rewrite orb_true_r.
      by destruct (getTableDataCalled c).
Qed.

Lemma pages_taken pages c pushed buf del :
  Forall good_page pages -> holds pushed buf del c -> (getTableDataCalled c = true -> pushed = true) ->
  exists c', run_calls (flat_map (fun r => response_calls r 0) pages) c = (c', None) /\
    takes pages pushed buf del c c'.
Proof.
  intros Hp. revert c pushed buf del. induction Hp as [|r pages Hr _ IH]; intros c pushed buf del Hh Hg.
  - exists c. split; [done|]. split; [done|]. split; [done|]. cbn. rewrite !app_nil_r, orb_false_r.
    destruct (getTableDataCalled c); [|done]. by rewrite Hg in Hh.
  - cbn [flat_map]. rewrite run_calls_app.
    destruct (page_taken r c pushed buf del Hr Hh Hg) as (c1 & -> & S1 & G1 & H1).
    cbn [existsb flat_map] in H1. rewrite orb_false_r, app_nil_r in H1.
    unfold takes. cbn [existsb flat_map]. destruct (getTableDataCalled c) eqn:Eg.
    + destruct (IH c1 true _ _ H1) as (c' & E & S2 & G2 & H2); [done|]. rewrite G1 in H2.
      exists c'. split; [done|]. split; [congruence|]. split; [congruence|]. by rewrite <- app_assoc in H2.
    + destruct (IH c1 _ _ _ H1) as (c' & E & S2 & G2 & H2); [by rewrite G1|]. rewrite G1 in H2.
      exists c'. split; [done|]. split; [congruence|]. split; [congruence|]. by rewrite <- app_assoc, <- orb_assoc in H2.
Qed.

(** ** Requests *)

Variable h : jsobj HeaderValue.
Definition fresh : @Client Column Row := mkClient None true h [] [].

(** The connector's client has received [seen ++ [r]] and the server has the
    pages [rest] left. *)
Definition serving (seen : list (Response Column Row)) (r : Response Column Row) (rest : list (Response Column Row))
    (cl : @Client Column Row) (c : Connector) : Prop :=
  statementClient c = Some cl /\ client_after fresh (seen ++ [r]) cl /\ complete (r :: rest) /\
  (valid cl = true \/ rest = []).

Lemma advance_taken seen r rest cl c pushed buf del :
  serving seen r rest cl c -> Forall (good_page) rest ->
  holds pushed buf del c -> (getTableDataCalled c = true -> pushed = true) ->
  exists more rest' cl' c',
    advance_client 0 c (map Success rest) = Some (c', None, map Success rest') /\ rest = more ++ rest' /\
    serving (seen ++ removelast (r :: more)) (List.last (r :: more) r) rest' cl' c' /\
    stopped_at cl cl' more rest' /\ takes more pushed buf del (with_client (Some cl') c) c'.
Proof.
  intros (Ec & Ha & Hc & Hv) Hg Hh Hp.
  destruct (advance_pages fresh seen r rest cl Ha Hc) as (more & rest' & cl' & E & -> & Ha' & Hs).
  apply Forall_app in Hg as [Hm Hg'].
  destruct (pages_taken more (with_client (Some cl') c) pushed buf del Hm Hh Hp) as (c' & Er & Ht).
  exists more, rest', cl', c'. unfold advance_client. rewrite Ec, E. cbn [mbind option_bind].
  assert (drop (length (calls cl)) (calls cl') = flat_map (fun r => response_calls r 0) more) as ->.
  { destruct Ha as [-> _], Ha' as [-> _]. rewrite (flat_map_app _ (seen ++ [r]) more), app_assoc. by rewrite drop_app_length. }
  rewrite Er. split; [done|]. split; [done|]. split; [|split; [exact Hs|exact Ht]].
  rewrite snoc_last in Ha'. split; [by destruct Ht as [-> _]|]. split; [exact Ha'|].
  split; [by apply complete_suffix|].
  destruct Hs as [[-> (pre & l & -> & _)]|(_ & -> & _)]; [left|by right].
  destruct Hv as [Hv|Hv]; [done|by destruct pre].
Qed.

Lemma resume_snoc {A} (seen : list A) r more rest :
  seen ++ r :: more ++ rest = (seen ++ removelast (r :: more)) ++ List.last (r :: more) r :: rest.
Proof.
  change (?l ++ ?x :: rest) with (l ++ [x] ++ rest). rewrite app_assoc, <- snoc_last, <- !app_assoc. done.
Qed.

Lemma stopped_progress {A B} (cl cl' : @Client A B) more rest :
  stopped_at cl cl' more rest -> more ++ rest <> [] -> more <> [].
Proof.
  intros [[_ (pre & l & -> & _)]|(_ & -> & _)]; [by destruct pre|by rewrite app_nil_r].
Qed.

(** [getColumnHeaders] returns as soon as a page with columns has arrived. *)
Lemma wait_headers_done fuel seen r rest cl c :
  (length rest < fuel)%nat -> serving seen r rest cl c -> Forall good_page rest ->
  existsb has_columns (seen ++ r :: rest) = true -> getTableDataCalled c = false ->
  holds (existsb has_columns (seen ++ [r])) (flat_map data_page (seen ++ [r])) [] c ->
  exists seen' r' rest' cl' c',
    wait_headers fuel c (map Success rest) = Finished (c', None, map Success rest') /\
    seen ++ r :: rest = seen' ++ r' :: rest' /\ serving seen' r' rest' cl' c' /\ Forall good_page rest' /\
    holds true (flat_map data_page (seen' ++ [r'])) [] c'.
Proof.
  revert seen r rest cl c. induction fuel as [|fuel IH]; intros seen r rest cl c Hf Hs Hg Hx Hn Hh; [lia|].
  cbn [wait_headers]. pose proof Hh as (Hp & _ & _ & He & _). rewrite Hp, He.
  destruct (existsb has_columns (seen ++ [r])) eqn:Ex; cbn [orb str_truthy].
  { exists seen, r, rest, cl, c. done. }
  destruct (advance_taken seen r rest cl c _ _ _ Hs Hg Hh) as (more & rest' & cl' & c' & E & -> & Hs' & Hst & Ht).
  { by rewrite Hn. }
  destruct Ht as (_ & Hn' & Ht). cbn [getTableDataCalled with_client] in Hn', Ht. rewrite Hn in Hn', Ht.
  rewrite E. assert (Hmore : more <> []).
  { apply (stopped_progress _ _ _ _ Hst). intros Hnil. rewrite Hnil in Hx. congruence. }
  rewrite resume_snoc in Hx |- *. apply Forall_app in Hg as [_ Hg].
  assert (Hl : (seen ++ [r]) ++ more = (seen ++ removelast (r :: more)) ++ [List.last (r :: more) r]) by apply snoc_last.
  destruct (IH _ _ rest' cl' c' ltac:(rewrite length_app in Hf; destruct more; [done|cbn in Hf; lia]) Hs' Hg Hx Hn')
    as (seen' & r' & rest'' & cl'' & c'' & H).
  - rewrite <- Hl, existsb_app, flat_map_app, Ex. exact Ht.
  - exists seen', r', rest'', cl'', c''. exact H.
Qed.

(** Tableau asks for data [k] times, each time with the record number it was
    given last. *)
Fixpoint pull (k : nat) (c : Connector) (server : list (Outcome Column Row)) :
    option (Connector * option js_error * list (Outcome Column Row)) :=
  match k with
  | O => Some (c, None, server)
  | S k' => match getTableData 0 c server with
            | Some (c', None, server') => pull k' c' server'
            | r => r
            end
  end.

Definition end_call : TableauCall := DataCallback [] 0 false.

(** What was held back is passed on first, a page for each request. *)
Lemma pull_buffer buf del c k server :
  holds true buf del c -> Forall (fun rows => rows <> []) buf ->
  exists c', pull (length buf + k) c server = pull k c' server /\ holds true [] (del ++ buf) c' /\
    statementClient c' = statementClient c.
Proof.
  revert del c. induction buf as [|rows buf IH]; intros del c Hh Hb.
  { exists c. by rewrite app_nil_r. }
  apply Forall_cons in Hb as [Hr Hb]. pose proof Hh as (H1 & H2 & H3 & H4 & H5 & H6).
  cbn [length Nat.add pull]. unfold getTableData. cbn [buffer table_data_called]. rewrite H2.
  cbn [schema table_data_called]. rewrite (H3 eq_refl).
  destruct (push_data_holds (with_buffer buf (table_data_called c)) buf del rows) as (c1 & E & S1 & G1 & Hh1);
    [by repeat split|done|].
  unfold table_data_called, with_buffer in *. cbn [headersPushed statementClient getTableDataCalled buffer schema
    con_errorName con_errorMessage sent] in *. rewrite E.
  destruct (IH _ c1 Hh1 Hb) as (c' & Ep & Hh' & S'). exists c'. split; [exact Ep|]. split; [|congruence].
  by rewrite <- app_assoc in Hh'.
Qed.

Lemma quiet_no_data (l : list (Response Column Row)) : Forall quiet l -> flat_map data_page l = [].
Proof. induction 1 as [|r l [Hd _] _ IH]; [done|]. cbn. unfold data_page at 1. by rewrite Hd. Qed.

(** Then one page of rows arrives for each request, and the end is announced
    once. *)
Lemma pull_pages n seen r rest cl c del :
  (length rest <= n)%nat -> serving seen r rest cl c -> Forall good_page rest -> holds true [] del c ->
  exists c', pull (S (length (flat_map data_page rest))) c (map Success rest) = Some (c', None, []) /\
    sent c' = header_call :: map data_call (del ++ flat_map data_page rest) ++ [end_call].
Proof.
  revert seen r rest cl c del. induction n as [|n IH]; intros seen r rest cl c del Hn Hs Hg Hh;
    (destruct (advance_taken seen r rest cl (table_data_called c) true [] del Hs Hg)
       as (more & rest' & cl' & c' & E & -> & Hs' & Hst & (_ & _ & Ht)); [exact Hh|done|]);
    cbn [getTableDataCalled with_client table_data_called] in Ht;
    cbn [pull]; unfold getTableData; cbn [buffer table_data_called];
    (assert (buffer c = []) as -> by apply Hh); rewrite E; destruct Hs' as (Ec' & Hs');
    rewrite Ec', flat_map_app; destruct Hst as [[Hv (pre & l & -> & Hp & Hl)]|(Hv & -> & Hq)].
  2,4: rewrite Hv, (quiet_no_data more Hq); cbn [app length pull flat_map map]; eexists; (split; [reflexivity|]);
    cbn [sent send_call]; destruct Ht as (_ & _ & _ & _ & _ & ->); rewrite (quiet_no_data more Hq);
    by rewrite <- app_assoc.
  { rewrite !length_app in Hn. cbn in Hn. lia. }
  assert (Hd : exists rows, data l = Some rows).
  { apply Forall_app in Hg as [[_ [Hgl _]%Forall_cons]%Forall_app _]. destruct Hgl as [He _].
    unfold quiet in Hl. destruct (data l); [eauto|by destruct Hl]. }
  destruct Hd as [rows Hd]. rewrite flat_map_app in Ht |- *. rewrite (quiet_no_data pre Hp) in *.
  cbn [flat_map app] in *. unfold data_page at 1 in Ht. unfold data_page at 1 3. rewrite Hd in *. cbn [app length] in *.
  assert (valid cl = true) as Hvc. { destruct Hs as (_ & _ & _ & [?|?]); [done|by destruct pre]. }
  rewrite Hv, Hvc. apply Forall_app in Hg as [_ Hg]. rewrite !length_app in Hn. cbn [length] in Hn.
  destruct (IH _ _ rest' cl' c' _ ltac:(lia) (conj Ec' Hs') Hg Ht) as (c'' & Ep & Hsent).
  exists c''. split; [exact Ep|]. rewrite Hsent, <- app_assoc. done.
Qed.
End delivery.

Lemma good_page_rows cols pages : Forall (good_page cols) pages -> Forall (fun rows => rows <> []) (flat_map data_page pages).
Proof.
  induction 1 as [|r pages (_ & _ & Hd) _ IH]; [constructor|]. cbn. apply Forall_app. split; [|exact IH].
  unfold data_page. destruct (data r) as [rows|] eqn:E; [|constructor].
  apply Forall_singleton. by apply (Hd rows).
Qed.

(** C8: The connector delivers the whole result to Tableau, and nothing else: for
    a result whose pages name their columns, [getColumnHeaders] returns after at
    most one request per page; asking for data once per page of rows and once
    more passes on the columns, then every row of every page in order, each page
    in a callback of its own, and then announces the end.  Every request is
    answered by exactly one callback. *)
Theorem connector_delivers_all cd cols first rest :
  complete (first :: rest) -> Forall (good_page cols) (first :: rest) ->
  existsb has_columns (first :: rest) = true ->
  exists c server c',
    getColumnHeaders (S (length rest)) cd initial_connector (map Success (first :: rest)) =
      Finished (c, None, server) /\
    pull (S (length (flat_map data_page (first :: rest)))) c server = Some (c', None, []) /\
    sent c' = header_call cols :: map (data_call cols) (flat_map data_page (first :: rest)) ++ [end_call].
Proof.
  intros Hc Hg Hx. pose proof Hg as [Hf Hr]%Forall_cons.
  unfold getColumnHeaders, new_client. cbn [map submitQuery].
  set (cl := responseHandler _ _ _).
  destruct (page_taken cols first initial_connector false [] [] Hf) as (c1 & E1 & _ & G1 & H1); [done..|].
  cbn [getTableDataCalled initial_connector] in H1.
  change (calls cl) with (response_calls first 0). rewrite E1.
  assert (Hs : serving (client_headers cd) [] first rest cl (with_client (Some cl) c1)).
  { split; [done|]. split; [by apply (client_after_step (fresh (client_headers cd)) [])|]. split; [done|by left]. }
  destruct (wait_headers_done cols (client_headers cd) (S (length rest)) [] first rest cl (with_client (Some cl) c1))
    as (seen' & r' & rest' & cl' & c2 & -> & Ep & Hs2 & Hg2 & Hh2); [lia|done..| |].
  { exact H1. }
  cbn [app] in Ep. pose proof Hh2 as (_ & _ & _ & -> & _). cbn [str_truthy].
  exists c2, (map Success rest').
  assert (Hrows : flat_map data_page (first :: rest) = flat_map data_page (seen' ++ [r']) ++ flat_map data_page rest')
    by (rewrite Ep, <- flat_map_app, <- app_assoc; done).
  assert (Hall : Forall (fun rows : list Row => rows <> []) (flat_map data_page (first :: rest)))
    by by apply (good_page_rows cols).
  rewrite Hrows in *. apply Forall_app in Hall as [Hb _]. rewrite length_app, <- Nat.add_succ_r.
  destruct (pull_buffer cols _ [] c2 (S (length (flat_map data_page rest'))) (map Success rest') Hh2 Hb)
    as (c3 & -> & Hh3 & S3).
  destruct (pull_pages cols (client_headers cd) (length rest') seen' r' rest' cl' c3 (flat_map data_page (seen' ++ [r'])))
    as (c' & E & Hsent); [lia| |done|done|].
  - destruct Hs2 as [Ec Hs2]. split; [congruence|done].
  - exists c'. split; [done|]. split; [exact E|exact Hsent].
Qed.

Definition demo_columns : list Column := [mkColumn "name" "varchar"; mkColumn "tags" "array(varchar)"].
Definition demo_rows (s : string) : list Row := [[JvString s; JvArray [JvString "x"; JvNull]]].
Definition demo_next (n : string) : option jsstring := Some (js "/v1/statement/q/" ++ js n).
Definition demo_result : list (Response Column Row) :=
  [mkResponse (demo_next "1") None None None;
   mkResponse (demo_next "2") (Some demo_columns) None None;
   mkResponse (demo_next "3") (Some demo_columns) (Some (demo_rows "a")) None;
   mkResponse (demo_next "4") (Some demo_columns) (Some (demo_rows "b")) None;
   mkResponse None (Some demo_columns) None None].
Definition demo_start : Response Column Row := mkResponse (demo_next "0") None None None.

Lemma connector_delivers_all_witness :
  exists c server c',
    getColumnHeaders 6 demo_connection initial_connector (map Success (demo_start :: demo_result)) =
      Finished (c, None, server) /\
    pull 3 c server = Some (c', None, []) /\
    sent c' = header_call demo_columns :: map (data_call demo_columns) [demo_rows "a"; demo_rows "b"] ++ [end_call].
Proof.
  apply (connector_delivers_all demo_connection demo_columns demo_start demo_result).
  - repeat split; do 2 eexists; reflexivity.
  - repeat (apply Forall_cons_2; [|]); try apply Forall_nil_2;
      (split; [reflexivity|]); (split; [by (left + right)|]); intros rows [= <-]; done.
  - reflexivity.
Defined.

(** ** Rows *)

Lemma fill_row_other columns dataArray row k :
  k ∉ map col_name columns -> mget k (fill_row columns dataArray row) = mget k row.
Proof.
  revert dataArray row. induction columns as [|col columns IH]; intros d row Hk; [done|].
  cbn [map] in Hk. apply not_elem_of_cons in Hk as [Hk1 Hk2]. cbn [fill_row]. rewrite IH by done.
  unfold set_property. case_match; [done|]. by apply mget_mset_ne.
Qed.

Lemma fill_row_get columns dataArray row j col :
  NoDup (map col_name columns) -> js "__proto__" ∉ map col_name columns -> columns !! j = Some col ->
  mget (col_name col) (fill_row columns dataArray row) = Some (cell col (dataArray !! j)).
Proof.
  revert dataArray row j. induction columns as [|col0 columns IH]; intros d row j Hn Hp Hj; [done|].
  cbn [map] in *. apply NoDup_cons in Hn as [Hn1 Hn2]. apply not_elem_of_cons in Hp as [Hp1 Hp2].
  cbn [fill_row]. destruct j as [|j].
  - injection Hj as ->. rewrite fill_row_other by done. unfold set_property.
    rewrite (proj2 (str_eqb_neq _ _)) by done. rewrite mget_mset_eq. by destruct d.
  - rewrite (IH _ _ j) by done. do 2 f_equal. by destruct d.
Qed.

(** A row reaches Tableau as an object with the value of every column under
    its name.  A value of a complex type is passed on as its JSON text, from
    which [JSON.parse] gives the value back. *)
Theorem row_object_correct columns dataArray j col v :
  NoDup (map col_name columns) -> js "__proto__" ∉ map col_name columns ->
  columns !! j = Some col -> dataArray !! j = Some v ->
  if isComplexType (col_type col)
  then exists text, mget (col_name col) (row_object columns dataArray) = Some (Some (JvString text)) /\
                    (textual v -> JSON_parse text = Some (normal v))
  else mget (col_name col) (row_object columns dataArray) = Some (Some v).
Proof.
  intros Hn Hp Hj Hv. unfold row_object. rewrite (fill_row_get _ _ _ j col), Hv by done. unfold cell.
  destruct (isComplexType (col_type col)); [|done]. exists (stringify v). split; [done|apply parse_stringify].
Qed.

Lemma row_object_correct_witness :
  exists text, mget (js "tags") (row_object demo_columns (concat (demo_rows "a"))) = Some (Some (JvString text)) /\
    JSON_parse text = Some (JvArray [JvString "x"; JvNull]).
Proof.
  assert (Hp : js "__proto__" ∉ map col_name demo_columns) by (apply (bool_decide_unpack _); vm_compute; exact I).
  assert (Hn : NoDup (map col_name demo_columns)) by (apply (bool_decide_unpack _); vm_compute; exact I).
  destruct (row_object_correct demo_columns (concat (demo_rows "a")) 1 (mkColumn "tags" "array(varchar)")
              (JvArray [JvString "x"; JvNull]) Hn Hp eq_refl eq_refl) as (text & E & H).
  exists text. split; [exact E|]. apply H. cbn [textual]. repeat split. apply Forall_singleton. cbn. lia.
Defined.

(** ** Errors *)

(** A page that makes [advance] ask for the next one. *)
Definition passing (r : Response Column Row) : Prop := quiet r /\ has_next r.

Lemma advance_until n cl pages r rest :
  is_Some (next_uri cl) -> Forall passing pages -> ~ quiet r ->
  exists cl', advance n cl (map Success (pages ++ r :: rest)) = Some (cl', map Success rest) /\
    calls cl' = calls cl ++ flat_map (fun p => response_calls p n) (pages ++ [r]) /\
    valid cl' = valid cl /\ currentResults cl' = Some r.
Proof.
  intros Hu Hp Hr. revert cl Hu. induction Hp as [|p pages [[Hd He] (x & u & Hx)] _ IH]; intros cl [uri Hu].
  - cbn [app map advance]. rewrite Hu. unfold quiet in Hr.
    destruct (data r) eqn:Ed, (error r) eqn:Ee; try (by destruct Hr);
      eexists; (split; [reflexivity|]); cbn; by rewrite app_nil_r.
  - cbn [app map advance]. rewrite Hu, Hd, He.
    set (cl1 := responseHandler p n _).
    destruct (IH cl1) as (cl' & E & Ec & Hv & Hcur).
    + unfold next_uri. cbn. rewrite Hx. eauto.
    + exists cl'. split; [exact E|]. split; [|done]. rewrite Ec. cbn [flat_map]. by rewrite app_assoc.
Qed.

(** The callbacks of pages without columns, rows and errors do nothing. *)
Lemma silent_calls n pages :
  Forall (fun p : Response Column Row => quiet p /\ columns p = None) pages ->
  flat_map (fun p => response_calls p n) pages = [].
Proof.
  induction 1 as [|p pages [[Hd He] Hc] _ IH]; [done|]. cbn [flat_map]. rewrite IH.
  unfold response_calls. by rewrite Hd, He, Hc.
Qed.

(** What an error without columns or rows does to the connector. *)
Lemma error_page_calls (r : Response Column Row) e n c :
  error r = Some e -> columns r = None -> data r = None ->
  run_calls (response_calls r n) c = (errorHandler (errorName e) (message e) c, None).
Proof. intros He Hc Hd. unfold response_calls. by rewrite He, Hc, Hd. Qed.

(** A query that fails before its columns are known is reported: whatever
    empty pages come first, [getColumnHeaders] aborts with the name and the
    message of the error, and passes on nothing. *)
Theorem headers_error_reported fuel cd pages r rest e :
  Forall (fun p => passing p /\ columns p = None) pages ->
  error r = Some e -> message e <> [] -> columns r = None -> data r = None ->
  exists c, getColumnHeaders (S fuel) cd initial_connector (map Success (pages ++ r :: rest)) =
      Finished (c, None, map Success rest) /\
    sent c = [AbortWithError (js "Error: [" ++ errorName e ++ js "]: " ++ message e)].
Proof.
  intros Hp He Hm Hc Hd. unfold getColumnHeaders, new_client.
  destruct (message e) as [|m0 m] eqn:Em; [done|].
  destruct pages as [|p pages].
  - cbn [app map submitQuery]. cbn [calls responseHandler call received request app].
    rewrite (error_page_calls r e) by done. eexists. cbn -[js app]. rewrite Em. split; [reflexivity|]. reflexivity.
  - apply Forall_cons in Hp as [[[Hq Hn] Hpc] Hp]. cbn [app map submitQuery].
    set (cl := responseHandler p 0 _). change (calls cl) with (response_calls p 0).
    rewrite <- (app_nil_r (response_calls p 0)). change (response_calls p 0 ++ []) with
      (flat_map (fun p => response_calls p 0) [p]).
    rewrite silent_calls by (by apply Forall_singleton). cbn [run_calls wait_headers]. cbn -[map app js advance_client].
    unfold advance_client. cbn [statementClient with_client].
    destruct (advance_until 0 cl pages r rest) as (cl' & E & Ec & _ & _).
    + destruct Hn as (x & u & Hx). unfold next_uri. cbn. rewrite Hx. eauto.
    + apply (Forall_impl _ _ _ Hp). by intros x [? _].
    + intros [_ Hr]. congruence.
    + rewrite E. cbn [mbind option_bind]. rewrite Ec, drop_app_length, flat_map_app, silent_calls; cycle 1.
      { apply (Forall_impl _ _ _ Hp). by intros x [[? _] ?]. }
      cbn [flat_map app]. rewrite app_nil_r, (error_page_calls r e) by done.
      destruct fuel; cbn -[js app]; rewrite Em; eexists; (split; [reflexivity|]); reflexivity.
Qed.

Definition demo_error : QueryError := mkQueryError "SYNTAX_ERROR" "line 1:1: mismatched input".
Definition demo_failed : Response Column Row := mkResponse None None None (Some demo_error).

Lemma headers_error_reported_witness :
  exists c, getColumnHeaders 1 demo_connection initial_connector (map Success [demo_start; demo_failed]) =
      Finished (c, None, []) /\
    sent c = [AbortWithError "Error: [SYNTAX_ERROR]: line 1:1: mismatched input"].
Proof.
  apply (headers_error_reported 0 demo_connection [demo_start] demo_failed [] demo_error); try done.
  apply Forall_singleton. split; [|done]. split; [done|]. do 2 eexists. reflexivity.
Defined.

(** C39: A query that fails after its columns were passed on is not reported.  The
    page with the error makes [getTableData] return without any callback, so
    nobody asks for more; and if Tableau does ask again, the connector announces
    the end of the data, as if the rows so far were the whole result. *)
Theorem late_error_swallowed c cl pages r rest e n :
  headersPushed c = true -> buffer c = [] -> statementClient c = Some cl -> valid cl = true ->
  is_Some (next_uri cl) -> Forall passing pages ->
  error r = Some e -> columns r = None -> data r = None -> nextUri r = None ->
  exists c' c'',
    getTableData n c (map Success (pages ++ r :: rest)) = Some (c', None, map Success rest) /\
    sent c' = sent c /\ con_errorMessage c' = Some (message e) /\
    getTableData n c' (map Success rest) = Some (c'', None, map Success rest) /\
    sent c'' = sent c ++ [DataCallback [] n false].
Proof.
  intros Hh Hb Hcl Hv Hu Hp He Hc Hd Hx.
  destruct (advance_until n cl pages r rest Hu Hp) as (cl' & E & Ec & Hv' & Hcur); [intros [_ ?]; congruence|].
  set (c1 := with_client (Some cl') (table_data_called c)).
  assert (Hrun : run_calls (flat_map (fun p => response_calls p n) (pages ++ [r])) c1 =
                 (errorHandler (errorName e) (message e) c1, None)).
  { rewrite flat_map_app, run_calls_app. cbn [flat_map]. rewrite app_nil_r.
    assert (run_calls (flat_map (fun p => response_calls p n) pages) c1 = (c1, None)) as ->.
    { clear E Ec. induction Hp as [|p pages [[Hpd Hpe] _] _ IH]; [done|]. cbn [flat_map].
      unfold response_calls at 1. rewrite Hpd, Hpe. cbn [app]. rewrite app_nil_r, run_calls_app.
      destruct (columns p); [|exact IH]. cbn [run_calls run_call]. unfold pushHeadersToTableau.
      cbn [headersPushed c1 with_client table_data_called]. rewrite Hh. exact IH. }
    by rewrite (error_page_calls r e). }
  set (c2 := errorHandler (errorName e) (message e) c1) in *.
  assert (E1 : getTableData n c (map Success (pages ++ r :: rest)) = Some (c2, None, map Success rest)).
  { unfold getTableData, advance_client. cbn [buffer statementClient table_data_called]. rewrite Hb, Hcl, E.
    cbn [mbind option_bind]. rewrite Ec, drop_app_length. fold c1. rewrite Hrun.
    cbn [statementClient c2 errorHandler c1 with_client]. by rewrite Hv', Hv. }
  exists c2. eexists. split; [exact E1|]. split; [done|]. split; [done|]. split.
  - unfold getTableData, advance_client. cbn [buffer statementClient table_data_called c2 errorHandler c1 with_client].
    rewrite Hb.
    assert (advance n cl' (map Success rest) = Some (invalidate cl', map Success rest)) as ->
      by (destruct rest; cbn [map advance]; unfold next_uri; rewrite Hcur, Hx; done).
    cbn [mbind option_bind invalidate calls]. rewrite drop_all. cbn [run_calls]. reflexivity.
  - done.
Qed.

(** The connector after the columns and a page of rows have been passed on. *)
Definition demo_pages_late : list (Response Column Row) :=
  [demo_start; mkResponse (demo_next "1") (Some demo_columns) (Some (demo_rows "a")) None; demo_failed].
Definition demo_halfway : Connector :=
  match getColumnHeaders 2 demo_connection initial_connector (map Success demo_pages_late) with
  | Finished (c, _, server) =>
      match getTableData 0 c server with Some (c', _, _) => c' | None => c end
  | _ => initial_connector
  end.

Lemma late_error_swallowed_witness :
  sent demo_halfway = [header_call demo_columns; data_call demo_columns (demo_rows "a")] /\
  exists c' c'',
    getTableData 0 demo_halfway (map Success [demo_failed]) = Some (c', None, []) /\
    sent c' = sent demo_halfway /\ con_errorMessage c' = Some (message demo_error) /\
    getTableData 0 c' [] = Some (c'', None, []) /\
    sent c'' = sent demo_halfway ++ [DataCallback [] 0 false].
Proof.
  split; [vm_compute; reflexivity|].
  apply (late_error_swallowed demo_halfway (default (fresh []) (statementClient demo_halfway)) [] demo_failed [] demo_error 0);
    try (vm_compute; reflexivity).
  - vm_compute. eexists. reflexivity.
  - apply Forall_nil_2.
Defined.

(** A client that has nothing left to ask for keeps the loop going. *)
Lemma wait_headers_stuck fuel c cl server :
  statementClient c = Some cl -> next_uri cl = None -> headersPushed c = false ->
  str_truthy (con_errorMessage c) = false -> wait_headers fuel c server = Unfinished.
Proof.
  revert c cl. induction fuel as [|fuel IH]; intros c cl Hc Hu Hh He; cbn [wait_headers]; rewrite Hh, He; [done|].
  cbn [orb]. unfold advance_client. rewrite Hc.
  assert (advance 0 cl server = Some (invalidate cl, server)) as -> by (by destruct server; cbn [advance]; rewrite Hu).
  cbn [mbind option_bind invalidate calls]. rewrite drop_all. cbn [run_calls].
  by apply (IH _ (invalidate cl)).
Qed.

Lemma silent_rounds fuel cd p pages c cl :
  client_after (fresh (client_headers cd)) ([] ++ [p]) cl -> complete (p :: pages) ->
  Forall (fun p => quiet p /\ columns p = None) pages ->
  statementClient c = Some cl -> headersPushed c = false -> str_truthy (con_errorMessage c) = false ->
  wait_headers fuel c (map Success pages) = Unfinished.
Proof.
  intros Ha Hc Hp Hcl Hh He. destruct fuel as [|fuel]; cbn [wait_headers]; rewrite Hh, He; [done|]. cbn [orb].
  unfold advance_client. rewrite Hcl.
  destruct (advance_pages _ [] p pages cl Ha Hc) as (more & rest & cl' & -> & -> & Ha' & Hs).
  cbn [mbind option_bind].
  assert (drop (length (calls cl)) (calls cl') = flat_map (fun r => response_calls r 0) more) as ->.
  { destruct Ha as [-> _], Ha' as [-> _]. rewrite (flat_map_app _ ([] ++ [p]) more), app_assoc.
    by rewrite drop_app_length. }
  apply Forall_app in Hp as [Hm Hr]. rewrite silent_calls by done. cbn [run_calls].
  destruct Hs as [[_ (pre & l & -> & _ & Hl)]|(_ & -> & _)].
  { apply Forall_app in Hm as [_ [[Hq _] _]%Forall_cons]. done. }
  apply (wait_headers_stuck fuel _ cl'); [done| |done|done].
  rewrite snoc_last in Ha'. rewrite (next_uri_after _ _ _ _ Ha').
  apply complete_suffix in Hc. cbn [complete] in Hc. by rewrite Hc.
Qed.

(** [getColumnHeaders] waits for columns or an error and for nothing else: on
    a statement whose pages have neither, and on a refused request whose status
    has no text, its loop never ends, although the client is no longer valid. *)
Theorem headers_wait_forever fuel cd pages :
  complete pages -> pages <> [] -> Forall (fun p => quiet p /\ columns p = None) pages ->
  getColumnHeaders fuel cd initial_connector (map Success pages) = Unfinished /\
  forall text, getColumnHeaders fuel cd initial_connector [Failure text []] = Unfinished.
Proof.
  intros Hc Hne Hp. split.
  - destruct pages as [|p pages]; [done|]. unfold getColumnHeaders, new_client. cbn [map submitQuery].
    set (cl := responseHandler _ _ _). apply Forall_cons in Hp as [Hp0 Hp].
    change (calls cl) with (response_calls p 0). rewrite <- (app_nil_r (response_calls p 0)).
    change (response_calls p 0 ++ []) with (flat_map (fun p => response_calls p 0) [p]).
    rewrite silent_calls by (by apply Forall_singleton). cbn [run_calls].
    rewrite (silent_rounds fuel cd p pages _ cl); try done.
    by apply (client_after_step (fresh (client_headers cd)) []).
  - intros text. unfold getColumnHeaders, new_client. cbn [submitQuery]. cbn [call calls app request run_calls run_call].
    by erewrite wait_headers_stuck.
Qed.

Lemma headers_wait_forever_witness :
  getColumnHeaders 1000 demo_connection initial_connector (map Success [demo_start; mkResponse None None None None]) =
    Unfinished /\
  forall text, getColumnHeaders 1000 demo_connection initial_connector [Failure text []] = Unfinished.
Proof.
  apply (headers_wait_forever 1000 demo_connection [demo_start; mkResponse None None None None]).
  - split; [do 2 eexists; reflexivity|done].
  - done.
  - repeat (apply Forall_cons_2; [done|]). apply Forall_nil_2.
Defined.
