(* ===== verification/TableauForm.v ===== *)
(** * The form of the Tableau connector page ([tableau/presto-connector.html])

    Catalogs and schemas are fetched with statement clients of their own; the
    session parameters are a list of rows that the user can add to and remove
    from; submitting the form stores its contents as [connectionData], from
    which the form is restored and with which the query is run.  The values of
    the input elements belong to the browser and are arguments. *)

From S2P Require Import Prelude JsString JsNumber JsObject Json Data StatementClient TableauConnector.

(** ** Catalogs and schemas *)

(** [String(v)], and the text of an array of such values. *)
Fixpoint json_to_string (v : Json) : jsstring :=
  match v with
  | JvNull => "null"
  | JvBool b => if b then "true" else "false"
  | JvNumber x => num_to_string x
  | JvString s => s
  | JvArray l => join comma (map (fun x => match x with JvNull => [] | _ => json_to_string x end) l)
  | JvObject _ => "[object Object]"
  end.

(** An [option] element; [selected] is its attribute. *)
Record Choice := mkChoice { textContent : jsstring; value : jsstring; selected : bool }.

Definition catalog_option (catalog : Row) : Choice :=
  mkChoice (json_to_string (JvArray catalog)) (json_to_string (JvArray catalog)) false.

(** [schema == 'default'] compares an array with a string: its text. *)
Definition schema_option (schema : Row) : Choice :=
  let text := json_to_string (JvArray schema) in mkChoice text text (text === "default").

(** The callbacks of a client whose rows become options. *)
Definition option_call (make : Row -> Choice) (s : list Choice * Connector) (k : @Call Column Row) :
    list Choice * Connector :=
  match k with
  | HeaderCall _ => s
  | DataCall data _ _ => (s.1 ++ map make data, s.2)
  | ErrorCall name text => (s.1, errorHandler name text s.2)
  end.

(** A client is created and drained; [None] when the server does not answer or
    [fuel] rounds are not enough. *)
Definition populate (make : Row -> Choice) (fuel : nat) (cd : ConnectionData) (options : list Choice) (c : Connector)
    (server : list (Outcome Column Row)) : option (list Choice * Connector * list (Outcome Column Row)) :=
  '(cl, server) ← new_client cd server;
  '(cl, server) ← drain fuel cl server;
  Some (fold_left (option_call make) (calls cl) (options, c), server).

Definition populateCatalogs (fuel : nat) : list Choice -> Connector -> list (Outcome Column Row) ->
    option (list Choice * Connector * list (Outcome Column Row)) :=
  populate catalog_option fuel (mkConnectionData "show catalogs" None None None None).

(** [for (i = n - 1; i >= 0; i--) select.remove(i)] *)
Fixpoint remove_options (n : nat) (options : list Choice) : list Choice :=
  match n with
  | O => options
  | S i => remove_options i (delete i options)
  end.

Definition populateSchemas (fuel : nat) (catalogName : option jsstring) (options : list Choice) (c : Connector)
    (server : list (Outcome Column Row)) : option (list Choice * Connector * list (Outcome Column Row)) :=
  populate schema_option fuel (mkConnectionData "show schemas" catalogName (Some (js "default")) None None)
    (remove_options (length options) options) c server.

(** ** Session parameters *)

(** A row of the form: the id its elements end in, the contents of its two
    inputs, and how many handlers its link has. *)
Record SessionRow := mkSessionRow {
  row_id : jsstring;
  row_name : jsstring;
  row_value : jsstring;
  row_handlers : nat
}.

Record SessionForm := mkSessionForm {
  session_rows : list SessionRow;
  sessionParameterCount : Z
}.

Definition q34 : jsstring := [34].

(** The markup [addSessionParameterToForm] builds. *)
Definition row_html (count name value : jsstring) : jsstring :=
  js "<p><label for=" ++ q34 ++ js "sessionParameters" ++ q34 ++
  js "><input type=" ++ q34 ++ js "text" ++ q34 ++ js " id=" ++ q34 ++ js "name_" ++ count ++ q34 ++
  js " size=" ++ q34 ++ js "30" ++ q34 ++ js " value=" ++ q34 ++ name ++ q34 ++
  js " placeholder=" ++ q34 ++ js "name" ++ q34 ++
  js "/><input type=" ++ q34 ++ js "text" ++ q34 ++ js " id=" ++ q34 ++ js "value_" ++ count ++ q34 ++
  js " size=" ++ q34 ++ js "20" ++ q34 ++ js " value=" ++ q34 ++ value ++ q34 ++
  js " placeholder=" ++ q34 ++ js "value" ++ q34 ++
  js " /></label> <a href=" ++ q34 ++ js "#" ++ q34 ++ js " id=" ++ q34 ++ js "removeSessionProp_" ++ count ++ q34 ++
  js ">X</a></p>".

(** Text that means itself inside a quoted attribute: no quotation mark, no
    ampersand, no carriage return and no null character. *)
Definition harmless (s : jsstring) : bool :=
  forallb (fun c => negb ((c =? 34) || (c =? 38) || (c =? 13) || (c =? 0))) s.

(** The browser's HTML parser: the rows (id, name, value) some markup makes. *)
Class Markup := {
  rows_of_html : jsstring -> list (jsstring * jsstring * jsstring);
  rows_of_html_plain count name value :
    forallb is_digit count = true -> harmless name = true -> harmless value = true ->
    rows_of_html (row_html count name value) = [(count, name, value)]
}.

Section form.
Context `{Markup}.

(** [$('#removeSessionProp_' + id).click(...)]: the first element with that id
    gets a handler. *)
Fixpoint bind_remove (id : jsstring) (l : list SessionRow) : list SessionRow :=
  match l with
  | [] => []
  | r :: l' =>
      if row_id r === id then mkSessionRow (row_id r) (row_name r) (row_value r) (S (row_handlers r)) :: l'
      else r :: bind_remove id l'
  end.

Definition addSessionParameterToForm (name value : jsstring) (f : SessionForm) : SessionForm :=
  let count := num_to_string (num (sessionParameterCount f)) in
  let added := map (fun '(id, n, v) => mkSessionRow id n v 0) (rows_of_html (row_html count name value)) in
  mkSessionForm (bind_remove count (session_rows f ++ added)) (sessionParameterCount f + 1).

(** A click on the link of row [i]: each of its handlers removes the row (again)
    and counts down. *)
Definition remove_clicked (i : nat) (f : SessionForm) : SessionForm :=
  match session_rows f !! i with
  | Some r =>
      if (row_handlers r =? 0)%nat then f
      else mkSessionForm (delete i (session_rows f)) (sessionParameterCount f - Z.of_nat (row_handlers r))
  | None => f
  end.

(** The user edits the inputs of row [i]. *)
Definition edit_row (i : nat) (name value : jsstring) (f : SessionForm) : SessionForm :=
  mkSessionForm (alter (fun r => mkSessionRow (row_id r) name value (row_handlers r)) i (session_rows f))
    (sessionParameterCount f).

(** ** Submitting and restoring *)

(** The inputs of the form, in the order of the document: every row has two, its
    name and its value. *)
Definition session_inputs (f : SessionForm) : list jsstring :=
  flat_map (fun r => [row_name r; row_value r]) (session_rows f).

(** The variables of the loop over the inputs: [i], [paramName] and
    [sessionParameters], in which [None] stands for [null].  (For the name
    [__proto__] the assignment of [null] takes the object its prototype, so that
    the next one makes an ordinary property.) *)
Record Collected := mkCollected {
  co_i : Z;
  co_paramName : jsstring;
  co_parameters : jsobj (option jsstring)
}.

Definition collect_input (s : Collected) (value : jsstring) : Collected :=
  if co_i s =? 0 then mkCollected (co_i s + 1) value (mset value None (co_parameters s))
  else if co_i s =? 1 then mkCollected 0 (co_paramName s) (mset (co_paramName s) (Some value) (co_parameters s))
  else s.

Definition session_parameters (f : SessionForm) : jsobj (option jsstring) :=
  co_parameters (fold_left collect_input (session_inputs f) (mkCollected 0 [] [])).

Record Fields := mkFields {
  fd_query : jsstring;
  fd_schema : option jsstring;
  fd_catalog : option jsstring;
  fd_userName : jsstring;
  fd_dataSourceName : jsstring
}.

Definition json_of (o : option jsstring) : Json := match o with Some s => JvString s | None => JvNull end.

Definition parameters_json (o : jsobj (option jsstring)) : Json := JvObject (map (fun '(k, v) => (k, json_of v)) o).

Definition connection_json (f : SessionForm) (d : Fields) : Json :=
  JvObject [(js "catalog", json_of (fd_catalog d)); (js "schema", json_of (fd_schema d));
            (js "query", JvString (fd_query d)); (js "userName", JvString (fd_userName d));
            (js "sessionParameters", JvString (stringify (parameters_json (session_parameters f))))].

(** What Tableau keeps between the phases, and what the page shows. *)
Record Page := mkPage {
  pg_connector : Connector;
  pg_form : SessionForm;
  pg_connectionData : option jsstring;
  pg_connectionName : option jsstring;
  pg_alerts : nat;
  pg_submitted : nat
}.

Definition filled (d : Fields) : bool :=
  str_truthy (Some (fd_query d)) && str_truthy (fd_schema d) && str_truthy (fd_catalog d) &&
  str_truthy (Some (fd_userName d)) && str_truthy (Some (fd_dataSourceName d)).

Definition submit (d : Fields) (p : Page) : Page :=
  let c := pg_connector p in
  let c := mkConnector false None (getTableDataCalled c) (buffer c) (schema c)
             (con_errorName c) (con_errorMessage c) (sent c) in
  mkPage c (pg_form p) (Some (stringify (connection_json (pg_form p) d))) (Some (fd_dataSourceName d))
    (if filled d then pg_alerts p else S (pg_alerts p)) (if filled d then S (pg_submitted p) else pg_submitted p).

(** ** Reading [connectionData] *)

Definition str_prop (k : string) (o : jsobj Json) : option jsstring :=
  match mget (js k) o with Some (JvString s) => Some s | _ => None end.

Fixpoint string_members (o : jsobj Json) : option (jsobj jsstring) :=
  match o with
  | [] => Some []
  | (k, JvString v) :: o' => option_map (cons (k, v)) (string_members o')
  | _ => None
  end.

Definition read_parameters (text : jsstring) : option (jsobj jsstring) :=
  match JSON_parse text with Some (JvObject o) => string_members o | _ => None end.

(** [new StatementClient(JSON.parse(tableau.connectionData), ...)]: the
    properties the client reads; [None] for a text that the form does not
    write. *)
Definition read_connection (text : jsstring) : option ConnectionData :=
  match JSON_parse text with
  | Some (JvObject o) =>
      query ← str_prop "query" o;
      parameters ← match str_prop "sessionParameters" o with
                   | Some t => option_map Some (read_parameters t)
                   | None => Some None
                   end;
      Some (mkConnectionData query (str_prop "catalog" o) (str_prop "schema" o) (str_prop "userName" o) parameters)
  | _ => None
  end.

(** The rows a page shows when it is opened with stored parameters. *)
Definition restore_parameters (text : jsstring) : option SessionForm :=
  parameterMap ← read_parameters text;
  Some (fold_left (fun f '(k, v) => addSessionParameterToForm k v f) (enumerate parameterMap) (mkSessionForm [] 0)).

(** ** Opening the page *)

(** What the page shows. *)
Record View := mkView {
  vw_catalogs : list Choice;
  vw_schemas : list Choice;
  vw_query : jsstring;
  vw_userName : jsstring;
  vw_dsname : jsstring;
  vw_form : SessionForm
}.

(** [$('#catalog option:selected').val()]: no catalog has the attribute, so the
    browser selects the first. *)
Definition selected_catalog (catalogs : list Choice) : option jsstring := option_map value (head catalogs).

(** The query, the user and the rows restored from the stored connection data;
    [None] for a text that the form does not write. *)
Definition restore_form (connectionData : option jsstring) : option (jsstring * jsstring * SessionForm) :=
  match connectionData with
  | Some (x :: text) =>
      match JSON_parse (x :: text) with
      | Some (JvObject o) =>
          form ← match str_prop "sessionParameters" o with
                 | Some (y :: t) => restore_parameters (y :: t)
                 | _ => Some (mkSessionForm [] 0)
                 end;
          Some (default [] (str_prop "query" o), default [] (str_prop "userName" o), form)
      | _ => None
      end
  | _ => Some ([], [], mkSessionForm [] 0)
  end.

(** The handler of [ready], on an empty form. *)
Definition ready (fuel : nat) (connectionData connectionName : option jsstring) (c : Connector)
    (server : list (Outcome Column Row)) : option (View * Connector * list (Outcome Column Row)) :=
  '(catalogs, c, server) ← populateCatalogs fuel [] c server;
  '(schemas, c, server) ← populateSchemas fuel (selected_catalog catalogs) [] c server;
  '(query, userName, form) ← restore_form connectionData;
  Some (mkView catalogs schemas query userName (default [] connectionName) form, c, server).

(** The listener of the catalog list. *)
Definition catalog_changed (fuel : nat) (catalog : jsstring) (v : View) (c : Connector)
    (server : list (Outcome Column Row)) : option (View * Connector * list (Outcome Column Row)) :=
  '(schemas, c, server) ← populateSchemas fuel (Some catalog) (vw_schemas v) c server;
  Some (mkView (vw_catalogs v) schemas (vw_query v) (vw_userName v) (vw_dsname v) (vw_form v), c, server).

Definition add_clicked (v : View) : View :=
  mkView (vw_catalogs v) (vw_schemas v) (vw_query v) (vw_userName v) (vw_dsname v)
    (addSessionParameterToForm [] [] (vw_form v)).
End form.
