(* ===== verification/TableauFormFacts.v ===== *)
(** * The form of the Tableau connector page: properties *)

From S2P Require Import Prelude JsString JsNumber JsNumberFacts JsObject DecimalFacts Json JsonFacts Data.
From S2P Require Import StatementClient TableauConnector TableauConnectorFacts TableauForm.

(** ** Catalogs and schemas *)

Lemma remove_options_all options : remove_options (length options) options = [].
Proof.
  induction options as [|x options IH] using rev_ind; [done|]. rewrite length_app, Nat.add_1_r. cbn [remove_options].
  rewrite delete_middle, app_nil_r by done. exact IH.
Qed.

Definition page_rows (r : Response Column Row) : list Row := default [] (data r).

Lemma option_calls make (pages : list (Response Column Row)) s :
  Forall (fun r => error r = None) pages ->
  fold_left (option_call make) (flat_map (fun r => response_calls r 0) pages) s =
    (s.1 ++ map make (flat_map page_rows pages), s.2).
Proof.
  intros Hp. revert s. induction Hp as [|r pages He _ IH]; intros [options c]; [cbn; by rewrite app_nil_r|].
  assert (Hr : fold_left (option_call make) (response_calls r 0) (options, c) = (options ++ map make (page_rows r), c)).
  { unfold response_calls, page_rows. rewrite He. destruct (columns r), (data r); cbn; by rewrite ?app_nil_r. }
  cbn [flat_map]. rewrite fold_left_app, Hr, IH, map_app, app_assoc. done.
Qed.

(** The pages a client is answered with become options; the answers to later
    requests are left. *)
Lemma populate_all make fuel cd options c first rest more :
  complete (first :: rest) -> Forall (fun r => error r = None) (first :: rest) -> (length rest < fuel)%nat ->
  populate make fuel cd options c (map Success (first :: rest) ++ more) =
    Some (options ++ map make (flat_map page_rows (first :: rest)), c, more).
Proof.
  intros Hc He Hf. unfold populate, new_client. cbn [map app submitQuery mbind option_bind].
  set (cl := responseHandler _ _ _).
  destruct (drain_pages fuel (fresh (client_headers cd)) [] first rest cl) as (cl' & E & _ & Hcalls).
  - done.
  - by apply (client_after_step (fresh (client_headers cd)) []).
  - done.
  - lia.
  - rewrite (drain_frame _ _ _ more _ _ E). cbn [mbind option_bind app]. rewrite Hcalls. cbn [calls fresh app].
    by rewrite option_calls.
Qed.

(** The lists of catalogs and schemas end up with one option per row of the
    answer, in order, whatever was listed before; [default] is preselected among
    the schemas.  Fetching them ends after at most one round per page. *)
Theorem schemas_listed cn old catalogName c first rest :
  complete (first :: rest) -> Forall (fun r => error r = None) (first :: rest) ->
  populateCatalogs (S (length rest)) cn c (map Success (first :: rest)) =
    Some (cn ++ map catalog_option (flat_map page_rows (first :: rest)), c, []) /\
  populateSchemas (S (length rest)) catalogName old c (map Success (first :: rest)) =
    Some (map schema_option (flat_map page_rows (first :: rest)), c, []) /\
  forall r, selected (schema_option r) = true <-> textContent (schema_option r) = js "default".
Proof.
  intros Hc He. rewrite <- (app_nil_r (map Success _)). split; [by apply populate_all; [..|lia]|]. split.
  - unfold populateSchemas. rewrite remove_options_all. by apply populate_all; [..|lia].
  - intros r. cbn [selected textContent schema_option]. apply str_eqb_eq.
Qed.

Definition demo_schemas : list (Response Column Row) :=
  [mkResponse None (Some [mkColumn "Schema" "varchar"]) (Some [[JvString "default"]; [JvString "tiny"]]) None].

Lemma schemas_listed_witness :
  populateCatalogs 2 [] initial_connector (map Success (demo_start :: demo_schemas)) =
    Some (map catalog_option [[JvString "default"]; [JvString "tiny"]], initial_connector, []) /\
  populateSchemas 2 (Some (js "hive")) [mkChoice "old" "old" false] initial_connector
    (map Success (demo_start :: demo_schemas)) =
    Some ([mkChoice "default" "default" true; mkChoice "tiny" "tiny" false], initial_connector, []).
Proof.
  destruct (schemas_listed [] [mkChoice "old" "old" false] (Some (js "hive")) initial_connector demo_start demo_schemas)
    as (H1 & H2 & _).
  - split; [do 2 eexists; reflexivity|done].
  - repeat (apply Forall_cons_2; [done|]). apply Forall_nil_2.
  - split; [exact H1|exact H2].
Defined.

(** ** Session parameters *)

(** What the loop over the inputs computes, row by row. *)
Definition row_parameters (f : SessionForm) : jsobj jsstring :=
  fold_left (fun o r => mset (row_name r) (row_value r) o) (session_rows f) [].

Definition strings_json (o : jsobj jsstring) : Json := JvObject (map (fun '(k, v) => (k, JvString v)) o).

(** A name is entered with [null] and at once with its value. *)
Lemma mset_twice {V} (k : jsstring) (v w : V) o : mset k w (mset k v o) = mset k w o.
Proof. induction o as [|[k' x] o IH]; cbn; [by rewrite decide_True|]. case_decide; cbn; case_decide; by rewrite ?IH. Qed.

Abbreviation some_values := (on_value (fun _ : jsstring => @Some jsstring)).

Lemma mset_on_value {A B} (h : A -> B) (k : jsstring) (v : A) o :
  mset k (h v) (map (on_value (fun _ => h)) o) = map (on_value (fun _ => h)) (mset k v o).
Proof. induction o as [|[k' x] o IH]; cbn; [done|]. case_decide; cbn; [done|]. by rewrite IH. Qed.

Lemma session_parameters_rows f : session_parameters f = map some_values (row_parameters f).
Proof.
  unfold session_parameters, session_inputs, row_parameters.
  assert (Hg : forall l name o, exists name',
    fold_left collect_input (flat_map (fun r => [row_name r; row_value r]) l) (mkCollected 0 name (map some_values o)) =
    mkCollected 0 name' (map some_values (fold_left (fun o r => mset (row_name r) (row_value r) o) l o))).
  { induction l as [|r l IH]; intros name o; [by exists name|]. cbn [flat_map app fold_left collect_input].
    unfold collect_input at 2 3. cbn [co_i co_paramName co_parameters Z.eqb Z.add Pos.add].
    rewrite mset_twice, (mset_on_value Some). apply IH. }
  destruct (Hg (session_rows f) [] []) as [name E]. change (map some_values []) with ([] : jsobj (option jsstring)) in E.
  by rewrite E.
Qed.

Lemma session_json f : parameters_json (session_parameters f) = strings_json (row_parameters f).
Proof.
  rewrite session_parameters_rows. unfold parameters_json, strings_json. rewrite map_map. f_equal.
  apply map_ext. by intros [k v].
Qed.

(** The value a name has in the form: that of its last row. *)
Definition last_value (name : jsstring) (rows : list SessionRow) : option jsstring :=
  option_map row_value (last (List.filter (fun r => row_name r === name) rows)).

Lemma row_parameters_last f name : mget name (row_parameters f) = last_value name (session_rows f).
Proof.
  unfold row_parameters, last_value. induction (session_rows f) as [|r l IH] using rev_ind; [done|].
  rewrite fold_left_app, List.filter_app. cbn [fold_left List.filter]. rewrite mget_mset.
  destruct (row_name r === name) eqn:E; [apply str_eqb_eq in E as ->|apply str_eqb_neq in E].
  - by rewrite decide_True, last_snoc.
  - by rewrite decide_False, app_nil_r.
Qed.

Lemma row_parameters_nodup f : NoDup (mkeys (row_parameters f)).
Proof.
  unfold row_parameters. assert (Hn : NoDup (mkeys ([] : jsobj jsstring))) by constructor. revert Hn.
  generalize ([] : jsobj jsstring). induction (session_rows f) as [|r l IH]; intros o Hn; [done|].
  cbn [fold_left]. by apply IH, mset_nodup.
Qed.

Definition string_pairs (o : jsobj jsstring) : Prop := Forall (fun e => units e.1 /\ units e.2) o.

Lemma row_parameters_units f :
  Forall (fun r => units (row_name r) /\ units (row_value r)) (session_rows f) -> string_pairs (row_parameters f).
Proof.
  unfold row_parameters, string_pairs. intros Hf.
  assert (Ho : Forall (fun e => units e.1 /\ units e.2) ([] : jsobj jsstring)) by constructor. revert Ho.
  generalize ([] : jsobj jsstring). induction Hf as [|r l Hr _ IH]; intros o Ho; [done|]. cbn [fold_left].
  apply IH. apply Forall_forall. intros e [->|[He _]]%mset_elem; [done|]. by apply (proj1 (Forall_forall _ _) Ho).
Qed.

Lemma strings_json_on o : strings_json o = JvObject (map (on_value (fun _ => JvString)) o).
Proof. unfold strings_json. f_equal. apply map_ext. by intros [k v]. Qed.

Lemma parameters_textual o : NoDup (mkeys o) -> string_pairs o -> textual (strings_json o).
Proof.
  intros Hn Ho. rewrite strings_json_on. apply textual_object. rewrite mkeys_on_value. split; [done|].
  apply Forall_map. exact Ho.
Qed.

Lemma string_members_on o : string_members (map (on_value (fun _ => JvString)) o) = Some o.
Proof. induction o as [|[k v] o IH]; [done|]. cbn. by rewrite IH. Qed.

(** The stored text of the parameters is read back, in the order of
    enumeration. *)
Lemma read_parameters_text o :
  NoDup (mkeys o) -> string_pairs o -> read_parameters (stringify (strings_json o)) = Some (enumerate o).
Proof.
  intros Hn Ho. unfold read_parameters. rewrite parse_stringify by by apply parameters_textual.
  rewrite strings_json_on, normal_object, enumerate_on_value, map_map.
  rewrite (map_ext _ (on_value (fun _ => JvString))) by done. apply string_members_on.
Qed.

Lemma enumerate_plain {A} (o : jsobj A) :
  NoDup (mkeys o) -> Forall (fun k => is_array_index k = false) (mkeys o) -> enumerate o = o.
Proof. intros Hn Hi. unfold enumerate. rewrite own_keys_plain by done. by apply omap_keys. Qed.

Lemma session_headers_enumerate o :
  NoDup (mkeys o) ->
  session_headers (Some (enumerate o)) = map (fun e => e.1 ++ js "=" ++ e.2) (enumerate o).
Proof.
  intros Hn. unfold session_headers. rewrite own_keys_enumerate, <- mkeys_enumerate.
  assert (Hn' : NoDup (mkeys (enumerate o))) by (rewrite mkeys_enumerate; by rewrite own_keys_perm).
  assert (Hsub : forall e, e ∈ enumerate o -> e ∈ enumerate o) by done. revert Hsub.
  generalize (enumerate o) at 1 4 5 as l. induction l as [|[k v] l IH]; intros Hsub; [done|]. cbn [mkeys map flat_map fst snd].
  rewrite (mget_Some_nodup k v) by (done || apply Hsub; left). cbn [app]. f_equal. apply IH.
  intros e He. apply Hsub. by right.
Qed.

Definition fields_ok (d : Fields) (catalog schema : jsstring) : Prop :=
  fd_catalog d = Some catalog /\ fd_schema d = Some schema /\
  units catalog /\ units schema /\ units (fd_query d) /\ units (fd_userName d).

Lemma connection_normal f d :
  normal (connection_json f d) = connection_json f d.
Proof.
  unfold connection_json. rewrite normal_object, enumerate_plain.
  - by destruct (fd_catalog d), (fd_schema d).
  - apply (bool_decide_unpack _). vm_compute. exact I.
  - repeat (apply Forall_cons_2; [vm_compute; reflexivity|]). apply Forall_nil_2.
Qed.

Lemma connection_props c s q u t :
  let o := [(js "catalog", JvString c); (js "schema", JvString s); (js "query", JvString q);
            (js "userName", JvString u); (js "sessionParameters", JvString t)] in
  str_prop "query" o = Some q /\ str_prop "sessionParameters" o = Some t /\ str_prop "catalog" o = Some c /\
  str_prop "schema" o = Some s /\ str_prop "userName" o = Some u.
Proof. vm_compute. done. Qed.

(** The stored text is read back as the object it was made from. *)
Lemma connection_parsed d f catalog schema :
  fields_ok d catalog schema ->
  Forall (fun r => units (row_name r) /\ units (row_value r)) (session_rows f) ->
  JSON_parse (stringify (connection_json f d)) =
    Some (JvObject [(js "catalog", JvString catalog); (js "schema", JvString schema);
            (js "query", JvString (fd_query d)); (js "userName", JvString (fd_userName d));
            (js "sessionParameters", JvString (stringify (strings_json (row_parameters f))))]).
Proof.
  intros (Hc & Hs & Uc & Us & Uq & Uu) Hr.
  pose proof (row_parameters_nodup f) as Hn. pose proof (row_parameters_units _ Hr) as Ho.
  rewrite parse_stringify, connection_normal.
  - unfold connection_json. by rewrite Hc, Hs, session_json.
  - unfold connection_json. rewrite Hc, Hs, session_json. apply textual_object. split.
    { apply (bool_decide_unpack _). vm_compute. exact I. }
    assert (units (stringify (strings_json (row_parameters f)))) by by apply stringify_units, parameters_textual.
    repeat (apply Forall_cons_2; [split; [apply units_js|done]|]). apply Forall_nil_2.
Qed.

(** C24: What the form stores is what the query is run with: reading the stored
    connection data gives back the query, the catalog, the schema and the user;
    its session parameters are the names in the rows of the form, each once and
    with the value of the last row of that name; and the session header lists
    exactly these. *)
Theorem connection_roundtrip d p catalog schema :
  fields_ok d catalog schema ->
  Forall (fun r => units (row_name r) /\ units (row_value r)) (session_rows (pg_form p)) ->
  exists text parameters,
    let cd := mkConnectionData (fd_query d) (Some catalog) (Some schema) (Some (fd_userName d)) (Some parameters) in
    pg_connectionData (submit d p) = Some text /\ read_connection text = Some cd /\
    NoDup (mkeys parameters) /\ (forall name, mget name parameters = last_value name (session_rows (pg_form p))) /\
    mget (js "X-Presto-Session") (client_headers cd) = Some (HList (map (fun e => e.1 ++ js "=" ++ e.2) parameters)).
Proof.
  intros Hd Hr. pose proof (row_parameters_nodup (pg_form p)) as Hn. pose proof (row_parameters_units _ Hr) as Ho.
  eexists _, (enumerate (row_parameters (pg_form p))). split; [reflexivity|]. split; [|split; [|split]].
  - unfold read_connection. rewrite (connection_parsed _ _ catalog schema) by done.
    destruct (connection_props catalog schema (fd_query d) (fd_userName d)
      (stringify (strings_json (row_parameters (pg_form p))))) as (-> & -> & -> & -> & ->).
    cbn [mbind option_bind]. by rewrite read_parameters_text.
  - rewrite mkeys_enumerate. by rewrite own_keys_perm.
  - intros name. rewrite <- row_parameters_last. apply mget_enumerate.
  - unfold client_headers. cbn -[session_headers js app]. by rewrite session_headers_enumerate.
Qed.

Definition demo_fields : Fields :=
  mkFields "SELECT 1" (Some (js "tiny")) (Some (js "tpch")) "bob" "numbers".
Definition demo_session : SessionForm :=
  mkSessionForm [mkSessionRow "0" "query_max_run_time" "1m" 1; mkSessionRow "1" "query_max_run_time" "5m" 1] 2.
Definition demo_page : Page := mkPage initial_connector demo_session None None 0 0.

Lemma connection_roundtrip_witness :
  exists text cd, pg_connectionData (submit demo_fields demo_page) = Some text /\ read_connection text = Some cd /\
    cd_query cd = js "SELECT 1" /\ exists l, cd_sessionParameters cd = Some l /\
    mget (js "query_max_run_time") l = Some (js "5m").
Proof.
  destruct (connection_roundtrip demo_fields demo_page "tpch" "tiny") as (text & l & H1 & H2 & _ & H4 & _).
  - repeat split; apply units_js.
  - repeat (apply Forall_cons_2; [split; apply units_js|]). apply Forall_nil_2.
  - eexists text, _. split; [exact H1|]. split; [exact H2|]. split; [reflexivity|].
    exists l. split; [reflexivity|]. rewrite H4. vm_compute. reflexivity.
Defined.

(** ** The rows of the form *)

Section rows.
Context `{Markup}.

Definition count_text (f : SessionForm) : jsstring := num_to_string (num (sessionParameterCount f)).

Lemma count_text_digits z : 0 <= z < 2 ^ 53 -> forallb is_digit (num_to_string (num z)) = true.
Proof.
  intros Hz. rewrite num_to_string_int by done. apply forallb_forall. intros c Hc.
  pose proof (dec_digits z ltac:(lia)) as Hd. unfold digits in Hd. rewrite Forall_forall in Hd.
  apply Hd. by apply list_elem_of_In.
Qed.

Lemma add_row name value f :
  0 <= sessionParameterCount f < 2 ^ 53 -> harmless name = true -> harmless value = true ->
  addSessionParameterToForm name value f =
    mkSessionForm (bind_remove (count_text f) (session_rows f ++ [mkSessionRow (count_text f) name value 0]))
      (sessionParameterCount f + 1).
Proof.
  intros Hc Hn Hv. unfold addSessionParameterToForm.
  by rewrite rows_of_html_plain by (done || by apply count_text_digits).
Qed.

(** How the form changes. *)
Inductive form_step : SessionForm -> SessionForm -> Prop :=
  | step_add name value f :
      sessionParameterCount f < 2 ^ 53 -> harmless name = true -> harmless value = true ->
      form_step f (addSessionParameterToForm name value f)
  | step_remove i f : form_step f (remove_clicked i f)
  | step_edit i name value f : form_step f (edit_row i name value f).

Fixpoint total_handlers (l : list SessionRow) : nat :=
  match l with [] => 0 | r :: l' => row_handlers r + total_handlers l' end.

Lemma total_snoc l r : (total_handlers (l ++ [r]) = total_handlers l + row_handlers r)%nat.
Proof. induction l as [|r' l IH]; cbn [app total_handlers]; [lia|]. rewrite IH. lia. Qed.

Lemma total_bind id l r :
  row_id r = id -> total_handlers (bind_remove id (l ++ [r])) = S (total_handlers (l ++ [r])).
Proof.
  intros Hr. induction l as [|r' l IH]; cbn [app bind_remove].
  - by rewrite Hr, str_eqb_refl.
  - destruct (row_id r' === id); [done|]. cbn [total_handlers]. rewrite IH. lia.
Qed.

Lemma total_delete l i r :
  l !! i = Some r -> (total_handlers l = row_handlers r + total_handlers (delete i l))%nat.
Proof.
  revert i. induction l as [|r' l IH]; intros [|i] Hi; [done|done|by injection Hi as ->|].
  change (delete (S i) (r' :: l)) with (r' :: delete i l). cbn [total_handlers]. rewrite (IH i Hi). lia.
Qed.

Lemma total_alter (g : SessionRow -> SessionRow) l i :
  (forall r, row_handlers (g r) = row_handlers r) -> total_handlers (alter g i l) = total_handlers l.
Proof.
  intros Hg. revert i. induction l as [|r l IH]; intros [|i]; [done|done| |].
  - cbn. by rewrite Hg.
  - change (alter g (S i) (r :: l)) with (r :: alter g i l). cbn [total_handlers]. by rewrite IH.
Qed.

(** The counter that numbers the rows is, in every state of the form, the
    number of handlers bound to the links of its rows; it is never negative. *)
Theorem session_counter_invariant f :
  rtc form_step (mkSessionForm [] 0) f ->
  sessionParameterCount f = Z.of_nat (total_handlers (session_rows f)).
Proof.
  apply (rtc_ind_r (fun f => sessionParameterCount f = Z.of_nat (total_handlers (session_rows f))) (mkSessionForm [] 0));
    [done|]. intros f1 f2 _ Hs IH. destruct Hs as [name value f1 Hc Hn Hv|i f1|i name value f1].
  - rewrite add_row by (done || lia). cbn [sessionParameterCount session_rows]. rewrite total_bind by done.
    rewrite total_snoc. cbn [row_handlers]. lia.
  - unfold remove_clicked. destruct (session_rows f1 !! i) as [r|] eqn:Er; [|done].
    case_match; [done|]. cbn [sessionParameterCount session_rows]. rewrite IH, (total_delete _ _ _ Er). lia.
  - unfold edit_row. cbn [sessionParameterCount session_rows]. by rewrite total_alter.
Qed.

(** Numbering rows by how many there are breaks their links: after adding
    three rows and removing the first, the next row gets the number of the last
    one.  Its handler is bound to that row instead: clicking the link of the new
    row does nothing, and clicking the link of the other counts down twice. *)
Theorem new_row_cannot_be_removed :
  let add := addSessionParameterToForm [] [] in
  let f := add (remove_clicked 0 (add (add (add (mkSessionForm [] 0))))) in
  map row_id (session_rows f) = [js "1"; js "2"; js "2"] /\ remove_clicked 2 f = f /\
  sessionParameterCount f = 3 /\ sessionParameterCount (remove_clicked 1 f) = 1 /\
  length (session_rows (remove_clicked 1 f)) = 2%nat.
Proof.
  cbn zeta.
  assert (E : forall l n, 0 <= n < 2 ^ 53 -> addSessionParameterToForm [] [] (mkSessionForm l n) =
    mkSessionForm (bind_remove (num_to_string (num n)) (l ++ [mkSessionRow (num_to_string (num n)) [] [] 0])) (n + 1))
    by (intros l n Hn; by apply add_row).
  rewrite (E [] 0), (E _ 1), (E _ 2) by lia.
  match goal with |- context [remove_clicked 0 ?f] =>
    assert (remove_clicked 0 f = mkSessionForm [mkSessionRow "1" [] [] 1; mkSessionRow "2" [] [] 1] 2) as ->
      by (vm_compute; reflexivity) end.
  rewrite (E _ 2) by lia. vm_compute. done.
Qed.
End rows.

(** ** A parser of the markup *)

(** The texts between quotation marks are the attributes. *)
Definition attribute (html : jsstring) (i : nat) : jsstring := nth i (split 34 html) [].

Lemma split_q a b : 34 ∉ a -> split 34 (a ++ q34 ++ b) = a :: split 34 b.
Proof. apply split_app. Qed.

Lemma split_q2 a a' b : 34 ∉ a -> 34 ∉ a' -> split 34 (a ++ a' ++ q34 ++ b) = (a ++ a') :: split 34 b.
Proof. intros Ha Ha'. rewrite app_assoc. apply split_q. rewrite elem_of_app. tauto. Qed.

Lemma harmless_no_quote s : harmless s = true -> 34 ∉ s.
Proof. intros Hs Hin. unfold harmless in Hs. rewrite forallb_forall in Hs. by specialize (Hs 34 (proj1 (list_elem_of_In _ _) Hin)). Qed.

Lemma digits_no_quote s : forallb is_digit s = true -> 34 ∉ s.
Proof. intros Hs Hin. rewrite forallb_forall in Hs. by specialize (Hs 34 (proj1 (list_elem_of_In _ _) Hin)). Qed.

#[local, refine] Instance quoted_markup : Markup := {|
  rows_of_html html := [(drop 5 (attribute html 5), attribute html 9, attribute html 19)]
|}.
Proof.
  intros count name value Hc%digits_no_quote Hn%harmless_no_quote Hv%harmless_no_quote.
  assert (Hlit : forall s, bool_decide (34 ∉ js s) = true -> 34 ∉ js s) by (intros; by eapply bool_decide_eq_true).
  unfold attribute, row_html.
  repeat first [rewrite split_q by (done || apply Hlit; vm_compute; reflexivity)
               |rewrite split_q2 by (done || apply Hlit; vm_compute; reflexivity)].
  cbn [nth]. done.
Defined.

(** ** Restoring *)

Section restore.
Context `{Markup}.

(** Rows as they are when none has been removed: numbered, one handler each. *)
Definition numbered (start : nat) (l : list (jsstring * jsstring)) : list SessionRow :=
  imap (fun i e => mkSessionRow (dec (Z.of_nat (start + i))) e.1 e.2 1) l.

Lemma numbered_cons k e l :
  numbered k (e :: l) = mkSessionRow (dec (Z.of_nat k)) e.1 e.2 1 :: numbered (S k) l.
Proof.
  unfold numbered. cbn [imap]. rewrite Nat.add_0_r. f_equal. apply imap_ext.
  intros i x _. unfold compose. by replace (k + S i)%nat with (S k + i)%nat by lia.
Qed.

Lemma numbered_snoc l e :
  numbered 0 (l ++ [e]) = numbered 0 l ++ [mkSessionRow (dec (Z.of_nat (length l))) e.1 e.2 1].
Proof. unfold numbered. rewrite imap_app. cbn. by rewrite Nat.add_0_r. Qed.

Lemma bind_new l k n v :
  bind_remove (dec (Z.of_nat (length l + k))) (numbered k l ++ [mkSessionRow (dec (Z.of_nat (length l + k))) n v 0]) =
    numbered k l ++ [mkSessionRow (dec (Z.of_nat (length l + k))) n v 1].
Proof.
  revert k. induction l as [|e l IH]; intros k.
  - cbn. by rewrite str_eqb_refl.
  - rewrite numbered_cons. cbn [length app bind_remove row_id]. rewrite (proj2 (str_eqb_neq _ _)).
    + f_equal. specialize (IH (S k)). by replace (length l + S k)%nat with (S (length l) + k)%nat in IH by lia.
    + intros E%(f_equal undec). rewrite !undec_dec in E by lia. lia.
Qed.

Lemma add_numbered l k v :
  Z.of_nat (length l) < 2 ^ 53 -> harmless k = true -> harmless v = true ->
  addSessionParameterToForm k v (mkSessionForm (numbered 0 l) (Z.of_nat (length l))) =
    mkSessionForm (numbered 0 (l ++ [(k, v)])) (Z.of_nat (length (l ++ [(k, v)]))).
Proof.
  intros Hl Hk Hv. rewrite add_row by (done || cbn [sessionParameterCount]; lia). unfold count_text.
  cbn [sessionParameterCount session_rows]. rewrite num_to_string_int by lia.
  rewrite numbered_snoc, length_app. cbn [length fst snd]. f_equal; [|lia].
  pose proof (bind_new l 0 k v) as E. by rewrite Nat.add_0_r in E.
Qed.

Lemma add_all_numbered l done :
  Z.of_nat (length (done ++ l)) < 2 ^ 53 -> Forall (fun e => harmless e.1 = true /\ harmless e.2 = true) l ->
  fold_left (fun f '(k, v) => addSessionParameterToForm k v f) l (mkSessionForm (numbered 0 done) (Z.of_nat (length done))) =
    mkSessionForm (numbered 0 (done ++ l)) (Z.of_nat (length (done ++ l))).
Proof.
  intros Hn Hl. revert done Hn. induction Hl as [|[k v] l [Hk Hv] _ IH]; intros done Hn; [by rewrite app_nil_r|].
  cbn [fold_left]. rewrite add_numbered; [|rewrite length_app in Hn; lia|done|done].
  rewrite IH; rewrite <- app_assoc; done.
Qed.

Lemma parameters_of_rows l start :
  NoDup (mkeys l) -> row_parameters (mkSessionForm (numbered start l) (Z.of_nat (length l))) = l.
Proof.
  intros Hn. unfold row_parameters. cbn [session_rows].
  assert (Hg : forall acc start, NoDup (mkeys acc ++ mkeys l) ->
    fold_left (fun o r => mset (row_name r) (row_value r) o) (numbered start l) acc = acc ++ l).
  { clear Hn start. induction l as [|[k v] l IH]; intros acc start Hn; [by rewrite app_nil_r|].
    rewrite numbered_cons. cbn [fold_left row_name row_value fst snd].
    rewrite mkeys_mset_new by (intros Hin; apply NoDup_app in Hn as (_ & Hd & _); apply (Hd k Hin); left).
    rewrite IH; [by rewrite <- app_assoc|]. unfold mkeys in *. rewrite map_app, <- app_assoc. exact Hn. }
  exact (Hg [] start Hn).
Qed.

(** Opening the page with stored connection data restores the session
    parameters of the form: one numbered row with one handler per parameter, and
    submitting the restored form stores the same parameters. *)
Theorem form_restored f :
  let parameters := enumerate (row_parameters f) in
  Forall (fun r => units (row_name r) /\ units (row_value r)) (session_rows f) ->
  Forall (fun e => harmless e.1 = true /\ harmless e.2 = true) parameters ->
  Z.of_nat (length parameters) < 2 ^ 53 ->
  exists f', restore_parameters (stringify (parameters_json (session_parameters f))) = Some f' /\
    session_rows f' = numbered 0 parameters /\ row_parameters f' = parameters /\
    stringify (parameters_json (session_parameters f')) = stringify (parameters_json (session_parameters f)).
Proof.
  intros parameters Hu Hh Hl. pose proof (row_parameters_nodup f) as Hn. rewrite session_json.
  unfold restore_parameters. rewrite read_parameters_text by (done || by apply row_parameters_units).
  cbn [mbind option_bind]. rewrite enumerate_idem by done. fold parameters.
  change (mkSessionForm [] 0) with (mkSessionForm (numbered 0 []) (Z.of_nat (@length (jsstring * jsstring) []))).
  rewrite add_all_numbered by done. cbn [app].
  assert (Hp : row_parameters (mkSessionForm (numbered 0 parameters) (Z.of_nat (length parameters))) = parameters).
  { apply parameters_of_rows. unfold parameters. rewrite mkeys_enumerate. by rewrite own_keys_perm. }
  eexists. split; [reflexivity|]. split; [done|]. split; [done|]. rewrite session_json, Hp, !strings_json_on, !stringify_object.
  do 3 f_equal. rewrite !enumerate_on_value. unfold parameters. by rewrite enumerate_idem.
Qed.

(** A result as the server sends it: pages that follow each other, without an error. *)
Definition result_pages (pages : list (Response Column Row)) : Prop :=
  complete pages /\ pages <> [] /\ Forall (fun r => error r = None) pages.

Lemma populate_result make fuel cd options c pages more :
  result_pages pages -> (length pages <= fuel)%nat ->
  populate make fuel cd options c (map Success pages ++ more) =
    Some (options ++ map make (flat_map page_rows pages), c, more).
Proof.
  intros (Hc & Hne & He) Hf. destruct pages as [|first rest]; [done|]. apply populate_all; [done|done|]. cbn in Hf. lia.
Qed.

Lemma str_prop_text (t : jsstring) : t <> [] -> exists x r, t = x :: r.
Proof. destruct t; [done|eauto]. Qed.

(** Opening the page again after a submission: the query, the user, the name of
    the data source and the session parameters come back as they were submitted,
    and both lists are filled.  The catalog and the schema do not come back: the
    selected catalog is the first of the list, whatever was submitted. *)
Theorem page_reopened fuel d p catalog schema c catalogs schemas :
  let parameters := enumerate (row_parameters (pg_form p)) in
  fields_ok d catalog schema ->
  Forall (fun r => units (row_name r) /\ units (row_value r)) (session_rows (pg_form p)) ->
  Forall (fun e => harmless e.1 = true /\ harmless e.2 = true) parameters ->
  Z.of_nat (length parameters) < 2 ^ 53 ->
  result_pages catalogs -> result_pages schemas ->
  (length catalogs <= fuel)%nat -> (length schemas <= fuel)%nat ->
  exists v, ready fuel (pg_connectionData (submit d p)) (pg_connectionName (submit d p)) c
      (map Success catalogs ++ map Success schemas) = Some (v, c, []) /\
    vw_query v = fd_query d /\ vw_userName v = fd_userName d /\ vw_dsname v = fd_dataSourceName d /\
    row_parameters (vw_form v) = parameters /\
    vw_catalogs v = map catalog_option (flat_map page_rows catalogs) /\
    vw_schemas v = map schema_option (flat_map page_rows schemas) /\
    selected_catalog (vw_catalogs v) = option_map (fun r => json_to_string (JvArray r)) (head (flat_map page_rows catalogs)).
Proof.
  intros parameters Hd Hu Hh Hl Hc Hs Fc Fs.
  destruct (form_restored (pg_form p) Hu Hh Hl) as (form & Hform & _ & Hp & _). rewrite session_json in Hform.
  unfold ready, populateCatalogs, populateSchemas. rewrite (populate_result _ _ _ _ _ _ _ Hc Fc). cbn [mbind option_bind].
  rewrite <- (app_nil_r (map Success schemas)), (populate_result _ _ _ _ _ _ _ Hs Fs). cbn [mbind option_bind].
  cbn [submit pg_connectionData pg_connectionName]. unfold restore_form.
  destruct (str_prop_text (stringify (connection_json (pg_form p) d))) as (x & r & E); [done|].
  rewrite E, <- E, (connection_parsed _ _ catalog schema) by done.
  destruct (connection_props catalog schema (fd_query d) (fd_userName d)
    (stringify (strings_json (row_parameters (pg_form p))))) as (-> & -> & _ & _ & ->).
  destruct (str_prop_text (stringify (strings_json (row_parameters (pg_form p))))) as (y & t & E'); [done|].
  rewrite E', <- E', Hform. cbn [mbind option_bind default]. eexists. split; [reflexivity|].
  cbn. repeat (split; [done|]). by destruct (flat_map page_rows catalogs).
Qed.
End restore.

Lemma session_counter_invariant_witness :
  exists f, sessionParameterCount f = Z.of_nat (total_handlers (session_rows f)) /\ length (session_rows f) = 2%nat.
Proof.
  pose (f := edit_row 1 "a" "b" (addSessionParameterToForm [] [] (addSessionParameterToForm [] [] (mkSessionForm [] 0)))).
  exists f. split; [|vm_compute; reflexivity]. apply (session_counter_invariant f).
  do 2 (eapply rtc_l; [by apply (step_add [] [])|]).
  apply rtc_once, step_edit.
Defined.

Lemma form_restored_witness :
  exists f', restore_parameters (stringify (parameters_json (session_parameters demo_session))) = Some f' /\
    session_rows f' = [mkSessionRow "0" "query_max_run_time" "5m" 1].
Proof.
  destruct (form_restored demo_session) as (f' & E & Hr & _).
  - repeat (apply Forall_cons_2; [split; apply units_js|]). apply Forall_nil_2.
  - apply Forall_singleton. vm_compute. done.
  - vm_compute. reflexivity.
  - exists f'. split; [exact E|]. rewrite Hr. vm_compute. reflexivity.
Defined.

Lemma page_reopened_witness :
  exists v, ready 2 (pg_connectionData (submit demo_fields demo_page)) (pg_connectionName (submit demo_fields demo_page))
      initial_connector (map Success (demo_start :: demo_schemas) ++ map Success demo_schemas) =
      Some (v, initial_connector, []) /\
    vw_query v = js "SELECT 1" /\ selected_catalog (vw_catalogs v) = Some (js "default").
Proof.
  destruct (page_reopened 2 demo_fields demo_page "tpch" "tiny" initial_connector (demo_start :: demo_schemas) demo_schemas)
    as (v & E & Hq & _ & _ & _ & _ & _ & Hs).
  - repeat split; apply units_js.
  - repeat (apply Forall_cons_2; [split; apply units_js|]). apply Forall_nil_2.
  - apply Forall_singleton. vm_compute. done.
  - vm_compute. reflexivity.
  - split; [split; [do 2 eexists; reflexivity|done]|]. split; [done|].
    repeat (apply Forall_cons_2; [done|]). apply Forall_nil_2.
  - split; [done|]. split; [done|]. apply Forall_singleton. done.
  - cbn. lia.
  - cbn. lia.
  - exists v. split; [exact E|]. split; [exact Hq|]. rewrite Hs. vm_compute. reflexivity.
Defined.

(** ** Submitting again *)

(** Submitting the form again does not forget an error, although it is said
    to clear the global state: after an error, [getColumnHeaders] of the next
    query stops waiting at once and aborts with the old error, whatever pages the
    server has for the new query. *)
Theorem stale_error_aborts fuel d p cd first rest m :
  con_errorMessage (pg_connector p) = Some m -> m <> [] -> error first = None -> data first = None ->
  exists c', getColumnHeaders fuel cd (pg_connector (submit d p)) (map Success (first :: rest)) =
      Finished (c', None, map Success rest) /\
    last (sent c') = Some (AbortWithError (error_text (pg_connector p))).
Proof.
  intros Hm Hne He Hd. destruct m as [|m0 m]; [done|]. unfold getColumnHeaders, new_client. cbn [map submitQuery].
  set (cl := responseHandler _ _ _). change (calls cl) with (response_calls first 0).
  unfold response_calls. rewrite He, Hd, app_nil_r. cbn [app].
  destruct (columns first); cbn [run_calls run_call submit pg_connector pushHeadersToTableau headersPushed];
    destruct fuel; cbn [wait_headers with_client headersPushed con_errorMessage orb]; rewrite Hm; cbn [str_truthy];
    eexists; (split; [reflexivity|]); cbn [con_errorMessage str_truthy with_client sent send_call];
    rewrite ?Hm; cbn [str_truthy sent send_call]; rewrite last_snoc; unfold error_text;
    cbn [con_errorName con_errorMessage with_client]; by rewrite Hm.
Qed.

Lemma stale_error_aborts_witness :
  exists c', getColumnHeaders 1 demo_connection
      (pg_connector (submit demo_fields (mkPage (errorHandler "E" "gone" initial_connector) demo_session None None 0 0)))
      (map Success (demo_start :: demo_result)) = Finished (c', None, map Success demo_result) /\
    last (sent c') = Some (AbortWithError "Error: [E]: gone").
Proof.
  apply (stale_error_aborts 1 demo_fields (mkPage (errorHandler "E" "gone" initial_connector) demo_session None None 0 0)
    demo_connection demo_start demo_result "gone"); done.
Defined.
