(* ===== verification/WorkerStatus.v ===== *)
(** * The status page of a worker ([WorkerStatus.jsx]) *)

From S2P Require Import Prelude JsString JsNumber JsNumberFacts JsObject Data Utils UtilsFacts.
From S2P Require Import EventLoop React VDom.

Record Pool := mkPool {
  maxBytes : number;
  reservedBytes : number;
  reservedRevocableBytes : number;
  queryMemoryReservations : jsobj number;
  queryMemoryRevocableReservations : jsobj number
}.

(** The answer of [/v1/worker/<id>/status]. *)
Record WorkerInfo := mkWorkerInfo {
  wi_nodeId : jsstring; wi_externalAddress : jsstring; wi_internalAddress : jsstring;
  wi_uptime : jsstring; wi_processors : number;
  wi_processCpuLoad : number; wi_systemCpuLoad : number;
  wi_heapUsed : number; wi_heapAvailable : number; wi_nonHeapUsed : number;
  wi_general : option Pool;      (** memoryInfo.pools.general *)
  wi_reserved : option Pool      (** memoryInfo.pools.reserved *)
}.

Record WSState := mkWSState {
  serverInfo : option WorkerInfo;
  initialized : bool;
  ended : bool;
  processCpuLoad : list number;
  systemCpuLoad : list number;
  heapPercentUsed : list number;
  nonHeapUsed : list number
}.

Definition ws_init : WSState := mkWSState None false false [] [] [] [].

Definition with_info (info : WorkerInfo) (s : WSState) : WSState :=
  mkWSState (Some info) true (ended s)
    (addToHistory (wi_processCpuLoad info *f num 100) (processCpuLoad s))
    (addToHistory (wi_systemCpuLoad info *f num 100) (systemCpuLoad s))
    (addToHistory (wi_heapUsed info *f num 100 /f wi_heapAvailable info) (heapPercentUsed s))
    (addToHistory (wi_nonHeapUsed info) (nonHeapUsed s)).

Definition with_failure (s : WSState) : WSState :=
  mkWSState (serverInfo s) true (ended s) (processCpuLoad s) (systemCpuLoad s) (heapPercentUsed s) (nonHeapUsed s).

(** [componentDidUpdate]: the sparklines with their number formatter (all start
    at 0). *)
Definition ws_sparklines (s : WSState) : list (jsstring * list number * (jsnum -> res jsstring)) :=
  [(js "#process-cpu-load-sparkline", processCpuLoad s, precisionRound);
   (js "#system-cpu-load-sparkline", systemCpuLoad s, precisionRound);
   (js "#heap-percent-used-sparkline", heapPercentUsed s, precisionRound);
   (js "#nonheap-used-sparkline", nonHeapUsed s, formatDataSize)].

(** ** Rendering *)

Abbreviation WNode := (node Empty_set Empty_set).

(** The three widths of a pool bar, in percent. *)
Definition pool_percentages (pool : Pool) : number * number * number :=
  let size := maxBytes pool in
  let reserved := reservedBytes pool in
  let revocable := reservedRevocableBytes pool in
  let percentageReservedNonRevocable :=
    if (reserved -f revocable) =f num 0 then num 0
    else Math_max (Math_round ((reserved -f revocable) *f num 100 /f size)) (num 15) in
  let percentageRevocable :=
    if revocable =f num 0 then num 0
    else Math_max (Math_round (revocable *f num 100 /f size)) (num 15) in
  let percentageFree := num 100 -f (percentageRevocable +f percentageReservedNonRevocable) in
  (percentageReservedNonRevocable, percentageRevocable, percentageFree).

Definition pool_segment (cls : string) (width : number) (text : jsstring) : WNode :=
  El "div" [class_ (js "progress-bar memory-progress-bar " ++ cls); sattr "role" "progressbar";
            style_ [("width"%string, num_to_string width ++ js "%")]] [Txt text].

Definition renderPoolBar (name : jsstring) (pool : option Pool) : res WNode :=
  match pool with
  | None => Ok Nothing
  | Some pool =>
      let size := maxBytes pool in
      let reserved := reservedBytes pool in
      let revocable := reservedRevocableBytes pool in
      let '(percentageReservedNonRevocable, percentageRevocable, percentageFree) := pool_percentages pool in
      total ← formatDataSize size;
      t1 ← formatDataSize (reserved -f revocable);
      t2 ← formatDataSize revocable;
      t3 ← formatDataSize (size -f reserved);
      Ok (El "div" [class_ "row"]
        [El "div" [class_ "col-xs-12"]
          [El "div" [class_ "row"]
            [El "div" [class_ "col-xs-8"] [El "h4" [] [Txt name; Txt " Pool"]];
             El "div" [class_ "col-xs-4"]
              [El "div" [class_ "progress"; style_ [("marginTop"%string, js "6px")]]
                [El "div" [class_ "progress-bar memory-progress-bar memory-progress-bar-info";
                           sattr "role" "progressbar"; style_ [("width"%string, js "100%")]]
                   [Txt total; Txt " total"]]]];
           El "div" [class_ "row"]
            [El "div" [class_ "col-xs-12"]
              [El "hr" [class_ "h4-hr"] [];
               El "div" [class_ "progress"]
                [pool_segment "progress-bar-warning progress-bar-striped active" percentageReservedNonRevocable t1;
                 pool_segment "progress-bar-danger progress-bar-striped active" percentageRevocable t2;
                 pool_segment "progress-bar-success" percentageFree t3]]]]])
  end.

Definition renderPoolQuery (query : jsstring) (reserved revocable total : number) : res WNode :=
  t1 ← formatDataSize reserved;
  t2 ← formatDataSize revocable;
  Ok (El "tr" []
    [El "td" []
      [El "div" [class_ "row query-memory-list-header"]
        [El "div" [class_ "col-xs-7"]
          [El "a" [sattr "href" (js "query.html?" ++ query); sattr "target" "_blank"] [Txt query]];
         El "div" [class_ "col-xs-5"]
          [El "div" [class_ "row text-right"]
            [El "div" [class_ "col-xs-6"]
              [El "span" [sattr "data-toggle" "tooltip"; sattr "data-placement" "top";
                          sattr "title" "% of pool memory reserved"]
                 [NumC (Math_round (reserved *f num 100 /f total)); Txt "%"]];
             El "div" [class_ "col-xs-6"]
              [El "span" [sattr "data-toggle" "tooltip"; sattr "data-placement" "top";
                          sattr "title" (js "Reserved: " ++ t1 ++ js ". Revocable: " ++ t2)]
                 [Txt t1]]]]]]]).

(** The two objects of reservations merged: per query what is reserved and what
    is revocable. *)
Definition first_entries (reservations : jsobj number) : jsobj (number * number) :=
  fold_left (fun queries query =>
    match mget query reservations with
    | Some r => mset query (r, num 0) queries
    | None => queries
    end) (own_keys reservations) [].

(** [queries.hasOwnProperty(query)]: an entry of that name hides the method. *)
Definition add_revocable (revocable : jsobj number) (query : jsstring) (queries : jsobj (number * number)) :
    res (jsobj (number * number)) :=
  if mhas (js "hasOwnProperty") queries then Throw (TypeError "queries.hasOwnProperty")
  else
    match mget query revocable with
    | Some v =>
        Ok (match mget query queries with
            | Some (r, _) => mset query (r, v) queries
            | None => mset query (num 0, v) queries
            end)
    | None => Ok queries
    end.

Definition pool_queries (pool : Pool) : res (jsobj (number * number)) :=
  fold_left (fun acc query => queries ← acc; add_revocable (queryMemoryRevocableReservations pool) query queries)
    (own_keys (queryMemoryRevocableReservations pool)) (Ok (first_entries (queryMemoryReservations pool))).

Definition renderPoolQueries (pool : option Pool) : res WNode :=
  match pool with
  | None => Ok Nothing
  | Some pool =>
      queries ← pool_queries pool;
      match own_keys queries with
      | [] =>
          Ok (El "div" [] [El "table" [class_ "table table-condensed"] [El "tbody" [] [El "tr" []
               [El "td" [] [Txt "No queries using pool"]]]]])
      | keys =>
          rows ← res_map (fun key =>
            let '(reserved, revocable) := default (NaN, NaN) (mget key queries) in
            renderPoolQuery key reserved revocable (maxBytes pool)) keys;
          Ok (El "div" [] [El "table" [class_ "table"] [El "tbody" [] [Arr rows]]])
      end
  end.

Definition copy_link (target : string) : WNode :=
  El "a" [sattr "href" "#"; class_ "copy-button"; sattr "data-clipboard-target" target;
          sattr "data-toggle" "tooltip"; sattr "data-placement" "right"; sattr "title" "Copy to clipboard"]
    [El "span" [class_ "glyphicon glyphicon-copy"; sattr "alt" "Copy to clipboard"] []].

Definition info_row (title : string) (content : list WNode) : WNode :=
  El "tr" [] [El "td" [class_ "info-title"] [Txt title]; El "td" [class_ "info-text wrap-text"] content].

Definition spark_rows (title id : string) (value : list WNode) : list WNode :=
  [El "tr" []
    [El "td" [class_ "info-title"] [Txt title];
     El "td" [sattr "rowSpan" "2"]
      [El "div" [class_ "query-stats-sparkline-container"]
        [El "span" [class_ "sparkline"; sattr "id" id] [El "div" [class_ "loader"] [Txt "Loading ..."]]]]];
   El "tr" [class_ "tr-noborder"] [El "td" [class_ "info-sparkline-text"] value]].

Definition table_of (rows : list WNode) : WNode :=
  El "div" [class_ "col-xs-6"] [El "table" [class_ "table"] [El "tbody" [] rows]].

Definition id_span (id : string) (child : WNode) : WNode := El "span" [sattr "id" id] [child].

(** The part about the node, with its memory as text. *)
Definition worker_overview (info : WorkerInfo) (heap : jsstring) : WNode :=
  El "div" [class_ "row"]
    [table_of
      [info_row "Node ID" [id_span "node-id" (Txt (wi_nodeId info)); Txt (nbsp ++ nbsp); copy_link "#node-id"];
       info_row "Heap Memory" [id_span "internal-address" (Txt heap)];
       info_row "Processors" [id_span "internal-address" (NumC (wi_processors info))]];
     table_of
      [info_row "Uptime" [Txt (wi_uptime info)];
       info_row "External Address" [id_span "external-address" (Txt (wi_externalAddress info));
                                    Txt (nbsp ++ nbsp); copy_link "#external-address"];
       info_row "Internal Address" [id_span "internal-address" (Txt (wi_internalAddress info));
                                    Txt (nbsp ++ nbsp); copy_link "#internal-address"]]].

(** The sparklines with their latest values. *)
Definition worker_resources (s : WSState) : res WNode :=
  cpu ← formatCount (latest (processCpuLoad s));
  sys ← formatCount (latest (systemCpuLoad s));
  heapPct ← formatCount (latest (heapPercentUsed s));
  nonHeap ← formatDataSize (latest (nonHeapUsed s));
  Ok (El "div" [class_ "row"]
    [El "div" [class_ "col-xs-12"]
      [El "h3" [] [Txt "Resource Utilization"];
       El "hr" [class_ "h3-hr"] [];
       El "div" [class_ "row"]
        [table_of
          (spark_rows "Process CPU Utilization" "process-cpu-load-sparkline" [Txt cpu; Txt "%"] ++
           spark_rows "System CPU Utilization" "system-cpu-load-sparkline" [Txt sys; Txt "%"]);
         table_of
          (spark_rows "Heap Utilization" "heap-percent-used-sparkline" [Txt heapPct; Txt "%"] ++
           spark_rows "Non-Heap Memory Used" "nonheap-used-sparkline" [Txt nonHeap])]]]).

Definition worker_pools (info : WorkerInfo) : res WNode :=
  bar1 ← renderPoolBar "General" (wi_general info);
  list1 ← renderPoolQueries (wi_general info);
  bar2 ← renderPoolBar "Reserved" (wi_reserved info);
  list2 ← renderPoolQueries (wi_reserved info);
  Ok (El "div" [class_ "row"]
    [El "div" [class_ "col-xs-12"]
      [El "h3" [] [Txt "Memory Pools"];
       El "hr" [class_ "h3-hr"] [];
       El "div" [class_ "row"]
        [El "div" [class_ "col-xs-6"] [bar1; list1];
         El "div" [class_ "col-xs-6"] [bar2; list2]]]]).

Definition render (s : WSState) : res WNode :=
  match serverInfo s with
  | None =>
      if initialized s then
        Ok (El "div" [class_ "row error-message"]
              [El "div" [class_ "col-xs-12"] [El "h4" [] [Txt "Node information could not be loaded"]]])
      else Ok (El "div" [class_ "loader"] [Txt "Loading..."])
  | Some info =>
      heap ← formatDataSize (wi_heapAvailable info);
      resources ← worker_resources s;
      pools ← worker_pools info;
      Ok (El "div" []
        [El "div" [class_ "row"]
          [El "div" [class_ "col-xs-12"]
            [El "h3" [] [Txt "Overview"];
             El "hr" [class_ "h3-hr"] [];
             worker_overview info heap; resources]];
         pools])
  end.

(** ** Polling *)

(** An update renders the page; what it draws is in [ws_sparklines]. *)
Definition commit (s : WSState) : res WSState := _ ← render s; Ok s.

Abbreviation WS := (Inst (Root WSState) unit jsstring).

(** [this.state.query] is [undefined], so the timer is armed unless the state
    says [ended]. *)
Definition ws_stopped (r : Root WSState) : bool := ended (r_state r).

Definition resetTimer (i : WS) : WS :=
  let i := clear tt i in
  if negb (ws_stopped (st i)) then arm tt i else i.

(** [search] is [window.location.search]. *)
Definition refreshLoop (search : jsstring) (i : WS) : WS :=
  let i := clear tt i in
  let nodeId := getFirstParameter search in
  send (js "/v1/worker/" ++ nodeId ++ js "/status") i.

Definition ws_answer (_ : jsstring) (a : option WorkerInfo) : WS -> WS :=
  match a with
  | Some info => set_then commit (with_info info) resetTimer
  | None => set_then commit with_failure resetTimer
  end.

Definition ws_timer (search : jsstring) (_ : unit) : WS -> WS := refreshLoop search.
Definition ws_event (e : Empty_set) (i : WS) : WS := i.
Definition componentDidMount (search : jsstring) (i : WS) : WS := refreshLoop search i.

(** ** Properties *)

#[export] Instance ws_poller search : Poller tt ws_stopped (ws_timer search) ws_answer ws_event.
Proof.
  assert (Hreset : forall i : WS, idle tt i -> polls tt ws_stopped (resetTimer i)).
  { intros i Hi. unfold resetTimer. rewrite clear_st. destruct (ws_stopped (st i)) eqn:E; cbn.
    - apply polls_stopped; [by apply idle_clear|by rewrite clear_st].
    - by apply polls_arm. }
  split.
  - intros i Hi Hs. apply polls_send; [by apply idle_clear|by rewrite clear_st].
  - by intros [] i Hne.
  - intros r [info|] i Hi Hs; by apply polls_set_then.
  - done.
Qed.

(** The four histories, and the four values an answer adds to them. *)
Definition ws_histories (s : WSState) : list (list number) :=
  [processCpuLoad s; systemCpuLoad s; heapPercentUsed s; nonHeapUsed s].
Definition ws_values (info : WorkerInfo) : list number :=
  [wi_processCpuLoad info *f num 100; wi_systemCpuLoad info *f num 100;
   wi_heapUsed info *f num 100 /f wi_heapAvailable info; wi_nonHeapUsed info].

(** Each of the four charts of a worker shows the last 301 values derived
    from the answers (load and heap use as percentages), whatever failures were
    in between. *)
Theorem worker_histories l :
  let s := fold_left (fun s a => match a with Some info => with_info info s | None => with_failure s end) l ws_init in
  forall k : nat, (k < 4)%nat ->
    nth k (ws_histories s) [] = lastn 301 (map (fun info => nth k (ws_values info) NaN) (omap id l)).
Proof.
  intros s k Hk. unfold s. clear s. induction l as [|a l IH] using rev_ind.
  { by do 4 (destruct k as [|k]; [done|]); lia. }
  rewrite fold_left_app, omap_app. cbn [fold_left].
  destruct a as [info|].
  - change (omap id [Some info]) with [info]. rewrite map_app. cbn [map]. rewrite <- append_bounded_lastn, <- IH.
    unfold ws_histories, with_info. cbn [processCpuLoad systemCpuLoad heapPercentUsed nonHeapUsed].
    by do 4 (destruct k as [|k]; [apply addToHistory_append|]); lia.
  - change (omap id [@None WorkerInfo]) with (@nil WorkerInfo). by rewrite app_nil_r, <- IH.
Qed.

Lemma worker_histories_witness :
  nth 3 (ws_histories (fold_left (fun s a => match a with Some info => with_info info s | None => with_failure s end)
    [Some (mkWorkerInfo "n" "e" "i" "1d" (num 8) (num 0) (num 0) (num 1) (num 2) (num 7) None None); None] ws_init)) [] =
  lastn 301 [num 7].
Proof.
  apply (worker_histories [Some (mkWorkerInfo "n" "e" "i" "1d" (num 8) (num 0) (num 0) (num 1) (num 2) (num 7) None None); None] 3).
  lia.
Defined.

(** *** Queries of a pool *)

Lemma first_entries_get reservations k :
  mget k (first_entries reservations) = (fun r => (r, num 0)) <$> mget k reservations.
Proof.
  unfold first_entries.
  assert (G : forall ks acc, mget k (fold_left (fun queries query =>
      match mget query reservations with Some r => mset query (r, num 0) queries | None => queries end) ks acc) =
    if bool_decide (k ∈ ks) then match mget k reservations with Some r => Some (r, num 0) | None => mget k acc end
    else mget k acc).
  { induction ks as [|q ks IH]; intros acc; [done|]. cbn [fold_left]. rewrite IH.
    destruct (decide (k = q)) as [->|Hne].
    - rewrite (bool_decide_eq_true_2 (q ∈ q :: ks)) by left.
      destruct (mget q reservations); [rewrite mget_mset_eq|]; by case_bool_decide.
    - rewrite (bool_decide_ext (k ∈ q :: ks) (k ∈ ks)) by (rewrite elem_of_cons; tauto).
      destruct (mget q reservations); [rewrite mget_mset_ne by done|]; done. }
  rewrite G. case_bool_decide as Hk; [by destruct (mget k reservations)|].
  rewrite own_keys_perm in Hk. apply mget_None in Hk. by rewrite Hk.
Qed.

(** The value a query has after its revocable memory was added. *)
Definition merged (a b : option number) : option (number * number) :=
  match a, b with
  | None, None => None
  | _, _ => Some (default (num 0) a, default (num 0) b)
  end.

Lemma add_all_revocable revocable ks acc :
  js "hasOwnProperty" ∉ ks -> mhas (js "hasOwnProperty") acc = false -> NoDup ks ->
  exists q, fold_left (fun acc query => queries ← acc; add_revocable revocable query queries) ks (Ok acc) = Ok q /\
    forall k, mget k q =
      if bool_decide (k ∈ ks) then
        match mget k revocable with
        | Some v => Some (default (num 0) (fst <$> mget k acc), v)
        | None => mget k acc
        end
      else mget k acc.
Proof.
  revert acc. induction ks as [|q ks IH]; intros acc Hn Hh Nd; [by exists acc|].
  apply not_elem_of_cons in Hn as [Hq Hn]. apply NoDup_cons in Nd as [Nq Nd].
  cbn [fold_left mbind res_bind]. unfold add_revocable at 2. rewrite Hh.
  set (acc' := match mget q revocable with
               | Some v => match mget q acc with Some (r, _) => mset q (r, v) acc | None => mset q (num 0, v) acc end
               | None => acc end).
  replace (match mget q revocable with Some v => _ | None => _ end) with (Ok acc')
    by (unfold acc'; by destruct (mget q revocable)).
  assert (Hget : forall k, mget k acc' = if decide (k = q) then
      match mget q revocable with Some v => Some (default (num 0) (fst <$> mget q acc), v) | None => mget q acc end
      else mget k acc).
  { intros k. unfold acc'. destruct (mget q revocable) as [v|]; [|by case_decide; subst].
    destruct (mget q acc) as [[r x]|]; rewrite mget_mset; by case_decide. }
  destruct (IH acc') as (q' & -> & Hq'); [done| |done|].
  { unfold mhas. rewrite Hget, decide_False by done. exact Hh. }
  exists q'. split; [done|]. intros k. rewrite Hq', Hget. destruct (decide (k = q)) as [->|Hne].
  - rewrite bool_decide_eq_false_2, bool_decide_eq_true_2 by done || left. done.
  - by rewrite (bool_decide_ext (k ∈ q :: ks) (k ∈ ks)) by (rewrite elem_of_cons; tauto).
Qed.

(** C32: The list of queries of a pool merges the two objects the server sends:
    a query appears when it reserves memory or holds revocable memory, with
    both amounts, 0 where one object does not mention it. *)
Theorem pool_queries_merge pool :
  NoDup (mkeys (queryMemoryRevocableReservations pool)) ->
  js "hasOwnProperty" ∉ mkeys (queryMemoryReservations pool) ->
  js "hasOwnProperty" ∉ mkeys (queryMemoryRevocableReservations pool) ->
  exists q, pool_queries pool = Ok q /\
    forall k, mget k q = merged (mget k (queryMemoryReservations pool))
                                (mget k (queryMemoryRevocableReservations pool)).
Proof.
  intros Nd Hr Hv. unfold pool_queries.
  destruct (add_all_revocable (queryMemoryRevocableReservations pool)
    (own_keys (queryMemoryRevocableReservations pool))
    (first_entries (queryMemoryReservations pool))) as (q & -> & Hq).
  - by rewrite own_keys_perm.
  - unfold mhas. rewrite first_entries_get. apply mget_None in Hr. by rewrite Hr.
  - by rewrite own_keys_perm.
  - exists q. split; [done|]. intros k. rewrite Hq, first_entries_get.
    case_bool_decide as Hk; rewrite own_keys_perm in Hk.
    + apply mhas_spec in Hk. unfold mhas in Hk.
      destruct (mget k (queryMemoryRevocableReservations pool)); [|done].
      by destruct (mget k (queryMemoryReservations pool)).
    + apply mget_None in Hk. rewrite Hk. by destruct (mget k (queryMemoryReservations pool)).
Qed.

Definition demo_pool : Pool :=
  mkPool (num 1000) (num 1000) (num 10) [(js "q1", num 990)] [(js "q1", num 4); (js "q2", num 6)].

Lemma pool_queries_merge_witness :
  exists q, pool_queries demo_pool = Ok q /\
    forall k, mget k q = merged (mget k (queryMemoryReservations demo_pool))
                                (mget k (queryMemoryRevocableReservations demo_pool)).
Proof.
  apply (pool_queries_merge demo_pool).
  - apply (bool_decide_unpack _). vm_compute. exact I.
  - intros H. apply (bool_decide_eq_true_2 _) in H. vm_compute in H. discriminate H.
  - intros H. apply (bool_decide_eq_true_2 _) in H. vm_compute in H. discriminate H.
Defined.

(** The segments of a pool bar can overflow it: with 99 percent of a full
    pool reserved and 1 percent revocable each segment gets at least 15
    percent, the free segment is given a negative width. *)
Theorem pool_bar_overflows :
  pool_percentages demo_pool = (num 99, num 15, num (-14)).
Proof. vm_compute. reflexivity. Qed.

(** *** The page *)

Lemma formatDataSize_num x : exists t, formatDataSize (JNum x) = Ok t.
Proof. apply formatDataSize_total. Qed.

Lemma renderPoolBar_total name pool : exists n, renderPoolBar name pool = Ok n.
Proof.
  destruct pool as [pool|]; [|by eexists]. unfold renderPoolBar.
  destruct (pool_percentages pool) as [[a b] c].
  destruct (formatDataSize_num (maxBytes pool)) as [? ->].
  destruct (formatDataSize_num (reservedBytes pool -f reservedRevocableBytes pool)) as [? ->].
  destruct (formatDataSize_num (reservedRevocableBytes pool)) as [? ->].
  destruct (formatDataSize_num (maxBytes pool -f reservedBytes pool)) as [? ->].
  cbn [mbind res_bind]. eauto.
Qed.

Lemma renderPoolQuery_total q a b t : exists n, renderPoolQuery q a b t = Ok n.
Proof.
  unfold renderPoolQuery. destruct (formatDataSize_num a) as [? ->], (formatDataSize_num b) as [? ->].
  cbn [mbind res_bind]. eauto.
Qed.

Lemma res_map_total {A B} (f : A -> res B) l : (forall x, exists y, f x = Ok y) -> exists ys, res_map f l = Ok ys.
Proof.
  intros Hf. induction l as [|x l [ys IH]]; cbn; [eauto|]. destruct (Hf x) as [y ->]. cbn. rewrite IH. cbn. eauto.
Qed.

Lemma renderPoolQueries_total pool :
  match pool with Some p => is_Ok (pool_queries p) = true | None => True end ->
  exists n, renderPoolQueries pool = Ok n.
Proof.
  destruct pool as [pool|]; [|by eexists]. intros Hp. unfold renderPoolQueries.
  destruct (pool_queries pool) as [q|]; [|done]. cbn [mbind res_bind].
  destruct (own_keys q) as [|k ks]; [eauto|].
  edestruct (res_map_total (fun key => let '(reserved, revocable) := default (NaN, NaN) (mget key q) in
    renderPoolQuery key reserved revocable (maxBytes pool)) (k :: ks)) as [ys ->]; [|cbn [mbind res_bind]; eauto].
  intros key. destruct (default (NaN, NaN) (mget key q)). apply renderPoolQuery_total.
Qed.

(** Pools whose queries can be listed. *)
Definition wf_pools (info : WorkerInfo) : Prop :=
  Forall (fun p => match p with Some p => is_Ok (pool_queries p) = true | None => True end)
    [wi_general info; wi_reserved info].

Lemma latest_known h : latest h <> JNull.
Proof. by destruct h. Qed.

Lemma worker_resources_total s : exists n, worker_resources s = Ok n.
Proof.
  unfold worker_resources, formatDataSize.
  destruct (formatCount_total _ (latest_known (processCpuLoad s))) as [? ->].
  destruct (formatCount_total _ (latest_known (systemCpuLoad s))) as [? ->].
  destruct (formatCount_total _ (latest_known (heapPercentUsed s))) as [? ->].
  destruct (formatSize_total _ (js "B") (latest_known (nonHeapUsed s))) as [? ->]. cbn. eauto.
Qed.

Lemma worker_pools_total info : wf_pools info -> exists n, worker_pools info = Ok n.
Proof.
  intros Hp. repeat apply Forall_cons in Hp as [? Hp]. unfold worker_pools.
  destruct (renderPoolBar_total "General" (wi_general info)) as [? ->], (renderPoolQueries_total (wi_general info)) as [? ->];
    [done|].
  destruct (renderPoolBar_total "Reserved" (wi_reserved info)) as [? ->], (renderPoolQueries_total (wi_reserved info)) as [? ->];
    [done|]. cbn. eauto.
Qed.

Lemma render_worker s info :
  serverInfo s = Some info -> wf_pools info ->
  exists n heap, render s = Ok n /\ formatDataSize (wi_heapAvailable info) = Ok heap /\
    by_id (js "internal-address") n = Some (id_span "internal-address" (Txt heap)).
Proof.
  intros Hi Hp. unfold render. rewrite Hi.
  destruct (formatDataSize_num (wi_heapAvailable info)) as [heap Hheap]. rewrite Hheap.
  destruct (worker_resources_total s) as [r ->], (worker_pools_total info Hp) as [p ->].
  cbn [mbind res_bind]. eexists _, heap. split; [reflexivity|]. split; [done|]. reflexivity.
Qed.

(** The documents of the server. *)
Definition good_info (a : option WorkerInfo) : Prop := match a with Some info => wf_pools info | None => True end.

Definition info_ok (s : WSState) : Prop := match serverInfo s with Some info => wf_pools info | None => True end.

Lemma render_info_ok s : info_ok s -> exists n, render s = Ok n.
Proof.
  unfold info_ok. intros Hi. destruct (serverInfo s) as [info|] eqn:E.
  - destruct (render_worker _ info E Hi) as (n & heap & Hn & _). eauto.
  - unfold render. rewrite E. destruct (initialized s); eauto.
Qed.

(** The page is there and nothing was thrown. *)
Definition ws_healthy (i : WS) : Prop := r_mounted (st i) = true /\ console i = [] /\ info_ok (r_state (st i)).

Lemma set_ws_healthy f (i : WS) :
  (forall s, info_ok s -> info_ok (f s)) -> ws_healthy i -> ws_healthy (set_then commit f resetTimer i).
Proof.
  intros Hf (Hm & Hc & Hi). unfold set_then, update_root, commit. rewrite Hm.
  destruct (render_info_ok _ (Hf _ Hi)) as [n ->]. cbn [mbind res_bind]. unfold ws_healthy, resetTimer.
  rewrite clear_st. destruct (negb _); cbn [arm st console]; rewrite clear_st, clear_console; by split; [|split; [|apply Hf]].
Qed.

(** The page of a worker never breaks: whatever answers arrive, it stays mounted,
    renders in every state it can reach and throws nothing; and once the server
    has answered, the selector [#internal-address], which the copy button next to
    the internal address uses, finds the cell that shows the heap memory, which
    carries the same id. *)
Theorem worker_copy_target search i :
  reachable (ws_timer search) ws_answer ws_event good_info (componentDidMount search (mount (new_root ws_init))) i ->
  r_mounted (st i) = true /\ console i = [] /\
  exists n, render (r_state (st i)) = Ok n /\
  forall info, serverInfo (r_state (st i)) = Some info ->
    exists heap, formatDataSize (wi_heapAvailable info) = Ok heap /\
      by_id (js "internal-address") n = Some (id_span "internal-address" (Txt heap)).
Proof.
  intros Hr. assert (Hi : ws_healthy i).
  { revert Hr. apply reachable_ind_inv; [done|].
    intros j j' _ IH Hs. inversion Hs as [? n [] l1 l2 Ht|? u a l1 l2 Ht Ha|? []]; subst.
    - unfold ws_healthy, ws_timer, refreshLoop. cbn [send st console]. by rewrite clear_st, clear_console.
    - destruct a as [info|]; by apply set_ws_healthy. }
  destruct Hi as (Hm & Hc & Hi). split; [done|]. split; [done|].
  destruct (render_info_ok _ Hi) as [n Hn]. exists n. split; [done|]. intros info E. unfold info_ok in Hi. rewrite E in Hi.
  destruct (render_worker _ info E Hi) as (n' & heap & Hn' & Hh & Hb). exists heap. split; [done|]. congruence.
Qed.

Definition demo_worker : WorkerInfo :=
  mkWorkerInfo "n" "e" "i" "1d" (num 8) (num 0) (num 0) (num 1) (num 2048) (num 7) (Some demo_pool) None.

Lemma worker_copy_target_witness :
  exists n heap, render (with_info demo_worker ws_init) = Ok n /\ formatDataSize (wi_heapAvailable demo_worker) = Ok heap /\
    by_id (js "internal-address") n = Some (id_span "internal-address" (Txt heap)).
Proof.
  destruct (worker_copy_target "?n" (ws_answer "/v1/worker/n/status" (Some demo_worker) (mount (new_root ws_init))))
    as (_ & _ & n & E & H).
  - apply rtc_once. apply (step_answer _ _ _ _ (componentDidMount "?n" (mount (new_root ws_init))) _ _ [] []);
      [reflexivity|repeat constructor].
  - destruct (H demo_worker eq_refl) as (heap & Hh & Hb). exists n, heap. split; [exact E|]. split; [exact Hh|exact Hb].
Defined.
