(* ===== verification/TaskList.v ===== *)
(** * The task table ([TaskList] of [QueryDetail.jsx])

    Task ids, host names and the sortable table of the tasks of a stage.  The
    table component itself ([Reactable]) is a library: its props are recorded
    as a [TaskTable]. *)

From S2P Require Import Prelude JsString JsNumber JsNumberFacts JsSort JsObject DecimalFacts Data.
From S2P Require Import Utils UtilsFacts JsDate VDom.

Definition removeQueryId (id : jsstring) : jsstring :=
  let pos := indexOf id "." in
  if negb (pos =? -1) then substring_from id (pos + 1) else id.

(** The loop of [compareTaskId]; an index past the end of the second array
    reads [undefined], which [parseInt] turns into [NaN]. *)
Fixpoint compare_components (a b : list jsstring) : Z :=
  match a with
  | [] => 0
  | x :: a' =>
      let anum := parseInt x in
      let bnum := match b with y :: _ => parseInt y | [] => NaN end in
      if negb (anum =f bnum) then if anum >f bnum then 1 else -1
      else compare_components a' (drop 1 b)
  end.

Definition compareTaskId (taskA taskB : jsstring) : Z :=
  let taskIdArrA := split 46 (removeQueryId taskA) in
  let taskIdArrB := split 46 (removeQueryId taskB) in
  if (length taskIdArrB <? length taskIdArrA)%nat then 1
  else compare_components taskIdArrA taskIdArrB.

Section urls.
Context `{URLApi}.

Fixpoint show_ports (hostToPortNumber : jsobj jsstring) (tasks : list Task) : res bool :=
  match tasks with
  | [] => Ok false
  | task :: tasks' =>
      let taskUri := t_self task in
      hostname ← getHostname taskUri;
      port ← getPort taskUri;
      if js_in hostname hostToPortNumber &&
         match mget hostname hostToPortNumber with
         | Some known => negb (str_eqb known port)
         | None => true (* an inherited property is no string *)
         end
      then Ok true
      else show_ports (mset hostname port hostToPortNumber) tasks'
  end.

Definition showPortNumbers (tasks : list Task) : res bool := show_ports [] tasks.
End urls.

Definition formatState (state : jsstring) (fullyBlocked : bool) : jsstring :=
  if fullyBlocked && (state === "RUNNING") then js "BLOCKED" else state.

(** ** The table *)

Abbreviation TNode := (node Empty_set Empty_set).

Inductive CellValue := VStr (s : jsstring) | VNum (x : jsnum).

(** [<Td column=... value=...>content</Td>]. *)
Record Cell := mkCell { c_column : jsstring; c_value : CellValue; c_content : TNode }.

(** [<Table id="tasks" ...>]: the sortable columns with their own comparison, the
    column it is sorted by at first, the head and the rows with their keys. *)
Record TaskTable := mkTaskTable {
  tb_sortable : list (jsstring * option (jsstring -> jsstring -> Z));
  tb_defaultSort : jsstring * jsstring;
  tb_head : list (jsstring * TNode);
  tb_rows : list (jsstring * list Cell)
}.

(** [parseDuration(nanos + "ns")]. *)
Definition nanos (x : number) : jsnum := parseDuration (num_to_string x ++ js "ns").

Definition link (href : jsstring) (attrs : list (string * attr Empty_set)) (text : jsstring) : TNode :=
  El "a" (sattr "href" href :: attrs) [Txt text].

(** A cell that shows the number it is sorted by. *)
Definition plain_cell (column : string) (x : number) : Cell :=
  mkCell column (VNum x) (NumC x).

(** A cell with formatted content. *)
Definition formatted_cell (column : string) (value : jsnum) (content : res jsstring) : res Cell :=
  text ← content; Ok (mkCell column (VNum value) (Txt text)).

Section table.
Context `{URLApi} `{DateEnv}.

(** The row of a task; [now] is the clock. *)
Definition renderTask (showPorts : bool) (now : Z) (task : Task) : res (jsstring * list Cell) :=
  let stats := t_stats task in
  let elapsedTime :=
    if strict_eq_num (nanos (ts_elapsedTimeInNanos stats)) (num 0)
    then JNum (num now -f Date_parse (ts_createTime stats))
    else nanos (ts_elapsedTimeInNanos stats) in
  hostname ← getHostname (t_self task);
  shown ← (if showPorts then getHostAndPort (t_self task) else getHostname (t_self task));
  let state := formatState (t_state task) (ts_fullyBlocked stats) in
  let rowsSec := computeRate (ts_rawInputPositions stats) elapsedTime in
  let bytesSec := computeRate (ts_rawInputDataSizeInBytes stats) elapsedTime in
  rows ← formatted_cell "rows" (ts_rawInputPositions stats) (formatCount (ts_rawInputPositions stats));
  rowsSec ← formatted_cell "rowsSec" rowsSec (formatCount rowsSec);
  bytes ← formatted_cell "bytes" (ts_rawInputDataSizeInBytes stats)
            (formatDataSizeBytes (ts_rawInputDataSizeInBytes stats));
  bytesSec ← formatted_cell "bytesSec" bytesSec (formatDataSizeBytes bytesSec);
  elapsed ← formatted_cell "elapsedTime" (nanos (ts_elapsedTimeInNanos stats))
              (formatDuration (nanos (ts_elapsedTimeInNanos stats)));
  cpu ← formatted_cell "cpuTime" (nanos (ts_totalCpuTimeInNanos stats))
          (formatDuration (nanos (ts_totalCpuTimeInNanos stats)));
  buffered ← formatted_cell "bufferedBytes" (t_totalBufferedBytes task)
               (formatDataSizeBytes (t_totalBufferedBytes task));
  Ok (t_taskId task,
    [mkCell "id" (VStr (t_taskId task))
       (link (js "/v1/taskInfo/" ++ t_taskId task ++ js "?pretty") [] (getTaskIdSuffix (t_taskId task)));
     mkCell "host" (VStr hostname)
       (link (js "worker.html?" ++ t_nodeId task) [class_ "font-light"; sattr "target" "_blank"] shown);
     mkCell "state" (VStr state) (Txt state);
     rows; rowsSec; bytes; bytesSec;
     plain_cell "splitsPending" (ts_queuedDrivers stats);
     plain_cell "splitsRunning" (ts_runningDrivers stats);
     plain_cell "splitsBlocked" (ts_blockedDrivers stats);
     plain_cell "splitsDone" (ts_completedDrivers stats);
     elapsed; cpu; buffered]).

Definition icon (cls title : string) : TNode :=
  El "span" [class_ cls; style_ GLYPHICON_HIGHLIGHT; sattr "data-toggle" "tooltip";
             sattr "data-placement" "top"; sattr "title" title] [].

Definition task_table_head : list (jsstring * TNode) :=
  [(js "id", Txt "ID"); (js "host", Txt "Host"); (js "state", Txt "State");
   (js "splitsPending", icon "glyphicon glyphicon-pause" "Pending splits");
   (js "splitsRunning", icon "glyphicon glyphicon-play" "Running splits");
   (js "splitsBlocked", icon "glyphicon glyphicon-bookmark" "Blocked splits");
   (js "splitsDone", icon "glyphicon glyphicon-ok" "Completed splits");
   (js "rows", Txt "Rows"); (js "rowsSec", Txt "Rows/s"); (js "bytes", Txt "Bytes");
   (js "bytesSec", Txt "Bytes/s"); (js "elapsedTime", Txt "Elapsed"); (js "cpuTime", Txt "CPU Time");
   (js "bufferedBytes", Txt "Buffered")].

Definition task_table_sortable : list (jsstring * option (jsstring -> jsstring -> Z)) :=
  (js "id", Some compareTaskId) ::
  map (fun c => (js c, None))
    ["host"; "state"; "splitsPending"; "splitsRunning"; "splitsBlocked"; "splitsDone"; "rows";
     "rowsSec"; "bytes"; "bytesSec"; "elapsedTime"; "cpuTime"; "bufferedBytes"]%string.

Definition renderTasks (tasks : option (list Task)) (now : Z) : res (node Empty_set TaskTable) :=
  match tasks with
  | None | Some [] =>
      Ok (El "div" [class_ "row error-message"]
            [El "div" [class_ "col-xs-12"] [El "h4" [] [Txt "No threads in the selected group"]]])
  | Some tasks =>
      showPorts ← showPortNumbers tasks;
      rows ← res_map (renderTask showPorts now) tasks;
      Ok (Mount {| tb_sortable := task_table_sortable; tb_defaultSort := (js "id", js "asc");
                   tb_head := task_table_head; tb_rows := rows |})
  end.
End table.

(** ** Properties: task ids *)

(** A task of a query: the numbers of its stage, of the stage's execution and of
    the task. *)
Definition place : Type := Z * Z * Z.
Definition id_of (query : jsstring) (p : place) : jsstring := task_id query p.1.1 p.1.2 p.2.
Definition small (n : Z) : Prop := 0 <= n < 2 ^ 53.
Definition good_place (p : place) : Prop := small p.1.1 /\ small p.1.2 /\ small p.2.

(** Lexicographic comparison. *)
Fixpoint lex (a b : list Z) : Z :=
  match a, b with
  | x :: a', y :: b' => if x =? y then lex a' b' else if x >? y then 1 else -1
  | _, _ => 0
  end.
Definition parts (p : place) : list Z := [p.1.1; p.1.2; p.2].
Definition place_le (p p' : place) : bool := lex (parts p) (parts p') <=? 0.

Lemma removeQueryId_spec query r : 46 ∉ query -> removeQueryId (query ++ js "." ++ r) = r.
Proof.
  intros Hq. unfold removeQueryId. change (js ".") with [46]. cbn [app].
  rewrite indexOf_unit by done.
  assert ((str_length query =? -1) = false) as -> by (apply Z.eqb_neq; unfold str_length; lia).
  cbn [negb]. rewrite substring_from_drop by apply (length_past query 46 r). apply drop_past.
Qed.

Lemma split_id query p :
  46 ∉ query -> good_place p ->
  split 46 (removeQueryId (id_of query p)) = map dec (parts p).
Proof.
  intros Hq (H1 & H2 & H3). unfold id_of, task_id, small in *. rewrite removeQueryId_spec by done.
  change (js ".") with [46]. cbn [app].
  rewrite !split_app by (apply dec_notin; [lia|done]).
  by rewrite split_notin by (apply dec_notin; [lia|done]).
Qed.

Lemma compare_components_lex a b :
  Forall small a -> Forall small b -> length a = length b ->
  compare_components (map dec a) (map dec b) = lex a b.
Proof.
  intros Ha. revert b. induction Ha as [|x a Hx Ha IH]; intros [|y b] Hb Hl; try done.
  apply Forall_cons in Hb as [Hy Hb]. unfold small in *. cbn [map compare_components lex skipn].
  rewrite <- (app_nil_r (dec x)), <- (app_nil_r (dec y)), !parseInt_dec by (done || lia).
  rewrite neq_int, nlt_int, drop_0, IH by (done || lia || (cbn in Hl; lia)).
  rewrite Z.gtb_ltb. by destruct (x =? y).
Qed.

Lemma compare_ids query p p' :
  46 ∉ query -> good_place p -> good_place p' ->
  compareTaskId (id_of query p) (id_of query p') = lex (parts p) (parts p').
Proof.
  intros Hq Hp Hp'. unfold compareTaskId. rewrite !split_id, !length_map by done.
  change (length (parts p') <? length (parts p))%nat with false. cbn [parts].
  apply compare_components_lex; [| |done]; destruct Hp as (? & ? & ?), Hp' as (? & ? & ?); repeat apply Forall_cons_2; done || constructor.
Qed.

Lemma place_le_spec p p' :
  place_le p p' = true <->
  p.1.1 < p'.1.1 \/ p.1.1 = p'.1.1 /\ (p.1.2 < p'.1.2 \/ p.1.2 = p'.1.2 /\ p.2 <= p'.2).
Proof.
  unfold place_le. cbn. rewrite Z.leb_le, !Z.gtb_ltb.
  destruct (Z.eqb_spec p.1.1 p'.1.1), (Z.eqb_spec p.1.2 p'.1.2), (Z.eqb_spec p.2 p'.2); case_ifs; bools; lia.
Qed.

Lemma place_le_consistent : consistent place_le.
Proof. split; intros; rewrite !place_le_spec in *; lia. Qed.

Lemma stays_ids query p p' :
  46 ∉ query -> good_place p -> good_place p' ->
  stays (fun a b => num (compareTaskId a b)) (id_of query p) (id_of query p') = place_le p p'.
Proof.
  intros Hq Hp Hp'. unfold stays. rewrite compare_ids by done. unfold place_le.
  assert (Hr : lex (parts p) (parts p') ∈ [-1; 0; 1]) by (cbn; case_ifs; set_solver).
  set (z := lex _ _) in *. clearbody z.
  rewrite !elem_of_cons, elem_of_nil in Hr. by destruct Hr as [->|[->|[->|[]]]].
Qed.

(** C13: Sorting the ids the server gives to the tasks of a query with
    [compareTaskId] orders them by stage, then by stage execution, then by
    task number, as numbers (task 10 after task 9); it loses and repeats none.
    Whatever stable algorithm the table uses, the result is this one. *)
Theorem task_ids_sorted query l :
  46 ∉ query -> Forall good_place l ->
  js_sort (fun a b => num (compareTaskId a b)) (map (id_of query) l) =
    map (id_of query) (stable_sort place_le l) /\
  sorted_by place_le (stable_sort place_le l) /\ stable_sort place_le l ≡ₚ l.
Proof.
  intros Hq Hl. split; [|split; [apply stable_sort_sorted, place_le_consistent|apply stable_sort_perm]].
  unfold js_sort. rewrite stable_sort_map. f_equal. apply stable_sort_ext.
  rewrite Forall_forall in Hl. intros x y Hx Hy. apply stays_ids; auto.
Qed.

Lemma task_ids_sorted_witness :
  js_sort (fun a b => num (compareTaskId a b)) (map (id_of "20200601_1_abc") [(2, 0, 10); (1, 0, 3); (2, 0, 9)]) =
    map (id_of "20200601_1_abc") [(1, 0, 3); (2, 0, 9); (2, 0, 10)].
Proof.
  destruct (task_ids_sorted "20200601_1_abc" [(2, 0, 10); (1, 0, 3); (2, 0, 9)]) as (E & _ & _).
  - intros H. apply (bool_decide_eq_true_2 _) in H. vm_compute in H. discriminate H.
  - repeat constructor; cbn; lia.
  - exact E.
Defined.

(** ** Properties: ports *)

Section ports.
Context `{URLApi}.

(** Host name and port as the table shows them. *)
Definition endpoint (task : Task) : option (jsstring * jsstring) :=
  match getHostname (t_self task), getPort (t_self task) with
  | Ok h, Ok p => Some (h, p)
  | _, _ => None
  end.

(** A host name that is no property name of every object. *)
Definition ordinary_endpoint (task : Task) : Prop :=
  exists h p, endpoint task = Some (h, p) /\ h ∉ object_prototype.

(** Two endpoints of one host with different ports. *)
Definition clash (e e' : jsstring * jsstring) : Prop := e.1 = e'.1 /\ e.2 <> e'.2.

Lemma show_ports_step (m : jsobj jsstring) task tasks h p :
  endpoint task = Some (h, p) -> h ∉ object_prototype ->
  show_ports m (task :: tasks) =
    if bool_decide (is_Some (mget h m) /\ mget h m <> Some p) then Ok true
    else show_ports (mset h p m) tasks.
Proof.
  unfold endpoint. intros He Hh. cbn.
  destruct (getHostname (t_self task)) as [h'|]; [|done].
  destruct (getPort (t_self task)) as [p'|]; [|done]. injection He as -> ->. cbn.
  unfold js_in, mhas. rewrite (bool_decide_eq_false_2 (h ∈ _)) by done. rewrite orb_false_r.
  destruct (mget h m) as [known|]; cbn.
  - destruct (str_eqb_spec known p) as [->|Hne]; cbn.
    + rewrite bool_decide_eq_false_2; [done|]. intros [_ ?]. done.
    + rewrite bool_decide_eq_true_2; [done|]. split; [eauto|congruence].
  - done.
Qed.

(** What the scan has recorded: the port of every host seen, without clash. *)
Definition recorded (m : jsobj jsstring) (seen : list (jsstring * jsstring)) : Prop :=
  forall h p, (h, p) ∈ seen <-> mget h m = Some p.

Lemma recorded_no_clash m seen : recorded m seen -> forall e e', e ∈ seen -> e' ∈ seen -> ~ clash e e'.
Proof.
  intros Hm [h p] [h' p'] He%Hm He'%Hm [Hh Hp]. cbn in *. subst. congruence.
Qed.

Lemma show_ports_spec m seen tasks :
  recorded m seen -> Forall ordinary_endpoint tasks ->
  exists b, show_ports m tasks = Ok b /\
    (b = true <-> exists e e', e ∈ seen ++ omap endpoint tasks /\ e' ∈ seen ++ omap endpoint tasks /\ clash e e').
Proof.
  intros Hm Ht. revert m seen Hm. induction Ht as [|task tasks (h & p & He & Hh) Ht IH]; intros m seen Hm.
  { exists false. split; [done|]. split; [done|]. intros (e & e' & Hin & Hin' & Hc).
    cbn in *. rewrite app_nil_r in *. by destruct (recorded_no_clash m seen Hm e e'). }
  rewrite (show_ports_step m task tasks h p) by done. cbn. rewrite He. cbn. case_bool_decide as Hd.
  - exists true. split; [done|]. split; [|done]. intros _. destruct Hd as [[q Hq] Hne].
    exists (h, q), (h, p). rewrite !elem_of_app, elem_of_cons.
    split; [left; by apply Hm|]. split; [by right; left|]. split; cbn; congruence.
  - destruct (IH (mset h p m) (seen ++ [(h, p)])) as (b & Hb & Hspec).
    + intros h' p'. rewrite elem_of_app, list_elem_of_singleton, (Hm h' p'), mget_mset.
      case_decide as Hh'; subst.
      * destruct (mget h m) as [q|] eqn:Eq; [|naive_solver].
        assert (q = p) by (destruct (decide (q = p)); [done|]; destruct Hd; split; [eauto|congruence]).
        subst. naive_solver.
      * naive_solver.
    + exists b. split; [done|]. by rewrite <- app_assoc in Hspec.
Qed.

(** The table shows port numbers exactly when two of its tasks run on the
    same host under different ports. *)
Theorem showPortNumbers_correct tasks :
  Forall ordinary_endpoint tasks ->
  exists b, showPortNumbers tasks = Ok b /\
    (b = true <-> exists e e', e ∈ omap endpoint tasks /\ e' ∈ omap endpoint tasks /\ clash e e').
Proof.
  apply (show_ports_spec [] []). intros h p. cbn. split; [|done]. intros Hin. inversion Hin.
Qed.
End ports.

(** ** Properties: the table *)

Section table_facts.
Context `{URLApi} `{DateEnv}.

(** A task of a document of the server: its URI is one, and its times are whole
    nanoseconds that a number holds exactly. *)
Definition wf_task (task : Task) : Prop :=
  is_Some (parse_url (t_self task)) /\
  (exists k, small k /\ ts_elapsedTimeInNanos (t_stats task) = num k) /\
  (exists k, small k /\ ts_totalCpuTimeInNanos (t_stats task) = num k) /\
  (exists k, small k /\ ts_totalScheduledTimeInNanos (t_stats task) = num k).

Lemma nanos_small k : small k -> nanos (num k) = JNum (num k /f num 1000000).
Proof.
  intros Hk. unfold small in Hk. unfold nanos. rewrite num_to_string_int by lia.
  unfold parseDuration. rewrite exec_pattern_dec; [|lia|by repeat constructor|done].
  rewrite parse_number_dec by lia. reflexivity.
Qed.

Lemma nanos_duration x : (exists k, small k /\ x = num k) -> exists t, formatDuration (nanos x) = Ok t.
Proof. intros (k & Hk & ->). rewrite nanos_small by done. by apply formatDuration_total. Qed.

Lemma hostname_total task : wf_task task -> exists h, getHostname (t_self task) = Ok h.
Proof. intros [[[h p] E] _]. unfold getHostname. rewrite E. cbn. case_ifs; eauto. Qed.

Lemma port_total task : wf_task task -> exists p, getPort (t_self task) = Ok p.
Proof. intros [[[h p] E] _]. unfold getPort. rewrite E. cbn. eauto. Qed.

Lemma show_ports_total tasks : Forall wf_task tasks -> forall m, exists b, show_ports m tasks = Ok b.
Proof.
  induction 1 as [|task tasks Ht _ IH]; intros m; cbn; [eauto|].
  destruct (hostname_total task Ht) as [h ->], (port_total task Ht) as [p ->]. cbn.
  case_ifs; eauto.
Qed.

(** The columns of a row, in the order of the code. *)
Definition row_columns : list jsstring :=
  [js "id"; js "host"; js "state"; js "rows"; js "rowsSec"; js "bytes"; js "bytesSec";
   js "splitsPending"; js "splitsRunning"; js "splitsBlocked"; js "splitsDone"; js "elapsedTime";
   js "cpuTime"; js "bufferedBytes"].

Lemma renderTask_total ports now task :
  wf_task task ->
  exists cells, renderTask ports now task = Ok (t_taskId task, cells) /\ map c_column cells = row_columns.
Proof.
  intros Hw. pose proof Hw as ([[h p] Hu] & He & Hc & _). unfold renderTask.
  destruct (hostname_total task Hw) as [host Hh]. rewrite Hh. cbn [mbind res_bind].
  assert (exists shown, (if ports then getHostAndPort (t_self task) else Ok host) = Ok shown) as [shown Hs].
  { destruct ports; [|eauto]. unfold getHostAndPort. rewrite Hu. cbn. eauto. }
  rewrite Hs. cbn [mbind res_bind]. unfold formatted_cell. cbv zeta.
  set (e := if strict_eq_num _ _ then _ else _). clearbody e.
  destruct (formatCount_total (ts_rawInputPositions (t_stats task))) as [? ->]; [done|].
  destruct (formatCount_total (computeRate (ts_rawInputPositions (t_stats task)) e)) as [? ->]; [done|].
  destruct (formatSize_total_bytes (ts_rawInputDataSizeInBytes (t_stats task))) as [? ->]; [done|].
  destruct (formatSize_total_bytes (computeRate (ts_rawInputDataSizeInBytes (t_stats task)) e)) as [? ->]; [done|].
  destruct (nanos_duration _ He) as [? ->], (nanos_duration _ Hc) as [? ->].
  destruct (formatSize_total_bytes (t_totalBufferedBytes task)) as [? ->]; [done|].
  cbn [mbind res_bind]. eexists. split; [reflexivity|]. reflexivity.
Qed.

Lemma render_rows_total ports now tasks :
  Forall wf_task tasks ->
  exists rows, res_map (renderTask ports now) tasks = Ok rows /\ map fst rows = map t_taskId tasks /\
    Forall (fun r => map c_column r.2 = row_columns) rows.
Proof.
  induction 1 as [|task tasks Ht _ (rows & IH & Hk & Hc)]; cbn; [eauto|].
  destruct (renderTask_total ports now task Ht) as (cells & -> & Hcells). cbn. rewrite IH. cbn.
  eexists. split; [reflexivity|]. cbn. by rewrite Hk; repeat constructor.
Qed.

(** The table of well-formed tasks always renders, with one row per task in
    the order of the answer; every row has a cell for every column of the head,
    every column can be sorted by, the column [id] with [compareTaskId]. *)
Theorem task_table_complete task tasks now :
  Forall wf_task (task :: tasks) ->
  exists tb, renderTasks (Some (task :: tasks)) now = Ok (Mount tb) /\
    map fst (tb_rows tb) = map t_taskId (task :: tasks) /\
    Forall (fun r => map c_column r.2 ≡ₚ map fst (tb_head tb)) (tb_rows tb) /\
    map fst (tb_sortable tb) ≡ₚ map fst (tb_head tb) /\
    mget (tb_defaultSort tb).1 (tb_sortable tb) = Some (Some compareTaskId).
Proof.
  intros Hw. unfold renderTasks, showPortNumbers.
  destruct (show_ports_total _ Hw []) as [b ->]. cbn [mbind res_bind].
  destruct (render_rows_total b now _ Hw) as (rows & -> & Hk & Hc). cbn [mbind res_bind].
  eexists. split; [reflexivity|]. cbn [tb_rows tb_head tb_sortable tb_defaultSort fst].
  split; [done|]. split; [|split; [apply (bool_decide_unpack _); vm_compute; exact I|reflexivity]].
  eapply Forall_impl; [exact Hc|]. intros r ->. apply (bool_decide_unpack _). vm_compute. exact I.
Qed.
End table_facts.

(** *** Witnesses *)

(** URLs of the form [http://host:port/...], which the server sends. *)
#[local] Instance http_urls : URLApi := {|
  parse_url := fun url =>
    if starts_with (js "http://") url then
      let '(host, rest) := span (fun c => negb (c =? 58)) (drop 7 url) in
      Some (host, (span is_digit (drop 1 rest)).1)
    else None |}.
#[local] Existing Instance utc_env.

Definition demo_task_stats : TaskStats := {|
  ts_elapsedTimeInNanos := num 1500000000; ts_totalCpuTimeInNanos := num 900000000;
  ts_totalScheduledTimeInNanos := num 1200000000; ts_createTime := "2020-06-01T00:00:00.000Z";
  ts_firstStartTime := None; ts_lastStartTime := None; ts_lastEndTime := None; ts_endTime := None;
  ts_fullyBlocked := false; ts_rawInputPositions := num 1000; ts_rawInputDataSizeInBytes := num 4096;
  ts_queuedDrivers := num 0; ts_runningDrivers := num 2; ts_blockedDrivers := num 0;
  ts_completedDrivers := num 6; ts_pipelines := [] |}.
Definition demo_task (id self state : jsstring) : Task :=
  mkTask id self state "node-1" demo_task_stats (num 10).
Definition demo_tasks : list Task :=
  [demo_task "q.1.0.0" "http://a.example:8080/v1/task/q.1.0.0" "RUNNING";
   demo_task "q.1.0.1" "http://b.example:8080/v1/task/q.1.0.1" "FINISHED";
   demo_task "q.1.0.2" "http://a.example:8081/v1/task/q.1.0.2" "RUNNING"].

Lemma showPortNumbers_correct_witness :
  exists b, showPortNumbers demo_tasks = Ok b /\
    (b = true <-> exists e e', e ∈ omap endpoint demo_tasks /\ e' ∈ omap endpoint demo_tasks /\ clash e e').
Proof.
  apply (showPortNumbers_correct demo_tasks).
  repeat apply Forall_cons_2; try constructor;
    (do 2 eexists; split; [reflexivity|];
     intros Hin; apply (bool_decide_eq_true_2 _) in Hin; vm_compute in Hin; discriminate Hin).
Defined.

Lemma demo_task_wf id self state : is_Some (parse_url self) -> wf_task (demo_task id self state).
Proof.
  assert (Hs : forall k, (0 <=? k) && (k <? 2 ^ 53) = true -> exists k', small k' /\ num k = num k')
    by (intros k Hk; exists k; bools; done).
  intros Hu. split; [done|].
  split; [by apply (Hs 1500000000)|]. split; [by apply (Hs 900000000)|by apply (Hs 1200000000)].
Qed.

Lemma demo_tasks_wf : Forall wf_task demo_tasks.
Proof. repeat constructor; apply demo_task_wf; eexists; reflexivity. Qed.

Lemma task_table_complete_witness :
  exists tb, renderTasks (Some demo_tasks) 0 = Ok (Mount tb) /\
    map fst (tb_rows tb) = [js "q.1.0.0"; js "q.1.0.1"; js "q.1.0.2"].
Proof.
  destruct (task_table_complete (demo_task "q.1.0.0" "http://a.example:8080/v1/task/q.1.0.0" "RUNNING")
              (drop 1 demo_tasks) 0) as (tb & E & K & _).
  - exact demo_tasks_wf.
  - exists tb. split; [exact E|exact K].
Defined.
