(* ===== verification/StageSummary.v ===== *)
(** * Stages of a query ([StageSummary] and [StageList] of [QueryDetail.jsx]) *)

From S2P Require Import Prelude JsString JsNumber JsNumberFacts JsSort DecimalFacts Data.
From S2P Require Import Utils UtilsFacts VDom TaskList.

(** ** Histograms *)

Definition BAR_CHART_WIDTH : Z := 800.
Definition HISTOGRAM_WIDTH : Z := 175.

Definition BAR_CHART_PROPERTIES : list (string * jsstring) :=
  [("type"%string, js "bar"); ("barSpacing"%string, js "0"); ("height"%string, js "80px");
   ("barColor"%string, js "#747F96"); ("zeroColor"%string, js "#8997B3"); ("chartRangeMin"%string, js "0");
   ("tooltipClassname"%string, js "sparkline-tooltip");
   ("tooltipFormat"%string, js "Task {{offset:offset}} - {{value}}"); ("disableHiddenCheck"%string, js "true")].

Definition HISTOGRAM_PROPERTIES : list (string * jsstring) :=
  [("type"%string, js "bar"); ("barSpacing"%string, js "0"); ("height"%string, js "80px");
   ("barColor"%string, js "#747F96"); ("zeroColor"%string, js "#747F96"); ("zeroAxis"%string, js "true");
   ("chartRangeMin"%string, js "0"); ("tooltipClassname"%string, js "sparkline-tooltip");
   ("tooltipFormat"%string, js "{{offset:offset}} -- {{value}} tasks"); ("disableHiddenCheck"%string, js "true")].

(** A call [$(selector).sparkline(data, $.extend({}, properties, {barWidth, ...}))]. *)
Record Chart := mkChart {
  ch_selector : jsstring;
  ch_data : list jsnum;
  ch_properties : list (string * jsstring);
  ch_barWidth : number;
  ch_tooltips : list jsstring;                      (* tooltipValueLookups.offset *)
  ch_numberFormatter : option (jsnum -> res jsstring)
}.

(** The array index a number stands for as a property name. *)
Definition to_index (x : number) : option nat :=
  match x with
  | S754_zero _ => Some 0%nat
  | S754_finite false m e =>
      if (numer m e mod denom e =? 0) && (numer m e / denom e <? 2 ^ 32 - 1)
      then Some (Z.to_nat (numer m e / denom e)) else None
  | _ => None
  end.

(** [a[k]]: reading past the end gives [undefined]. *)
Definition array_get (k : number) (a : list jsnum) : jsnum :=
  match to_index k with Some n => default JUndef (a !! n) | None => JUndef end.

(** [a[k] = v]: writing past the end extends the array with holes; a name that
    is no index is a property that is no element. *)
Definition array_set (k : number) (v : jsnum) (a : list jsnum) : list jsnum :=
  match to_index k with
  | Some n =>
      if (n <? length a)%nat then <[n := v]> a
      else a ++ replicate (n - length a) JUndef ++ [v]
  | None => a
  end.

(** [for (let i = 0; i < bound; i++) a.push(0)], for a bound below [fuel]. *)
Fixpoint push_zeros (fuel : nat) (i : Z) (bound : number) : list jsnum :=
  match fuel with
  | O => []
  | S fuel => if num i <f bound then JNum (num 0) :: push_zeros fuel (i + 1) bound else []
  end.

Definition bucket_of (dataMin bucketSize : number) (dataPoint : jsnum) : number :=
  Math_floor ((ToNumber dataPoint -f dataMin) /f bucketSize).

Definition count_point (dataMin bucketSize : number) (histogramData : list jsnum) (dataPoint : jsnum) :
    list jsnum :=
  let bucket := bucket_of dataMin bucketSize dataPoint in
  array_set bucket (JNum (ToNumber (array_get bucket histogramData) +f num 1)) histogramData.

Definition length_num {A} (l : list A) : number := num (Z.of_nat (length l)).

Definition num_buckets (inputData : list jsnum) : number :=
  Math_min (num HISTOGRAM_WIDTH) (Math_sqrt (length_num inputData)).

Definition data_range (inputData : list jsnum) : number * number :=
  (min_all (map ToNumber inputData), max_all (map ToNumber inputData)).

Definition bucket_size (inputData : list jsnum) : number :=
  let '(dataMin, dataMax) := data_range inputData in
  (dataMax -f dataMin) /f num_buckets inputData.

(** The bars: [HISTOGRAM_WIDTH + 1] is the largest number of them. *)
Definition histogram (inputData : list jsnum) : list jsnum :=
  let bucketSize := bucket_size inputData in
  if bucketSize =f num 0 then [JNum (length_num inputData)]
  else
    fold_left (count_point (data_range inputData).1 bucketSize) inputData
      (push_zeros (Z.to_nat (HISTOGRAM_WIDTH + 1)) 0 (num_buckets inputData +f num 1)).

(** [numberFormatter(dataMin + i * bucketSize) + "-" + ...] *)
Definition histogram_tooltip (dataMin bucketSize : number) (numberFormatter : jsnum -> res jsstring) (i : nat) :
    res jsstring :=
  let at_ (k : Z) := numberFormatter (JNum (dataMin +f (num k *f bucketSize))) in
  lo ← at_ (Z.of_nat i); hi ← at_ (Z.of_nat i + 1); Ok (lo ++ js "-" ++ hi).

Definition renderHistogram (histogramId : jsstring) (inputData : list jsnum)
    (numberFormatter : jsnum -> res jsstring) : res Chart :=
  let dataMin := (data_range inputData).1 in
  let bucketSize := bucket_size inputData in
  let histogramData := histogram inputData in
  tooltips ← res_map (histogram_tooltip dataMin bucketSize numberFormatter) (seq 0 (length histogramData));
  Ok {| ch_selector := histogramId; ch_data := histogramData; ch_properties := HISTOGRAM_PROPERTIES;
        ch_barWidth := num HISTOGRAM_WIDTH /f length_num histogramData; ch_tooltips := tooltips;
        ch_numberFormatter := None |}.

(** ** State *)

Inductive TASK_FILTER := ALL | PLANNED | RUNNING | FINISHED | FAILED.

Definition filter_text (f : TASK_FILTER) : jsstring :=
  match f with
  | ALL => "All" | PLANNED => "Planned" | RUNNING => "Running" | FINISHED => "Finished"
  | FAILED => "Aborted/Canceled/Failed"
  end.

Definition predicate (f : TASK_FILTER) (state : jsstring) : bool :=
  match f with
  | ALL => true
  | PLANNED => state === "PLANNED"
  | RUNNING => state === "RUNNING"
  | FINISHED => state === "FINISHED"
  | FAILED => (state === "FAILED") || (state === "ABORTED") || (state === "CANCELED")
  end.

#[global] Instance task_filter_eq : EqDecision TASK_FILTER.
Proof. solve_decision. Defined.

Record SSState := mkSSState { expanded : bool; lastRender : option Z; taskFilter : TASK_FILTER }.

Definition ss_init : SSState := mkSSState false None ALL.

Definition getExpandedIcon (s : SSState) : jsstring :=
  if expanded s then "glyphicon-chevron-up" else "glyphicon-chevron-down".

Definition getExpandedStyle (s : SSState) : list (string * jsstring) :=
  if expanded s then [] else [("display"%string, js "none")].

Definition toggleExpanded (s : SSState) : SSState :=
  mkSSState (negb (expanded s)) (lastRender s) (taskFilter s).

Definition handleTaskFilterClick (filter : TASK_FILTER) (s : SSState) : SSState :=
  mkSSState (expanded s) (lastRender s) filter.

(** ** Charts

    [componentDidUpdate] sorts the tasks of the stage in place: the stage it
    leaves behind is the one every later read of the snapshot sees. *)

Definition sort_tasks (tasks : list Task) : list Task :=
  js_sort (fun a b => getTaskNumber (t_taskId a) -f getTaskNumber (t_taskId b)) tasks.

Definition with_tasks (tasks : list Task) (stage : Stage) : Stage :=
  let info := sg_latestAttemptExecutionInfo stage in
  mkStage (sg_stageId stage) (sg_plan stage) (mkStageExecutionInfo (se_state info) (se_stats info) tasks)
    (sg_previousAttemptsExecutionInfos stage) (sg_subStages stage) (sg_state stage) (sg_tasks stage).

Definition stage_tasks (stage : Stage) : list Task := se_tasks (sg_latestAttemptExecutionInfo stage).

Definition bar_chart (selector : jsstring) (stageId : number) (data : list jsnum) (numTasks : nat) : Chart :=
  {| ch_selector := selector; ch_data := data; ch_properties := BAR_CHART_PROPERTIES;
     ch_barWidth := num BAR_CHART_WIDTH /f num (Z.of_nat numTasks);
     ch_tooltips := map (fun i => num_to_string stageId ++ js "." ++ dec (Z.of_nat i)) (seq 0 numTasks);
     ch_numberFormatter := Some formatDuration |}.

Definition stage_charts (s : SSState) (stage : Stage) : res (list Chart) :=
  let tasks := stage_tasks stage in
  let scheduledTimes := map (fun task => nanos (ts_totalScheduledTimeInNanos (t_stats task))) tasks in
  let cpuTimes := map (fun task => nanos (ts_totalCpuTimeInNanos (t_stats task))) tasks in
  let stageId := getStageNumber (sg_stageId stage) in
  let id := num_to_string stageId in
  h1 ← renderHistogram (js "#scheduled-time-histogram-" ++ id) scheduledTimes formatDuration;
  h2 ← renderHistogram (js "#cpu-time-histogram-" ++ id) cpuTimes formatDuration;
  Ok (h1 :: h2 ::
      if expanded s then
        [bar_chart (js "#scheduled-time-bar-chart-" ++ id) stageId scheduledTimes (length tasks);
         bar_chart (js "#cpu-time-bar-chart-" ++ id) stageId cpuTimes (length tasks)]
      else []).

Definition redraw_due (s : SSState) (now : Z) : bool :=
  match lastRender s with None => true | Some t => now - t >=? 1000 end.

(** The state change at the end runs [componentDidUpdate] again; [clock] lists
    the instants it reads, one pair per run. *)
Fixpoint componentDidUpdate (clock : list (Z * Z)) (stage : Stage) (s : SSState) :
    res (list (list Chart) * Stage * SSState) :=
  match clock with
  | [] => Ok ([], stage, s)
  | (now, renderTimestamp) :: clock' =>
      let stage := with_tasks (sort_tasks (stage_tasks stage)) stage in
      if redraw_due s now then
        charts ← stage_charts s stage;
        '(drawn, stage, s) ← componentDidUpdate clock' stage
                               (mkSSState (expanded s) (Some renderTimestamp) (taskFilter s));
        Ok (charts :: drawn, stage, s)
      else Ok ([], stage, s)
  end.

(** ** Rendering *)

Inductive SSEvent := ToggleExpanded | TaskFilterClick (f : TASK_FILTER).

Definition ss_event (e : SSEvent) (s : SSState) : SSState :=
  match e with
  | ToggleExpanded => toggleExpanded s
  | TaskFilterClick f => handleTaskFilterClick f s
  end.

(** A mounted task list and its prop. *)
Abbreviation SNode := (node SSEvent (list Task)).

Definition renderTaskList (s : SSState) (tasks : list Task) : SNode :=
  let tasks := if expanded s then tasks else [] in
  let tasks := List.filter (fun task => predicate (taskFilter s) (t_state task)) tasks in
  El "tr" [style_ (getExpandedStyle s)] [El "td" [sattr "colSpan" "6"] [Mount tasks]].

Definition renderStageExecutionAttemptsTasks (s : SSState) (attempts : list StageExecutionInfo) : SNode :=
  Arr (map (fun attempt => renderTaskList s (se_tasks attempt)) attempts).

Definition renderTaskFilterListItem (s : SSState) (f : TASK_FILTER) : SNode :=
  El "li" [] [El "a" [sattr "href" "#"; class_ (if decide (taskFilter s = f) then "selected" else "");
                      onClick (TaskFilterClick f)] [Txt (filter_text f)]].

Definition renderTaskFilter (s : SSState) : SNode :=
  El "div" [class_ "row"]
    [El "div" [class_ "col-xs-6"] [El "h3" [] [Txt "Tasks"]];
     El "div" [class_ "col-xs-6"]
       [El "table" [class_ "header-inline-links"]
          [El "tbody" []
             [El "tr" []
                [El "td" []
                   [El "div" [class_ "input-group-btn text-right"]
                      [El "button" [sattr "type" "button";
                                    class_ "btn btn-default dropdown-toggle pull-right text-right";
                                    sattr "data-toggle" "dropdown"; sattr "aria-haspopup" "true";
                                    sattr "aria-expanded" "false"]
                         [Txt "Show: "; Txt (filter_text (taskFilter s)); Txt " ";
                          El "span" [class_ "caret"] []];
                       El "ul" [class_ "dropdown-menu"]
                         (map (renderTaskFilterListItem s) [ALL; PLANNED; RUNNING; FINISHED; FAILED])]]]]]]].

(** A table of statistics of the stage: its title and its rows. *)
Definition stat_table (cls title : string) (rows : list (string * SNode)) : SNode :=
  El "table" [class_ cls]
    [El "thead" [] [El "tr" [] [El "th" [class_ "stage-table-stat-title stage-table-stat-header"] [Txt title];
                                El "th" [] []]];
     El "tbody" []
       (map (fun '(name, value) =>
               El "tr" [] [El "td" [class_ "stage-table-stat-title"] [Txt (js name)];
                           El "td" [class_ "stage-table-stat-text"] [value]]) rows)].

Definition loader : SNode := El "div" [class_ "loader"] [].

Definition histogram_table (title : string) (id : jsstring) : SNode :=
  El "table" [class_ "stage-table histogram-table"]
    [El "thead" [] [El "tr" [] [El "th" [class_ "stage-table-stat-title stage-table-chart-header"] [Txt title]]];
     El "tbody" [] [El "tr" [] [El "td" [class_ "histogram-container"]
                                  [El "span" [class_ "histogram"; sattr "id" id] [loader]]]]].

Definition expanded_chart (s : SSState) (title : string) (id : jsstring) : SNode :=
  El "tr" [style_ (getExpandedStyle s)]
    [El "td" [sattr "colSpan" "6"]
       [El "table" [class_ "expanded-chart"]
          [El "tbody" []
             [El "tr" [] [El "td" [class_ "stage-table-stat-title expanded-chart-title"] [Txt title];
                          El "td" [class_ "bar-chart-container"]
                            [El "span" [class_ "bar-chart"; sattr "id" id] [loader]]]]]]].

Definition count_node (p : Task -> bool) (tasks : list Task) : SNode := NumC (length_num (List.filter p tasks)).

Definition expand_button (s : SSState) : SNode :=
  El "td" [class_ "expand-charts-container"]
    [El "a" [onClick ToggleExpanded; class_ "expand-charts-button"]
       [El "span" [class_ (js "glyphicon " ++ getExpandedIcon s); style_ GLYPHICON_HIGHLIGHT;
                   sattr "data-toggle" "tooltip"; sattr "data-placement" "top"; sattr "title" "More"] []]].

(** The element ids of a stage end in its number. *)
Definition chart_id (prefix : string) (stage : Stage) : jsstring :=
  js prefix ++ num_to_string (getStageNumber (sg_stageId stage)).

(** The cells of the first row: statistics, histograms, the button. *)
Definition stat_cells (stage : Stage) (stats : StageStats) (cumulative buffers : jsstring) : list SNode :=
  let tasks := stage_tasks stage in
  [El "td" [] [stat_table "stage-table stage-table-time" "Time"
     [("Scheduled"%string, Txt (ss_totalScheduledTime stats));
      ("Blocked"%string, Txt (ss_totalBlockedTime stats));
      ("CPU"%string, Txt (ss_totalCpuTime stats))]];
   El "td" [] [stat_table "stage-table stage-table-memory" "Memory"
     [("Cumulative"%string, Txt cumulative);
      ("Current"%string, Txt (ss_userMemoryReservation stats));
      ("Buffers"%string, Txt buffers);
      ("Peak"%string, Txt (ss_peakUserMemoryReservation stats))]];
   El "td" [] [stat_table "stage-table stage-table-tasks" "Tasks"
     [("Pending"%string, count_node (fun task => t_state task === "PLANNED") tasks);
      ("Running"%string, count_node (fun task => t_state task === "RUNNING") tasks);
      ("Blocked"%string, count_node (fun task => ts_fullyBlocked (t_stats task)) tasks);
      ("Total"%string, NumC (length_num tasks))]]].

Definition chart_cells (stage : Stage) (s : SSState) : list SNode :=
  [El "td" [] [histogram_table "Scheduled Time Skew" (chart_id "scheduled-time-histogram-" stage)];
   El "td" [] [histogram_table "CPU Time Skew" (chart_id "cpu-time-histogram-" stage)];
   expand_button s].

(** The rows below it, which are hidden until the summary is expanded. *)
Definition expanded_rows (stage : Stage) (s : SSState) : list SNode :=
  [expanded_chart s "Task Scheduled Time" (chart_id "scheduled-time-bar-chart-" stage);
   expanded_chart s "Task CPU Time" (chart_id "cpu-time-bar-chart-" stage);
   El "tr" [style_ (getExpandedStyle s)] [El "td" [sattr "colSpan" "6"] [renderTaskFilter s]];
   renderStageExecutionAttemptsTasks s [sg_latestAttemptExecutionInfo stage];
   renderStageExecutionAttemptsTasks s (sg_previousAttemptsExecutionInfos stage)].

Definition render (stage : option Stage) (s : SSState) : res SNode :=
  match stage with
  | None => Ok (El "tr" [] [El "td" [] [Txt "Information about this stage is unavailable."]])
  | Some stage =>
      match sg_plan stage with
      | None => Ok (El "tr" [] [El "td" [] [Txt "Information about this stage is unavailable."]])
      | Some _ =>
          let totalBufferedBytes := fold_left nadd (map t_totalBufferedBytes (stage_tasks stage)) (num 0) in
          let stageId := getStageNumber (sg_stageId stage) in
          stats ← get_prop "stats" (se_stats (sg_latestAttemptExecutionInfo stage));
          cumulative ← formatDataSizeBytes (JNum (ss_cumulativeUserMemory stats /f num 1000));
          buffers ← formatDataSize (JNum totalBufferedBytes);
          Ok (El "tr" []
            [El "td" [class_ "stage-id"]
               [El "div" [class_ "stage-state-color";
                          style_ [("borderLeftColor"%string, getStageStateColor (sg_state stage) None)]]
                  [NumC stageId]];
             El "td" []
               [El "table" [class_ "table single-stage-table"]
                  [El "tbody" []
                     (El "tr" [] (stat_cells stage stats cumulative buffers ++ chart_cells stage s) ::
                      expanded_rows stage s)]]])
      end
  end.

(** ** The list of stages *)

Fixpoint get_stages (stage : Stage) : list Stage :=
  match sg_subStages stage with
  | None => []
  | Some subStages => stage :: flat_map get_stages subStages
  end.

Definition getStages (stage : option Stage) : list Stage :=
  match stage with None => [] | Some stage => get_stages stage end.

(** A mounted summary and its prop. *)
Definition renderStageList (outputStage : option Stage) : node Empty_set Stage :=
  match getStages outputStage with
  | [] => El "div" [class_ "row"] [El "div" [class_ "col-xs-12"] [Txt "No stage information available."]]
  | stages =>
      El "div" [class_ "row"]
        [El "div" [class_ "col-xs-12"]
           [El "table" [class_ "table"; sattr "id" "stage-list"] [El "tbody" [] [Arr (map Mount stages)]]]]
  end.
