(* ===== verification/HistogramFacts.v ===== *)
(** * Histograms of a stage: properties

    [renderHistogram] of [StageSummary] sorts the values of the tasks into bars.
    The bar of a value comes out of three rounded operations; with their error
    bounds every value has a bar of the histogram. *)

From S2P Require Import Prelude JsString JsNumber JsNumberFacts JsRounding JsSort DecimalFacts Data.
From S2P Require Import Utils UtilsFacts VDom TaskList StageSummary.

(** ** Counting *)

(** An array of counters. *)
Definition counters (f : nat -> Z) (len : nat) : list jsnum := map (fun j => JNum (num (f j))) (seq 0 len).

Lemma counters_lookup f len j : (j < len)%nat -> counters f len !! j = Some (JNum (num (f j))).
Proof. intros Hj. unfold counters. by rewrite list_lookup_fmap, lookup_seq_lt. Qed.

Lemma counters_length f len : length (counters f len) = len.
Proof. unfold counters. by rewrite length_map, length_seq. Qed.

Lemma counters_ext f g len : (forall j, (j < len)%nat -> f j = g j) -> counters f len = counters g len.
Proof.
  intros H. unfold counters. apply map_ext_in. intros j [_ Hj]%in_seq. by rewrite H by lia.
Qed.

Lemma push_zeros_counters fuel i bound :
  push_zeros fuel i bound = counters (fun _ => 0) (length (push_zeros fuel i bound)).
Proof.
  revert i. induction fuel as [|fuel IH]; intros i; cbn [push_zeros]; [done|].
  destruct (num i <f bound); [|done]. cbn [length]. unfold counters. cbn [seq map]. f_equal.
  rewrite <- seq_shift, map_map. apply IH.
Qed.

Lemma counters_insert f len n v :
  (n < len)%nat ->
  <[n := JNum (num v)]> (counters f len) = counters (fun j => if decide (j = n) then v else f j) len.
Proof.
  intros Hn. apply list_eq. intros j. destruct (decide (j < len)%nat) as [Hj|Hj].
  - rewrite counters_lookup by done. destruct (decide (j = n)) as [->|Hne].
    + rewrite list_lookup_insert_eq; [done|by rewrite counters_length].
    + by rewrite list_lookup_insert_ne, counters_lookup by done.
  - rewrite !lookup_ge_None_2; rewrite ?length_insert, ?counters_length; done || lia.
Qed.

Section histogram.
Variables (mn bs : number) (len : nat).

(** The bar of a data point. *)
Definition bar_of (p : jsnum) : option nat := to_index (bucket_of mn bs p).
Definition in_range (p : jsnum) : Prop := exists j, bar_of p = Some j /\ (j < len)%nat.
Definition points_in (j : nat) (data : list jsnum) : list jsnum :=
  List.filter (fun p => bool_decide (bar_of p = Some j)) data.

Lemma count_point_counters f p n :
  bar_of p = Some n -> (n < len)%nat -> 0 <= f n < 2 ^ 53 - 1 ->
  count_point mn bs (counters f len) p = counters (fun j => if decide (j = n) then f n + 1 else f j) len.
Proof.
  intros Hb Hn Hf. unfold count_point, array_get, array_set. unfold bar_of in Hb. rewrite Hb.
  rewrite counters_length, (proj2 (Nat.ltb_lt _ _)), counters_lookup by done. cbn [default ToNumber].
  change (id ?x) with x. cbn [ToNumber].
  rewrite nadd_int by lia. by rewrite counters_insert.
Qed.

Lemma count_all data f k :
  Forall in_range data -> (forall j, 0 <= f j <= k) -> k + Z.of_nat (length data) < 2 ^ 53 ->
  fold_left (count_point mn bs) data (counters f len) =
    counters (fun j => f j + Z.of_nat (length (points_in j data))) len.
Proof.
  intros Hd. revert f k. induction Hd as [|p data (n & Hb & Hn) Hd IH]; intros f k Hf Hk.
  { cbn. apply counters_ext. intros. lia. }
  cbn [fold_left length] in *. rewrite (count_point_counters f p n) by (done || (specialize (Hf n); lia)).
  rewrite (IH _ (k + 1)) by (lia || (intros j; case_decide; [specialize (Hf n)|specialize (Hf j)]; lia)).
  apply counters_ext. intros j Hj. unfold points_in. cbn [List.filter]. rewrite Hb.
  case_decide; subst.
  - rewrite bool_decide_eq_true_2 by done. cbn [length]. lia.
  - rewrite bool_decide_eq_false_2 by congruence. lia.
Qed.
End histogram.

(** The number of bars, and the bar of a data point. *)
Definition bars (data : list jsnum) : nat :=
  length (push_zeros (Z.to_nat (HISTOGRAM_WIDTH + 1)) 0 (num_buckets data +f num 1)).
Definition bar (data : list jsnum) : jsnum -> option nat := bar_of (data_range data).1 (bucket_size data).
Definition within_bars (data : list jsnum) (p : jsnum) : Prop :=
  exists j, bar data p = Some j /\ (j < bars data)%nat.

(** ** Smallest and largest value *)

Definition proper (x : number) : Prop := fin x = true /\ JsNumberFacts.valid x /\ 0 <= fval x.

Lemma proper_min x y : proper x -> proper y -> proper (Math_min x y) /\ fval (Math_min x y) = Z.min (fval x) (fval y).
Proof.
  intros (Fx & Vx & Hx) (Fy & Vy & Hy).
  assert (H : (exists s, Math_min x y = S754_zero s /\ fval x = 0 /\ fval y = 0) \/ Math_min x y = if nlt y x then y else x).
  { destruct x, y; try done; try (by right). left. by eexists. }
  destruct H as [(s & -> & -> & ->)| ->]; [done|]. rewrite nlt_fval by done.
  destruct (Z.ltb_spec (fval y) (fval x)); (split; [by repeat split|lia]).
Qed.

Lemma proper_max x y : proper x -> proper y -> proper (Math_max x y) /\ fval (Math_max x y) = Z.max (fval x) (fval y).
Proof.
  intros (Fx & Vx & Hx) (Fy & Vy & Hy).
  assert (H : (exists s, Math_max x y = S754_zero s /\ fval x = 0 /\ fval y = 0) \/ Math_max x y = if nlt x y then y else x).
  { destruct x, y; try done; try (by right). left. by eexists. }
  destruct H as [(s & -> & -> & ->)| ->]; [done|]. rewrite nlt_fval by done.
  destruct (Z.ltb_spec (fval x) (fval y)); (split; [by repeat split|lia]).
Qed.

(** A fold of one of the two over values, from a first one. *)
Section extremum.
Context (op : number -> number -> number) (zop : Z -> Z -> Z) (le : Z -> Z -> Prop).
Hypothesis op_proper : forall x y, proper x -> proper y -> proper (op x y) /\ fval (op x y) = zop (fval x) (fval y).
Hypothesis zop_choice : forall a b, zop a b = a \/ zop a b = b.
Hypothesis zop_le : forall a b, le (zop a b) a /\ le (zop a b) b.
Hypothesis le_trans : forall a b c, le a b -> le b c -> le a c.
Hypothesis le_refl : forall a, le a a.

Lemma fold_extremum l x :
  proper x -> Forall proper l ->
  let r := fold_left op l x in
  proper r /\ (exists y, y ∈ x :: l /\ fval r = fval y) /\ forall y, y ∈ x :: l -> le (fval r) (fval y).
Proof.
  intros Hx Hl. revert x Hx. induction Hl as [|y l Hy _ IH]; intros x Hx.
  - split; [done|]. split; [exists x; split; [left|done]|]. intros y ->%list_elem_of_singleton. apply le_refl.
  - cbn [fold_left]. destruct (op_proper x y Hx Hy) as [Hp Ho]. destruct (IH _ Hp) as (H1 & (w & Hw & Ew) & H3).
    split; [done|]. split.
    + apply elem_of_cons in Hw as [->|Hw].
      * destruct (zop_choice (fval x) (fval y)) as [E|E]; [exists x|exists y]; (split; [by repeat constructor|congruence]).
      * exists w. split; [by do 2 right|done].
    + intros z Hz. pose proof (H3 _ ltac:(left)) as H4. rewrite Ho in H4. destruct (zop_le (fval x) (fval y)).
      apply elem_of_cons in Hz as [->|Hz]; [by eapply le_trans|].
      apply elem_of_cons in Hz as [->|Hz]; [by eapply le_trans|]. apply H3. by right.
Qed.
End extremum.

Lemma min_first x : proper x -> Math_min infinity x = x.
Proof. intros (F & _). by destruct x. Qed.
Lemma max_first x : proper x -> Math_max (nneg infinity) x = x.
Proof. intros (F & _). by destruct x. Qed.

Lemma range_proper l :
  l <> [] -> Forall proper l ->
  proper (min_all l) /\ proper (max_all l) /\
  (exists a b, a ∈ l /\ b ∈ l /\ fval (min_all l) = fval a /\ fval (max_all l) = fval b) /\
  forall y, y ∈ l -> fval (min_all l) <= fval y <= fval (max_all l).
Proof.
  intros Hne Hl. destruct l as [|x l]; [done|]. apply Forall_cons in Hl as [Hx Hl].
  unfold min_all, max_all. cbn [fold_left]. rewrite min_first, max_first by done.
  destruct (fold_extremum Math_min Z.min Z.le proper_min ltac:(intros; lia) ltac:(intros; cbv beta; lia) ltac:(intros; cbv beta in *; lia)
    ltac:(intros; cbv beta; lia) l x Hx Hl)
    as (H1 & (a & Ha & Ea) & H3).
  destruct (fold_extremum Math_max Z.max (fun a b => b <= a) proper_max ltac:(intros; lia) ltac:(intros; cbv beta; lia) ltac:(intros; cbv beta in *; lia)
    ltac:(intros; cbv beta; lia) l x Hx Hl)
    as (H1' & (b & Hb & Eb) & H3').
  split; [done|]. split; [done|]. split; [by exists a, b|]. intros y Hy. split; [by apply H3|by apply H3'].
Qed.

(** ** The bar of a value *)

(** With [K] for 1, [N] the number of bars, [dd] the range of the values and [pd]
    the distance of a value from the smallest one: the rounded range [D], the
    rounded size [B] of a bar, the rounded quotient [Q] and the rounded bound [T]
    of the loop that makes the bars. *)
Section rounding.
Variables K N dd pd D B X Q T : Z.
Hypothesis HK : 2 ^ 600 <= K.
Hypothesis HN : K <= N <= 175 * K.
Hypothesis Hdd : 2 ^ 221 <= dd.
Hypothesis Hpd : 0 <= pd <= dd.
Hypothesis HD : close D dd 1.
Hypothesis HB : close B (D * K) N.

Lemma range_large : 2 ^ 220 <= D /\ 2 ^ 52 * dd <= (2 ^ 52 + 1) * D.
Proof. unfold close in HD. lia. Qed.

Lemma bar_size_large : 2 ^ 200 <= B /\ 2 ^ 52 * (D * K) <= (2 ^ 52 + 1) * (B * N).
Proof.
  destruct range_large as [HD1 _]. unfold close in HB.
  assert (HDK : 2 ^ 220 * K <= D * K) by (apply Z.mul_le_mono_nonneg_r; lia).
  assert (HB1 : 2 ^ 200 <= B).
  { destruct (Z.le_gt_cases (2 ^ 200) B) as [|Hlt]; [done|exfalso].
    assert (B * N <= 2 ^ 200 * N) by (apply Z.mul_le_mono_nonneg_r; lia).
    assert (N * Z.max (2 ^ 52) B <= N * 2 ^ 200) by (apply Z.mul_le_mono_nonneg_l; lia). lia. }
  split; [done|]. rewrite Z.max_r in HB by lia. lia.
Qed.

Hypothesis HX : close X pd 1.
Hypothesis HQ : close Q (X * K) B.
Hypothesis HX0 : 0 <= X.
Hypothesis HQ0 : 0 <= Q.

Lemma quotient_bound : 4 * Q < 4 * N + K.
Proof.
  destruct range_large as [HD1 HD2], bar_size_large as [HB1 HB2]. unfold close in HX, HQ.
  destruct (Z.le_gt_cases Q (2 ^ 52)) as [|HQ1]; [lia|]. rewrite Z.max_r in HQ by lia.
  assert (H1 : (2 ^ 52 - 1) * (Q * B) <= 2 ^ 52 * (X * K)) by lia.
  destruct (Z.le_gt_cases X (2 ^ 52)) as [Hsmall|HX1].
  - assert (X * K <= 2 ^ 52 * K) by (apply Z.mul_le_mono_nonneg_r; lia).
    assert (Q * 2 ^ 200 <= Q * B) by (apply Z.mul_le_mono_nonneg_l; lia). lia.
  - assert (H2 : (2 ^ 52 - 1) * X <= (2 ^ 52 + 1) * D) by lia.
    assert (H3 : (2 ^ 52 - 1) * X * K <= (2 ^ 52 + 1) * D * K) by (apply Z.mul_le_mono_nonneg_r; lia).
    assert (H4 : (2 ^ 52 - 1) ^ 2 * (Q * B) <= (2 ^ 52 + 1) ^ 2 * (B * N)) by lia.
    assert (H5 : (2 ^ 52 - 1) ^ 2 * Q <= (2 ^ 52 + 1) ^ 2 * N).
    { apply (Z.mul_le_mono_pos_r _ _ B); lia. }
    lia.
Qed.

Hypothesis HT : close T (N + K) 1.

Lemma loop_bound : 4 * N + 2 * K < 4 * T.
Proof. unfold close in HT. lia. Qed.
End rounding.

(** A value of a task: nothing, or between 2^-800 and 2^53 (milliseconds, bytes
    or rows). *)
Definition plausible (p : jsnum) : Prop :=
  exists x, p = JNum x /\ proper x /\ (fval x = 0 \/ 2 ^ 274 <= fval x) /\ fval x < 2 ^ 1127.

Lemma granular x : proper x -> (fval x = 0 \/ 2 ^ 274 <= fval x) -> exists k, fval x = k * 2 ^ 221.
Proof.
  intros (F & V & H0) [E|E]; [exists 0; lia|].
  destruct (nonneg_value x F V H0) as [[s ->]|(m & e & -> & B)]; [exists 0; reflexivity|].
  destruct (bounded_facts _ _ B) as (B1 & B2 & _). cbn [fval cond_Zopp] in *.
  assert (221 <= e + 1074).
  { destruct (Z.le_gt_cases 221 (e + 1074)) as [|Hlt]; [done|exfalso].
    assert (2 ^ (e + 1074) <= 2 ^ 221) by (apply Z.pow_le_mono_r; lia).
    pose proof (pow2_pos (e + 1074) ltac:(lia)). set (P := 2 ^ (e + 1074)) in *.
    assert (Zpos m * P < 2 ^ 53 * P) by (apply Z.mul_lt_mono_pos_r; lia). lia. }
  exists (Zpos m * 2 ^ (e + 1074 - 221)). rewrite <- Z.mul_assoc, <- Z.pow_add_r by lia. do 2 f_equal. lia.
Qed.

Lemma plausible_numbers data : Forall plausible data -> Forall proper (map ToNumber data).
Proof. intros H. apply Forall_map. apply (Forall_impl _ _ _ H). by intros p (x & -> & Hx & _). Qed.

(** The number of bars, before rounding to an integer, is between 1 and 175. *)
Lemma num_buckets_proper (data : list jsnum) :
  data <> [] -> Z.of_nat (length data) < 2 ^ 53 ->
  proper (num_buckets data) /\ 2 ^ 1074 <= fval (num_buckets data) <= 175 * 2 ^ 1074.
Proof.
  intros Hne Hl. assert (1 <= Z.of_nat (length data)) by (destruct data; [done|cbn; lia]).
  unfold num_buckets, length_num. set (n := Z.of_nat (length data)) in *.
  assert (proper (Math_sqrt (num n)) /\ 2 ^ 1074 <= fval (Math_sqrt (num n))) as [Hs Hs1].
  { destruct (num_cases n ltac:(lia)) as [[? _]|(s & m & e & -> & B & Ef)]; [lia|].
    destruct (bounded_facts _ _ B) as [B1 _]. pose proof (fval_pos m e ltac:(lia)).
    destruct s; cbn [fval cond_Zopp] in Ef; [lia|].
    destruct (sqrt_positive m e B) as (F & V & H1).
    - pose proof (digits2_bounds m) as [_ G]. destruct (Z.le_gt_cases 1 (Zpos (digits2_pos m) + e)) as [|Hlt]; [done|exfalso].
      pose proof (pow2_pos (e + 1074) ltac:(lia)).
      assert (Zpos m * 2 ^ (e + 1074) < 2 ^ Zpos (digits2_pos m) * 2 ^ (e + 1074)) by (apply Z.mul_lt_mono_pos_r; lia).
      assert (2 ^ Zpos (digits2_pos m) * 2 ^ (e + 1074) <= 2 ^ 1074)
        by (rewrite <- Z.pow_add_r by lia; apply Z.pow_le_mono_r; lia). lia.
    - pose proof (pow2_pos 1074 ltac:(lia)). split; [|done]. split; [done|]. split; [done|lia]. }
  change HISTOGRAM_WIDTH with 175. destruct (num_spec 175 ltac:(lia)) as (V & F & E).
  assert (Hp : proper (num 175)) by (split; [done|]; split; [done|]; rewrite E; lia).
  destruct (proper_min _ _ Hp Hs) as [H1 H2]. split; [done|]. rewrite H2, E. lia.
Qed.

Lemma push_zeros_reach fuel i bound j :
  (j < fuel)%nat -> (forall k, (k <= j)%nat -> nlt (num (i + Z.of_nat k)) bound = true) ->
  (j < length (push_zeros fuel i bound))%nat.
Proof.
  revert i j. induction fuel as [|fuel IH]; intros i j Hj Hk; [lia|]. cbn [push_zeros].
  pose proof (Hk 0%nat ltac:(lia)) as H0. rewrite Z.add_0_r in H0. rewrite H0. cbn [length].
  destruct j as [|j]; [lia|]. apply -> Nat.succ_lt_mono. apply IH; [lia|]. intros k Hle.
  specialize (Hk (S k) ltac:(lia)). by replace (i + 1 + Z.of_nat k) with (i + Z.of_nat (S k)) by lia.
Qed.

Lemma floor_index x :
  proper x -> fval x < 2 ^ 32 * 2 ^ 1074 - 2 ^ 1074 ->
  to_index (Math_floor x) = Some (Z.to_nat (fval x / 2 ^ 1074)).
Proof.
  intros (F & V & H0) Hb. pose proof (pow2_pos 1074 ltac:(lia)) as HK.
  assert (Hlt : fval x / 2 ^ 1074 < 2 ^ 32 - 1) by (apply Z.div_lt_upper_bound; lia).
  destruct (floor_value x F V H0) as [(-> & s & ->)|(Hp & ->)]; [done|].
  set (r := fval x / 2 ^ 1074) in *.
  destruct (num_cases r ltac:(lia)) as [[? _]|(s & m & e & -> & B & Ef)]; [lia|].
  destruct (bounded_facts _ _ B) as [B1 _]. pose proof (fval_pos m e ltac:(lia)).
  destruct s; cbn [fval cond_Zopp] in Ef; [lia|]. cbn [to_index].
  assert (Hd : numer m e / denom e = r) by (rewrite numer_denom, Ef, Z.div_mul; lia).
  assert (Hm : numer m e mod denom e = 0).
  { assert (0 < denom e) by (unfold denom; apply pow2_pos; lia).
    assert (numer m e = r * denom e) as ->; [|by apply Z.mod_mul; lia].
    unfold numer, denom. destruct (Z.le_gt_cases 0 e).
    - rewrite (Z.max_l e 0), (Z.max_r (- e) 0), Z.mul_1_r by lia. rewrite Z.pow_add_r in Ef by lia.
      apply (Z.mul_reg_r _ _ (2 ^ 1074)); lia.
    - rewrite (Z.max_r e 0), (Z.max_l (- e) 0), Z.mul_1_r by lia. pose proof (pow2_pos (e + 1074) ltac:(lia)).
      apply (Z.mul_reg_r _ _ (2 ^ (e + 1074))); [lia|]. rewrite Ef, <- Z.mul_assoc, <- Z.pow_add_r by lia.
      do 2 f_equal. lia. }
  rewrite Hd, Hm. cbn [Z.eqb andb]. by rewrite (proj2 (Z.ltb_lt _ _)).
Qed.

(** ** Every value has a bar *)

Section bars.
Variable data : list jsnum.
Hypothesis Hne : data <> [].
Hypothesis Hlen : Z.of_nat (length data) < 2 ^ 53.
Hypothesis Hdata : Forall plausible data.
Hypothesis Hsize : (bucket_size data =f num 0) = false.

Let mn : number := (data_range data).1.
Let mx : number := (data_range data).2.
Let nb : number := num_buckets data.

Lemma data_extremes :
  proper mn /\ proper mx /\ fval mx < 2 ^ 1127 /\ (exists k, fval mx - fval mn = k * 2 ^ 221) /\
  forall p, p ∈ data -> exists x, p = JNum x /\ proper x /\ fval mn <= fval x <= fval mx.
Proof.
  destruct (range_proper (map ToNumber data)) as (Pmin & Pmax & (a & b & Ha & Hb & Ea & Eb) & Hrange);
    [by destruct data|by apply plausible_numbers|].
  assert (Hall : forall x, x ∈ map ToNumber data -> (exists k, fval x = k * 2 ^ 221) /\ fval x < 2 ^ 1127).
  { intros x (p & -> & Hp)%list_elem_of_fmap. rewrite Forall_forall in Hdata.
    destruct (Hdata p Hp) as (y & -> & Py & Hy & Hy'). split; [by apply granular|done]. }
  destruct (Hall a Ha) as [[ka Hka] _], (Hall b Hb) as [[kb Hkb] Hbb].
  split; [exact Pmin|]. split; [exact Pmax|]. split; [by unfold mx; cbn [data_range snd]; rewrite Eb|]. split.
  - exists (kb - ka). unfold mx, mn. cbn [data_range fst snd]. lia.
  - intros p Hp. pose proof Hdata as Hd. rewrite Forall_forall in Hd. destruct (Hd p Hp) as (x & -> & Px & _).
    exists x. split; [done|]. split; [done|]. apply Hrange. apply list_elem_of_fmap. by exists (JNum x).
Qed.

Lemma difference_near x :
  proper x -> fval mn <= fval x <= fval mx -> near (x -f mn) (fval x - fval mn).
Proof.
  destruct data_extremes as ((Fm & Vm & Hm) & _ & Hb & _). intros (Fx & Vx & Hx) Hr.
  assert (2 ^ 1127 <= 2 ^ 2000) by (apply Z.pow_le_mono_r; lia).
  apply nsub_close; done || lia.
Qed.

Lemma zero_quotient x y : fin x = true -> JsNumberFacts.valid x -> 0 <= fval x -> fval x = 0 -> proper y -> 0 < fval y ->
  (x /f y =f num 0) = true.
Proof.
  intros F V H0 E (Fy & Vy & Hy) Hy'.
  destruct (nonneg_value x F V H0) as [[s ->]|(m & e & -> & B)].
  - destruct (nonneg_value y Fy Vy Hy) as [[s' ->]|(m' & e' & -> & _)]; [cbn in Hy'; lia|]. by destruct s.
  - destruct (bounded_facts _ _ B) as [B1 _]. pose proof (fval_pos m e ltac:(lia)). cbn [fval cond_Zopp] in E. lia.
Qed.

(** The range of the values is not tiny, otherwise the size of a bar were 0. *)
Lemma range_not_tiny : 2 ^ 221 <= fval mx - fval mn.
Proof.
  destruct data_extremes as (Pm & Px & _ & (k & Hk) & Hin).
  assert (fval mn <= fval mx).
  { destruct data as [|p l]; [done|]. destruct (Hin p ltac:(left)) as (x & _ & _ & ?). lia. }
  destruct (Z.eq_dec (fval mx - fval mn) 0) as [E0|]; [exfalso|nia].
  destruct (difference_near mx Px ltac:(lia)) as (F & V & H0 & _).
  destruct (num_buckets_proper data Hne Hlen) as [PN HN]. pose proof (pow2_pos 1074 ltac:(lia)).
  assert ((bucket_size data =f num 0) = true); [|congruence].
  apply (zero_quotient (mx -f mn) nb); try done; [|unfold nb; lia].
  destruct (nsub_spec mx mn) as (_ & _ & Es); [apply Px|apply Pm|apply Px|apply Pm|].
  rewrite E0 in Es. change (Z.sgn 0) with 0 in Es. rewrite <- (sgn_fval _ V F) in Es. lia.
Qed.

Lemma bar_size_near :
  proper (bucket_size data) /\ 2 ^ 200 <= fval (bucket_size data) /\
  close (fval (bucket_size data)) (fval (mx -f mn) * 2 ^ 1074) (fval nb).
Proof.
  destruct data_extremes as (Pm & Px & Hb & _ & _). pose proof range_not_tiny as Ht.
  destruct (difference_near mx Px ltac:(lia)) as (F & V & H0 & Hc).
  destruct (num_buckets_proper data Hne Hlen) as [PN HN]. fold nb in PN, HN. destruct PN as (FN & VN & HN0).
  pose proof (pow2_pos 1074 ltac:(lia)) as HK.
  assert (HK6 : 2 ^ 600 <= 2 ^ 1074) by (apply Z.pow_le_mono_r; lia).
  assert (HD : fval (mx -f mn) < 2 ^ 1129) by (destruct Pm; unfold close in Hc; lia).
  destruct (ndiv_close (mx -f mn) nb F FN V VN H0 ltac:(lia)) as (FB & VB & HB0 & HB).
  { change ((2 ^ 52 - 1) * 2 ^ 2045) with ((2 ^ 52 - 1) * 2 ^ 971 * 2 ^ 1074).
    assert (2 ^ 1129 <= (2 ^ 52 - 1) * 2 ^ 971 * 2 ^ 1074) by lia. nia. }
  destruct (bar_size_large (2 ^ 1074) (fval nb) (fval mx - fval mn) (fval (mx -f mn)) (fval (bucket_size data)))
    as [H200 _]; done.
Qed.

(** The rounded bar number of a value is below the rounded bound of the loop. *)
Lemma bar_number_bound x :
  proper x -> fval mn <= fval x <= fval mx ->
  let q := (x -f mn) /f bucket_size data in
  proper q /\ 4 * fval q < 4 * fval nb + 2 ^ 1074.
Proof.
  intros Px Hx q. destruct bar_size_near as ((FB & VB & HB0) & H200 & HB). pose proof range_not_tiny as Ht.
  destruct data_extremes as (Pm & Pmx & Hb & _ & _).
  destruct (difference_near mx Pmx ltac:(lia)) as (F & V & H0 & HD).
  destruct (difference_near x Px Hx) as (FX & VX & HX0 & HX).
  destruct (num_buckets_proper data Hne Hlen) as [PN HN]. fold nb in PN, HN.
  assert (HK6 : 2 ^ 600 <= 2 ^ 1074) by (apply Z.pow_le_mono_r; lia).
  assert (HX2 : fval (x -f mn) < 2 ^ 1129) by (destruct Pm; unfold close in HX; lia).
  destruct (ndiv_close (x -f mn) (bucket_size data) FX FB VX VB HX0 ltac:(lia)) as (FQ & VQ & HQ0 & HQ).
  { assert (2 ^ 1129 * 2 ^ 1074 <= (2 ^ 52 - 1) * 2 ^ 2045 * 2 ^ 200) by lia.
    assert ((2 ^ 52 - 1) * 2 ^ 2045 * 2 ^ 200 <= (2 ^ 52 - 1) * 2 ^ 2045 * fval (bucket_size data))
      by (apply Z.mul_le_mono_nonneg_l; lia). lia. }
  split; [by split|].
  apply (quotient_bound (2 ^ 1074) (fval nb) (fval mx - fval mn) (fval x - fval mn) (fval (mx -f mn))
           (fval (bucket_size data)) (fval (x -f mn)) (fval q)); done || lia.
Qed.

Lemma loop_bound_near : proper (nb +f num 1) /\ 4 * fval nb + 2 * 2 ^ 1074 < 4 * fval (nb +f num 1).
Proof.
  destruct (num_buckets_proper data Hne Hlen) as [(FN & VN & HN0) HN]. fold nb in FN, VN, HN0, HN.
  destruct (num_spec 1 ltac:(lia)) as (V1 & F1 & E1). rewrite Z.mul_1_l in E1.
  pose proof (pow2_pos 1074 ltac:(lia)). assert (HK6 : 2 ^ 600 <= 2 ^ 1074) by (apply Z.pow_le_mono_r; lia).
  destruct (nadd_close nb (num 1) FN F1 VN V1 HN0 ltac:(lia)) as (F & V & H0 & HT).
  { rewrite E1. assert (176 * 2 ^ 1074 < 2 ^ 2000) by lia. lia. }
  split; [by split|]. rewrite E1 in HT. by apply (loop_bound (2 ^ 1074) (fval nb)).
Qed.

Lemma every_value_has_a_bar : Forall (within_bars data) data.
Proof.
  apply Forall_forall. intros p Hp. destruct data_extremes as (_ & _ & _ & _ & Hin).
  destruct (Hin p Hp) as (x & -> & Px & Hx). destruct (bar_number_bound x Px Hx) as [Pq Hq].
  destruct loop_bound_near as [(FT & VT & HT0) HT].
  destruct (num_buckets_proper data Hne Hlen) as [_ HN]. fold nb in HN. pose proof (pow2_pos 1074 ltac:(lia)) as HK.
  set (q := (x -f mn) /f bucket_size data) in *. pose proof Pq as (_ & _ & Hq0).
  assert (Hj : 0 <= fval q / 2 ^ 1074 /\ fval q / 2 ^ 1074 * 2 ^ 1074 <= fval q).
  { split; [apply Z.div_pos; lia|]. rewrite Z.mul_comm. apply Z.mul_div_le. lia. }
  exists (Z.to_nat (fval q / 2 ^ 1074)). split.
  - refine (floor_index q Pq _). lia.
  - apply push_zeros_reach; [change (Z.to_nat (HISTOGRAM_WIDTH + 1)) with 176%nat; nia|].
    intros k Hk. destruct (num_spec (0 + Z.of_nat k)) as (Vk & Fk & Ek); [nia|].
    rewrite nlt_fval, Ek by done. apply Z.ltb_lt. change (num_buckets data) with nb.
    assert (Z.of_nat k * 2 ^ 1074 <= fval q / 2 ^ 1074 * 2 ^ 1074) by (apply Z.mul_le_mono_nonneg_r; lia). lia.
Qed.
End bars.

(** C14: The histogram of a stage counts every task: for values that are 0 or
    between 2^-800 and 2^53, each value falls into one of the bars, in spite of
    the rounding of the bar sizes, and bar [j] is the number of tasks whose
    value lies in it; with a single value (a range of zero) there is one bar
    with all the tasks. *)
Theorem histogram_counts data :
  Z.of_nat (length data) < 2 ^ 53 -> Forall plausible data -> data <> [] ->
  if bucket_size data =f num 0 then histogram data = [JNum (num (Z.of_nat (length data)))]
  else Forall (within_bars data) data /\ length (histogram data) = bars data /\
    forall j, (j < bars data)%nat ->
      histogram data !! j =
        Some (JNum (num (Z.of_nat (length (List.filter (fun p => bool_decide (bar data p = Some j)) data))))).
Proof.
  intros Hlen Hd Hne. unfold histogram. destruct (bucket_size data =f num 0) eqn:Hs; [done|].
  pose proof (every_value_has_a_bar data Hne Hlen Hd Hs) as Hw. split; [done|].
  rewrite push_zeros_counters. fold (bars data).
  rewrite (count_all _ _ _ data (fun _ => 0) 0) by (done || lia). split; [apply counters_length|].
  intros j Hj. by rewrite counters_lookup by done.
Qed.

Definition demo_data : list jsnum := map (fun z => JNum (num z)) [10; 20; 40; 40; 90; 100; 100; 100; 55].

Lemma plausible_int z : 0 <= z < 2 ^ 53 -> plausible (JNum (num z)).
Proof.
  intros Hz. destruct (num_spec z ltac:(lia)) as (V & F & E). exists (num z). split; [done|].
  split; [split; [done|]; split; [done|rewrite E; lia]|]. rewrite E. split; [|lia].
  assert (2 ^ 274 <= 2 ^ 1074) by (apply Z.pow_le_mono_r; lia). destruct (Z.eq_dec z 0); [lia|right; nia].
Qed.

Lemma histogram_counts_witness :
  length (histogram demo_data) = bars demo_data /\
  forall j, (j < bars demo_data)%nat ->
     histogram demo_data !! j =
       Some (JNum (num (Z.of_nat (length (List.filter (fun p => bool_decide (bar demo_data p = Some j)) demo_data))))).
Proof.
  assert (Hs : (bucket_size demo_data =f num 0) = false) by (vm_compute; reflexivity).
  pose proof (histogram_counts demo_data) as H. rewrite Hs in H. apply H; [vm_compute; reflexivity| |done].
  unfold demo_data. repeat (apply Forall_cons_2; [apply plausible_int; lia|]). apply Forall_nil_2.
Defined.
