(* ===== verification/StageSummaryFacts.v ===== *)
(** * Stages of a query: properties *)

From S2P Require Import Prelude JsString JsNumber JsNumberFacts JsSort DecimalFacts Data.
From S2P Require Import Utils UtilsFacts VDom TaskList StageSummary.

(** ** The list of stages *)

Section stage_induction.
Variable P : Stage -> Prop.
Hypothesis step : forall stage,
  (forall subs, sg_subStages stage = Some subs -> Forall P subs) -> P stage.

(** Induction over the tree of stages. *)
Fixpoint stage_tree_ind (stage : Stage) : P stage.
Proof.
  apply step. intros subs E. destruct stage as [? ? ? ? [subs'|] ? ?]; cbn in E; [|discriminate E].
  injection E as <-. induction subs' as [|s subs' IH]; constructor; [apply stage_tree_ind|exact IH].
Defined.
End stage_induction.

Definition substage (x y : Stage) : Prop := exists subs, sg_subStages x = Some subs /\ y ∈ subs.

Lemma get_stages_sound root x : x ∈ get_stages root -> rtc substage root x.
Proof.
  induction root as [root IH] using stage_tree_ind. intros Hx.
  assert (E : get_stages root = match sg_subStages root with
    None => [] | Some subs => root :: flat_map get_stages subs end) by by destruct root.
  rewrite E in Hx. destruct (sg_subStages root) as [subs|] eqn:Es; [|inversion Hx].
  apply elem_of_cons in Hx as [->|Hx]; [constructor|].
  apply list_elem_of_In, in_flat_map in Hx as (y & Hy & Hx). apply list_elem_of_In in Hy, Hx.
  eapply rtc_l; [exists subs; split; [exact Es|exact Hy]|].
  pose proof (IH subs eq_refl) as H. rewrite Forall_forall in H. auto.
Qed.

Lemma get_stages_complete root x :
  rtc substage root x -> (forall y, rtc substage root y -> is_Some (sg_subStages y)) -> x ∈ get_stages root.
Proof.
  intros Hr Hw. assert (is_Some (sg_subStages x)) as [xs Ex] by auto. clear Hw.
  induction Hr as [y|x y z (subs & Es & Hy) Hr IH].
  - destruct y; cbn in *. rewrite Ex. left.
  - specialize (IH Ex). destruct x; cbn in *. rewrite Es. right.
    apply list_elem_of_In, in_flat_map. exists y. by rewrite <- !list_elem_of_In.
Qed.

Lemma mounts_map {E C} (l : list C) : flat_map mounts (map (@Mount E C) l) = l.
Proof. induction l as [|x l IH]; cbn; [done|]. by f_equal. Qed.

Lemma renderStageList_mounts root : mounts (renderStageList root) = getStages root.
Proof.
  unfold renderStageList. destruct (getStages root) as [|s l]; [reflexivity|]. vdom.
  rewrite mounts_map. by rewrite !app_nil_r.
Qed.

(** C27: The list of stages shows every stage of the query: for a tree in which
    each stage says what its sub-stages are, a summary is mounted for exactly
    the stages that can be reached from the output stage. *)
Theorem stage_list_complete root :
  (forall y, rtc substage root y -> is_Some (sg_subStages y)) ->
  forall x, x ∈ mounts (renderStageList (Some root)) <-> rtc substage root x.
Proof.
  intros Hw x. rewrite renderStageList_mounts. split; [apply get_stages_sound|].
  intros Hr. by apply get_stages_complete.
Qed.

Definition demo_execution (tasks : list Task) : StageExecutionInfo :=
  {| se_state := "RUNNING"; se_tasks := tasks;
     se_stats := Some {| ss_fullyBlocked := false; ss_totalScheduledTime := "1s"; ss_totalBlockedTime := "0s";
       ss_totalCpuTime := "1s"; ss_cumulativeUserMemory := num 1000; ss_userMemoryReservation := "1kB";
       ss_peakUserMemoryReservation := "2kB"; ss_bufferedDataSize := "0B"; ss_queuedDrivers := num 0;
       ss_runningDrivers := num 2; ss_completedDrivers := num 6; ss_completedLifespans := num 0;
       ss_totalLifespans := num 0; ss_rawInputDataSize := "1kB"; ss_rawInputPositions := num 10;
       ss_outputDataSize := "1kB"; ss_outputPositions := num 10; ss_operatorSummaries := Some [] |} |}.
Definition demo_plan : Plan :=
  {| pl_id := "0"; pl_root := mkPlanNode ".OutputNode" "1" None None None None None None None;
     pl_jsonRepresentation := Ok (mkJsonNode "1" "Output" "" "" [] []); pl_distribution := "SINGLE" |}.
Definition demo_stage (id : jsstring) (tasks : list Task) (subs : list Stage) : Stage :=
  mkStage id (Some demo_plan) (demo_execution tasks) [] (Some subs) None None.
Definition demo_tree : Stage := demo_stage "q.0" demo_tasks [demo_stage "q.1" [] []; demo_stage "q.2" [] []].

Lemma substage_inv x subs y :
  sg_subStages x = Some subs -> rtc substage x y -> y = x \/ exists z, z ∈ subs /\ rtc substage z y.
Proof.
  intros Es Hr. inversion Hr as [|? z ? (subs' & Es' & Hz) Hr']; subst; [by left|].
  right. exists z. split; [|done]. congruence.
Qed.

Lemma leaf_reach id tasks y : rtc substage (demo_stage id tasks []) y -> y = demo_stage id tasks [].
Proof. intros [->|(z & Hz & _)]%(substage_inv _ []); [done|inversion Hz|done]. Qed.

Lemma stage_list_complete_witness :
  demo_stage "q.2" [] [] ∈ mounts (renderStageList (Some demo_tree)).
Proof.
  apply (stage_list_complete demo_tree).
  - intros y Hy. eapply substage_inv in Hy; [|reflexivity].
    destruct Hy as [->|(z & Hz & Hy)]; [eexists; reflexivity|].
    repeat (apply elem_of_cons in Hz as [->|Hz]; [apply leaf_reach in Hy as ->; eexists; reflexivity|]).
    inversion Hz.
  - eapply rtc_l; [|constructor]. eexists. split; [reflexivity|]. right. left.
Defined.

(** ** The order of the tasks *)

Lemma insert_by_const {A} (le : A -> A -> bool) x l :
  (forall y, y ∈ l -> le x y = true) -> insert_by le x l = x :: l.
Proof. destruct l as [|y l]; [done|]. intros H. cbn. by rewrite H by left. Qed.

Lemma stable_sort_const {A} (le : A -> A -> bool) l :
  (forall x y, x ∈ l -> y ∈ l -> le x y = true) -> stable_sort le l = l.
Proof.
  induction l as [|x l IH]; intros H; [done|].
  change (insert_by le x (stable_sort le l) = x :: l). rewrite IH by (intros; apply H; by right).
  apply insert_by_const. intros y Hy. apply H; [left|by right].
Qed.

(** [componentDidUpdate] sorts the tasks by [getTaskNumber] so that the bars
    of the charts can be labelled by their position.  On the ids of the server
    that number is the stage execution, the same for all tasks of a stage: the
    sort leaves them in the order of the answer, whatever their task numbers. *)
Theorem charts_unsorted query stage execution (tasks : list (Z * Task)) :
  46 ∉ query -> 0 <= stage -> small execution ->
  Forall (fun p => 0 <= p.1 /\ t_taskId p.2 = task_id query stage execution p.1) tasks ->
  sort_tasks (map snd tasks) = map snd tasks.
Proof.
  intros Hq Hst He Ht. apply stable_sort_const. intros x y Hx Hy.
  assert (G : forall x, x ∈ map snd tasks -> getTaskNumber (t_taskId x) = num execution).
  { intros z Hz. apply list_elem_of_In, in_map_iff in Hz as ([k z'] & <- & Hz). rewrite Forall_forall in Ht.
    destruct (Ht (k, z')) as [Hk E]; [by apply list_elem_of_In|]. cbn in *. rewrite E.
    unfold small in He. apply getTaskNumber_id; done || lia. }
  unfold stays. rewrite !G by done. rewrite nsub_int by (unfold small in He; lia).
  rewrite Z.sub_diag. reflexivity.
Qed.

Lemma charts_unsorted_witness :
  let tasks := [(7, demo_task "q.1.0.7" "" "RUNNING"); (2, demo_task "q.1.0.2" "" "RUNNING")] in
  sort_tasks (map snd tasks) = map snd tasks.
Proof.
  intros tasks. apply (charts_unsorted "q" 1 0 tasks).
  - intros H. apply (bool_decide_eq_true_2 _) in H. vm_compute in H. discriminate H.
  - lia.
  - unfold small. lia.
  - repeat (apply Forall_cons_2; [split; [cbn; lia|reflexivity]|]). apply Forall_nil_2.
Defined.

(** ** The page *)

(** The ids of the four charts of a stage. *)
Definition chart_ids (stage : Stage) : list jsstring :=
  map (fun p => js p ++ num_to_string (getStageNumber (sg_stageId stage)))
    ["scheduled-time-histogram-"; "cpu-time-histogram-"; "scheduled-time-bar-chart-"; "cpu-time-bar-chart-"]%string.

(** The tasks the page lists for an execution of the stage. *)
Definition shown_tasks (s : SSState) (info : StageExecutionInfo) : list Task :=
  if expanded s then List.filter (fun task => predicate (taskFilter s) (t_state task)) (se_tasks info) else [].

Lemma stat_table_parts cls title rows :
  Forall (fun r => mounts r.2 = [] /\ events r.2 = [] /\ html_ids r.2 = []) rows ->
  mounts (stat_table cls title rows) = [] /\ events (stat_table cls title rows) = [] /\
  html_ids (stat_table cls title rows) = [].
Proof.
  intros H. unfold stat_table. vdom.
  induction H as [|[name value] rows (H1 & H2 & H3) _ (I1 & I2 & I3)]; [done|].
  cbn [fst snd map flat_map] in *. vdom. rewrite H1, H2, H3. cbn [app] in *. done.
Qed.

Lemma task_list_parts s tasks :
  mounts (renderTaskList s tasks) =
    [List.filter (fun task => predicate (taskFilter s) (t_state task)) (if expanded s then tasks else [])] /\
  events (renderTaskList s tasks) = [] /\ html_ids (renderTaskList s tasks) = [].
Proof. done. Qed.

Lemma attempts_parts s attempts :
  mounts (renderStageExecutionAttemptsTasks s attempts) = map (shown_tasks s) attempts /\
  events (renderStageExecutionAttemptsTasks s attempts) = [] /\
  html_ids (renderStageExecutionAttemptsTasks s attempts) = [].
Proof.
  unfold renderStageExecutionAttemptsTasks. vdom.
  induction attempts as [|a attempts (I1 & I2 & I3)]; [done|]. cbn [map flat_map].
  destruct (task_list_parts s (se_tasks a)) as (-> & -> & ->). rewrite I1, I2, I3. cbn [app].
  split; [|done]. f_equal. unfold shown_tasks. by destruct (expanded s).
Qed.

(** The summary of a stage with statistics always renders.  It has the four
    elements that the charts are drawn into, the button that expands it, the
    five filters, and one task list per execution of the stage, the latest
    first, with the tasks the filter admits (none while the summary is folded). *)
Theorem stage_page_complete stage s plan stats :
  sg_plan stage = Some plan -> se_stats (sg_latestAttemptExecutionInfo stage) = Some stats ->
  exists n, render (Some stage) s = Ok n /\
    html_ids n = chart_ids stage /\
    events n = ToggleExpanded :: map TaskFilterClick [ALL; PLANNED; RUNNING; FINISHED; FAILED] /\
    mounts n = map (shown_tasks s) (sg_latestAttemptExecutionInfo stage :: sg_previousAttemptsExecutionInfos stage).
Proof.
  intros Hp Hs. unfold render. rewrite Hp, Hs. cbn [mbind res_bind get_prop].
  destruct (formatSize_total_bytes (ss_cumulativeUserMemory stats /f num 1000)) as [? ->]; [done|].
  cbn [mbind res_bind]. unfold formatDataSize.
  edestruct (formatSize_total) as [? ->]; [|cbn [mbind res_bind]; eexists; split; [reflexivity|]]; [done|].
  unfold stat_cells, chart_cells, expanded_rows, chart_id. cbn [app]. vdom.
  destruct (attempts_parts s [sg_latestAttemptExecutionInfo stage]) as (-> & -> & ->).
  destruct (attempts_parts s (sg_previousAttemptsExecutionInfos stage)) as (-> & -> & ->).
  repeat match goal with |- context [stat_table ?c ?t ?rows] =>
    let H := fresh in assert (H := stat_table_parts c t rows ltac:(by repeat constructor));
    destruct H as (-> & -> & ->) end.
  cbn [app map]. rewrite !app_nil_r. done.
Qed.

Lemma stage_page_complete_witness :
  exists n, render (Some demo_tree) (handleTaskFilterClick FINISHED (toggleExpanded ss_init)) = Ok n /\
    mounts n = [drop 1 (take 2 demo_tasks)].
Proof.
  destruct (stage_page_complete demo_tree (handleTaskFilterClick FINISHED (toggleExpanded ss_init)) demo_plan
              (default (mkStageStats false [] [] [] (num 0) [] [] [] (num 0) (num 0) (num 0) (num 0) (num 0)
                          [] (num 0) [] (num 0) None) (se_stats (demo_execution [])))) as (n & E & _ & _ & M);
    [reflexivity..|]. exists n. split; [exact E|]. rewrite M. vm_compute. reflexivity.
Defined.

(** ** Drawing *)

Lemma renderHistogram_total id data :
  exists c, renderHistogram id data formatDuration = Ok c /\ ch_selector c = id.
Proof.
  unfold renderHistogram.
  destruct (res_map_Forall (histogram_tooltip (data_range data).1 (bucket_size data) formatDuration)
              (seq 0 (length (histogram data)))) as [ts ->].
  - apply Forall_forall. intros i _. unfold histogram_tooltip.
    edestruct (formatDuration_total) as [? ->]; [|cbn [mbind res_bind]]; [done|].
    edestruct (formatDuration_total) as [? ->]; [|cbn [mbind res_bind]; eauto]. done.
  - cbn [mbind res_bind]. eauto.
Qed.

(** The selectors a stage draws into. *)
Definition drawn_selectors (s : SSState) (stage : Stage) : list jsstring :=
  map (app (js "#")) (if expanded s then chart_ids stage else take 2 (chart_ids stage)).

Lemma stage_charts_total s stage :
  exists charts, stage_charts s stage = Ok charts /\ map ch_selector charts = drawn_selectors s stage.
Proof.
  unfold stage_charts.
  edestruct (renderHistogram_total) as (h1 & -> & H1).
  edestruct (renderHistogram_total) as (h2 & -> & H2). cbn [mbind res_bind].
  eexists. split; [reflexivity|]. cbn [map]. rewrite H1, H2. unfold drawn_selectors. by destruct (expanded s).
Qed.

Lemma sort_tasks_perm tasks : sort_tasks tasks ≡ₚ tasks.
Proof. apply stable_sort_perm. Qed.

(** An update of a stage summary ends after at most one drawing: it draws the
    two histograms, and the two bar charts of an expanded summary, into elements
    of the page, and only when the last drawing is a second old; the tasks of
    the stage are rearranged, none is lost. *)
Theorem stage_update_draws_once now t now' t' clock stage s :
  now' - t < 1000 ->
  exists drawn stage' s',
    componentDidUpdate ((now, t) :: (now', t') :: clock) stage s = Ok (drawn, stage', s') /\
    map (map ch_selector) drawn = (if redraw_due s now then [drawn_selectors s stage] else []) /\
    lastRender s' = (if redraw_due s now then Some t else lastRender s) /\
    stage_tasks stage' ≡ₚ stage_tasks stage.
Proof.
  intros Hlt. cbn [componentDidUpdate]. set (sorted := with_tasks _ stage).
  assert (Hsorted : stage_tasks sorted ≡ₚ stage_tasks stage) by apply sort_tasks_perm.
  destruct (redraw_due s now) eqn:Hdue; [|by eauto 10].
  destruct (stage_charts_total s sorted) as (charts & -> & Hc). cbn [mbind res_bind].
  unfold redraw_due. cbn [lastRender]. rewrite Z.geb_leb, (proj2 (Z.leb_gt _ _)) by lia.
  cbn [mbind res_bind]. do 3 eexists. split; [reflexivity|]. cbn [map]. rewrite Hc.
  split; [done|]. split; [done|]. etransitivity; [exact (sort_tasks_perm (stage_tasks sorted))|exact Hsorted].
Qed.

Lemma stage_update_draws_once_witness :
  exists drawn stage' s',
    componentDidUpdate [(5000, 5001); (5002, 5002)] demo_tree (toggleExpanded ss_init) = Ok (drawn, stage', s') /\
    length (concat drawn) = 4%nat.
Proof.
  destruct (stage_update_draws_once 5000 5001 5002 5002 [] demo_tree (toggleExpanded ss_init))
    as (drawn & stage' & s' & E & D & _); [lia|].
  exists drawn, stage', s'. split; [exact E|].
  rewrite <- (length_map ch_selector), concat_map, D. reflexivity.
Defined.
