(* ===== verification/QueryDetail.v ===== *)
(** * The page of a query ([QueryDetail] of [QueryDetail.jsx]) *)

From S2P Require Import Prelude JsString JsNumber JsObject Data Utils JsDate EventLoop VDom.
From S2P Require Import QueryHeader StageSummary.

(** ** Stack traces *)

Definition failureInfoToString (t : FailureInfo) : jsstring :=
  match fi_message t with
  | MNull => fi_type t
  | MText message => fi_type t ++ js ": " ++ message
  | MUndefined => fi_type t ++ js ": undefined"
  end.

(** The loop of [countSharedStackFrames] on the reversed stacks: the frames are
    compared from the last one on. *)
Fixpoint shared_from_end (stack parentStack : list jsstring) : nat :=
  match stack, parentStack with
  | x :: stack', y :: parentStack' =>
      if str_eqb x y then S (shared_from_end stack' parentStack') else O
  | _, _ => O
  end.

Definition countSharedStackFrames (stack parentStack : list jsstring) : nat :=
  shared_from_end (reverse stack) (reverse parentStack).

Definition newline : jsstring := [10].
Definition tab : jsstring := [9].

(** The lines of one stack. *)
Definition stack_lines (stack : list jsstring) (sharedStackFrames : nat) (linePrefix : jsstring) : jsstring :=
  concat (map (fun frame => linePrefix ++ tab ++ js "at " ++ frame ++ newline)
            (take (length stack - sharedStackFrames) stack)) ++
  (if (sharedStackFrames =? 0)%nat then []
   else linePrefix ++ tab ++ js "... " ++ dec (Z.of_nat sharedStackFrames) ++ js " more" ++ newline).

(** The guard [parentStack !== null] lets an enclosing failure without a [stack]
    through, and reading the length of [undefined] throws. *)
Definition own_lines (stack parentStack : Stack) (linePrefix : jsstring) : res jsstring :=
  match stack with
  | Frames stack =>
      sharedStackFrames ←
        match parentStack with
        | Frames parentStack => Ok (countSharedStackFrames stack parentStack)
        | StackNull => Ok O
        | StackUndefined => Throw (TypeError "parentStack.length")
        end;
      Ok (stack_lines stack sharedStackFrames linePrefix)
  | StackNull | StackUndefined => Ok []
  end.

Fixpoint formatStackTraceHelper (info : FailureInfo) (parentStack : Stack)
    (prefix linePrefix : jsstring) : res jsstring :=
  let first := linePrefix ++ prefix ++ failureInfoToString info ++ newline in
  own ← own_lines (fi_stack info) parentStack linePrefix;
  suppressed ←
    match fi_suppressed info with
    | None => Ok []
    | Some l =>
        (fix each l :=
           match l with
           | [] => Ok []
           | f :: l' =>
               t ← formatStackTraceHelper f (fi_stack info) (js "Suppressed: ") (linePrefix ++ tab);
               r ← each l'; Ok (t ++ r)
           end) l
    end;
  cause ←
    match fi_cause info with
    | None => Ok []
    | Some c => formatStackTraceHelper c (fi_stack info) (js "Caused by: ") linePrefix
    end;
  Ok (first ++ own ++ suppressed ++ cause).

Definition formatStackTrace (info : FailureInfo) : res jsstring :=
  formatStackTraceHelper info (Frames []) [] [].

(** ** State

    [lastSnapshotStages] is the field the constructor and the click handler
    write, [lastSnapshotStage] the one that is rendered; it is [undefined]
    ([None]) until the first answer. *)
Record QDState := mkQDState {
  query : option Query;
  lastSnapshotStages : option (option Stage);
  lastSnapshotStage : option Stage;
  lastScheduledTime : jsnum;
  lastCpuTime : jsnum;
  lastRowInput : jsnum;
  lastByteInput : jsnum;
  scheduledTimeRate : list number;
  cpuTimeRate : list number;
  rowInputRate : list number;
  byteInputRate : list number;
  reservedMemory : list jsnum;
  initialized : bool;
  ended : bool;
  lastRefresh : option Z;
  lastRender : option Z;
  stageRefresh : bool
}.

Definition qd_init : QDState := {|
  query := None; lastSnapshotStages := None; lastSnapshotStage := None;
  lastScheduledTime := num 0; lastCpuTime := num 0; lastRowInput := num 0; lastByteInput := num 0;
  scheduledTimeRate := []; cpuTimeRate := []; rowInputRate := []; byteInputRate := [];
  reservedMemory := []; initialized := false; ended := false; lastRefresh := None; lastRender := None;
  stageRefresh := true |}.

(** The first [setState] of an answer. *)
Definition with_answer (q : Query) (st : QueryStats) (nowMillis : Z) (s : QDState) : QDState := {|
  query := Some q; lastSnapshotStages := lastSnapshotStages s;
  lastSnapshotStage := if stageRefresh s then q_outputStage q else lastSnapshotStage s;
  lastScheduledTime := parseDuration (qs_totalScheduledTime st);
  lastCpuTime := parseDuration (qs_totalCpuTime st);
  lastRowInput := qs_processedInputPositions st;
  lastByteInput := parseDataSize (qs_processedInputDataSize st);
  scheduledTimeRate := scheduledTimeRate s; cpuTimeRate := cpuTimeRate s;
  rowInputRate := rowInputRate s; byteInputRate := byteInputRate s; reservedMemory := reservedMemory s;
  initialized := true; ended := q_finalQueryInfo q; lastRefresh := Some nowMillis;
  lastRender := lastRender s; stageRefresh := stageRefresh s |}.

(** The second one; [old] is the state before the answer. *)
Definition with_rates (st : QueryStats) (elapsedSecsSinceLastRefresh : number) (old s : QDState) : QDState :=
  let millis := elapsedSecsSinceLastRefresh *f num 1000 in
  let rate (new old : jsnum) (d : number) := (ToNumber new -f ToNumber old) /f d in
  {| query := query s; lastSnapshotStages := lastSnapshotStages s; lastSnapshotStage := lastSnapshotStage s;
     lastScheduledTime := lastScheduledTime s; lastCpuTime := lastCpuTime s;
     lastRowInput := lastRowInput s; lastByteInput := lastByteInput s;
     scheduledTimeRate := addToHistory
       (rate (parseDuration (qs_totalScheduledTime st)) (lastScheduledTime old) millis) (scheduledTimeRate s);
     cpuTimeRate := addToHistory
       (rate (parseDuration (qs_totalCpuTime st)) (lastCpuTime old) millis) (cpuTimeRate s);
     rowInputRate := addToHistory
       (rate (qs_processedInputPositions st) (lastRowInput old) elapsedSecsSinceLastRefresh) (rowInputRate s);
     byteInputRate := addToHistory
       (rate (parseDataSize (qs_processedInputDataSize st)) (lastByteInput old) elapsedSecsSinceLastRefresh)
       (byteInputRate s);
     reservedMemory := addToHistory (parseDataSize (qs_userMemoryReservation st)) (reservedMemory s);
     initialized := initialized s; ended := ended s; lastRefresh := lastRefresh s;
     lastRender := lastRender s; stageRefresh := stageRefresh s |}.

(** The seconds the second one is computed with, when there is one; [s] is the
    state before the answer. *)
Definition rate_interval (q : Query) (st : QueryStats) (nowMillis : Z) (s : QDState) : option number :=
  if ended s || (match lastRefresh s with None => true | _ => false end && (q_state q === "RUNNING")) then None
  else
    let last := match lastRefresh s with
                | Some t => num t
                | None => num nowMillis -f ToNumber (parseDuration (qs_elapsedTime st))
                end in
    let elapsedSecsSinceLastRefresh := (num nowMillis -f last) /f num 1000 in
    if elapsedSecsSinceLastRefresh >=f num 0 then Some elapsedSecsSinceLastRefresh else None.

Definition with_initialized (s : QDState) : QDState :=
  mkQDState (query s) (lastSnapshotStages s) (lastSnapshotStage s) (lastScheduledTime s) (lastCpuTime s)
    (lastRowInput s) (lastByteInput s) (scheduledTimeRate s) (cpuTimeRate s) (rowInputRate s) (byteInputRate s)
    (reservedMemory s) true (ended s) (lastRefresh s) (lastRender s) (stageRefresh s).

(** ** Sparklines: what happens after an update *)

Definition SMALL_SPARKLINE_PROPERTIES : list (string * jsstring) :=
  [("width"%string, js "100%"); ("height"%string, js "57px"); ("fillColor"%string, js "#3F4552");
   ("lineColor"%string, js "#747F96"); ("spotColor"%string, js "#1EDCFF");
   ("tooltipClassname"%string, js "sparkline-tooltip"); ("disableHiddenCheck"%string, js "true")].

(** A chart of the page, with its range if it has one and the formatter of its
    numbers, and the other calls of libraries. *)
Inductive QDEffect :=
  | DrawSparkline (selector : jsstring) (values : list jsnum) (properties : list (string * jsstring))
      (chartRangeMin : option number) (numberFormatter : jsnum -> res jsstring)
  | DrawCharts (charts : list Chart)               (* of a stage summary *)
  | HighlightQuery
  | EnableTooltips
  | NewClipboard.

Definition qd_sparklines (s : QDState) : list QDEffect :=
  let draw selector values := DrawSparkline selector values SMALL_SPARKLINE_PROPERTIES in
  [draw "#scheduled-time-rate-sparkline" (map JNum (scheduledTimeRate s)) (Some (num 0)) precisionRound;
   draw "#cpu-time-rate-sparkline" (map JNum (cpuTimeRate s)) (Some (num 0)) precisionRound;
   draw "#row-input-rate-sparkline" (map JNum (rowInputRate s)) None formatCount;
   draw "#byte-input-rate-sparkline" (map JNum (byteInputRate s)) None formatDataSize;
   draw "#reserved-memory-sparkline" (reservedMemory s) None formatDataSize].

Definition with_lastRender (t : Z) (s : QDState) : QDState :=
  mkQDState (query s) (lastSnapshotStages s) (lastSnapshotStage s) (lastScheduledTime s) (lastCpuTime s)
    (lastRowInput s) (lastByteInput s) (scheduledTimeRate s) (cpuTimeRate s) (rowInputRate s) (byteInputRate s)
    (reservedMemory s) (initialized s) (ended s) (lastRefresh s) (Some t) (stageRefresh s).

Definition redraw_due (s : QDState) (now : Z) : bool :=
  match lastRender s with None => true | Some t => now - t >=? 1000 end.

(** One run: the effects, and the state it sets, if any; [now] and
    [renderTimestamp] are what the clock says. *)
Definition componentDidUpdate (now renderTimestamp : Z) (s : QDState) : list QDEffect * option QDState :=
  if redraw_due s now then
    (qd_sparklines s ++ (match lastRender s with None => [HighlightQuery] | Some _ => [] end) ++
     [EnableTooltips; NewClipboard], Some (with_lastRender renderTimestamp s))
  else ([EnableTooltips; NewClipboard], None).

Definition with_stageRefresh (b : bool) (stages : option (option Stage)) (s : QDState) : QDState :=
  mkQDState (query s) stages (lastSnapshotStage s) (lastScheduledTime s) (lastCpuTime s)
    (lastRowInput s) (lastByteInput s) (scheduledTimeRate s) (cpuTimeRate s) (rowInputRate s) (byteInputRate s)
    (reservedMemory s) (initialized s) (ended s) (lastRefresh s) (lastRender s) b.

Inductive QDEvent := StageRefreshClick.

(** ** Rendering *)

(** The mounted components and their props. *)
Inductive QDChild :=
  | CQueryHeader (query : Query)
  | CStageList (outputStage : option Stage).

Abbreviation QNode := (node QDEvent QDChild).

Definition renderStageRefreshButton (s : QDState) : QNode :=
  El "button" [class_ "btn btn-info live-button"; onClick StageRefreshClick]
    [Txt (if stageRefresh s then "Auto-Refresh: On" else "Auto-Refresh: Off")].

(** [lastSnapshotStage] is [undefined] or a stage, never [null]: the early return
    is not taken. *)
Definition renderStages (s : QDState) : QNode :=
  El "div" []
    [El "div" [class_ "row"]
       [El "div" [class_ "col-xs-9"] [El "h3" [] [Txt "Stages"]];
        El "div" [class_ "col-xs-3"]
          [El "table" [class_ "header-inline-links"]
             [El "tbody" [] [El "tr" [] [El "td" [] [renderStageRefreshButton s]]]]]];
     El "div" [class_ "row"] [El "div" [class_ "col-xs-12"] [Mount (CStageList (lastSnapshotStage s))]]].

(** [for (let k in o) if (o.hasOwnProperty(k)) ...]: the method is the object's
    own property when it has one of that name, and then no function. *)
Definition for_own {V B} (o : jsobj V) (f : jsstring -> V -> res (list B)) : res (list B) :=
  l ← res_map (fun k =>
        if mhas (js "hasOwnProperty") o then Throw (TypeError "hasOwnProperty")
        else match mget k o with Some v => f k v | None => Ok [] end) (own_keys o);
  Ok (concat l).

Definition property_span (text : jsstring) : QNode :=
  El "span" [] [Txt "- "; Txt text; Txt " "; El "br" [] []].

Definition renderSessionProperties (q : Query) : res QNode :=
  system ← for_own (se_systemProperties (q_session q))
             (fun property value => Ok [property_span (property ++ js "=" ++ value)]);
  catalogs ← for_own (se_catalogProperties (q_session q))
               (fun catalog properties =>
                  for_own properties
                    (fun property value =>
                       Ok [property_span (catalog ++ js "." ++ property ++ js "=" ++ value)]));
  Ok (Arr (system ++ catalogs)).

(** [s.replace(new RegExp(c), r)] for a letter [c]. *)
Fixpoint replace_first (c : Z) (r s : jsstring) : jsstring :=
  match s with
  | [] => []
  | x :: s' => if x =? c then r ++ s' else x :: replace_first c r s'
  end.

Definition is_upper (c : Z) : bool := (65 <=? c) && (c <=? 90).

Definition snakeCased (resource : jsstring) : jsstring :=
  let upperChars := List.filter is_upper resource in
  fold_left (fun s c => replace_first c (js "_" ++ [lower_unit c]) s) upperChars resource.

Definition renderResourceEstimates (q : Query) : res QNode :=
  l ← for_own (se_resourceEstimates (q_session q))
        (fun resource value => Ok [property_span (snakeCased resource ++ js "=" ++ value)]);
  Ok (Arr l).

Definition renderWarningInfo (q : Query) : res QNode :=
  warnings ← get_prop "length" (q_warnings q);
  match warnings with
  | [] => Ok Nothing
  | _ =>
      Ok (El "div" [class_ "row"]
        [El "div" [class_ "col-xs-12"]
           [El "h3" [] [Txt "Warnings"]; El "hr" [class_ "h3-hr"] [];
            El "table" [class_ "table"; sattr "id" "warnings-table"]
              [Arr (map (fun w => El "tr" [] [El "td" [] [Txt (w_code_name w)]; El "td" [] [Txt (w_message w)]])
                      warnings)]]])
  end.

Definition copy_icon : QNode :=
  El "span" [class_ "glyphicon glyphicon-copy"; sattr "aria-hidden" "true"; sattr "alt" "Copy to clipboard"] [].

Definition copy_button (attrs : list (string * attr QDEvent)) (target : string) : QNode :=
  El "a" (attrs ++ [sattr "data-clipboard-target" target; sattr "data-toggle" "tooltip";
                    sattr "data-placement" "right"; sattr "title" "Copy to clipboard"]) [copy_icon].

(** A row of a table: title, class of the value, value. *)
Definition info_row (title : string) (cls : string) (value : QNode) : QNode :=
  El "tr" [] [El "td" [class_ "info-title"] [Txt title]; El "td" [class_ cls] [value]].
Definition row (title : string) (value : jsstring) : QNode := info_row title "info-text" (Txt value).

Definition table_of (title : string) (rows : list QNode) : QNode :=
  El "div" [class_ "col-xs-6"]
    [El "h3" [] [Txt title]; El "hr" [class_ "h3-hr"] []; El "table" [class_ "table"] [El "tbody" [] rows]].

Definition renderFailureInfo (q : Query) : res QNode :=
  match q_failureInfo q with
  | None => Ok (Txt "")
  | Some failureInfo =>
      errorCode ← get_prop "name" (q_errorCode q);
      trace ← formatStackTrace failureInfo;
      Ok (El "div" [class_ "row"]
        [El "div" [class_ "col-xs-12"]
           [El "h3" [] [Txt "Error Information"]; El "hr" [class_ "h3-hr"] [];
            El "table" [class_ "table"]
              [El "tbody" []
                 [info_row "Error Type" "info-text" (opt_txt (q_errorType q));
                  row "Error Code" (ec_name errorCode ++ js " (" ++ num_to_string (ec_code errorCode) ++ js ")");
                  El "tr" []
                    [El "td" [class_ "info-title"]
                       [Txt "Stack Trace"; copy_button [class_ "btn copy-button"] "#stack-trace"];
                     El "td" [class_ "info-text"] [El "pre" [sattr "id" "stack-trace"] [Txt trace]]]]]]])
  end.

(** [history[history.length - 1]]. *)
Definition latest_value (l : list jsnum) : jsnum := default JUndef (last l).

Definition spark_rows (title id : string) (value : jsstring) : list QNode :=
  [El "tr" []
     [El "td" [class_ "info-title"] [Txt title];
      El "td" [sattr "rowSpan" "2"]
        [El "div" [class_ "query-stats-sparkline-container"]
           [El "span" [class_ "sparkline"; sattr "id" id] [El "div" [class_ "loader"] [Txt "Loading ..."]]]]];
   El "tr" [class_ "tr-noborder"] [El "td" [class_ "info-sparkline-text"] [Txt value]]].

Section page.
Context `{DateEnv}.

Definition session_table (q : Query) : res QNode :=
  let session := q_session q in
  properties ← renderSessionProperties q;
  estimates ← renderResourceEstimates q;
  Ok (table_of "Session"
    [El "tr" []
       [El "td" [class_ "info-title"] [Txt "User"];
        El "td" [class_ "info-text wrap-text"]
          [El "span" [sattr "id" "query-user"] [opt_txt (se_user session)]; Txt (nbsp ++ nbsp);
           copy_button [sattr "href" "#"; class_ "copy-button"] "#query-user"]];
     info_row "Principal" "info-text wrap-text" (opt_txt (se_principal session));
     info_row "Source" "info-text wrap-text" (opt_txt (se_source session));
     info_row "Catalog" "info-text" (opt_txt (se_catalog session));
     info_row "Schema" "info-text" (opt_txt (se_schema session));
     info_row "Client Address" "info-text" (opt_txt (se_remoteUserAddress session));
     row "Client Tags" (join ", " (se_clientTags session));
     info_row "Session Properties" "info-text wrap-text" properties;
     info_row "Resource Estimates" "info-text wrap-text" estimates]).

Definition execution_table (q : Query) (stats : QueryStats) : QNode :=
  table_of "Execution"
    [info_row "Resource Group" "info-text wrap-text"
       (Txt (match q_resourceGroupId q with Some l => join "." l | None => js "n/a" end));
     row "Submission Time" (formatShortDateTime (date_of (parse_time (qs_createTime stats))));
     row "Completion Time"
       (match qs_endTime stats with
        | Some (c :: t) => formatShortDateTime (date_of (parse_time (c :: t)))
        | _ => []
        end);
     row "Elapsed Time" (qs_elapsedTime stats);
     row "Queued Time" (qs_queuedTime stats);
     row "Planning Time" (qs_totalPlanningTime stats);
     row "Execution Time" (qs_executionTime stats)].

Definition resource_table (q : Query) (stats : QueryStats) : res QNode :=
  inputRows ← formatCount (qs_processedInputPositions stats);
  rawInputRows ← formatCount (qs_rawInputPositions stats);
  cumulative ← formatDataSizeBytes (JNum (qs_cumulativeUserMemory stats /f num 1000));
  outputRows ← formatCount (qs_outputPositions stats);
  writtenRows ← formatCount (qs_writtenOutputPositions stats);
  Ok (table_of "Resource Utilization Summary"
    [row "CPU Time" (qs_totalCpuTime stats);
     row "Scheduled Time" (qs_totalScheduledTime stats);
     row "Blocked Time" (qs_totalBlockedTime stats);
     row "Input Rows" inputRows;
     row "Input Data" (qs_processedInputDataSize stats);
     row "Raw Input Rows" rawInputRows;
     row "Raw Input Data" (qs_rawInputDataSize stats);
     row "Peak User Memory" (qs_peakUserMemoryReservation stats);
     row "Peak Total Memory" (qs_peakTotalMemoryReservation stats);
     row "Memory Pool" (q_memoryPool q);
     row "Cumulative User Memory" (cumulative ++ js " seconds");
     row "Output Rows" outputRows;
     row "Output Data" (qs_outputDataSize stats);
     row "Written Output Rows" writtenRows;
     row "Written Output Logical Data Size" (qs_writtenOutputLogicalDataSize stats);
     row "Written Output Physical Data Size" (qs_writtenOutputPhysicalDataSize stats);
     if ToNumber (parseDataSize (qs_spilledDataSize stats)) >f num 0
     then row "Spilled Data" (qs_spilledDataSize stats) else Nothing]).

Definition timeline_table (s : QDState) : res QNode :=
  parallelism ← formatCount (latest (cpuTimeRate s));
  scheduled ← formatCount (latest (scheduledTimeRate s));
  rows ← formatCount (latest (rowInputRate s));
  bytes ← formatDataSize (latest (byteInputRate s));
  memory ← formatDataSize (latest_value (reservedMemory s));
  Ok (table_of "Timeline"
    (spark_rows "Parallelism" "cpu-time-rate-sparkline" parallelism ++
     spark_rows "Scheduled Time/s" "scheduled-time-rate-sparkline" scheduled ++
     spark_rows "Input Rows/s" "row-input-rate-sparkline" rows ++
     spark_rows "Input Bytes/s" "byte-input-rate-sparkline" bytes ++
     spark_rows "Memory Utilization" "reserved-memory-sparkline" memory)).

Definition query_text (q : Query) : QNode :=
  El "div" [class_ "row"]
    [El "div" [class_ "col-xs-12"]
       [El "h3" [] [Txt "Query"; copy_button [class_ "btn copy-button"] "#query-text"];
        El "pre" [sattr "id" "query"]
          [El "code" [class_ "lang-sql"; sattr "id" "query-text"] [Txt (q_query q)]]]].

Definition message_page (label : QNode) : QNode :=
  El "div" [class_ "row error-message"] [El "div" [class_ "col-xs-12"] [El "h4" [] [label]]].

Definition render (s : QDState) : res QNode :=
  match query s, initialized s with
  | Some q, true =>
      session ← session_table q;
      stats ← get_prop "createTime" (q_queryStats q);
      resources ← resource_table q stats;
      timeline ← timeline_table s;
      warnings ← renderWarningInfo q;
      failure ← renderFailureInfo q;
      Ok (El "div" []
        [Mount (CQueryHeader q);
         El "div" [class_ "row"] [session; execution_table q stats];
         El "div" [class_ "row"]
           [El "div" [class_ "col-xs-12"] [El "div" [class_ "row"] [resources; timeline]]];
         warnings; failure; query_text q; renderStages s])
  | _, true => Ok (message_page (Txt "Query not found"))
  | _, false => Ok (message_page (El "div" [class_ "loader"] [Txt "Loading..."]))
  end.
End page.
