(* ===== verification/QueryDetailFacts.v ===== *)
(** * The page of a query: properties *)

From S2P Require Import Prelude JsString JsNumber JsObject Data Utils UtilsFacts JsDate EventLoop VDom.
From S2P Require Import TaskList StageSummary StageSummaryFacts QueryDetail.

(** ** Shared stack frames *)

Lemma shared_from_end_spec a b :
  let n := shared_from_end a b in
  (n <= length a)%nat /\ (n <= length b)%nat /\ take n a = take n b /\
  forall m, (m <= length a)%nat -> (m <= length b)%nat -> take m a = take m b -> (m <= n)%nat.
Proof.
  cbn zeta. revert b. induction a as [|x a IH]; intros [|y b]; cbn [shared_from_end length];
    try (split; [lia|]; split; [lia|]; split; [done|]; intros; lia).
  destruct (str_eqb_spec x y) as [->|Hne].
  - destruct (IH b) as (H1 & H2 & H3 & H4). split; [lia|]. split; [lia|].
    split; [cbn; by rewrite H3|]. intros [|m] Ha Hb Hm; [lia|]. cbn in *.
    injection Hm as Hm. specialize (H4 m ltac:(lia) ltac:(lia) Hm). lia.
  - split; [lia|]. split; [lia|]. split; [done|]. intros [|m] Ha Hb Hm; [lia|]. cbn in Hm. congruence.
Qed.

Lemma take_reverse_lastn {A} n (l : list A) : take n (reverse l) = reverse (lastn n l).
Proof. unfold lastn. by rewrite take_reverse. Qed.

Lemma lastn_eq_take {A} m (a b : list A) : lastn m a = lastn m b <-> take m (reverse a) = take m (reverse b).
Proof.
  rewrite !take_reverse_lastn. split; [by intros ->|]. apply (inj reverse).
Qed.

(** C16: The number of frames a stack trace leaves out is the length of the longest
    common end of the stack and the enclosing one: the frames that are printed,
    followed by that many last frames of the enclosing stack, are the whole
    stack, and no larger number of frames would do. *)
Theorem shared_frames_correct stack parent :
  let n := countSharedStackFrames stack parent in
  (n <= length stack)%nat /\ (n <= length parent)%nat /\
  take (length stack - n) stack ++ lastn n parent = stack /\
  forall m, (m <= length stack)%nat -> (m <= length parent)%nat -> lastn m stack = lastn m parent -> (m <= n)%nat.
Proof.
  cbn zeta. unfold countSharedStackFrames.
  destruct (shared_from_end_spec (reverse stack) (reverse parent)) as (H1 & H2 & H3 & H4).
  set (n := shared_from_end _ _) in *. rewrite !length_reverse in *.
  split; [done|]. split; [done|]. split.
  - apply lastn_eq_take in H3. rewrite <- H3. unfold lastn. apply take_drop.
  - intros m Ha Hb Hm. apply H4; [done..|]. by apply lastn_eq_take.
Qed.

(** ** Stack traces *)

Section failure_induction.
Variable P : FailureInfo -> Prop.
Hypothesis step : forall f,
  (forall l, fi_suppressed f = Some l -> Forall P l) -> (forall c, fi_cause f = Some c -> P c) -> P f.

Fixpoint failure_ind (f : FailureInfo) : P f.
Proof.
  apply step; destruct f as [? ? ? [l|] [c|]]; cbn; intros ? E; try discriminate E; injection E as <-.
  1, 2: (induction l as [|x l IH]; constructor; [apply failure_ind|exact IH]).
  all: apply failure_ind.
Defined.
End failure_induction.

(** The failures a failure is made of. *)
Inductive part_of : FailureInfo -> FailureInfo -> Prop :=
  | part_self f : part_of f f
  | part_suppressed f g h l : fi_suppressed f = Some l -> g ∈ l -> part_of g h -> part_of f h
  | part_cause f c h : fi_cause f = Some c -> part_of c h -> part_of f h.

(** Every failure has the property [stack], be it [null]; the documents of the
    server give every failure a list of frames. *)
Definition has_stacks (f : FailureInfo) : Prop := forall g, part_of f g -> fi_stack g <> StackUndefined.

(** The first line of a failure in the trace. *)
Definition first_line (linePrefix prefix : jsstring) (f : FailureInfo) : jsstring :=
  linePrefix ++ prefix ++ failureInfoToString f ++ newline.

(** [u] is a part of [t]. *)
Definition inside (u t : jsstring) : Prop := exists a b, t = a ++ u ++ b.

Lemma inside_l u t r : inside u t -> inside u (t ++ r).
Proof. intros (a & b & ->). exists a, (b ++ r). by rewrite <- !app_assoc. Qed.
Lemma inside_r u t l : inside u t -> inside u (l ++ t).
Proof. intros (a & b & ->). exists (l ++ a), b. by rewrite <- !app_assoc. Qed.
Lemma inside_concat u t ts : inside u t -> t ∈ ts -> inside u (concat ts).
Proof.
  intros Hu. induction ts as [|x ts IH]; [intros Hin; inversion Hin|]. cbn.
  intros [->|Hin]%elem_of_cons; [by apply inside_l|]. apply inside_r. auto.
Qed.

(** The trace exists and has a line for every part of the failure. *)
Definition formats (f : FailureInfo) (parent : Stack) (prefix linePrefix : jsstring) : Prop :=
  exists t, formatStackTraceHelper f parent prefix linePrefix = Ok t /\
            forall g, part_of f g -> inside (failureInfoToString g ++ newline) t.

Lemma helper_eq f parent prefix linePrefix :
  formatStackTraceHelper f parent prefix linePrefix =
  (own ← own_lines (fi_stack f) parent linePrefix;
   suppressed ← match fi_suppressed f with
     | None => Ok []
     | Some l => ts ← res_map (fun g => formatStackTraceHelper g (fi_stack f) (js "Suppressed: ")
                                          (linePrefix ++ tab)) l; Ok (concat ts)
     end;
   cause ← match fi_cause f with
     | None => Ok []
     | Some c => formatStackTraceHelper c (fi_stack f) (js "Caused by: ") linePrefix
     end;
   Ok (first_line linePrefix prefix f ++ own ++ suppressed ++ cause)).
Proof.
  unfold first_line. destruct f as [ty msg stack sup cause]; cbn [formatStackTraceHelper fi_stack fi_suppressed fi_cause].
  destruct (own_lines stack parent linePrefix) as [own|]; cbn [mbind res_bind]; [|done].
  destruct sup as [l|]; [|done].
  match goal with |- context [mbind _ (?f l)] => assert (E : f l = (ts ← res_map (fun g =>
    formatStackTraceHelper g stack (js "Suppressed: ") (linePrefix ++ tab)) l; Ok (concat ts))) end.
  { induction l as [|g l IH]; [done|]. cbn [res_map].
    destruct (formatStackTraceHelper g _ _ _) as [t|]; cbn [mbind res_bind]; [|done].
    rewrite IH. destruct (res_map _ l) as [ts|]; done. }
  rewrite E. done.
Qed.

Lemma res_map_elem {A B} (f : A -> res B) l ys x :
  res_map f l = Ok ys -> x ∈ l -> exists y, f x = Ok y /\ y ∈ ys.
Proof.
  revert ys. induction l as [|z l IH]; intros ys H Hin; [inversion Hin|]. cbn in H. inv_ok.
  apply elem_of_cons in Hin as [->|Hin]; [eexists; split; [done|left]|].
  destruct (IH _ eq_refl Hin) as (y & Hy & Hin'). exists y. split; [done|by right].
Qed.

(** What the suppressed failures and the cause contribute. *)
Definition suppressed_text (f : FailureInfo) (linePrefix : jsstring) : res jsstring :=
  match fi_suppressed f with
  | None => Ok []
  | Some l => ts ← res_map (fun g => formatStackTraceHelper g (fi_stack f) (js "Suppressed: ")
                                       (linePrefix ++ tab)) l; Ok (concat ts)
  end.
Definition cause_text (f : FailureInfo) (linePrefix : jsstring) : res jsstring :=
  match fi_cause f with
  | None => Ok []
  | Some c => formatStackTraceHelper c (fi_stack f) (js "Caused by: ") linePrefix
  end.

Lemma suppressed_total f linePrefix :
  has_stacks f ->
  (forall l, fi_suppressed f = Some l -> Forall (fun g =>
     forall parent p lp, has_stacks g -> parent <> StackUndefined -> formats g parent p lp) l) ->
  exists t, suppressed_text f linePrefix = Ok t /\
    forall l g h, fi_suppressed f = Some l -> g ∈ l -> part_of g h -> inside (failureInfoToString h ++ newline) t.
Proof.
  intros Hf IH. unfold suppressed_text. destruct (fi_suppressed f) as [l|] eqn:El; [|by exists []].
  specialize (IH l eq_refl). rewrite Forall_forall in IH.
  assert (Hg : forall g, g ∈ l -> formats g (fi_stack f) (js "Suppressed: ") (linePrefix ++ tab)).
  { intros g Hin. apply IH; [done| |apply Hf; constructor].
    intros h Hh. apply Hf. by eapply part_suppressed. }
  destruct (res_map_Forall (fun g => formatStackTraceHelper g (fi_stack f) (js "Suppressed: ")
                                       (linePrefix ++ tab)) l) as [ts Hts].
  { apply Forall_forall. intros g Hin. destruct (Hg g Hin) as (t & Ht & _). eauto. }
  rewrite Hts. cbn [mbind res_bind]. eexists. split; [reflexivity|].
  intros l' g h [= <-] Hin Hh. destruct (Hg g Hin) as (t & Ht & Hall).
  destruct (res_map_elem _ _ _ _ Hts Hin) as (t' & Ht' & Hint). rewrite Ht in Ht'. injection Ht' as <-.
  eapply inside_concat; [by apply Hall|done].
Qed.

Lemma cause_total f linePrefix :
  has_stacks f ->
  (forall c, fi_cause f = Some c -> forall parent p lp, has_stacks c -> parent <> StackUndefined -> formats c parent p lp) ->
  exists t, cause_text f linePrefix = Ok t /\
    forall c h, fi_cause f = Some c -> part_of c h -> inside (failureInfoToString h ++ newline) t.
Proof.
  intros Hf IH. unfold cause_text. destruct (fi_cause f) as [c|] eqn:Ec; [|by exists []].
  destruct (IH c eq_refl (fi_stack f) (js "Caused by: ") linePrefix) as (t & Ht & Hall).
  - intros h Hh. apply Hf. by eapply part_cause.
  - apply Hf. constructor.
  - exists t. split; [done|]. intros c' h [= <-]. auto.
Qed.

Lemma own_lines_ok stack parent linePrefix :
  parent <> StackUndefined -> exists own, own_lines stack parent linePrefix = Ok own.
Proof. intros Hp. destruct stack as [l| |]; cbn; [|eauto..]. destruct parent; cbn; [eauto..|done]. Qed.

Lemma trace_total f parent prefix linePrefix :
  has_stacks f -> parent <> StackUndefined -> formats f parent prefix linePrefix.
Proof.
  revert parent prefix linePrefix. induction f as [f IHs IHc] using failure_ind.
  intros parent prefix linePrefix Hf Hparent. unfold formats. rewrite helper_eq.
  fold (suppressed_text f linePrefix) (cause_text f linePrefix).
  destruct (suppressed_total f linePrefix Hf IHs) as (sup & -> & Hsup).
  destruct (cause_total f linePrefix Hf IHc) as (cause & -> & Hcause).
  destruct (own_lines_ok (fi_stack f) parent linePrefix Hparent) as [own ->]. cbn [mbind res_bind].
  eexists. split; [reflexivity|]. intros g Hg. inversion Hg as [|? g' ? l El Hin Hp|? c ? Ec Hp]; subst.
  - apply inside_l. unfold first_line. exists (linePrefix ++ prefix), []. by rewrite app_nil_r, <- app_assoc.
  - apply inside_r, inside_r, inside_l. eauto.
  - apply inside_r, inside_r, inside_r. eauto.
Qed.

(** C31: The stack trace of a failed query can always be printed, and it has a line
    for the failure itself, for every suppressed failure and for every cause,
    at any depth. *)
Theorem formatStackTrace_complete f :
  has_stacks f ->
  exists t, formatStackTrace f = Ok t /\
    forall g, part_of f g -> inside (failureInfoToString g ++ newline) t.
Proof. intros Hf. by apply trace_total. Qed.

Definition demo_failure : FailureInfo :=
  mkFailureInfo "RuntimeException" (MText "outer") (Frames [js "a.b(C:1)"; js "main(D:9)"])
    (Some [mkFailureInfo "IOException" MNull (Frames [js "x.y(Z:2)"; js "main(D:9)"]) None None])
    (Some (mkFailureInfo "NullPointerException" (MText "inner") StackNull None
             (Some (mkFailureInfo "Error" (MText "innermost") (Frames [js "u.v(W:3)"; js "main(D:9)"]) None None)))).

Lemma demo_failure_stacks : has_stacks demo_failure.
Proof.
  intros g Hg. inversion Hg as [|? g' ? l El Hin Hp|? c ? Ec Hp]; subst; [done| |].
  - injection El as <-. apply list_elem_of_singleton in Hin as ->. inversion Hp; subst; discriminate.
  - injection Ec as <-. inversion Hp as [|? g' ? l El|? c ? Ec Hp']; subst; [done|discriminate|].
    injection Ec as <-. inversion Hp'; subst; discriminate.
Qed.

Lemma formatStackTrace_complete_witness :
  exists t, formatStackTrace demo_failure = Ok t /\ inside (js "IOException" ++ newline) t.
Proof.
  destruct (formatStackTrace_complete demo_failure demo_failure_stacks) as (t & E & H).
  exists t. split; [exact E|].
  apply (H (mkFailureInfo "IOException" MNull (Frames [js "x.y(Z:2)"; js "main(D:9)"]) None None)).
  eapply part_suppressed; [reflexivity|left|constructor].
Defined.

(** ** Resource estimates *)

Definition snake (c : Z) : jsstring := if is_upper c then [95; lower_unit c] else [c].

Lemma replace_first_skip c r p s :
  c ∉ p -> replace_first c r (p ++ s) = p ++ replace_first c r s.
Proof.
  induction p as [|x p IH]; [done|]. rewrite not_elem_of_cons. intros [Hx Hp]. cbn.
  rewrite (proj2 (Z.eqb_neq x c)) by congruence. by rewrite IH.
Qed.

Lemma lower_not_upper c : is_upper c = true -> is_upper (lower_unit c) = false.
Proof.
  unfold is_upper, lower_unit. intros H. rewrite H. bools. apply andb_false_iff. right.
  apply Z.leb_gt. lia.
Qed.

(** The name of a resource estimate is printed in snake case: every capital
    letter becomes an underscore and the small letter, everything else stays,
    also when a letter occurs more than once. *)
Theorem snakeCased_spec resource : snakeCased resource = flat_map snake resource.
Proof.
  unfold snakeCased.
  assert (G : forall r p, Forall (fun c => is_upper c = false) p ->
    fold_left (fun s c => replace_first c (js "_" ++ [lower_unit c]) s) (List.filter is_upper r) (p ++ r) =
    p ++ flat_map snake r); [|by apply (G resource [])].
  intros r. induction r as [|c r IH]; intros p Hp; [done|]. cbn [List.filter flat_map]. unfold snake at 1.
  destruct (is_upper c) eqn:Hc; cbn [fold_left].
  - rewrite replace_first_skip
      by (intros Hin; rewrite Forall_forall in Hp; specialize (Hp c Hin); congruence).
    cbn [replace_first]. rewrite Z.eqb_refl. change (js "_") with [95]. cbn [app].
    change (95 :: lower_unit c :: r) with ([95; lower_unit c] ++ r). rewrite app_assoc, IH.
    + by rewrite <- app_assoc.
    + apply Forall_app. split; [done|]. repeat constructor. by apply lower_not_upper.
  - replace (p ++ c :: r) with ((p ++ [c]) ++ r) by by rewrite <- app_assoc.
    rewrite IH; [by rewrite <- app_assoc|]. apply Forall_app. split; [done|]. by repeat constructor.
Qed.

Definition demo_query (final : bool) : Query := {|
  q_queryId := "20200601_000000_00001_abcde"; q_state := if final then "FINISHED" else "RUNNING";
  q_scheduled := true; q_memoryPool := "general"; q_errorType := None; q_errorCode := None;
  q_queryStats := Some sample_stats; q_warnings := Some []; q_session := sample_session;
  q_resourceGroupId := None; q_query := "SELECT 1"; q_outputStage := Some demo_tree;
  q_finalQueryInfo := final; q_failureInfo := None |}.

(** ** The page *)

(** Objects whose own properties do not hide [hasOwnProperty]. *)
Definition plain_object {V} (o : jsobj V) : Prop := mget (js "hasOwnProperty") o = None.

Lemma for_own_total {V B} (o : jsobj V) (f : jsstring -> V -> res (list B)) :
  plain_object o -> (forall k v, mget k o = Some v -> exists l, f k v = Ok l) ->
  exists l, for_own o f = Ok l.
Proof.
  intros Ho Hf. unfold for_own.
  match goal with |- context [res_map ?g ?l] => destruct (res_map_Forall g l) as [ys ->]; [|cbn; eauto] end.
  apply Forall_forall. intros k _. unfold mhas. rewrite Ho.
  destruct (mget k o) as [v|] eqn:E; eauto.
Qed.

(** A document the page can show. *)
Definition showable (q : Query) : Prop :=
  wf_query q /\
  plain_object (se_systemProperties (q_session q)) /\
  plain_object (se_catalogProperties (q_session q)) /\
  (forall c o, mget c (se_catalogProperties (q_session q)) = Some o -> plain_object o) /\
  plain_object (se_resourceEstimates (q_session q)) /\
  (forall f, q_failureInfo q = Some f -> has_stacks f /\ is_Some (q_errorCode q)).

(** A tree without elements of interest. *)
Definition inert (n : QNode) : Prop := html_ids n = [] /\ events n = [] /\ mounts n = [].

Lemma spans_inert l : Forall inert l -> inert (Arr l).
Proof.
  intros H. unfold inert. vdom. induction H as [|n l (H1 & H2 & H3) _ (I1 & I2 & I3)]; [done|].
  cbn [flat_map]. by rewrite H1, H2, H3, I1, I2, I3.
Qed.

Lemma for_own_spans {V} (o : jsobj V) (f : jsstring -> V -> res (list QNode)) l :
  (forall k v ns, f k v = Ok ns -> Forall inert ns) -> for_own o f = Ok l -> Forall inert l.
Proof.
  intros Hf. unfold for_own. intros H. inv_ok. revert a Hok.
  induction (own_keys o) as [|k ks IH]; intros a E; cbn in E; inv_ok; cbn; [constructor|].
  apply Forall_app. split; [|by apply IH].
  destruct (mhas _ o); [done|]. destruct (mget k o) as [v|]; [by eapply Hf|]. by injection Hok as <-.
Qed.

(** The ids, events and children of a tree. *)
Definition shows (n : QNode) (ids : list string) (evs : list QDEvent) (cs : list QDChild) : Prop :=
  html_ids n = map js ids /\ events n = evs /\ mounts n = cs.

Lemma property_span_inert t : inert (property_span t).
Proof. done. Qed.

Lemma row_inert title value : inert (row title value).
Proof. done. Qed.

Lemma info_row_inert title cls n : inert n -> inert (info_row title cls n).
Proof. intros (H1 & H2 & H3). unfold inert, info_row. vdom. by rewrite H1, H2, H3. Qed.

Lemma opt_txt_inert o : inert (opt_txt o).
Proof. by destruct o. Qed.

Lemma table_of_inert title rows : Forall inert rows -> inert (table_of title rows).
Proof.
  intros H. destruct (spans_inert rows H) as (H1 & H2 & H3). revert H1 H2 H3. unfold inert, table_of. vdom.
  intros -> -> ->. done.
Qed.

Lemma session_table_ok q : showable q -> exists n, session_table q = Ok n /\ shows n ["query-user"%string] [] [].
Proof.
  intros (_ & Hs & Hc & Hco & He & _). unfold session_table, renderSessionProperties, renderResourceEstimates.
  destruct (for_own_total (se_systemProperties (q_session q))
    (fun property value => Ok [property_span (property ++ js "=" ++ value)])) as [sys Esys]; [done|eauto|].
  destruct (for_own_total (se_catalogProperties (q_session q)) (fun catalog properties =>
    for_own properties (fun property value =>
      Ok [property_span (catalog ++ js "." ++ property ++ js "=" ++ value)]))) as [cat Ecat]; [done| |].
  { intros c o Ho. apply for_own_total; [by eapply Hco|eauto]. }
  destruct (for_own_total (se_resourceEstimates (q_session q))
    (fun resource value => Ok [property_span (snakeCased resource ++ js "=" ++ value)])) as [est Eest]; [done|eauto|].
  rewrite Esys, Ecat, Eest. cbn [mbind res_bind]. eexists. split; [reflexivity|].
  assert (one : forall t ns, Ok [property_span t] = Ok ns -> Forall inert ns)
    by (intros t ns [= <-]; repeat constructor).
  apply for_own_spans in Esys; [|intros; by eapply one].
  apply for_own_spans in Ecat; [|intros c o ns; apply for_own_spans; intros; by eapply one].
  apply for_own_spans in Eest; [|intros; by eapply one].
  destruct (spans_inert (sys ++ cat)) as (P1 & P2 & P3); [by apply Forall_app|].
  destruct (spans_inert est Eest) as (Q1 & Q2 & Q3).
  revert P1 P2 P3 Q1 Q2 Q3. unfold shows, table_of, info_row, row. vdom. intros -> -> -> -> -> ->.
  repeat match goal with |- context [opt_txt ?o] => destruct (opt_txt_inert o) as (-> & -> & ->) end. done.
Qed.

Lemma execution_table_ok `{DateEnv} q stats : inert (execution_table q stats).
Proof. apply table_of_inert. repeat constructor; apply row_inert || by apply info_row_inert. Qed.

Lemma resource_table_ok q stats : exists n, resource_table q stats = Ok n /\ inert n.
Proof.
  unfold resource_table.
  destruct (formatCount_total (qs_processedInputPositions stats)) as [? ->]; [done|].
  destruct (formatCount_total (qs_rawInputPositions stats)) as [? ->]; [done|].
  destruct (formatSize_total_bytes (qs_cumulativeUserMemory stats /f num 1000)) as [? ->]; [done|].
  destruct (formatCount_total (qs_outputPositions stats)) as [? ->]; [done|].
  destruct (formatCount_total (qs_writtenOutputPositions stats)) as [? ->]; [done|].
  cbn [mbind res_bind]. eexists. split; [reflexivity|]. apply table_of_inert.
  repeat (apply Forall_cons_2; [try apply row_inert|]); [|apply Forall_nil_2].
  destruct (_ <f _); [apply row_inert|done].
Qed.

Definition sparkline_ids : list string :=
  ["cpu-time-rate-sparkline"; "scheduled-time-rate-sparkline"; "row-input-rate-sparkline";
   "byte-input-rate-sparkline"; "reserved-memory-sparkline"].

Lemma latest_defined h : latest h <> JNull.
Proof. by destruct h. Qed.

Lemma timeline_table_ok s :
  latest_value (reservedMemory s) <> JNull -> exists n, timeline_table s = Ok n /\ shows n sparkline_ids [] [].
Proof.
  intros Hm. unfold timeline_table, formatDataSize.
  destruct (formatCount_total _ (latest_defined (cpuTimeRate s))) as [? ->].
  destruct (formatCount_total _ (latest_defined (scheduledTimeRate s))) as [? ->].
  destruct (formatCount_total _ (latest_defined (rowInputRate s))) as [? ->].
  destruct (formatSize_total _ (js "B") (latest_defined (byteInputRate s))) as [? ->].
  destruct (formatSize_total _ (js "B") Hm) as [? ->].
  cbn [mbind res_bind]. eexists. split; [reflexivity|]. done.
Qed.

(** The parts of the page that depend on the outcome. *)
Definition optional_ids (q : Query) : list string :=
  match q_warnings q with Some (_ :: _) => ["warnings-table"%string] | _ => [] end ++
  match q_failureInfo q with Some _ => ["stack-trace"%string] | None => [] end.

Lemma warning_rows_inert (l : list Warning) :
  inert (Arr (map (fun w => El "tr" [] [El "td" [] [Txt (w_code_name w)]; El "td" [] [Txt (w_message w)]]) l)).
Proof. apply spans_inert, Forall_fmap, Forall_forall. done. Qed.

Lemma renderWarningInfo_ok q l :
  q_warnings q = Some l ->
  exists n, renderWarningInfo q = Ok n /\
    shows n (match l with [] => [] | _ => ["warnings-table"%string] end) [] [].
Proof.
  intros Hw. unfold renderWarningInfo. rewrite Hw. cbn [get_prop mbind res_bind].
  destruct l as [|w l]; [by eexists|]. eexists. split; [reflexivity|].
  destruct (warning_rows_inert (w :: l)) as (H1 & H2 & H3). revert H1 H2 H3. unfold shows. vdom.
  intros -> -> ->. done.
Qed.

Lemma renderFailureInfo_ok q :
  showable q ->
  exists n, renderFailureInfo q = Ok n /\
    shows n (match q_failureInfo q with Some _ => ["stack-trace"%string] | None => [] end) [] [].
Proof.
  intros (_ & _ & _ & _ & _ & Hf). unfold renderFailureInfo.
  destruct (q_failureInfo q) as [f|]; [|by eexists].
  destruct (Hf f eq_refl) as [Hstacks [code ->]]. cbn [get_prop mbind res_bind].
  destruct (trace_total f (Frames []) [] [] Hstacks) as (t & Ht & _); [done|].
  unfold formatStackTrace. rewrite Ht. cbn [mbind res_bind]. eexists. split; [reflexivity|].
  unfold shows, info_row, row. vdom. destruct (opt_txt_inert (q_errorType q)) as (-> & -> & ->). done.
Qed.

(** The page of a query renders for every document of the server.  It has the
    elements the sparklines are drawn into and the targets of the copy buttons,
    a table of warnings and a stack trace exactly when there are any, the header
    of the query, the stages of the snapshot and the button that freezes them. *)
Theorem query_page_complete `{DateEnv} s q :
  query s = Some q -> initialized s = true -> showable q ->
  latest_value (reservedMemory s) <> JNull ->
  exists n, render s = Ok n /\
    shows n (["query-user"%string] ++ sparkline_ids ++ optional_ids q ++ ["query"; "query-text"]%string)
      [StageRefreshClick] [CQueryHeader q; CStageList (lastSnapshotStage s)].
Proof.
  intros Hq Hi Hs Hm. unfold render. rewrite Hq, Hi.
  destruct (session_table_ok q Hs) as (n1 & -> & A1 & A2 & A3).
  pose proof Hs as ((Hst & _ & Hw) & _). destruct Hst as [stats Est], Hw as [ws Ews]. rewrite Est.
  cbn [get_prop mbind res_bind].
  destruct (resource_table_ok q stats) as (n2 & -> & B1 & B2 & B3).
  destruct (timeline_table_ok s Hm) as (n3 & -> & C1 & C2 & C3).
  destruct (renderWarningInfo_ok q ws Ews) as (n4 & -> & D1 & D2 & D3).
  destruct (renderFailureInfo_ok q Hs) as (n5 & -> & E1 & E2 & E3).
  destruct (execution_table_ok q stats) as (F1 & F2 & F3).
  cbn [mbind res_bind]. eexists. split; [reflexivity|]. unfold shows. vdom.
  rewrite A1, A2, A3, B1, B2, B3, C1, C2, C3, D1, D2, D3, E1, E2, E3, F1, F2, F3.
  split; [|done]. unfold optional_ids. rewrite Ews. by destruct ws, (q_failureInfo q).
Qed.
