(* ===== verification/QueryPage.v ===== *)
(** * The page of a query as React runs it

    [QueryDetail] mounts the header of the query and the list of stages; the
    list mounts a summary per stage, with a state of its own, and a summary a
    table of tasks per execution of its stage.  An update renders the components
    it concerns and runs their [componentDidUpdate]; what these set is the next
    update.  The page is removed when any part of it throws. *)

From S2P Require Import Prelude JsString JsNumber JsObject Data Utils JsDate EventLoop React VDom.
From S2P Require Import QueryHeader TaskList StageSummary QueryDetail.

(** The state of the component and of the mounted summaries, which are keyed by
    the ids of their stages, and what has been drawn.  The snapshot of the stages
    is the one of the last document as long as it is refreshed: sorting its tasks
    sorts them in [query] as well, where nothing reads them any more. *)
Record PageState := mkPageState {
  detail : QDState; summaries : jsobj SSState; effects : list QDEffect
}.

Definition page_init : PageState := mkPageState qd_init [] [].

Definition on_detail (f : QDState -> QDState) (s : PageState) : PageState :=
  mkPageState (f (detail s)) (summaries s) (effects s).

(** What the clock says during an update: in [componentDidUpdate] of the page and
    of the summary of a stage, and when the tables are rendered. *)
Record Clock := mkClock { at_detail : Z * Z; at_summary : jsstring -> Z * Z; at_tables : Z }.

(** The mounted page; an update and those that follow it. *)
Abbreviation QD := (Inst (Root PageState) unit jsstring).
Abbreviation Clocks := (Clock * list Clock)%type.

Section page.
Context `{URLApi} `{DateEnv}.
Variable pathname : jsstring.

(** ** Rendering *)

Abbreviation Table := (node Empty_set TaskTable).

(** The summary of a stage and its tables. *)
Definition render_summary (now : Z) (states : jsobj SSState) (stage : Stage) : res (list Table) :=
  n ← StageSummary.render (Some stage) (default ss_init (mget (sg_stageId stage) states));
  res_map (fun tasks => renderTasks (Some tasks) now) (mounts n).

Definition render_child (now : Z) (states : jsobj SSState) (c : QDChild) : res (list Table) :=
  match c with
  | CQueryHeader q => _ ← QueryHeader.render pathname q; Ok []
  | CStageList outputStage =>
      tables ← res_map (render_summary now states) (mounts (renderStageList outputStage)); Ok (concat tables)
  end.

(** The tables of tasks of the page, or the exception that removes it. *)
Definition render_tree (now : Z) (s : PageState) : res (list Table) :=
  n ← QueryDetail.render (detail s);
  tables ← res_map (render_child now (summaries s)) (mounts n); Ok (concat tables).

(** ** Updates of the summaries *)

(** The summary of a stage after an update: the stage, whose tasks are sorted in
    place, the state, what was drawn, and whether the state was set again.  A
    summary that was not there before is mounted; one that the update does not
    concern stays as it is. *)
Record Summary := mkSummary { sm_state : SSState; sm_drawn : list QDEffect; sm_again : bool }.

(** [f] on the elements of a list, with two lists of results. *)
Definition res_unzip {A B C} (f : A -> res (B * C)) : list A -> res (list B * list C) :=
  fix each l :=
    match l with
    | [] => Ok ([], [])
    | x :: l' => '(y, z) ← f x; '(ys, zs) ← each l'; Ok (y :: ys, z :: zs)
    end.

Section summaries.
Variables (concerned : jsstring -> bool) (c : Clock) (old : jsobj SSState).

Definition update_summary (stage : Stage) : res (Stage * Summary) :=
  let id := sg_stageId stage in
  match mget id old with
  | None => Ok (stage, mkSummary ss_init [] false)
  | Some s =>
      if concerned id then
        '(charts, stage, s') ← StageSummary.componentDidUpdate [at_summary c id] stage s;
        Ok (stage, mkSummary s' (map DrawCharts charts) (StageSummary.redraw_due s (at_summary c id).1))
      else Ok (stage, mkSummary s [] false)
  end.

Definition with_subStages (subs : list Stage) (stage : Stage) : Stage :=
  mkStage (sg_stageId stage) (sg_plan stage) (sg_latestAttemptExecutionInfo stage)
    (sg_previousAttemptsExecutionInfos stage) (Some subs) (sg_state stage) (sg_tasks stage).

(** All stages that the list shows, in its order. *)
Fixpoint update_summaries (stage : Stage) : res (Stage * list (jsstring * Summary)) :=
  match sg_subStages stage with
  | None => Ok (stage, [])
  | Some subStages =>
      '(stage', summary) ← update_summary stage;
      '(subs, l) ← res_unzip update_summaries subStages;
      Ok (with_subStages subs stage', (sg_stageId stage, summary) :: concat l)
  end.
End summaries.

Definition with_stages (stage : Stage) (s : QDState) : QDState :=
  mkQDState (query s) (lastSnapshotStages s) (Some stage) (lastScheduledTime s) (lastCpuTime s)
    (lastRowInput s) (lastByteInput s) (scheduledTimeRate s) (cpuTimeRate s) (rowInputRate s) (byteInputRate s)
    (reservedMemory s) (initialized s) (ended s) (lastRefresh s) (lastRender s) (stageRefresh s).

(** The list of stages after an update, and the summaries that set their state. *)
Definition update_list (concerned : jsstring -> bool) (c : Clock) (s : PageState) : res (PageState * list jsstring) :=
  match lastSnapshotStage (detail s) with
  | None => Ok (mkPageState (detail s) [] (effects s), [])
  | Some stage =>
      '(stage', l) ← update_summaries concerned c (summaries s) stage;
      Ok (mkPageState (with_stages stage' (detail s)) (map (fun x => (x.1, sm_state x.2)) l)
            (effects s ++ concat (map (fun x => sm_drawn x.2) l)),
          map fst (List.filter (fun x => sm_again x.2) l))
  end.

(** ** Updates of the page *)

(** What an update concerns: the page with everything in it, or some summaries. *)
Inductive Scope := Everything | Summaries (ids : list jsstring).

Definition in_scope (scope : Scope) (id : jsstring) : bool :=
  match scope with Everything => true | Summaries ids => existsb (str_eqb id) ids end.

(** The list of stages is on the page. *)
Definition lists_stages (l : list QDChild) : bool :=
  existsb (fun x => match x with CStageList _ => true | _ => false end) l.

(** One update, and what the next one concerns, if there is one: a component
    that sets its state has everything below it rendered again. *)
Definition update (scope : Scope) (c : Clock) (s : PageState) : res (PageState * option Scope) :=
  match scope with
  | Everything =>
      n ← QueryDetail.render (detail s);
      _ ← res_map (render_child (at_tables c) (summaries s)) (mounts n);
      '(s, again) ← (if lists_stages (mounts n)
                     then update_list (fun _ => true) c s
                     else Ok (mkPageState (detail s) [] (effects s), []));
      let '(drawn, set) := QueryDetail.componentDidUpdate (at_detail c).1 (at_detail c).2 (detail s) in
      let s := mkPageState (detail s) (summaries s) (effects s ++ drawn) in
      Ok (match set with
          | Some d => (on_detail (fun _ => d) s, Some Everything)
          | None => (s, match again with [] => None | _ => Some (Summaries again) end)
          end)
  | Summaries ids =>
      _ ← res_map (render_summary (at_tables c) (summaries s))
            (List.filter (fun stage => in_scope scope (sg_stageId stage)) (getStages (lastSnapshotStage (detail s))));
      '(s, again) ← update_list (in_scope scope) c s;
      Ok (s, match again with [] => None | _ => Some (Summaries again) end)
  end.

(** The update and those that follow; [clocks] has what the clock says then. *)
Fixpoint commit (clocks : list Clock) (scope : Scope) (c : Clock) (s : PageState) : res PageState :=
  '(s, next) ← update scope c s;
  match next, clocks with
  | Some scope, c :: clocks => commit clocks scope c s
  | _, _ => Ok s
  end.

(** ** Callbacks *)

Definition commit_at (scope : Scope) (k : Clocks) : PageState -> res PageState := commit k.2 scope k.1.

(** A document and the clock, or a failed request; and the clock during the two
    updates. *)
Record QDAnswer := mkQDAnswer { an_document : option (Query * Z); an_first : Clocks; an_second : Clocks }.

Definition stop_refreshing (s : QDState) : bool :=
  match query s with None => false | Some _ => ended s end.
Definition qd_stopped (r : Root PageState) : bool := stop_refreshing (detail (r_state r)).

Definition resetTimer (i : QD) : QD :=
  let i := clear tt i in
  if qd_stopped (st i) then i else arm tt i.

(** [search] is [window.location.search]. *)
Definition refreshLoop (search : jsstring) (i : QD) : QD :=
  let i := clear tt i in
  let queryId := getFirstParameter search in
  send (js "/v1/query/" ++ queryId) i.

Definition qd_answer (_ : jsstring) (a : QDAnswer) (i : QD) : QD :=
  match an_document a with
  | Some (q, nowMillis) =>
      let old := detail (r_state (st i)) in
      attempt (get_prop "totalScheduledTime" (q_queryStats q))
        (fun stats =>
           set_then (commit_at Everything (an_first a)) (on_detail (with_answer q stats nowMillis))
             (fun i =>
                match rate_interval q stats nowMillis old with
                | None => resetTimer i
                | Some seconds =>
                    set_then (commit_at Everything (an_second a)) (on_detail (with_rates stats seconds old)) resetTimer i
                end) i) i
  | None => set_then (commit_at Everything (an_first a)) (on_detail with_initialized) resetTimer i
  end.

Definition qd_timer (search : jsstring) (_ : unit) : QD -> QD := refreshLoop search.
Definition componentDidMount (search : jsstring) (i : QD) : QD := refreshLoop search i.

(** ** Clicks *)

Definition handleStageRefreshClick (k : Clocks) (i : QD) : QD :=
  let s := detail (r_state (st i)) in
  if stageRefresh s then
    attempt (get_prop "outputStage" (query s))
      (fun q => set_then (commit_at Everything k) (on_detail (with_stageRefresh false (Some (q_outputStage q)))) id i) i
  else set_then (commit_at Everything k) (on_detail (with_stageRefresh true (lastSnapshotStages s))) id i.

(** A handler of the summary of a stage. *)
Definition on_summary (id : jsstring) (e : SSEvent) (s : PageState) : PageState :=
  mkPageState (detail s)
    (map (fun x => if x.1 === id then (x.1, ss_event e x.2) else x) (summaries s)) (effects s).

(** What a user can click: an element of the page itself, or of the summary of a
    stage. *)
Inductive PageEvent := OnPage (e : QDEvent) | OnSummary (id : jsstring) (e : SSEvent).

(** Only what is on the page can be clicked; a stage without a plan has nothing
    to click. *)
Definition offered (e : PageEvent) (s : PageState) : bool :=
  match e with
  | OnPage StageRefreshClick =>
      match QueryDetail.render (detail s) with
      | Ok n => match events n with [] => false | _ => true end
      | Throw _ => false
      end
  | OnSummary id _ =>
      existsb (fun stage => (sg_stageId stage === id) && match sg_plan stage with Some _ => true | None => false end)
        (getStages (lastSnapshotStage (detail s)))
  end.

Definition qd_event (e : PageEvent * Clocks) : QD -> QD :=
  when_mounted (fun i =>
    if offered e.1 (r_state (st i)) then
      match e.1 with
      | OnPage StageRefreshClick => handleStageRefreshClick e.2 i
      | OnSummary id ev => set_then (commit_at (Summaries [id]) e.2) (on_summary id ev) (fun i => i) i
      end
    else i).
End page.
