(* ===== verification/QueryPageFacts.v ===== *)
(** * The page of a query: polling, drawing, and that it never breaks *)

From S2P Require Import Prelude JsString JsNumber JsSort JsObject Data Utils UtilsFacts JsDate EventLoop React VDom.
From S2P Require Import QueryHeader TaskList StageSummary StageSummaryFacts QueryDetail QueryDetailFacts QueryPage.

(** ** What updates change *)

(** The same stage with its tasks in another order. *)
Record rearranged (x y : Stage) : Prop := mkRearranged {
  same_id : sg_stageId y = sg_stageId x;
  same_plan : sg_plan y = sg_plan x;
  same_stats : se_stats (sg_latestAttemptExecutionInfo y) = se_stats (sg_latestAttemptExecutionInfo x);
  same_attempts : sg_previousAttemptsExecutionInfos y = sg_previousAttemptsExecutionInfos x;
  same_tasks : stage_tasks y ≡ₚ stage_tasks x
}.

#[export] Instance rearranged_preorder : PreOrder rearranged.
Proof.
  split; [by intros x; split|]. intros x y z [A1 A2 A3 A4 A5] [B1 B2 B3 B4 B5].
  split; [congruence..|]. by rewrite B5.
Qed.

(** The lists of stages of two trees that differ in the order of tasks only. *)
Definition same_stages (a b : option Stage) : Prop := Forall2 rearranged (getStages a) (getStages b).

#[export] Instance same_stages_preorder : PreOrder same_stages.
Proof. split; [intros a|intros a b c]; unfold same_stages; [reflexivity|by intros -> ->]. Qed.

Lemma summary_update now t stage s :
  exists drawn s', StageSummary.componentDidUpdate [(now, t)] stage s =
    Ok (drawn, with_tasks (sort_tasks (stage_tasks stage)) stage, s').
Proof.
  cbn [StageSummary.componentDidUpdate]. destruct (StageSummary.redraw_due s now); [|by eexists _, _].
  edestruct stage_charts_total as (charts & -> & _). by eexists _, _.
Qed.

Lemma update_summary_ok concerned c old stage :
  exists stage' m, update_summary concerned c old stage = Ok (stage', m) /\ rearranged stage stage'.
Proof.
  unfold update_summary. destruct (mget _ old) as [s|]; [|by eexists _, _].
  destruct (concerned _); [|by eexists _, _].
  destruct (at_summary c (sg_stageId stage)) as [now t].
  destruct (summary_update now t stage s) as (drawn & s' & ->). eexists _, _. split; [reflexivity|].
  split; try done. apply sort_tasks_perm.
Qed.

Lemma stages_of_eq root :
  get_stages root = match sg_subStages root with None => [] | Some subs => root :: flat_map get_stages subs end.
Proof. by destruct root. Qed.

Lemma update_summaries_eq concerned c old root :
  update_summaries concerned c old root =
  match sg_subStages root with
  | None => Ok (root, [])
  | Some subStages =>
      '(stage', summary) ← update_summary concerned c old root;
      '(subs, l) ← res_unzip (update_summaries concerned c old) subStages;
      Ok (with_subStages subs stage', (sg_stageId root, summary) :: concat l)
  end.
Proof. by destruct root. Qed.

Lemma res_unzip_ok {A B C} (f : A -> res (B * C)) (R : A -> B -> Prop) l :
  Forall (fun x => exists y z, f x = Ok (y, z) /\ R x y) l ->
  exists ys zs, res_unzip f l = Ok (ys, zs) /\ Forall2 R l ys.
Proof.
  induction 1 as [|x l (y & z & E & Hy) _ (ys & zs & Es & Hys)]; cbn; [by eexists _, _|].
  rewrite E. cbn [mbind res_bind]. rewrite Es. cbn. eexists _, _. split; [reflexivity|by constructor].
Qed.

Lemma update_summaries_ok concerned c old root :
  exists root' l, update_summaries concerned c old root = Ok (root', l) /\
    Forall2 rearranged (get_stages root) (get_stages root').
Proof.
  induction root as [root IH] using stage_tree_ind. rewrite update_summaries_eq, stages_of_eq.
  destruct (sg_subStages root) as [subs|] eqn:Es; [|by eexists _, _; split; [reflexivity|rewrite stages_of_eq, Es]].
  destruct (update_summary_ok concerned c old root) as (root' & m & -> & Hr). cbn [mbind res_bind].
  destruct (res_unzip_ok _ _ _ (IH subs eq_refl)) as (subs' & l & -> & Hs). eexists _, _. split; [reflexivity|].
  rewrite stages_of_eq. cbn. constructor; [by destruct Hr; split|].
  clear -Hs. induction Hs; cbn; [constructor|by apply Forall2_app].
Qed.

(** An update of the page leaves the component as it is, except for the time of
    the last drawing and the order of tasks. *)
Definition with_tree (stages : option Stage) (rendered : option Z) (s : QDState) : QDState :=
  mkQDState (query s) (lastSnapshotStages s) stages (lastScheduledTime s) (lastCpuTime s)
    (lastRowInput s) (lastByteInput s) (scheduledTimeRate s) (cpuTimeRate s) (rowInputRate s) (byteInputRate s)
    (reservedMemory s) (initialized s) (ended s) (lastRefresh s) rendered (stageRefresh s).

Definition settled (d d' : QDState) : Prop :=
  exists stages t, d' = with_tree stages t d /\ same_stages (lastSnapshotStage d) stages.

#[export] Instance settled_preorder : PreOrder settled.
Proof.
  split.
  - intros d. exists (lastSnapshotStage d), (QueryDetail.lastRender d). split; [by destruct d|reflexivity].
  - intros d d' d'' (a & t & -> & Ha) (b & u & -> & Hb). exists b, u. split; [done|]. by etrans.
Qed.

Lemma drawn_settled t d : settled d (with_lastRender t d).
Proof. by exists (lastSnapshotStage d), (Some t). Qed.

Lemma update_list_ok concerned c s :
  exists s' again, update_list concerned c s = Ok (s', again) /\ settled (detail s) (detail s').
Proof.
  unfold update_list. destruct (lastSnapshotStage (detail s)) as [root|] eqn:E; [|by eexists _, _].
  destruct (update_summaries_ok concerned c (summaries s) root) as (root' & l & -> & Hl). cbn [mbind res_bind].
  eexists _, _. split; [reflexivity|]. exists (Some root'), (QueryDetail.lastRender (detail s)).
  split; [done|]. by rewrite E.
Qed.

Section page.
Context `{URLApi} `{DateEnv}.
Variable pathname : jsstring.

(** ** Well-formed documents *)

Definition attempts (stage : Stage) : list StageExecutionInfo :=
  sg_latestAttemptExecutionInfo stage :: sg_previousAttemptsExecutionInfos stage.

(** A stage with a plan has statistics, and its tasks are well-formed. *)
Definition wf_stage (stage : Stage) : Prop :=
  (is_Some (sg_plan stage) -> is_Some (se_stats (sg_latestAttemptExecutionInfo stage))) /\
  Forall (fun info => Forall wf_task (se_tasks info)) (attempts stage).

Definition wf_stages (root : option Stage) : Prop := Forall wf_stage (getStages root).

(** The memory figure of a document is a data size. *)
Definition wf_document (q : Query) : Prop :=
  showable q /\ wf_stages (q_outputStage q) /\
  forall stats, q_queryStats q = Some stats -> parseDataSize (qs_userMemoryReservation stats) <> JNull.

Definition good_document (a : QDAnswer) : Prop :=
  match an_document a with Some (q, _) => wf_document q | None => True end.

(** What every state of the page has. *)
Definition page_inv (s : QDState) : Prop :=
  (forall q, query s = Some q -> showable q) /\ wf_stages (lastSnapshotStage s) /\
  latest_value (reservedMemory s) <> JNull.

Lemma page_inv_init : page_inv qd_init.
Proof. split; [done|]. split; [constructor|done]. Qed.

Lemma wf_rearranged x y : rearranged x y -> wf_stage x -> wf_stage y.
Proof.
  intros [_ Hp Hs Ha Ht] [H1 H2]. unfold wf_stage, attempts in *. rewrite Hp, Hs, Ha. split; [done|].
  apply Forall_cons in H2 as [H2 H3]. constructor; [|done]. fold (stage_tasks y). by rewrite Ht.
Qed.

Lemma page_inv_settled s s' : settled s s' -> page_inv s -> page_inv s'.
Proof.
  intros (stages & t & -> & Hs) (H1 & H2 & H3). split; [exact H1|]. split; [|exact H3].
  unfold wf_stages, same_stages in *. cbn [with_tree lastSnapshotStage].
  induction Hs as [|x y l l' Hxy _ IH]; [done|]. apply Forall_cons in H2 as [Hx Hl].
  constructor; [by eapply wf_rearranged|auto].
Qed.

Lemma latest_added (v : jsnum) l : latest_value (addToHistory v l) = v.
Proof.
  rewrite addToHistory_append. unfold latest_value, append_bounded.
  set (n := Z.to_nat _). assert (Hn : (n <= length l)%nat) by (unfold n, MAX_HISTORY; lia).
  rewrite skipn_app, (proj2 (Nat.sub_0_le n (length l)) Hn). cbn. by rewrite last_snoc.
Qed.

Lemma page_inv_answer q stats t s : wf_document q -> page_inv s -> page_inv (with_answer q stats t s).
Proof.
  intros (Hq & Hd & _) (_ & Hs & Hm). split; [by intros q' [= <-]|]. split; [|done].
  cbn. by destruct (stageRefresh s).
Qed.

Lemma page_inv_rates q stats e old s :
  wf_document q -> q_queryStats q = Some stats -> page_inv s -> page_inv (with_rates stats e old s).
Proof.
  intros Hd Es (H1 & H2 & _). split; [exact H1|]. split; [exact H2|].
  cbn [with_rates reservedMemory]. rewrite latest_added. by apply Hd.
Qed.

Lemma list_settled concerned c s s' again :
  update_list concerned c s = Ok (s', again) -> settled (detail s) (detail s').
Proof. destruct (update_list_ok concerned c s) as (x & y & -> & Hs). by intros [= <- <-]. Qed.

(** The end of an update of the page: its own [componentDidUpdate]. *)
Lemma drawn_ok d now t drawn set :
  QueryDetail.componentDidUpdate now t d = (drawn, set) -> settled d (default d set).
Proof.
  unfold QueryDetail.componentDidUpdate. destruct (QueryDetail.redraw_due d now); intros [= _ <-]; [|reflexivity].
  apply drawn_settled.
Qed.

(** What an update of the whole page does once everything is rendered. *)
Lemma update_page_inv c s s' next :
  update pathname Everything c s = Ok (s', next) ->
  exists s1 again drawn set,
    (update_list (fun _ => true) c s = Ok (s1, again) \/ s1 = mkPageState (detail s) [] (effects s) /\ again = []) /\
    QueryDetail.componentDidUpdate (at_detail c).1 (at_detail c).2 (detail s1) = (drawn, set) /\
    detail s' = default (detail s1) set /\ summaries s' = summaries s1 /\ effects s' = effects s1 ++ drawn /\
    next = match set, again with Some _, _ => Some Everything | None, [] => None | None, _ => Some (Summaries again) end.
Proof.
  cbn [update]. intros E. inv_ok. destruct a1 as [s1 again].
  destruct (QueryDetail.componentDidUpdate _ _ _) as [drawn set] eqn:Ed.
  exists s1, again, drawn, set. split; [destruct (lists_stages _); [by left|right; by simplify_eq]|].
  split; [done|]. by destruct set; simplify_eq.
Qed.

(** What an update of some summaries does. *)
Lemma update_summaries_inv ids c s s' next :
  update pathname (Summaries ids) c s = Ok (s', next) ->
  exists again, update_list (in_scope (Summaries ids)) c s = Ok (s', again) /\
    next = match again with [] => None | _ => Some (Summaries again) end.
Proof. cbn [update]. intros E. inv_ok. destruct a0 as [s1 again]. simplify_eq. eauto. Qed.

Lemma update_settled scope c s s' next :
  update pathname scope c s = Ok (s', next) -> settled (detail s) (detail s').
Proof.
  destruct scope as [|ids]; intros E.
  - apply update_page_inv in E as (s1 & again & drawn & set & E & Ed & -> & _).
    apply drawn_ok in Ed. etrans; [|exact Ed]. destruct E as [E|[-> _]]; [by eapply list_settled|reflexivity].
  - apply update_summaries_inv in E as (again & E & _). by eapply list_settled.
Qed.

Lemma commit_settled clocks scope c s s' :
  commit pathname clocks scope c s = Ok s' -> settled (detail s) (detail s').
Proof.
  revert scope c s. induction clocks as [|c' clocks IH]; intros scope c s E; cbn [commit] in E; inv_ok;
    destruct a as [s1 next]; apply update_settled in Hok; destruct next; inv_ok; try done.
  etrans; [exact Hok|]. by eapply IH.
Qed.

(** ** The tree *)

(** The rows of a table. *)
Definition table_rows (n : node Empty_set TaskTable) : list jsstring :=
  flat_map (fun tb => map fst (tb_rows tb)) (mounts n).

Lemma res_map_rows {A B C} (f : A -> res B) (g : B -> C) (h : A -> C) l :
  Forall (fun x => exists y, f x = Ok y /\ g y = h x) l -> exists ys, res_map f l = Ok ys /\ map g ys = map h l.
Proof.
  induction 1 as [|x l (y & E & Hy) _ (ys & Es & Hys)]; cbn; [by exists []|].
  rewrite E, Es. cbn. eexists. split; [reflexivity|]. cbn. by rewrite Hy, Hys.
Qed.

Lemma renderTasks_rows tasks now :
  Forall wf_task tasks -> exists n, renderTasks (Some tasks) now = Ok n /\ table_rows n = map t_taskId tasks.
Proof.
  intros Hw. destruct tasks as [|task tasks]; [by eexists|].
  destruct (task_table_complete task tasks now Hw) as (tb & -> & Hk & _).
  eexists. split; [reflexivity|]. unfold table_rows. cbn. by rewrite app_nil_r.
Qed.

(** The state of the summary of a stage, and the rows it shows, per execution of
    its stage. *)
Definition summary_of (states : jsobj SSState) (stage : Stage) : SSState :=
  default ss_init (mget (sg_stageId stage) states).

Definition summary_rows (states : jsobj SSState) (stage : Stage) : list (list jsstring) :=
  match sg_plan stage with
  | None => []
  | Some _ => map (fun info => map t_taskId (shown_tasks (summary_of states stage) info)) (attempts stage)
  end.

Lemma render_summary_rows now states stage :
  wf_stage stage ->
  exists tables, render_summary now states stage = Ok tables /\ map table_rows tables = summary_rows states stage.
Proof.
  intros [Hp Ha]. unfold render_summary, summary_rows. fold (summary_of states stage).
  destruct (sg_plan stage) as [plan|] eqn:Ep.
  - destruct (Hp ltac:(by eexists)) as [stats Es].
    destruct (stage_page_complete stage (summary_of states stage) plan stats Ep Es) as (n & -> & _ & _ & Hm).
    cbn [mbind res_bind]. rewrite Hm.
    destruct (res_map_rows (fun tasks => renderTasks (Some tasks) now) table_rows (map t_taskId)
      (map (shown_tasks (summary_of states stage)) (attempts stage))) as (tables & E & Hr).
    { apply Forall_map. eapply Forall_impl; [exact Ha|]. intros info Hi. apply renderTasks_rows.
      unfold shown_tasks. destruct (expanded _); [|constructor]. rewrite Forall_forall in Hi |- *.
      intros t [Ht _]%list_filter_In. auto. }
    exists tables. split; [exact E|]. by rewrite Hr, map_map.
  - unfold StageSummary.render. rewrite Ep. cbn. by exists [].
Qed.

Lemma list_rows now states stages :
  Forall wf_stage stages ->
  exists tables, res_map (render_summary now states) stages = Ok tables /\
    map table_rows (concat tables) = flat_map (summary_rows states) stages.
Proof.
  intros Hs.
  destruct (res_map_rows (render_summary now states) (map table_rows) (summary_rows states) stages) as (tables & E & Hr).
  { eapply Forall_impl; [exact Hs|]. apply render_summary_rows. }
  exists tables. split; [exact E|]. by rewrite concat_map, Hr, <- flat_map_concat_map.
Qed.

(** The page and everything mounted in it. *)
Definition tree_rows (s : PageState) : list (list jsstring) :=
  if initialized (detail s) && bool_decide (is_Some (query (detail s)))
  then flat_map (summary_rows (summaries s)) (getStages (lastSnapshotStage (detail s))) else [].

Lemma tree_ok now s :
  page_inv (detail s) ->
  exists n tables, QueryDetail.render (detail s) = Ok n /\
    res_map (render_child pathname now (summaries s)) (mounts n) = Ok tables /\
    map table_rows (concat tables) = tree_rows s.
Proof.
  intros (Hq & Hs & Hm). unfold tree_rows.
  destruct (query (detail s)) as [q|] eqn:Eq; [destruct (initialized (detail s)) eqn:Ei|].
  - destruct (query_page_complete (detail s) q Eq Ei (Hq q eq_refl) Hm) as (n & -> & _ & _ & Hn).
    pose proof (Hq q eq_refl) as (Hw & _). destruct (header_offers_actions pathname q Hw) as (h & Eh & _).
    destruct (list_rows now (summaries s) _ Hs) as (tables & Et & Hr). eexists n, _. split; [done|]. rewrite Hn.
    cbn [res_map render_child]. rewrite Eh. cbn [mbind res_bind]. rewrite renderStageList_mounts, Et.
    split; [reflexivity|]. cbn. by rewrite app_nil_r.
  - unfold QueryDetail.render. rewrite Eq, Ei. by eexists _, _.
  - unfold QueryDetail.render. rewrite Eq. by destruct (initialized (detail s)); eexists _, _.
Qed.

(** Updates of a page with a well-formed document do not throw. *)
Lemma update_ok scope c s : page_inv (detail s) -> exists s' next, update pathname scope c s = Ok (s', next).
Proof.
  intros Hi. destruct scope as [|ids]; cbn [update].
  - destruct (tree_ok (at_tables c) s Hi) as (n & tables & -> & E & _). cbn [mbind res_bind]. rewrite E.
    cbn [mbind res_bind]. destruct (update_list_ok (fun _ => true) c s) as (s1 & again & -> & _).
    destruct (lists_stages _); cbn [mbind res_bind]; destruct (QueryDetail.componentDidUpdate _ _ _) as [drawn []]; eauto.
  - destruct Hi as (_ & Hs & _).
    destruct (list_rows (at_tables c) (summaries s)
      (List.filter (fun stage => in_scope (Summaries ids) (sg_stageId stage)) (getStages (lastSnapshotStage (detail s)))))
      as (tables & E & _).
    { unfold wf_stages in Hs. rewrite Forall_forall in Hs |- *. intros x [Hx _]%list_filter_In. auto. }
    rewrite E. cbn [mbind res_bind]. destruct (update_list_ok (in_scope (Summaries ids)) c s) as (s1 & again & -> & _).
    cbn. eauto.
Qed.

Lemma page_commit_ok clocks scope c s :
  page_inv (detail s) -> exists s', commit pathname clocks scope c s = Ok s' /\ page_inv (detail s').
Proof.
  intros Hi. assert (exists s', commit pathname clocks scope c s = Ok s') as [s' E].
  { revert scope c s Hi. induction clocks as [|c' clocks IH]; intros scope c s Hi; cbn [commit];
      destruct (update_ok scope c s Hi) as (s1 & next & E); rewrite E; cbn [mbind res_bind];
      destruct next; eauto. apply IH. eapply page_inv_settled; [by eapply update_settled|done]. }
  exists s'. split; [done|]. eapply page_inv_settled; [by eapply commit_settled|done].
Qed.

(** ** Polling *)

Lemma commit_stop k scope s s' :
  commit_at pathname scope k s = Ok s' -> stop_refreshing (detail s') = stop_refreshing (detail s).
Proof. by intros (stages & t & -> & _)%commit_settled. Qed.

#[export] Instance qd_poller search :
  Poller tt qd_stopped (qd_timer search) (qd_answer pathname) (qd_event pathname).
Proof.
  assert (Hr : forall i : QD, idle tt i -> polls tt qd_stopped (resetTimer i))
    by (intros i; apply (polls_reset tt qd_stopped)).
  assert (He : forall k scope f (i : QD), (forall s, stop_refreshing (detail (f s)) = stop_refreshing (detail s)) ->
    polls tt qd_stopped i -> polls tt qd_stopped (set_then (commit_at pathname scope k) f id i)).
  { intros k scope f i Hf. apply (polls_set_event tt (fun s => stop_refreshing (detail s))); [apply commit_stop|done]. }
  split.
  - intros i Hi Hs. apply polls_send; [by apply idle_clear|by rewrite clear_st].
  - by intros [] i Hne.
  - intros r a i Hi _. unfold qd_answer, attempt. destruct (an_document a) as [[q now]|]; [|by apply polls_set_then].
    destruct (get_prop _ _) as [stats|e]; [|by apply polls_report_idle]. apply polls_set_then; [|done].
    intros j Hj. destruct (rate_interval _ _ _ _); [by apply polls_set_then|by apply Hr].
  - intros [e k] i Hp. unfold qd_event, when_mounted. destruct (r_mounted (st i)); [|done].
    destruct (offered _ _); [|done]. destruct e as [[]|id e]; cbn [fst snd]; [|by apply He].
    unfold handleStageRefreshClick, attempt. destruct (stageRefresh _); [|by apply He].
    destruct (get_prop _ _) as [q|e]; [by apply He|by apply polls_report].
Qed.

Definition qd_start (search : jsstring) : QD := componentDidMount search (mount (new_root page_init)).

Definition qd_reachable (search : jsstring) (adm : QDAnswer -> Prop) : QD -> Prop :=
  reachable (qd_timer search) (qd_answer pathname) (qd_event pathname) adm (qd_start search).

Lemma qd_reachable_polls search adm i : qd_reachable search adm i -> polls tt qd_stopped i.
Proof.
  apply (poller_reachable tt qd_stopped); [apply qd_poller|]. apply polls_send; [|done].
  apply idle_clear. split; [apply mount_ok|done].
Qed.

(** The answers that bring the final document. *)
Definition final_answer (a : QDAnswer) : bool :=
  match an_document a with Some (q, _) => q_finalQueryInfo q | None => false end.

Definition qd_run (search : jsstring) (adm : QDAnswer -> Prop) : list QDAnswer -> QD -> Prop :=
  trace (qd_timer search) (qd_answer pathname) (qd_event pathname) adm (qd_start search).

(** Whether the component has stopped, for as long as nothing was thrown; [X] is
    what else is known by then. *)
Abbreviation phase b X := (unless_thrown (fun s => stop_refreshing (detail s) = b /\ X)).

Lemma commit_phase (b : bool) (X : Prop) k scope s s' :
  commit_at pathname scope k s = Ok s' ->
  stop_refreshing (detail s) = b /\ X -> stop_refreshing (detail s') = b /\ X.
Proof. by intros ->%commit_stop. Qed.

Lemma reset_phase b (X : Prop) (i : QD) : phase b X i -> phase b X (resetTimer i).
Proof.
  unfold unless_thrown, resetTimer. rewrite clear_st.
  destruct (qd_stopped (st i)); cbn; by rewrite ?clear_st, ?clear_console.
Qed.

Lemma answer_phase (X : Prop) u a (i : QD) : phase false X i -> phase (final_answer a) X (qd_answer pathname u a i).
Proof.
  intros Hi. unfold qd_answer, final_answer, attempt.
  destruct (an_document a) as [[q now]|]; [|by eapply set_then_unless, Hi; eauto using commit_phase, reset_phase].
  destruct (get_prop _ _) as [stats|e]; [|apply report_unless].
  eapply set_then_unless, Hi; [apply commit_phase|by intros s [_ HX]|].
  intros j Hj. destruct (rate_interval _ _ _ _); [|by apply reset_phase].
  by eapply set_then_unless, Hj; eauto using commit_phase, reset_phase.
Qed.

Lemma event_phase b (X : Prop) e (i : QD) : phase b X i -> phase b X (qd_event pathname e i).
Proof.
  intros Hi. unfold qd_event, when_mounted. destruct (r_mounted (st i)); [|done].
  destruct (offered _ _); [|done]. destruct e as [[[]|id e] k]; cbn [fst snd].
  - unfold handleStageRefreshClick, attempt.
    destruct (stageRefresh _); [destruct (get_prop _ _) as [q|e]; [|apply report_unless]|];
      by eapply set_then_unless, Hi; eauto using commit_phase.
  - by eapply set_then_unless, Hi; eauto using commit_phase.
Qed.

Lemma run_phase search adm l i : qd_run search adm l i -> phase (existsb final_answer l) True i.
Proof.
  induction 1 as [|l i n [] l1 l2 _ IH Ht|l i u a l1 l2 Hr IH Ht Ha|l i e _ IH]; [done| | |by apply event_phase].
  - revert IH. unfold unless_thrown, qd_timer, refreshLoop. cbn [send st console]. by rewrite clear_st, clear_console.
  - assert (Hs : qd_stopped (st i) = false).
    { apply (answer_not_stopped tt qd_stopped i u l1 l2); [|done]. eapply qd_reachable_polls. by eapply trace_reachable. }
    intros Hc. destruct (answer_phase (existsb final_answer l = false) u a
      (mkInst (st i) (ids i) (timers i) (next_id i) (l1 ++ l2) (console i))) with (2 := Hc) as (Hm & Hf & Hl).
    + intros Hn. destruct (IH Hn) as (Hm & Hl & _). unfold qd_stopped in Hs. cbn. split; [done|]. by rewrite <- Hl.
    + split; [done|]. split; [|done]. rewrite Hf, existsb_app, Hl. cbn. by rewrite orb_false_r.
Qed.

(** C6: The page polls until the server sends the final document of the query
    and then stops for good: on every run at most one refresh is pending, and
    as long as no callback has thrown exactly one is, until an answer with a
    document whose [finalQueryInfo] is set has arrived, and none from then on.
    Clicks and the updates of the page do not disturb this. *)
Theorem query_polls_until_final search adm l i :
  qd_run search adm l i ->
  (armed tt i + length (inflight i) <= 1)%nat /\
  (qd_stopped (st i) = true -> armed tt i = 0%nat /\ inflight i = []) /\
  (console i = [] ->
   (armed tt i + length (inflight i))%nat = if existsb final_answer l then 0%nat else 1%nat).
Proof.
  intros Hr. pose proof (run_phase search adm l i Hr) as Hp. apply trace_reachable, qd_reachable_polls in Hr.
  pose proof Hr as (_ & Hle & Hz & _). split; [done|]. split; [intros Hs; by destruct (idle_pending tt i (Hz Hs))|].
  intros Hc. destruct (Hp Hc) as (_ & <- & _). by apply (polls_exact tt qd_stopped).
Qed.

(** ** What callbacks do to the state of the component *)

Abbreviation qd_state := (fun i : QD => detail (r_state (st i))).

Lemma reset_fields (i : QD) : st (resetTimer i) = st i /\ console (resetTimer i) = console i.
Proof.
  unfold resetTimer. rewrite clear_st. destruct (qd_stopped (st i)); cbn; by rewrite ?clear_st, ?clear_console.
Qed.

Lemma reset_state (i : QD) : st (resetTimer i) = st i.
Proof. apply reset_fields. Qed.

Section kept.
Variable P : PageState -> Prop.
Hypothesis closed : forall scope k s s', commit_at pathname scope k s = Ok s' -> P s -> P s'.

Abbreviation holds := (fun i : QD => P (r_state (st i))).

Lemma reset_keeps i : holds i -> holds (resetTimer i).
Proof. cbv beta. by rewrite reset_state. Qed.

Lemma timer_keeps search k i : holds i -> holds (qd_timer search k i).
Proof. cbv beta. cbn [qd_timer refreshLoop send st]. by rewrite clear_st. Qed.

Lemma answer_keeps u a i :
  (forall q stats t s, an_document a = Some (q, t) -> q_queryStats q = Some stats ->
     P s -> P (on_detail (with_answer q stats t) s)) ->
  (forall q stats t e s, an_document a = Some (q, t) -> q_queryStats q = Some stats ->
     P s -> P (on_detail (with_rates stats e (qd_state i)) s)) ->
  (forall s, P s -> P (on_detail with_initialized s)) ->
  holds i -> holds (qd_answer pathname u a i).
Proof.
  intros Ha Hb Hc Hi. unfold qd_answer.
  destruct (an_document a) as [[q t]|] eqn:Ed; [|apply (set_then_state P); eauto using reset_keeps].
  destruct (q_queryStats q) as [stats|] eqn:Es; cbn [get_prop attempt]; [|done].
  apply (set_then_state P); [apply closed|intros s; by apply (Ha q)| |done].
  intros j Hj. destruct (rate_interval _ _ _ _); [|by apply reset_keeps].
  apply (set_then_state P); [apply closed|intros s1; by apply (Hb q stats t)|apply reset_keeps|done].
Qed.

Hypothesis summaries_keep : forall id e s, P s -> P (on_summary id e s).

Lemma summary_event_keeps id e k i : holds i -> holds (qd_event pathname (OnSummary id e, k) i).
Proof.
  intros Hi. unfold qd_event, when_mounted. destruct (r_mounted (st i)); [|done]. destruct (offered _ _); [|done].
  apply (set_then_state P); [apply closed|apply summaries_keep|done|done].
Qed.

Lemma event_keeps_state e i :
  (forall b stages s, P s -> P (on_detail (with_stageRefresh b stages) s)) -> holds i -> holds (qd_event pathname e i).
Proof.
  intros Hf Hi. destruct e as [[[]|id e] k]; [|by apply summary_event_keeps].
  unfold qd_event, when_mounted. destruct (r_mounted (st i)); [|done]. destruct (offered _ _); [|done].
  cbn [fst snd]. unfold handleStageRefreshClick, attempt.
  destruct (stageRefresh _); [destruct (get_prop _ _)|]; try done;
    (apply (set_then_state P); [apply closed| |done|done]); intros s; apply Hf.
Qed.
End kept.

(** What updates keep of the state of the component. *)
Lemma settled_closed (P : QDState -> Prop) :
  (forall d d', settled d d' -> P d -> P d') ->
  forall scope k s s', commit_at pathname scope k s = Ok s' -> P (detail s) -> P (detail s').
Proof. intros Hc scope k s s' E%commit_settled. by apply Hc. Qed.

(** ** The snapshot of the stages *)

(** C26: While automatic refresh is off the list of stages stays the one that was
    on the page when it was switched off: whatever answers arrive and however the
    user unfolds and filters the stages, the snapshot changes only by the order
    of the tasks within a stage, which the summaries sort. *)
Theorem stage_snapshot_frozen search adm (i j : QD) :
  stageRefresh (qd_state i) = false ->
  reachable (qd_timer search) (qd_answer pathname)
    (fun x => qd_event pathname (OnSummary x.1.1 x.1.2, x.2)) adm i j ->
  same_stages (lastSnapshotStage (qd_state i)) (lastSnapshotStage (qd_state j)) /\ stageRefresh (qd_state j) = false.
Proof.
  set (P := fun d => same_stages (lastSnapshotStage (qd_state i)) (lastSnapshotStage d) /\ stageRefresh d = false).
  assert (closed : forall d d', settled d d' -> P d -> P d').
  { intros d d' (stages & t & -> & Hs) [H1 H2]. split; [by etrans|done]. }
  pose proof (settled_closed P closed) as kept. intros Hi.
  apply (reachable_ind_inv _ _ _ _ i (fun j => P (qd_state j))); [by split|].
  intros k k' _ IH Hs. inversion Hs as [? n [] l1 l2 Ht|? u a l1 l2 Ht Ha|? [[id e] c]]; subst.
  - by apply (timer_keeps (fun s => P (detail s))).
  - apply (answer_keeps (fun s => P (detail s))); [done| |done|done|done].
    intros q stats t d _ _ [H1 H2]. unfold P. cbn. by rewrite H2.
  - by apply (summary_event_keeps (fun s => P (detail s))).
Qed.

(** ** Histories *)

Definition history_lengths (s : QDState) : list nat :=
  [length (scheduledTimeRate s); length (cpuTimeRate s); length (rowInputRate s); length (byteInputRate s);
   length (reservedMemory s)].

(** The five charts have the same number of points. *)
Definition aligned (n : nat) (s : QDState) : Prop := history_lengths s = replicate 5 n.

Definition next_length (n : nat) : nat := (n + 1) `min` 301.

Lemma addToHistory_length {A} (v : A) l n :
  length l = n -> (n <= 301)%nat -> length (addToHistory v l) = next_length n.
Proof.
  intros <- Hl. rewrite addToHistory_append, append_bounded_length by done. unfold next_length. lia.
Qed.

Lemma with_rates_aligned n stats e old s : (n <= 301)%nat -> aligned n s -> aligned (next_length n) (with_rates stats e old s).
Proof.
  unfold aligned, history_lengths. cbn [with_rates scheduledTimeRate cpuTimeRate rowInputRate byteInputRate reservedMemory].
  intros Hn Ha. cbn [replicate] in Ha. injection Ha as H1 H2 H3 H4 H5.
  by rewrite !(addToHistory_length _ _ n).
Qed.


(** ** The page never breaks *)

(** The page is there, with documents that can be shown, and nothing was thrown. *)
Definition page_healthy (i : QD) : Prop :=
  r_mounted (st i) = true /\ console i = [] /\ page_inv (qd_state i).

Lemma set_healthy scope c f k (i : QD) :
  (forall s, page_inv (detail s) -> page_inv (detail (f s))) -> (forall i, page_healthy i -> page_healthy (k i)) ->
  page_healthy i -> page_healthy (set_then (commit_at pathname scope c) f k i).
Proof.
  intros Hf Hk (Hm & Hc & Hi). unfold set_then, update_root, commit_at. rewrite Hm.
  destruct (page_commit_ok c.2 scope c.1 (f (r_state (st i))) (Hf _ Hi)) as (s' & -> & Hs').
  by apply Hk.
Qed.

Lemma reset_healthy i : page_healthy i -> page_healthy (resetTimer i).
Proof. unfold page_healthy. by destruct (reset_fields i) as [-> ->]. Qed.

Lemma answer_healthy u a i : good_document a -> page_healthy i -> page_healthy (qd_answer pathname u a i).
Proof.
  intros Hg Hi. unfold qd_answer, good_document in *.
  destruct (an_document a) as [[q t]|]; [|apply set_healthy; [done|apply reset_healthy|done]].
  pose proof Hg as (((Hst & _) & _) & _). destruct Hst as [stats Es]. rewrite Es. cbn [get_prop attempt].
  apply set_healthy; [intros s; by apply page_inv_answer| |done].
  intros j Hj. destruct (rate_interval _ _ _ _) as [e|]; [|by apply reset_healthy].
  apply set_healthy; [intros s; by apply (page_inv_rates q)|apply reset_healthy|done].
Qed.

Lemma event_healthy e i : page_healthy i -> page_healthy (qd_event pathname e i).
Proof.
  intros Hi. unfold qd_event, when_mounted. destruct (r_mounted (st i)); [|done].
  destruct (offered _ _) eqn:Eo; [|done]. destruct e as [[[]|id e] c]; cbn [fst snd] in *; [|by apply set_healthy].
  unfold handleStageRefreshClick, attempt. destruct (stageRefresh _); [|by apply set_healthy].
  destruct (query _) as [q|] eqn:Eq; cbn [get_prop]; [by apply set_healthy|].
  cbn [offered] in Eo. unfold QueryDetail.render in Eo. rewrite Eq in Eo. by destruct (initialized _).
Qed.

Lemma healthy_reachable search i : qd_reachable search good_document i -> page_healthy i.
Proof.
  apply reachable_ind_inv; [by split; [|split; [|apply page_inv_init]]|].
  intros j j' _ IH Hs. inversion Hs as [? n [] l1 l2 Ht|? u a l1 l2 Ht Ha|? e]; subst.
  - unfold page_healthy, qd_timer, refreshLoop. cbn [send st console]. by rewrite clear_st, clear_console.
  - by apply answer_healthy.
  - by apply event_healthy.
Qed.

(** C3: The page of a query never breaks: whatever documents the server sends, in
    whichever order, however the user folds, filters and freezes the stages and
    whenever the updates happen, no callback and no update throws, the page stays
    mounted and goes on polling until the final document, and the whole tree of
    components renders in every state.  Once the query is known, the tables on
    the page list, for every stage of the snapshot and every execution of it,
    exactly the tasks its summary shows, in order. *)
Theorem query_tree_renders search i :
  qd_reachable search good_document i ->
  r_mounted (st i) = true /\ console i = [] /\
  (armed tt i + length (inflight i) = if qd_stopped (st i) then 0 else 1)%nat /\
  forall now, exists tables, render_tree pathname now (r_state (st i)) = Ok tables /\
    map table_rows tables = tree_rows (r_state (st i)).
Proof.
  intros Hr. destruct (healthy_reachable _ _ Hr) as (Hm & Hc & Hi).
  destruct (qd_reachable_polls _ _ _ Hr) as (_ & _ & Hz & H1).
  split; [done|]. split; [done|]. split; [destruct (qd_stopped (st i)); auto|].
  intros now. unfold render_tree. destruct (tree_ok now _ Hi) as (n & tables & -> & E & Ht).
  cbn [mbind res_bind]. rewrite E. cbn. eauto.
Qed.

(** ** Updates come to an end *)

(** Less than a second passes between two updates that follow each other. *)
Definition quick (c c' : Clock) : Prop :=
  (at_detail c').1 - (at_detail c).2 < 1000 /\
  forall id, (at_summary c' id).1 - (at_summary c id).2 < 1000.

(** The summaries [ids] were drawn at [c]. *)
Definition drawn_at (c : Clock) (ids : list jsstring) (states : jsobj SSState) : Prop :=
  forall id, id ∈ ids -> exists s, mget id states = Some s /\ StageSummary.lastRender s = Some (at_summary c id).2.

Section drawing.
Variables (concerned : jsstring -> bool) (c : Clock) (old : jsobj SSState).

(** What becomes of a summary depends on the id of its stage only. *)
Definition drawn_summary (id : jsstring) (m : Summary) : Prop :=
  match mget id old with
  | None => m = mkSummary ss_init [] false
  | Some s =>
      let due := concerned id && StageSummary.redraw_due s (at_summary c id).1 in
      sm_again m = due /\ (exists charts, sm_drawn m = map DrawCharts charts) /\
      sm_state m = if due then mkSSState (expanded s) (Some (at_summary c id).2) (taskFilter s) else s
  end.

Lemma update_summary_drawn stage stage' m :
  update_summary concerned c old stage = Ok (stage', m) -> drawn_summary (sg_stageId stage) m.
Proof.
  unfold update_summary, drawn_summary. destruct (mget _ old) as [s|]; [|by intros [= _ <-]].
  destruct (concerned _); [|intros [= _ <-]; split; [done|]; by split; [exists []|]].
  destruct (at_summary c (sg_stageId stage)) as [now t]. cbn [StageSummary.componentDidUpdate fst snd andb].
  destruct (StageSummary.redraw_due s now); cbn; intros E; [inv_ok|]; simplify_eq; (split; [done|]); split; try done;
    [by eexists [_]|by exists []].
Qed.

Lemma res_unzip_all {A B C} (f : A -> res (B * list C)) (P : C -> Prop) l ys zs :
  Forall (fun x => forall y z, f x = Ok (y, z) -> Forall P z) l ->
  res_unzip f l = Ok (ys, zs) -> Forall P (concat zs).
Proof.
  intros Hl. revert ys zs. induction Hl as [|x l Hx _ IH]; cbn; intros ys zs E; [by simplify_eq|]. inv_ok.
  destruct a as [y z]. cbn in E. inv_ok. destruct a as [ys' zs']. simplify_eq. cbn. apply Forall_app. eauto.
Qed.

Lemma update_summaries_drawn root root' l :
  update_summaries concerned c old root = Ok (root', l) -> Forall (fun x => drawn_summary x.1 x.2) l.
Proof.
  revert root' l. induction root as [root IH] using stage_tree_ind. intros root' l. rewrite update_summaries_eq.
  destruct (sg_subStages root) as [subs|]; [|by intros [= _ <-]]. intros E. inv_ok.
  destruct a as [stage' m]. inv_ok. destruct a as [subs' ls]. simplify_eq.
  constructor; [by eapply update_summary_drawn|]. by eapply res_unzip_all; [exact (IH subs eq_refl)|].
Qed.
End drawing.

Lemma mget_states (l : list (jsstring * Summary)) id :
  id ∈ map fst l -> exists m, (id, m) ∈ l /\ mget id (map (fun x => (x.1, sm_state x.2)) l) = Some (sm_state m).
Proof.
  induction l as [|[k m] l IH]; cbn [map fst snd mget]; [by intros []%not_elem_of_nil|].
  destruct (decide (id = k)) as [->|Hne]; [by exists m; split; [left|]|].
  intros [?|Hin]%elem_of_cons; [done|]. destruct (IH Hin) as (m' & Hm & E). exists m'. split; [by right|done].
Qed.

Lemma list_again concerned c s s' again :
  update_list concerned c s = Ok (s', again) ->
  QueryDetail.lastRender (detail s') = QueryDetail.lastRender (detail s) /\
  exists l, Forall (fun x => drawn_summary concerned c (summaries s) x.1 x.2) l /\
    summaries s' = map (fun x => (x.1, sm_state x.2)) l /\
    effects s' = effects s ++ concat (map (fun x => sm_drawn x.2) l) /\
    again = map fst (List.filter (fun x : jsstring * Summary => sm_again x.2) l).
Proof.
  unfold update_list. destruct (lastSnapshotStage (detail s)) as [root|]; [|intros [= <- <-]; split; [done|]; exists []; cbn; by rewrite app_nil_r].
  intros E. inv_ok. destruct a as [root' l]. simplify_eq. split; [done|]. exists l. split; [|done].
  by eapply update_summaries_drawn.
Qed.

(** The summaries that ask for another update have just been drawn. *)
Lemma list_drawn concerned c s s' again :
  update_list concerned c s = Ok (s', again) -> drawn_at c again (summaries s').
Proof.
  intros (_ & l & Hl & -> & _ & ->)%list_again id ([k m] & -> & [Hin Hm]%list_filter_In)%list_elem_of_fmap_1.
  cbn [fst snd] in *.
  destruct (mget_states l k) as (m' & Hin' & ->); [by apply (list_elem_of_fmap_2 fst l (k, m))|].
  rewrite Forall_forall in Hl. pose proof (Hl _ Hin) as H1. pose proof (Hl _ Hin') as H2. cbn in *.
  exists (sm_state m'). split; [done|]. unfold drawn_summary in *. destruct (mget k _) as [s0|]; [|by subst m].
  destruct H1 as [E1 _], H2 as (_ & _ & ->). rewrite <- E1, Hm. done.
Qed.

(** They are not drawn again within a second. *)
Lemma list_quiet ids c c' s s' again :
  quick c c' -> drawn_at c ids (summaries s) ->
  update_list (in_scope (Summaries ids)) c' s = Ok (s', again) -> again = [].
Proof.
  intros [_ Hq] Hd (_ & l & Hl & _ & _ & ->)%list_again. rewrite filter_none; [done|]. intros [id m] Hin.
  rewrite Forall_forall in Hl. specialize (Hl _ Hin). unfold drawn_summary in Hl. cbn [fst snd] in *.
  destruct (mget id _) as [s0|] eqn:E0; [|by subst m]. destruct Hl as [-> _].
  destruct (in_scope _ id) eqn:Ei; [|done]. cbn [in_scope andb] in *.
  apply existsb_exists in Ei as (x & Hx & ->%str_eqb_eq). apply list_elem_of_In in Hx.
  destruct (Hd x Hx) as (s1 & E1 & Et). rewrite E0 in E1. injection E1 as <-.
  unfold StageSummary.redraw_due. rewrite Et. specialize (Hq x). lia.
Qed.

Lemma summaries_once ids c s s' next :
  update pathname (Summaries ids) c s = Ok (s', next) ->
  next = None \/ exists ids', next = Some (Summaries ids') /\ drawn_at c ids' (summaries s').
Proof.
  intros (again & E & ->)%update_summaries_inv. apply list_drawn in E. destruct again; eauto.
Qed.

Lemma summaries_end clocks ids c c' s :
  quick c c' -> drawn_at c ids (summaries s) ->
  commit pathname clocks (Summaries ids) c' s = commit pathname [] (Summaries ids) c' s.
Proof.
  intros Hq Hd. destruct clocks as [|c'' clocks]; [done|]. cbn [commit].
  destruct (update pathname _ c' s) as [[s' next]|] eqn:E; [|done]. cbn [mbind res_bind].
  apply update_summaries_inv in E as (again & E & ->). by rewrite (list_quiet _ _ _ _ _ _ Hq Hd E).
Qed.

Lemma page_once c s s' next :
  update pathname Everything c s = Ok (s', next) ->
  next = None \/ (exists ids', next = Some (Summaries ids') /\ drawn_at c ids' (summaries s')) \/
  next = Some Everything /\ QueryDetail.redraw_due (detail s) (at_detail c).1 = true /\
    QueryDetail.lastRender (detail s') = Some (at_detail c).2.
Proof.
  intros (s1 & again & drawn & set & E & Ed & Hs & Hm & _ & ->)%update_page_inv.
  assert (Hr : QueryDetail.redraw_due (detail s1) (at_detail c).1 = QueryDetail.redraw_due (detail s) (at_detail c).1).
  { unfold QueryDetail.redraw_due. destruct E as [E|[-> _]]; [by apply list_again in E as [-> _]|done]. }
  unfold QueryDetail.componentDidUpdate in Ed. rewrite Hr in Ed.
  destruct (QueryDetail.redraw_due (detail s) _); injection Ed as _ <-.
  - right; right. by rewrite Hs.
  - destruct again as [|id again]; [by left|]. right; left. eexists. split; [done|]. rewrite Hm.
    destruct E as [E|[_ ?]]; [by eapply list_drawn|done].
Qed.

Lemma commit_cons c' clocks scope c s :
  commit pathname (c' :: clocks) scope c s =
  ('(s', next) ← update pathname scope c s;
   match next with Some scope' => commit pathname clocks scope' c' s' | None => Ok s' end).
Proof. reflexivity. Qed.

Lemma page_end clocks c c' c'' s :
  quick c c' -> quick c' c'' -> QueryDetail.lastRender (detail s) = Some (at_detail c).2 ->
  commit pathname (c'' :: clocks) Everything c' s = commit pathname [c''] Everything c' s.
Proof.
  intros [Hq _] Hq' Hd. rewrite !(commit_cons c''). destruct (update pathname Everything c' s) as [[s' next]|] eqn:E; [|done].
  cbn [mbind res_bind]. destruct (page_once _ _ _ _ E) as [->|[(ids & -> & Hs)|(_ & Hr & _)]]; [done| |].
  - by apply summaries_end with c'.
  - unfold QueryDetail.redraw_due in Hr. rewrite Hd in Hr. lia.
Qed.

(** C15: Updates of the page come to an end: [componentDidUpdate] of the page and of
    the summaries set the state again, which renders again, but when consecutive
    updates are less than a second apart an update is followed by two more at
    most, whatever was changed and however many stages there are. *)
Theorem query_updates_end rest scope c c' c'' s :
  quick c c' -> quick c' c'' ->
  commit pathname (c' :: c'' :: rest) scope c s = commit pathname [c'; c''] scope c s.
Proof.
  intros Hq Hq'. rewrite !(commit_cons c'). destruct (update pathname scope c s) as [[s1 next]|] eqn:E; [|done]. cbn [mbind res_bind].
  assert (next = None \/ (exists ids, next = Some (Summaries ids) /\ drawn_at c ids (summaries s1)) \/
    next = Some Everything /\ QueryDetail.lastRender (detail s1) = Some (at_detail c).2)
    as [->|[(ids & -> & Hs)|[-> Hd]]]; [|done| |].
  - destruct scope; [apply page_once in E as [->|[E|(-> & _ & E)]]|apply summaries_once in E as [->|E]]; auto.
  - by rewrite (summaries_end (c'' :: rest) ids c), (summaries_end [c''] ids c).
  - by apply (page_end rest c c').
Qed.

(** ** Highlighting *)

Definition is_highlight (e : QDEffect) : bool := match e with HighlightQuery => true | _ => false end.

(** How often the text of the query has been highlighted. *)
Definition highlights (s : PageState) : nat := length (List.filter is_highlight (effects s)).

Lemma summary_highlights concerned c old id m :
  drawn_summary concerned c old id m -> List.filter is_highlight (sm_drawn m) = [].
Proof.
  unfold drawn_summary. destruct (mget id old); [|by intros ->]. intros (_ & [charts ->] & _).
  by induction charts.
Qed.

Lemma list_highlights concerned c s s' again :
  update_list concerned c s = Ok (s', again) -> highlights s' = highlights s.
Proof.
  intros (_ & l & Hl & _ & He & _)%list_again. unfold highlights. rewrite He, List.filter_app, length_app.
  replace (List.filter is_highlight (concat _)) with (@nil QDEffect); [cbn; lia|]. clear He.
  induction Hl as [|x l Hx _ IH]; [done|]. cbn. by rewrite List.filter_app, <- IH, (summary_highlights _ _ _ _ _ Hx).
Qed.

(** The page has been drawn once, and the text highlighted [n] times so far. *)
Definition highlighted (n : nat) (s : PageState) : Prop :=
  is_Some (QueryDetail.lastRender (detail s)) /\ highlights s = n.

Lemma update_highlighted n scope c s s' next :
  update pathname scope c s = Ok (s', next) -> highlighted n s -> highlighted n s'.
Proof.
  intros E [Hr <-]. destruct scope as [|ids].
  - apply update_page_inv in E as (s1 & again & drawn & set & E & Ed & Hs & _ & He & _).
    assert (QueryDetail.lastRender (detail s1) = QueryDetail.lastRender (detail s) /\ highlights s1 = highlights s)
      as [Hr1 Hh1].
    { destruct E as [E|[-> _]]; [|done]. split; [by apply list_again in E as [-> _]|by eapply list_highlights]. }
    unfold highlighted. rewrite Hs, <- Hh1. unfold highlights. rewrite He, List.filter_app, length_app.
    unfold QueryDetail.componentDidUpdate in Ed. rewrite <- Hr1 in Hr. destruct Hr as [t Ht]. rewrite Ht in Ed.
    destruct (QueryDetail.redraw_due _ _); injection Ed as <- <-; cbn; rewrite ?Ht; split; (done || lia).
  - apply update_summaries_inv in E as (again & E & _). split; [by apply list_again in E as [-> _]|].
    by eapply list_highlights.
Qed.

Lemma commit_highlighted n clocks scope c s s' :
  commit pathname clocks scope c s = Ok s' -> highlighted n s -> highlighted n s'.
Proof.
  revert scope c s. induction clocks as [|c' clocks IH]; intros scope c s E Hs; cbn [commit] in E; inv_ok;
    destruct a as [s1 next]; apply (update_highlighted n) in Hok; try done; destruct next; inv_ok; eauto.
Qed.

(** The page after its first request has failed. *)
Definition first_failed (u : jsstring) (k k' : Clocks) : QD :=
  qd_answer pathname u (mkQDAnswer None k k') (mount (new_root page_init)).

Lemma first_failed_state u k k' :
  highlighted 1 (r_state (st (first_failed u k k'))) /\ QueryDetail.query (qd_state (first_failed u k k')) = None.
Proof.
  unfold first_failed, qd_answer, set_then, update_root, commit_at. cbn [an_document an_first mount st new_root r_mounted r_state].
  set (s := on_detail with_initialized page_init).
  destruct (page_commit_ok k.2 Everything k.1 s page_inv_init) as (s' & E & _). rewrite E, reset_state. cbn [setState st r_state].
  split; [|by apply commit_settled in E as (stages & t & -> & _)].
  assert (Hu : exists s1 next, update pathname Everything k.1 s = Ok (s1, next) /\ highlighted 1 s1)
    by by eexists _, _; split; [reflexivity|].
  destruct Hu as (s1 & next & Hu & H1). destruct k as [c [|c' clocks]]; cbn [commit fst snd] in *; rewrite Hu in E;
    destruct next; cbn in E; simplify_eq; try done. by eapply commit_highlighted.
Qed.

(** C36: The text of a query is highlighted in the first update of the page only: when
    the first request fails, that update shows no query, and whatever happens on
    the page afterwards its text is never highlighted. *)
Theorem query_never_highlighted u k k' search adm j :
  (exists n, QueryDetail.render (qd_state (first_failed u k k')) = Ok n /\ js "query" ∉ html_ids n) /\
  (reachable (qd_timer search) (qd_answer pathname) (qd_event pathname) adm (first_failed u k k') j ->
   highlights (r_state (st j)) = 1%nat).
Proof.
  destruct (first_failed_state u k k') as [Hh Hq]. split.
  - unfold QueryDetail.render. rewrite Hq.
    destruct (initialized _); eexists; (split; [reflexivity|]); apply (bool_decide_unpack _); vm_compute; done.
  - intros Hr. apply (reachable_ind_inv _ _ _ _ _ (fun i => highlighted 1 (r_state (st i)))) in Hr; [apply Hr|done|].
    assert (closed : forall scope k s s', commit_at pathname scope k s = Ok s' -> highlighted 1 s -> highlighted 1 s')
      by (intros scope c s s'; apply commit_highlighted).
    intros i i' _ IH Hs. inversion Hs as [? n [] l1 l2 Ht|? v a l1 l2 Ht Ha|? e]; subst.
    + by apply timer_keeps.
    + by apply answer_keeps.
    + by apply event_keeps_state.
Qed.
End page.

(** ** A page at work *)

#[local] Existing Instance http_urls.
#[local] Existing Instance utc_env.

Lemma demo_document : wf_document (demo_query true).
Proof.
  split; [|split].
  - split; [repeat split; try (eexists; reflexivity); discriminate|]. repeat split; done.
  - assert (Hs : forall id tasks subs, Forall wf_task tasks -> wf_stage (demo_stage id tasks subs))
      by (intros; split; [by eexists|by repeat constructor]).
    apply (Forall_cons_2 _ demo_tree); [apply Hs, demo_tasks_wf|]. repeat constructor; by eexists.
  - intros stats [= <-]. vm_compute. discriminate.
Qed.

Definition demo_path : jsstring := "/ui/query.html".
Definition demo_search : jsstring := "?20200601_000000_00001_abcde".
Definition demo_url : jsstring := "/v1/query/20200601_000000_00001_abcde".

(** Updates at [t], the nested ones ten milliseconds later each. *)
Definition demo_clock (t : Z) : Clock := mkClock (t, t + 1) (fun _ => (t, t + 1)) t.
Definition demo_clocks (t : Z) : Clock * list Clock := (demo_clock t, [demo_clock (t + 10); demo_clock (t + 20)]).
Definition demo_answer (q : Query) (t : Z) : QDAnswer := mkQDAnswer (Some (q, t)) (demo_clocks t) (demo_clocks (t + 100)).

(** The final document arrives, and the user unfolds a stage. *)
Definition demo_final : QD := qd_answer demo_path demo_url (demo_answer (demo_query true) 5000) (mount (new_root page_init)).
Definition demo_unfolded : QD := qd_event demo_path (OnSummary "q.0" ToggleExpanded, demo_clocks 5500) demo_final.

Lemma demo_final_reachable adm :
  adm (demo_answer (demo_query true) 5000) -> qd_reachable demo_path demo_search adm demo_final.
Proof.
  intros Ha. apply rtc_once. by apply (step_answer _ _ _ _ (qd_start demo_search) demo_url _ [] []).
Qed.

Lemma query_tree_renders_witness :
  r_mounted (st demo_unfolded) = true /\ console demo_unfolded = [] /\
  exists tables, render_tree demo_path 0 (r_state (st demo_unfolded)) = Ok tables /\
    map table_rows tables = [[js "q.1.0.0"; js "q.1.0.1"; js "q.1.0.2"]; []; []].
Proof.
  destruct (query_tree_renders demo_path demo_search demo_unfolded) as (Hm & Hc & _ & Hr).
  - eapply rtc_r; [apply demo_final_reachable, demo_document|apply step_event].
  - split; [exact Hm|]. split; [exact Hc|]. destruct (Hr 0) as (tables & E & Ht). exists tables. split; [exact E|].
    rewrite Ht. vm_compute. reflexivity.
Defined.

(** A document that is not final arrives, and then the final one. *)
Definition demo_first : QD := qd_answer demo_path demo_url (demo_answer (demo_query false) 5000) (mount (new_root page_init)).
Definition demo_second : QD :=
  qd_timer demo_search tt
    (mkInst (st demo_first) (ids demo_first) [] (next_id demo_first) (inflight demo_first) (console demo_first)).
Definition demo_done : QD :=
  qd_answer demo_path demo_url (demo_answer (demo_query true) 9000)
    (mkInst (st demo_second) (ids demo_second) (timers demo_second) (next_id demo_second) [] (console demo_second)).

Lemma query_polls_until_final_witness :
  (armed tt demo_first + length (inflight demo_first) = 1)%nat /\
  (armed tt demo_done + length (inflight demo_done) = 0)%nat.
Proof.
  assert (H1 : qd_run demo_path demo_search (fun _ => True) [demo_answer (demo_query false) 5000] demo_first)
    by (by apply (trace_answer _ _ _ _ _ [] (qd_start demo_search) demo_url (demo_answer (demo_query false) 5000) [] []);
        [constructor|..]).
  split.
  - destruct (query_polls_until_final demo_path demo_search (fun _ => True) _ _ H1) as (_ & _ & H).
    apply H. vm_compute. reflexivity.
  - assert (H2 : qd_run demo_path demo_search (fun _ => True) [demo_answer (demo_query false) 5000] demo_second)
      by (apply (trace_timer _ _ _ _ _ _ demo_first 0 tt [] [] H1); vm_compute; reflexivity).
    assert (Hi : inflight demo_second = [] ++ demo_url :: []) by (vm_compute; reflexivity).
    pose proof (trace_answer _ _ _ _ _ _ demo_second demo_url (demo_answer (demo_query true) 9000) [] [] H2 Hi I) as H3.
    destruct (query_polls_until_final demo_path demo_search (fun _ => True) _ _ H3) as (_ & _ & H).
    apply H. vm_compute. reflexivity.
Defined.

(** Automatic refresh is switched off after the first document. *)
Definition demo_off : QD :=
  qd_event demo_path (OnPage StageRefreshClick, demo_clocks 5500)
    (qd_answer demo_path demo_url (demo_answer (demo_query false) 5000) (mount (new_root page_init))).
Definition demo_asking : QD :=
  qd_timer demo_search tt
    (mkInst (st demo_off) (ids demo_off) [] (next_id demo_off) (inflight demo_off) (console demo_off)).
Definition demo_later : QD :=
  qd_answer demo_path demo_url (demo_answer (demo_query true) 9000)
    (mkInst (st demo_asking) (ids demo_asking) (timers demo_asking) (next_id demo_asking) [] (console demo_asking)).

Lemma stage_snapshot_frozen_witness :
  same_stages (lastSnapshotStage (detail (r_state (st demo_off)))) (lastSnapshotStage (detail (r_state (st demo_later)))) /\
  stageRefresh (detail (r_state (st demo_later))) = false.
Proof.
  apply (stage_snapshot_frozen demo_path demo_search (fun _ => True) demo_off demo_later); [vm_compute; reflexivity|].
  apply (rtc_l _ _ demo_asking); [|apply rtc_once].
  - apply (step_timer _ _ _ _ demo_off 0 tt [] []). vm_compute. reflexivity.
  - apply (step_answer _ _ _ _ demo_asking demo_url (demo_answer (demo_query true) 9000) [] []); [|done].
    vm_compute. reflexivity.
Defined.


Lemma query_updates_end_witness :
  commit demo_path (map demo_clock [5010; 5020; 7000; 9000]) Everything (demo_clock 5000) (r_state (st demo_final)) =
  commit demo_path (map demo_clock [5010; 5020]) Everything (demo_clock 5000) (r_state (st demo_final)).
Proof.
  apply (query_updates_end demo_path [demo_clock 7000; demo_clock 9000]); split; cbn; lia.
Defined.

(** The first request fails, the second one brings the query. *)
Definition demo_failed : QD := first_failed demo_path demo_url (demo_clocks 1000) (demo_clocks 1000).
Definition demo_retried : QD :=
  qd_timer demo_search tt
    (mkInst (st demo_failed) (ids demo_failed) [] (next_id demo_failed) (inflight demo_failed) (console demo_failed)).
Definition demo_shown : QD :=
  qd_answer demo_path demo_url (demo_answer (demo_query true) 5000)
    (mkInst (st demo_retried) (ids demo_retried) (timers demo_retried) (next_id demo_retried) [] (console demo_retried)).

Lemma query_never_highlighted_witness :
  highlights (r_state (st demo_shown)) = 1%nat /\
  exists n, QueryDetail.render (detail (r_state (st demo_shown))) = Ok n /\ js "query" ∈ html_ids n.
Proof.
  split.
  - apply (query_never_highlighted demo_path demo_url (demo_clocks 1000) (demo_clocks 1000) demo_search (fun _ => True)).
    apply (rtc_l _ _ demo_retried); [|apply rtc_once].
    + apply (step_timer _ _ _ _ demo_failed 0 tt [] []). vm_compute. reflexivity.
    + apply (step_answer _ _ _ _ demo_retried demo_url (demo_answer (demo_query true) 5000) [] []); [|done].
      vm_compute. reflexivity.
  - destruct (QueryDetail.render (detail (r_state (st demo_shown)))) as [n|] eqn:E; [|vm_compute in E; discriminate E].
    exists n. split; [done|]. apply (bool_decide_unpack _). vm_compute in E. injection E as <-. vm_compute. done.
Defined.
