(* ===== verification/LivePlan.v ===== *)
(** * The live plan of a query ([LivePlan.jsx])

    The plan of every stage, flattened into maps, and the calls that turn it
    into a graph.  The graph ([dagre-d3]) is a library object that the component
    keeps and adds to; the model records the calls. *)

From S2P Require Import Prelude JsString JsNumber JsObject Data Utils EventLoop React VDom QueryHeader.

(** ** Flattened plans *)

Record PlanNodeProps := mkPlanNodeProps {
  np_id : jsstring; np_name : jsstring; np_identifier : jsstring; np_details : jsstring;
  np_sources : list jsstring; np_remoteSources : list jsstring
}.

Record StageNodeInfo := mkStageNodeInfo {
  sn_stageId : jsstring; sn_id : jsstring; sn_root : jsstring; sn_distribution : jsstring;
  sn_stageStats : option StageStats; sn_state : jsstring; sn_nodes : list (jsstring * PlanNodeProps)
}.

Abbreviation stage_map := (list (jsstring * StageNodeInfo)).

(** The two arguments [flattenNode] only passes on are left out. *)
Fixpoint flattenNode (node : JsonNode) (result : list (jsstring * PlanNodeProps)) :
    list (jsstring * PlanNodeProps) :=
  fold_left (fun result child => flattenNode child result) (jn_children node)
    (mset (jn_id node)
       {| np_id := jn_id node; np_name := jn_name node; np_identifier := jn_identifier node;
          np_details := jn_details node; np_sources := map jn_id (jn_children node);
          np_remoteSources := jn_remoteSources node |} result).

(** [stage.subStages] and [stage.plan] throw when they are missing. *)
Fixpoint flattenStage (stageInfo : Stage) (result : stage_map) : res stage_map :=
  result ←
    match sg_subStages stageInfo with
    | None => Throw (TypeError "subStages.forEach")
    | Some subStages =>
        (fix each l result :=
           match l with
           | [] => Ok result
           | stage :: l' => result ← flattenStage stage result; each l' result
           end) subStages result
    end;
  plan ← get_prop "plan.root" (sg_plan stageInfo);
  node ← pl_jsonRepresentation plan;
  let info := sg_latestAttemptExecutionInfo stageInfo in
  Ok (mset (pl_id plan)
        {| sn_stageId := sg_stageId stageInfo; sn_id := pl_id plan; sn_root := pn_id (pl_root plan);
           sn_distribution := pl_distribution plan; sn_stageStats := se_stats info;
           sn_state := se_state info; sn_nodes := flattenNode node [] |} result).

Definition getStages (queryInfo : Query) : res stage_map :=
  outputStage ← get_prop "subStages" (q_outputStage queryInfo);
  flattenStage outputStage [].

(** ** Labels *)

Abbreviation LNode := (node Empty_set Empty_set).

Definition br : LNode := El "br" [] [].
Definition hr : LNode := El "hr" [] [].

Definition renderStageStatistics (stage : StageNodeInfo) : res LNode :=
  stats ← get_prop "totalCpuTime" (sn_stageStats stage);
  rows ← formatRows (ss_rawInputPositions stats);
  let blocked := [Txt "Blocked: "; Txt (ss_totalBlockedTime stats); Txt " "] in
  Ok (El "div" []
    [El "div" []
       [El "h3" [class_ "margin-top: 0"] [Txt "Stage "; Txt (sn_id stage)];
        Txt (sn_state stage); hr;
        Txt "CPU: "; Txt (ss_totalCpuTime stats); br;
        Txt "Buffered: "; Txt (ss_bufferedDataSize stats); br;
        (if ss_fullyBlocked stats then El "div" [style_ [("color"%string, js "#ff0000")]] blocked
         else El "div" [] blocked);
        Txt "Memory: "; Txt (ss_userMemoryReservation stats); br;
        Txt "Splits: ";
        Txt (js "Q:" ++ num_to_string (ss_queuedDrivers stats) ++ js ", R:" ++
             num_to_string (ss_runningDrivers stats) ++ js ", F:" ++ num_to_string (ss_completedDrivers stats));
        br;
        Txt "Lifespans: ";
        Txt (num_to_string (ss_completedLifespans stats) ++ js " / " ++ num_to_string (ss_totalLifespans stats));
        hr;
        Txt "Input: "; Txt (ss_rawInputDataSize stats ++ js " / " ++ rows)]]).

Definition renderPlanNode (p : PlanNodeProps) : LNode :=
  El "div" [style_ [("color"%string, js "#000")]; sattr "data-toggle" "tooltip"; sattr "data-placement" "bottom";
            sattr "data-container" "body"; sattr "data-html" "true";
            sattr "title" (js "<h4>" ++ np_name p ++ js "</h4>" ++ np_identifier p)]
    [El "strong" [] [Txt (np_name p)];
     El "div" [] [opt_txt (truncateString (Some (np_identifier p)) 35)]].

(** ** The graph *)

Inductive GraphAttr := GText (s : jsstring) | GHtml (n : LNode).

Inductive GraphCall :=
  | SetNode (id : jsstring) (attrs : list (string * GraphAttr))
  | SetParent (id parent : jsstring)
  | SetEdge (from to : jsstring) (attrs : list (string * GraphAttr)).

Definition node_id (id : jsstring) : jsstring := js "node-" ++ id.
Definition stage_root_id (id : jsstring) : jsstring := js "stage-" ++ id ++ js "-root".

Definition plan_edge : list (string * GraphAttr) :=
  [("class"%string, GText "plan-edge"); ("arrowheadClass"%string, GText "plan-arrowhead")].

(** The edge from the stage a remote source names, when it is known. *)
Definition remote_edge (allStages : stage_map) (nodeId sourceId : jsstring) : res (list GraphCall) :=
  match mget sourceId allStages with
  | None => Ok []
  | Some source =>
      sourceStats ← get_prop "outputDataSize" (sn_stageStats source);
      rows ← formatRows (ss_outputPositions sourceStats);
      Ok [SetEdge (stage_root_id sourceId) nodeId
            [("class"%string, GText "plan-edge"); ("style"%string, GText "stroke-width: 4px");
             ("arrowheadClass"%string, GText "plan-arrowhead");
             ("label"%string, GText (ss_outputDataSize sourceStats ++ js " / " ++ rows));
             ("labelStyle"%string, GText "color: #fff; font-weight: bold; font-size: 24px;");
             ("labelType"%string, GText "html")]]
  end.

Definition node_calls (clusterId : jsstring) (allStages : stage_map) (p : PlanNodeProps) : res (list GraphCall) :=
  let nodeId := node_id (np_id p) in
  remote ← (match np_remoteSources p with
            | [] => Ok []
            | sources =>
                edges ← res_map (remote_edge allStages nodeId) sources;
                Ok (SetNode nodeId [("label"%string, GText ""); ("shape"%string, GText "circle")] :: concat edges)
            end);
  Ok ([SetNode nodeId [("label"%string, GHtml (renderPlanNode p)); ("style"%string, GText "fill: #fff");
                       ("labelType"%string, GText "html")];
       SetParent nodeId clusterId] ++
      map (fun source => SetEdge (node_id source) nodeId plan_edge) (np_sources p) ++ remote).

Definition updateD3Stage (stage : StageNodeInfo) (allStages : stage_map) : res (list GraphCall) :=
  let clusterId := sn_stageId stage in
  let stageRootNodeId := stage_root_id (sn_id stage) in
  let color := getStageStateColor (Some (sn_state stage)) (sn_stageStats stage) in
  html ← renderStageStatistics stage;
  nodes ← res_map (fun '(_, p) => node_calls clusterId allStages p) (sn_nodes stage);
  Ok ([SetNode clusterId [("style"%string, GText (js "fill: " ++ color)); ("labelStyle"%string, GText "fill: #fff")];
       SetNode stageRootNodeId [("class"%string, GText "stage-stats"); ("label"%string, GHtml html);
                                ("labelType"%string, GText "html")];
       SetParent stageRootNodeId clusterId;
       SetEdge (node_id (sn_root stage)) stageRootNodeId [("style"%string, GText "visibility: hidden")]] ++
      concat nodes).

(** The calls an update of the graph makes for a query. *)
Definition graph_calls (q : Query) : res (list GraphCall) :=
  stages ← getStages q;
  calls ← res_map (fun '(_, stage) => updateD3Stage stage stages) stages;
  Ok (concat calls).

(** ** Graphs and drawing areas ([utils.js])

    A graph object: its options, its attributes, the label of edges set without
    one, and the calls made on it. *)
Record Graph := mkGraph {
  g_compound : bool; g_attrs : list (string * jsstring);
  g_defaultEdgeLabel : list (string * GraphAttr); g_calls : list GraphCall
}.

Definition initializeGraph : Graph := mkGraph true [("rankdir"%string, js "BT")] [] [].

Definition graph_add (calls : list GraphCall) (g : Graph) : Graph :=
  mkGraph (g_compound g) (g_attrs g) (g_defaultEdgeLabel g) (g_calls g ++ calls).

(** An element a script looks up: [None] when the page does not have it, else the
    tags appended to it.  [d3.select] of a missing element is the empty
    selection, on which every call does nothing. *)
Abbreviation Element := (option (list string)).
Inductive D3Selection := Selected | EmptySelection.

Definition d3_select (e : Element) : D3Selection :=
  match e with Some _ => Selected | None => EmptySelection end.

Definition append (tag : string) (s : D3Selection) (e : Element) : Element :=
  match s, e with Selected, Some tags => Some (tags ++ [tag]) | _, _ => e end.

Definition initializeSvg (e : Element) : D3Selection * Element :=
  let svg := d3_select e in (svg, append "g" svg e).

(** [d3.select("#... g")]. *)
Definition select_group (e : Element) : D3Selection :=
  match e with
  | Some tags => if existsb (String.eqb "g") tags then Selected else EmptySelection
  | None => EmptySelection
  end.

(** ** State *)

(** The React state and the drawing area of the page. *)
Record LPState := mkLPState {
  initialized : bool; ended : bool; query : option Query; svg : option D3Selection; graph : Graph;
  canvas : Element
}.

Definition lp_init : LPState := mkLPState false false None None initializeGraph None.

(** What the browser reports: the computed width and height of the page's
    container and the size of the drawn graph. *)
Record Canvas := mkCanvas {
  cv_width : jsstring; cv_height : jsstring; graph_width : number; graph_height : number
}.

Inductive CanvasEffect :=
  | RenderGraph (inner : D3Selection) (graph : Graph)
  | ClickOpensStage                              (* svg.selectAll("g.cluster").on("click", ...) *)
  | ZoomTo (scale translate_x : number)
  | Resize (height width : number).

(** [s.replace(/px/, "")]. *)
Definition drop_px (s : jsstring) : jsstring :=
  match find_sub (js "px") s with
  | Some i => take i s ++ drop (i + 2) s
  | None => s
  end.

Definition canvas_effects (ended : bool) (c : Canvas) : list CanvasEffect :=
  let width := parseInt (drop_px (cv_width c)) -f num 50 in
  let height := parseInt (drop_px (cv_height c)) -f num 50 in
  let graphHeight := graph_height c +f num 100 in
  let graphWidth := graph_width c +f num 100 in
  if ended then
    let initialScale := Math_min (width /f graphWidth) (height /f graphHeight) in
    [ZoomTo initialScale ((width -f (graph_width c *f initialScale)) /f num 2); Resize height width]
  else [Resize graphHeight graphWidth].

Definition with_graph (g : Graph) (s : LPState) : LPState :=
  mkLPState (initialized s) (ended s) (query s) (svg s) g (canvas s).
Definition with_svg (s : LPState) : LPState :=
  let '(svg, canvas) := initializeSvg (canvas s) in
  mkLPState (initialized s) (ended s) (query s) (Some svg) (graph s) canvas.

(** The part of [updateD3Graph] after the drawing area exists. *)
Definition draw (c : Canvas) (s : LPState) : res (list CanvasEffect * LPState) :=
  match query s with
  | None => Ok ([], s)
  | Some q =>
      calls ← graph_calls q;
      let s := with_graph (graph_add calls (graph s)) s in
      Ok (RenderGraph (select_group (canvas s)) (graph s) :: ClickOpensStage :: canvas_effects (ended s) c, s)
  end.

(** [componentDidUpdate]: setting [svg] changes the state and so runs it again. *)
Definition componentDidUpdate (c : Canvas) (s : LPState) : res (list CanvasEffect * LPState) :=
  match svg s with Some _ => draw c s | None => draw c (with_svg s) end.

(** The URL a click on a stage opens. *)
Definition handleStageClick (stageCssId : jsstring) : jsstring := js "stage.html?" ++ stageCssId.

(** ** Rendering *)

Inductive LPChild := CQueryHeader (query : Query).

Definition message_page {E C} (label : node E C) : node E C :=
  El "div" [class_ "row error-message"] [El "div" [class_ "col-xs-12"] [El "h4" [] [label]]].

Definition render (isEmbedded : bool) (s : LPState) : node Empty_set LPChild :=
  match query s, initialized s with
  | Some q, true =>
      let loadingMessage :=
        match q_outputStage q with
        | None =>
            El "div" [class_ "row error-message"]
              [El "div" [class_ "col-xs-12"]
                 [El "h4" [] [Txt "Live plan graph will appear automatically when query starts running."];
                  El "div" [class_ "loader"] [Txt "Loading..."]]]
        | Some _ => Nothing
        end in
      El "div" []
        [if isEmbedded then Nothing else Mount (CQueryHeader q);
         El "div" [class_ "row"]
           [El "div" [class_ "col-xs-12"]
              [loadingMessage;
               El "div" [sattr "id" "live-plan"; class_ "graph-container"]
                 [El "div" [class_ "pull-right"]
                    [Txt (if ended s then "Scroll to zoom." else "Zoom disabled while query is running.");
                     Txt " Click stage to view additional statistics"];
                  El "svg" [sattr "id" "plan-canvas"] []]]]]
  | _, true => message_page (Txt "Query not found")
  | _, false => message_page (El "div" [class_ "loader"] [Txt "Loading..."])
  end.

(** ** Updates

    React replaces the page (an element that is on both pages stays as it is),
    the children render, and [componentDidUpdate] runs.  The header is a child
    unless the plan is embedded. *)
Definition has_canvas (s : LPState) : bool :=
  match query s with Some _ => initialized s | None => false end.

Definition with_page (s : LPState) : LPState :=
  mkLPState (initialized s) (ended s) (query s) (svg s) (graph s)
    (if has_canvas s then Some (default [] (canvas s)) else None).

Definition render_children (pathname : jsstring) (isEmbedded : bool) (s : LPState) : res unit :=
  match query s with
  | Some q =>
      if initialized s && negb isEmbedded then _ ← QueryHeader.render pathname q; Ok tt else Ok tt
  | None => Ok tt
  end.

Definition commit (pathname : jsstring) (isEmbedded : bool) (c : Canvas) (s : LPState) :
    res (list CanvasEffect * LPState) :=
  _ ← render_children pathname isEmbedded s;
  componentDidUpdate c (with_page s).

(** The update as a function on states; what is drawn is in [commit]. *)
Definition committed (pathname : jsstring) (isEmbedded : bool) (c : Canvas) (s : LPState) : res LPState :=
  r ← commit pathname isEmbedded c s; Ok r.2.

(** ** Polling *)

Abbreviation LP := (Inst (Root LPState) unit jsstring).

Definition stop_refreshing (s : LPState) : bool :=
  match query s with None => false | Some _ => ended s end.
Definition lp_stopped (r : Root LPState) : bool := stop_refreshing (r_state r).

Definition resetTimer (i : LP) : LP :=
  let i := clear tt i in if stop_refreshing (r_state (st i)) then i else arm tt i.

(** [queryId] is the component's property. *)
Definition refreshLoop (queryId : jsstring) (i : LP) : LP := send (js "/v1/query/" ++ queryId) (clear tt i).

Definition with_query (q : Query) (s : LPState) : LPState :=
  mkLPState true (q_finalQueryInfo q) (Some q) (svg s) (graph s) (canvas s).
Definition lp_failed (s : LPState) : LPState :=
  mkLPState true (ended s) (query s) (svg s) (graph s) (canvas s).

Section component.
Variables (pathname : jsstring) (isEmbedded : bool).

(** The handler of [.catch]; what it throws itself nobody catches. *)
Definition lp_rejected (c : Canvas) : LP -> LP :=
  set_then (committed pathname isEmbedded c) lp_failed resetTimer.

(** A document, or a rejected promise, and the page it is drawn on.  An exception
    of the handler of the document goes to the handler of [.catch]. *)
Definition lp_answer (_ : jsstring) (a : option Query * Canvas) (i : LP) : LP :=
  match a with
  | (Some q, c) =>
      let '(r, threw) := update_root (committed pathname isEmbedded c) (with_query q) (st i) in
      let i := setState (fun _ => r) i in
      match threw with None => resetTimer i | Some _ => lp_rejected c i end
  | (None, c) => lp_rejected c i
  end.
End component.

Definition lp_timer (queryId : jsstring) (_ : unit) : LP -> LP := refreshLoop queryId.
Definition lp_event (e : Empty_set) (i : LP) : LP := i.
Definition componentDidMount (queryId : jsstring) (i : LP) : LP := refreshLoop queryId i.
