(* ===== verification/LivePlanFacts.v ===== *)
(** * The live plan of a query: properties *)

From S2P Require Import Prelude JsString JsNumber JsObject Data Utils UtilsFacts EventLoop React VDom.
From S2P Require Import TaskList StageSummaryFacts LivePlan.

(** ** Flattened plans *)

Section node_induction.
Variable P : JsonNode -> Prop.
Hypothesis step : forall n, Forall P (jn_children n) -> P n.

Fixpoint json_node_ind (n : JsonNode) : P n.
Proof.
  apply step. destruct n as [? ? ? ? children ?]. cbn.
  induction children as [|c children IH]; constructor; [apply json_node_ind|exact IH].
Defined.
End node_induction.

(** The nodes of a plan and their ids. *)
Fixpoint plan_nodes (n : JsonNode) : list JsonNode := n :: flat_map plan_nodes (jn_children n).
Definition plan_ids (n : JsonNode) : list jsstring := map jn_id (plan_nodes n).

Definition props_of (n : JsonNode) : PlanNodeProps :=
  {| np_id := jn_id n; np_name := jn_name n; np_identifier := jn_identifier n; np_details := jn_details n;
     np_sources := map jn_id (jn_children n); np_remoteSources := jn_remoteSources n |}.

Lemma plan_nodes_eq n : plan_nodes n = n :: flat_map plan_nodes (jn_children n).
Proof. by destruct n. Qed.

Lemma flattenNode_eq n m :
  flattenNode n m = fold_left (fun m c => flattenNode c m) (jn_children n) (mset (jn_id n) (props_of n) m).
Proof. by destruct n. Qed.

(** Flattening is entering the nodes one after the other, parents first. *)
Definition enter (m : list (jsstring * PlanNodeProps)) (n : JsonNode) : list (jsstring * PlanNodeProps) :=
  mset (jn_id n) (props_of n) m.

Lemma flattenNode_fold n m : flattenNode n m = fold_left enter (plan_nodes n) m.
Proof.
  revert m. induction n as [n IH] using json_node_ind. intros m.
  rewrite flattenNode_eq, plan_nodes_eq. cbn [fold_left].
  change (mset (jn_id n) (props_of n) m) with (enter m n). generalize (enter m n). clear m.
  induction IH as [|c children Hc _ IHc]; intros m; [done|]. cbn. by rewrite fold_left_app, Hc, IHc.
Qed.

Lemma fold_enter_keys l m k :
  k ∈ mkeys (fold_left enter l m) <-> k ∈ mkeys m \/ k ∈ map jn_id l.
Proof.
  revert m. induction l as [|n l IH]; intros m; cbn [fold_left map].
  { rewrite elem_of_nil. tauto. }
  rewrite IH, elem_of_cons. unfold enter.
  destruct (decide (jn_id n ∈ mkeys m)) as [Hin|Hin].
  - rewrite mkeys_mset_old by done. split; [tauto|]. intros [?|[->|?]]; auto.
  - rewrite mkeys_mset_new by done. unfold mkeys. rewrite map_app, elem_of_app. cbn [map].
    rewrite list_elem_of_singleton. tauto.
Qed.

Lemma fold_enter_entries l m k p :
  (k, p) ∈ fold_left enter l m -> (k, p) ∈ m \/ exists n, n ∈ l /\ k = jn_id n /\ p = props_of n.
Proof.
  revert m. induction l as [|n l IH]; intros m; cbn [fold_left]; [by left|].
  intros [Hin|(n' & Hn & E)]%IH; [|by right; exists n'; split; [by right|]].
  apply mset_elem in Hin as [[= -> ->]|[Hin _]]; [|by left]. right. exists n. split; [left|done].
Qed.

Lemma children_nodes n c : c ∈ jn_children n -> c ∈ plan_nodes n.
Proof.
  intros Hc. rewrite plan_nodes_eq. right. apply list_elem_of_In, in_flat_map. exists c.
  rewrite <- !list_elem_of_In. split; [done|]. rewrite plan_nodes_eq. left.
Qed.

Lemma plan_nodes_trans n m x : m ∈ plan_nodes n -> x ∈ plan_nodes m -> x ∈ plan_nodes n.
Proof.
  induction n as [n IH] using json_node_ind. intros Hm Hx. rewrite plan_nodes_eq in Hm.
  apply elem_of_cons in Hm as [->|Hm]; [done|].
  apply list_elem_of_In, in_flat_map in Hm as (c & Hc & Hm). rewrite <- list_elem_of_In in Hc, Hm.
  rewrite plan_nodes_eq. right. apply list_elem_of_In, in_flat_map. exists c.
  rewrite <- !list_elem_of_In. split; [done|]. rewrite Forall_forall in IH. auto.
Qed.

(** A map of plan nodes whose sources are among its keys. *)
Definition nodes_ok (m : list (jsstring * PlanNodeProps)) : Prop :=
  forall k p, (k, p) ∈ m -> np_id p = k /\ forall src, src ∈ np_sources p -> src ∈ mkeys m.

Lemma flattenNode_ok n :
  nodes_ok (flattenNode n []) /\ forall k, k ∈ mkeys (flattenNode n []) <-> k ∈ plan_ids n.
Proof.
  rewrite flattenNode_fold.
  assert (K : forall k, k ∈ mkeys (fold_left enter (plan_nodes n) []) <-> k ∈ plan_ids n).
  { intros k. rewrite fold_enter_keys. split; [intros [H|H]; [inversion H|done]|by right]. }
  split; [|exact K]. intros k p Hin.
  apply fold_enter_entries in Hin as [Hin|(m & Hm & -> & ->)]; [inversion Hin|].
  split; [done|]. cbn. intros src Hs. apply K. unfold plan_ids.
  apply list_elem_of_In, in_map_iff in Hs as (c & <- & Hc). rewrite <- list_elem_of_In in Hc.
  apply list_elem_of_In, in_map. rewrite <- list_elem_of_In.
  eapply plan_nodes_trans; [exact Hm|]. by apply children_nodes.
Qed.

(** ** The map of stages *)

(** A stage the page can show: it says what its sub-stages are, it has
    statistics, and a plan whose JSON form parses and has the root as a node. *)
Definition plannable (x : Stage) : Prop :=
  is_Some (sg_subStages x) /\ is_Some (se_stats (sg_latestAttemptExecutionInfo x)) /\
  exists plan node, sg_plan x = Some plan /\ pl_jsonRepresentation plan = Ok node /\
    pn_id (pl_root plan) ∈ plan_ids node.

Definition plan_tree (root : Stage) : Prop := forall x, rtc substage root x -> plannable x.

(** An entry of the map of stages. *)
Definition stage_ok (e : jsstring * StageNodeInfo) : Prop :=
  sn_id e.2 = e.1 /\ is_Some (sn_stageStats e.2) /\ nodes_ok (sn_nodes e.2) /\
  sn_root e.2 ∈ mkeys (sn_nodes e.2).

Fixpoint flatten_all (l : list Stage) (m : stage_map) : res stage_map :=
  match l with
  | [] => Ok m
  | s :: l' => m ← flattenStage s m; flatten_all l' m
  end.

Definition stage_info (x : Stage) (plan : Plan) (node : JsonNode) : StageNodeInfo :=
  let info := sg_latestAttemptExecutionInfo x in
  {| sn_stageId := sg_stageId x; sn_id := pl_id plan; sn_root := pn_id (pl_root plan);
     sn_distribution := pl_distribution plan; sn_stageStats := se_stats info;
     sn_state := se_state info; sn_nodes := flattenNode node [] |}.

Lemma flattenStage_eq x subs plan node m :
  sg_subStages x = Some subs -> sg_plan x = Some plan -> pl_jsonRepresentation plan = Ok node ->
  flattenStage x m = (m ← flatten_all subs m; Ok (mset (pl_id plan) (stage_info x plan node) m)).
Proof.
  intros Es Ep Ej. destruct x as [id p info prev subs' state tasks]. cbn in Es, Ep. subst. cbn [flattenStage sg_subStages].
  match goal with |- mbind _ (?f subs m) = _ => assert (E : forall l m, f l m = flatten_all l m) end.
  { intros l. induction l as [|s l IH]; intros m'; [done|]. cbn [flatten_all].
    destruct (flattenStage s m'); cbn [mbind res_bind]; [apply IH|done]. }
  cbn [sg_plan get_prop mbind res_bind sg_latestAttemptExecutionInfo]. by rewrite E, Ej.
Qed.

(** What flattening a stage, or several, does to a well-formed map. *)
Definition flattens (f : stage_map -> res stage_map) (xs : Stage -> Prop) : Prop :=
  forall m, Forall stage_ok m ->
  exists m', f m = Ok m' /\ Forall stage_ok m' /\ (forall k, k ∈ mkeys m -> k ∈ mkeys m') /\
    forall x plan, xs x -> sg_plan x = Some plan -> pl_id plan ∈ mkeys m'.

Lemma flatten_all_ok l :
  Forall (fun s => flattens (flattenStage s) (rtc substage s)) l ->
  flattens (flatten_all l) (fun x => exists s, s ∈ l /\ rtc substage s x).
Proof.
  induction 1 as [|s l Hs _ IH]; intros m Hm; cbn [flatten_all].
  { exists m. repeat split; try done. intros x plan (s & Hin & _). inversion Hin. }
  destruct (Hs m Hm) as (m1 & -> & Hm1 & K1 & S1). cbn [mbind res_bind].
  destruct (IH m1 Hm1) as (m2 & -> & Hm2 & K2 & S2). exists m2. split; [done|]. split; [done|].
  split; [auto|]. intros x plan (s' & Hin & Hr) Hp.
  apply elem_of_cons in Hin as [->|Hin]; [by eauto|]. by eapply S2; eauto.
Qed.

Lemma mset_in {K V} `{EqDecision K} (k : K) (v : V) m : k ∈ mkeys (mset k v m).
Proof. apply mhas_spec. unfold mhas. by rewrite mget_mset_eq. Qed.

Lemma mset_keys_mono {K V} `{EqDecision K} (k k' : K) (v : V) m : k' ∈ mkeys m -> k' ∈ mkeys (mset k v m).
Proof.
  intros H. apply mhas_spec in H. apply mhas_spec. unfold mhas in *. rewrite mget_mset. by case_decide.
Qed.

Lemma mset_Forall {K V} `{EqDecision K} (P : K * V -> Prop) k v m :
  P (k, v) -> Forall P m -> Forall P (mset k v m).
Proof.
  intros Hk Hm. apply Forall_forall. intros e [->|[He _]]%mset_elem; [done|].
  rewrite Forall_forall in Hm. auto.
Qed.

Lemma stage_info_ok x plan node :
  is_Some (se_stats (sg_latestAttemptExecutionInfo x)) ->
  pn_id (pl_root plan) ∈ plan_ids node ->
  stage_ok (pl_id plan, stage_info x plan node).
Proof.
  intros Hs Hr. destruct (flattenNode_ok node) as [Hn Hk].
  split; [done|]. split; [done|]. split; [done|]. by apply Hk.
Qed.

Lemma flattenStage_ok root : plan_tree root -> flattens (flattenStage root) (rtc substage root).
Proof.
  induction root as [root IH] using stage_tree_ind. intros Hw m Hm.
  destruct (Hw root (rtc_refl _ _)) as ([subs Es] & Hst & plan & node & Ep & Ej & Hr).
  rewrite (flattenStage_eq root subs plan node) by done.
  destruct (flatten_all_ok subs) with (m := m) as (m' & -> & Hm' & K & S); [|done|].
  { specialize (IH subs Es). rewrite Forall_forall in IH |- *. intros s Hs. apply IH; [done|].
    intros x Hx. apply Hw. eapply rtc_l; [|exact Hx]. by exists subs. }
  cbn [mbind res_bind]. eexists. split; [reflexivity|].
  split; [apply mset_Forall; [by apply stage_info_ok|done]|].
  split; [intros k Hk; apply mset_keys_mono; auto|].
  intros x plan' Hx Hp. inversion Hx as [|? y ? (subs' & Es' & Hy) Hx']; subst.
  - rewrite Ep in Hp. injection Hp as <-. apply mset_in.
  - apply mset_keys_mono. rewrite Es in Es'. injection Es' as <-. by eapply S; eauto.
Qed.

(** ** The graph *)

Definition set_ids (calls : list GraphCall) : list jsstring :=
  flat_map (fun c => match c with SetNode id _ => [id] | _ => [] end) calls.

(** The node ids a call refers to. *)
Definition refs (c : GraphCall) : list jsstring :=
  match c with
  | SetNode _ _ => []
  | SetParent id parent => [id; parent]
  | SetEdge from to _ => [from; to]
  end.

(** Every call refers to nodes of [ids]. *)
Definition closed (ids : list jsstring) (calls : list GraphCall) : Prop :=
  Forall (fun c => Forall (fun id => id ∈ ids) (refs c)) calls.

Lemma set_ids_app a b : set_ids (a ++ b) = set_ids a ++ set_ids b.
Proof. unfold set_ids. apply flat_map_app. Qed.

Lemma set_ids_concat l : set_ids (concat l) = concat (map set_ids l).
Proof. induction l as [|a l IH]; cbn; [done|]. by rewrite set_ids_app, IH. Qed.

Lemma formatRows_total x : exists t, formatRows (JNum x) = Ok t.
Proof.
  unfold formatRows. destruct (strict_eq_num _ _); [eauto|].
  destruct (formatCount_total (JNum x)) as [t ->]; [done|]. cbn. eauto.
Qed.

Lemma remote_edge_ok stages nodeId src ids :
  Forall stage_ok stages -> nodeId ∈ ids ->
  (forall k, k ∈ mkeys stages -> stage_root_id k ∈ ids) ->
  exists calls, remote_edge stages nodeId src = Ok calls /\ closed ids calls.
Proof.
  intros Hs Hn Hk. unfold remote_edge. destruct (mget src stages) as [info|] eqn:E; [|by eexists; split; [done|constructor]].
  assert (Hin : (src, info) ∈ stages) by by apply mget_elem.
  rewrite Forall_forall in Hs. destruct (Hs _ Hin) as (_ & [stats Est] & _).
  cbn [snd] in Est. rewrite Est. cbn [get_prop mbind res_bind].
  destruct (formatRows_total (ss_outputPositions stats)) as [rows ->]. cbn [mbind res_bind].
  eexists. split; [done|]. repeat constructor; [|done]. apply Hk. apply mhas_spec. unfold mhas. by rewrite E.
Qed.

Lemma closed_app ids a b : closed ids (a ++ b) <-> closed ids a /\ closed ids b.
Proof. apply Forall_app. Qed.

Lemma closed_concat ids l : Forall (closed ids) l -> closed ids (concat l).
Proof. induction 1; cbn; [constructor|]. by apply closed_app. Qed.

Lemma res_map_all {A B} (f : A -> res B) (P : A -> B -> Prop) l :
  (forall x, x ∈ l -> exists y, f x = Ok y /\ P x y) -> exists ys, res_map f l = Ok ys /\ Forall2 P l ys.
Proof.
  induction l as [|x l IH]; intros H; cbn; [by eexists|].
  destruct (H x) as (y & -> & Hy); [left|]. cbn.
  destruct IH as (ys & -> & Hys); [intros; apply H; by right|]. cbn. eexists. split; [done|]. by constructor.
Qed.

Lemma Forall2_r {A B} (P : A -> B -> Prop) (Q : B -> Prop) l l' :
  Forall2 P l l' -> (forall x y, P x y -> Q y) -> Forall Q l'.
Proof. induction 1; intros H'; constructor; eauto. Qed.

Section graph.
Variables (stages : stage_map) (ids : list jsstring).
Hypothesis Hstages : Forall stage_ok stages.
Hypothesis Hroots : forall k, k ∈ mkeys stages -> stage_root_id k ∈ ids.

Lemma node_calls_ok clusterId p :
  clusterId ∈ ids -> node_id (np_id p) ∈ ids -> (forall src, src ∈ np_sources p -> node_id src ∈ ids) ->
  exists calls, node_calls clusterId stages p = Ok calls /\ closed ids calls /\
    node_id (np_id p) ∈ set_ids calls.
Proof.
  intros Hc Hp Hsrc. unfold node_calls.
  assert (exists remote, match np_remoteSources p with
     | [] => Ok []
     | sources => edges ← res_map (remote_edge stages (node_id (np_id p))) sources;
                  Ok (SetNode (node_id (np_id p)) [("label"%string, GText ""); ("shape"%string, GText "circle")]
                      :: concat edges) end = Ok remote /\ closed ids remote) as (remote & -> & Hr).
  { destruct (np_remoteSources p) as [|r rs]; [by eexists; split; [done|constructor]|].
    destruct (res_map_all (remote_edge stages (node_id (np_id p))) (fun _ => closed ids) (r :: rs)) as (es & -> & He).
    { intros src _. by apply remote_edge_ok. }
    cbn [mbind res_bind]. eexists. split; [done|]. constructor; [constructor|].
    apply closed_concat. by eapply Forall2_r; eauto. }
  cbn [mbind res_bind]. eexists. split; [reflexivity|]. split; [|left].
  apply closed_app. split; [repeat constructor; done|]. apply closed_app. split; [|done].
  apply Forall_forall. intros c Hin. apply list_elem_of_In, in_map_iff in Hin as (src & <- & Hin).
  rewrite <- list_elem_of_In in Hin. repeat constructor; auto.
Qed.

(** What a stage needs to be in the graph, and what it contributes. *)
Definition stage_node_ids (info : StageNodeInfo) : list jsstring :=
  sn_stageId info :: stage_root_id (sn_id info) :: map node_id (mkeys (sn_nodes info)).

Lemma updateD3Stage_ok info k :
  stage_ok (k, info) -> (forall id, id ∈ stage_node_ids info -> id ∈ ids) ->
  exists calls, updateD3Stage info stages = Ok calls /\ closed ids calls /\
    forall id, id ∈ stage_node_ids info -> id ∈ set_ids calls.
Proof.
  intros (_ & [stats Est] & Hn & Hroot) Hids. cbn [snd] in *.
  assert (Hnode : forall x, x ∈ mkeys (sn_nodes info) -> node_id x ∈ ids).
  { intros x Hx. apply Hids. right. right. apply list_elem_of_In, in_map. by rewrite <- list_elem_of_In. }
  unfold updateD3Stage, renderStageStatistics. rewrite Est. cbn [get_prop mbind res_bind].
  destruct (formatRows_total (ss_rawInputPositions stats)) as [rows ->]. cbn [mbind res_bind].
  destruct (res_map_all (fun '(_, p) => node_calls (sn_stageId info) stages p)
    (fun e calls => closed ids calls /\ node_id e.1 ∈ set_ids calls) (sn_nodes info)) as (ns & -> & Hns).
  { intros [x p] Hin. destruct (Hn x p Hin) as [<- Hsrc].
    assert (np_id p ∈ mkeys (sn_nodes info))
      by (apply list_elem_of_In, in_map_iff; exists (np_id p, p); by rewrite <- list_elem_of_In).
    apply node_calls_ok; [apply Hids; left|auto|auto]. }
  cbn [mbind res_bind]. eexists. split; [reflexivity|]. split.
  - apply closed_app. split.
    + repeat constructor; try (apply Hids; by (left || right; left)). auto.
    + apply closed_concat. eapply Forall2_r; [exact Hns|]. by intros ? ? [? _].
  - intros id [->|[->|Hin]%elem_of_cons]%elem_of_cons; [left|right; left|].
    rewrite set_ids_app, set_ids_concat. apply elem_of_app. right.
    apply list_elem_of_In, in_map_iff in Hin as (x & <- & Hx). apply in_map_iff in Hx as (e & <- & He).
    rewrite <- list_elem_of_In in He. clear Hn Hroot Hids Hnode.
    induction Hns as [|e' c l l' [_ Hc] _ IH]; [inversion He|]. cbn.
    apply elem_of_app. apply elem_of_cons in He as [->|He]; [by left|right; auto].
Qed.
End graph.

(** C19: The graph of the live plan is well formed.  For every query whose stages
    have plans and statistics the calls that build it can be made; every stage
    of the query becomes a cluster with a statistics node, and every edge and
    every nesting refers to nodes the graph has: no edge dangles. *)
Theorem live_graph_closed q root :
  q_outputStage q = Some root -> plan_tree root ->
  exists calls, graph_calls q = Ok calls /\ closed (set_ids calls) calls /\
    forall x plan, rtc substage root x -> sg_plan x = Some plan -> stage_root_id (pl_id plan) ∈ set_ids calls.
Proof.
  intros Hq Hw. unfold graph_calls, getStages. rewrite Hq. cbn [get_prop mbind res_bind].
  destruct (flattenStage_ok root Hw []) as (stages & -> & Hok & _ & Hall); [constructor|].
  cbn [mbind res_bind].
  set (ids := concat (map (fun e => stage_node_ids e.2) stages)).
  assert (Hids : forall k info id, (k, info) ∈ stages -> id ∈ stage_node_ids info -> id ∈ ids).
  { intros k info id Hin Hid. unfold ids. apply list_elem_of_In, in_concat. exists (stage_node_ids info).
    split; [apply in_map_iff; exists (k, info); split; [done|]|]; by apply list_elem_of_In. }
  pose proof Hok as Hok'. rewrite Forall_forall in Hok'.
  assert (Hroots : forall k, k ∈ mkeys stages -> stage_root_id k ∈ ids).
  { intros k Hk. apply list_elem_of_In, in_map_iff in Hk as ([k' info] & <- & Hin). rewrite <- list_elem_of_In in Hin.
    apply (Hids k' info); [done|]. destruct (Hok' _ Hin) as (<- & _). right. left. }
  destruct (res_map_all (fun '(_, stage) => updateD3Stage stage stages)
    (fun e calls => closed ids calls /\ forall id, id ∈ stage_node_ids e.2 -> id ∈ set_ids calls) stages)
    as (cs & -> & Hcs).
  { intros [k info] Hin. apply (updateD3Stage_ok stages ids Hok Hroots info k); [by apply Hok'|].
    intros id. by apply (Hids k). }
  cbn [mbind res_bind]. eexists. split; [reflexivity|].
  assert (Hset : forall id, id ∈ ids -> id ∈ set_ids (concat cs)).
  { intros id Hid. rewrite set_ids_concat. unfold ids in Hid. clear - Hcs Hid.
    induction Hcs as [|e c l l' [_ Hc] _ IH]; [inversion Hid|].
    cbn [map concat] in *. apply elem_of_app in Hid as [Hid|Hid]; apply elem_of_app; [left|right]; auto. }
  split.
  - assert (closed ids (concat cs)) as Hcl by (apply closed_concat; eapply Forall2_r; [exact Hcs|]; by intros ? ? [? _]).
    eapply Forall_impl; [exact Hcl|]. intros c Hc. eapply Forall_impl; [exact Hc|]. auto.
  - intros x plan Hx Hp. apply Hset, Hroots. by eapply Hall.
Qed.

Lemma demo_stage_plannable id tasks subs : plannable (demo_stage id tasks subs).
Proof.
  split; [by eexists|]. split; [by eexists|]. exists demo_plan. eexists. split; [done|]. split; [done|]. left.
Qed.

Definition demo_plan_query : Query := {|
  q_queryId := "q"; q_state := "RUNNING"; q_scheduled := true; q_memoryPool := "general"; q_errorType := None;
  q_errorCode := None; q_queryStats := Some sample_stats; q_warnings := Some []; q_session := sample_session;
  q_resourceGroupId := None; q_query := "SELECT 1"; q_outputStage := Some demo_tree; q_finalQueryInfo := false;
  q_failureInfo := None |}.

Lemma live_graph_closed_witness :
  exists calls, graph_calls demo_plan_query = Ok calls /\ closed (set_ids calls) calls.
Proof.
  destruct (live_graph_closed demo_plan_query demo_tree) as (calls & E & C & _).
  - reflexivity.
  - intros x Hx. eapply substage_inv in Hx; [|reflexivity].
    destruct Hx as [->|(z & Hz & Hx)]; [apply demo_stage_plannable|].
    repeat (apply elem_of_cons in Hz as [->|Hz]; [apply leaf_reach in Hx as ->; apply demo_stage_plannable|]).
    inversion Hz.
  - exists calls. split; [exact E|exact C].
Defined.

(** ** Updates of the page *)

Section page.
Variables (pathname queryId : jsstring) (isEmbedded : bool).
Abbreviation answer := (lp_answer pathname isEmbedded).
Abbreviation start := (componentDidMount queryId (mount (new_root lp_init))).

(** A document that can be shown: its header renders and its stages have a graph. *)
Definition showable (q : Query) : Prop :=
  (exists calls, graph_calls q = Ok calls) /\
  (isEmbedded = false -> exists n, QueryHeader.render pathname q = Ok n).

(** What drawing does not change. *)
Definition same_page (s s' : LPState) : Prop :=
  query s' = query s /\ ended s' = ended s /\ initialized s' = initialized s.

Lemma with_svg_same s : same_page s (with_svg s).
Proof. unfold with_svg. by destruct (initializeSvg _). Qed.

(** The state that is drawn: on the new page, with a drawing area. *)
Definition prepared (s : LPState) : LPState :=
  match svg s with Some _ => with_page s | None => with_svg (with_page s) end.

Lemma prepared_same s : same_page s (prepared s).
Proof. unfold prepared. destruct (svg s); [done|]. apply (with_svg_same (with_page s)). Qed.

Lemma commit_eq c s :
  commit pathname isEmbedded c s = _ ← render_children pathname isEmbedded s; draw c (prepared s).
Proof. unfold commit, componentDidUpdate, prepared. cbn [with_page svg]. by destruct (svg s). Qed.

Lemma draw_ok c s r :
  draw c s = Ok r -> exists g, r.2 = with_graph g s /\
  forall q, query s = Some q -> (exists calls, graph_calls q = Ok calls) /\
    hd_error r.1 = Some (RenderGraph (select_group (canvas s)) g).
Proof.
  unfold draw. destruct (query s) as [q|] eqn:E; intros H; inv_ok.
  - eexists. split; [reflexivity|]. intros q' [= <-]. eauto.
  - exists (graph s). by destruct s.
Qed.

Lemma draw_total c s :
  (forall q, query s = Some q -> exists calls, graph_calls q = Ok calls) -> exists r, draw c s = Ok r.
Proof.
  intros H. unfold draw. destruct (query s) as [q|]; [|eauto]. destruct (H q eq_refl) as [calls ->]. cbn. eauto.
Qed.

Lemma render_children_iff s :
  render_children pathname isEmbedded s = Ok tt <->
  (initialized s = true -> isEmbedded = false -> forall q, query s = Some q ->
   exists n, QueryHeader.render pathname q = Ok n).
Proof.
  unfold render_children. destruct (query s) as [q|]; [|done].
  destruct (initialized s), isEmbedded; cbn; try done.
  split; [|intros H; by destruct (H eq_refl eq_refl q eq_refl) as [n ->]].
  intros H _ _ q' [= <-]. inv_ok. eauto.
Qed.

(** An update shows the document, or throws when there is one that cannot be
    shown. *)
Lemma commit_ok c s r :
  commit pathname isEmbedded c s = Ok r ->
  (exists g, r.2 = with_graph g (prepared s)) /\
  (initialized s = true -> forall q, query s = Some q -> showable q).
Proof.
  rewrite commit_eq. intros H. destruct (render_children _ _ _) as [[]|] eqn:E; [|done]. cbn in H.
  apply draw_ok in H as (g & Hr & Hq). split; [eauto|]. intros Hi q Eq.
  split; [|intros He; by apply (render_children_iff s)].
  destruct (prepared_same s) as [Hp _]. rewrite <- Hp in Eq. by destruct (Hq q Eq).
Qed.

Lemma commit_total c s :
  (forall q, query s = Some q -> showable q) -> exists r, commit pathname isEmbedded c s = Ok r.
Proof.
  intros H. rewrite commit_eq.
  rewrite (proj2 (render_children_iff s)) by (intros _ He q Hq; by apply (H q Hq)).
  cbn. apply draw_total. destruct (prepared_same s) as [-> _]. intros q Hq. apply (H q Hq).
Qed.

(** A mounted component shows the document it has. *)
Definition page_ok (r : Root LPState) : Prop :=
  r_mounted r = true -> forall q, query (r_state r) = Some q -> initialized (r_state r) = true /\ showable q.

(** What an answer makes of the component. *)
Inductive answered : Root LPState -> option Query -> Root LPState -> Prop :=
  | answered_removed s a : answered (mkRoot s false) a (mkRoot s false)
  | answered_shown s q g :
      showable q -> answered (mkRoot s true) (Some q) (mkRoot (with_graph g (prepared (with_query q s))) true)
  | answered_threw s q :
      ~ showable q -> answered (mkRoot s true) (Some q) (mkRoot (with_query q s) false)
  | answered_failed s g :
      answered (mkRoot s true) None (mkRoot (with_graph g (prepared (lp_failed s))) true).

Lemma committed_ok c s s' :
  committed pathname isEmbedded c s = Ok s' ->
  (exists g, s' = with_graph g (prepared s)) /\ (initialized s = true -> forall q, query s = Some q -> showable q).
Proof. unfold committed. destruct (commit _ _ _ _) as [r|] eqn:E; [|done]. intros [= <-]. by apply (commit_ok c). Qed.

Lemma committed_total c s :
  (forall q, query s = Some q -> showable q) -> exists s', committed pathname isEmbedded c s = Ok s'.
Proof. intros H. unfold committed. destruct (commit_total c s H) as [r ->]. cbn. eauto. Qed.

Lemma rejected_eq c (i : LP) :
  page_ok (st i) ->
  exists r, lp_rejected pathname isEmbedded c i = resetTimer (setState (fun _ => r) i) /\ answered (st i) None r.
Proof.
  unfold lp_rejected, set_then, page_ok, update_root. destruct (st i) as [s []]; cbn; intros Hok.
  - destruct (committed_total c (lp_failed s)) as [s' E]; [intros q Hq; by apply Hok|]. rewrite E.
    destruct (committed_ok _ _ _ E) as [[g ->] _]. eexists. split; [done|]. constructor.
  - eexists. split; [done|]. constructor.
Qed.

Lemma answer_eq u a c (i : LP) :
  page_ok (st i) ->
  exists r, answer u (a, c) i = resetTimer (setState (fun _ => r) i) /\ answered (st i) a r.
Proof.
  intros Hok. destruct a as [q|]; [|by apply rejected_eq]. cbn [lp_answer]. unfold update_root.
  destruct (st i) as [s []] eqn:Hst; cbn [r_mounted r_state]; [|eexists; split; [done|constructor]].
  destruct (committed _ _ c (with_query q s)) as [s'|e] eqn:E.
  - destruct (committed_ok _ _ _ E) as [[g ->] Hs]. eexists. split; [done|]. constructor. by apply Hs.
  - destruct (rejected_eq c (setState (fun _ => mkRoot (with_query q s) false) i)) as (r & -> & Ha); [done|].
    exists r. split; [done|]. inversion Ha; subst. constructor. intros Hs.
    destruct (committed_total c (with_query q s)) as [s' Hr]; [by intros q' [= <-]|congruence].
Qed.

Lemma answered_page_ok r a r' : answered r a r' -> page_ok r -> page_ok r'.
Proof.
  intros Ha Hok. destruct Ha as [s a|s q g Hs|s q Hs|s g]; [done| |done|]; intros _ q'; cbn.
  - destruct (prepared_same (with_query q s)) as (-> & _ & ->). by intros [= <-].
  - destruct (prepared_same (lp_failed s)) as (-> & _ & ->). cbn. intros Eq. by destruct (Hok eq_refl q' Eq).
Qed.

Lemma lp_reset_st (k : LP) : st (resetTimer k) = st k.
Proof. unfold resetTimer. destruct (stop_refreshing _); cbn; apply clear_st. Qed.
Lemma lp_reset_console (k : LP) : console (resetTimer k) = console k.
Proof. unfold resetTimer. destruct (stop_refreshing _); cbn; apply clear_console. Qed.

(** Reachability, state by state: an invariant of the answers holds throughout. *)
Lemma page_ind (i : LP) (P : Root LPState -> Prop) adm :
  page_ok (st i) -> P (st i) -> (forall r a c r', adm (a, c) -> P r -> answered r a r' -> P r') ->
  forall j, reachable (lp_timer queryId) answer lp_event adm i j -> page_ok (st j) /\ P (st j) /\ console j = console i.
Proof.
  intros H0 Hp Hs. apply reachable_ind_inv; [done|]. intros j j' _ (Hok & HP & Hc) Hst.
  destruct Hst as [j n [] l1 l2 _|j r [a c] l1 l2 _ Hadm|j []].
  - unfold lp_timer, refreshLoop. cbn [send st console]. by rewrite clear_st, clear_console.
  - match goal with |- context [answer r (a, c) ?k] => destruct (answer_eq r a c k Hok) as (s & -> & Ha) end.
    rewrite lp_reset_st, lp_reset_console. cbn. split; [by eapply answered_page_ok|]. split; [by eapply Hs|done].
Qed.

#[export] Instance lp_poller : Poller tt lp_stopped (lp_timer queryId) answer lp_event.
Proof.
  assert (Hr : forall i : LP, idle tt i -> polls tt lp_stopped (resetTimer i))
    by (intros i; apply (polls_reset tt lp_stopped)).
  assert (Hj : forall c i, idle tt i -> polls tt lp_stopped (lp_rejected pathname isEmbedded c i))
    by (intros c i; by apply polls_set_then).
  split.
  - intros i Hi Hs. apply polls_send; [by apply idle_clear|by rewrite clear_st].
  - by intros [] i Hne.
  - intros r [[q|] c] i Hi _; [|by apply Hj]. cbn [lp_answer].
    destruct (update_root _ _ _) as [s [e|]]; [by apply Hj|by apply Hr].
  - done.
Qed.

Lemma start_polls : polls tt lp_stopped start.
Proof. apply polls_send; [apply idle_clear; split; [apply mount_ok|done]|done]. Qed.

Lemma live_plan_inv adm i :
  reachable (lp_timer queryId) answer lp_event adm start i ->
  page_ok (st i) /\ console i = [] /\ polls tt lp_stopped i.
Proof.
  intros Hr. destruct (page_ind start (fun _ => True) adm ltac:(done) I ltac:(done) i Hr) as (Hok & _ & Hc).
  split; [done|]. split; [done|].
  exact (poller_reachable tt lp_stopped _ _ _ adm _ i start_polls Hr).
Qed.

(** The documents that the component takes in: an update that throws removes it,
    and it hears of no later document. *)
Definition drawable (q : Query) : bool :=
  match graph_calls q with
  | Ok _ => isEmbedded || match QueryHeader.render pathname q with Ok _ => true | Throw _ => false end
  | Throw _ => false
  end.

Lemma drawable_iff q : drawable q = true <-> showable q.
Proof.
  unfold drawable, showable. destruct (graph_calls q) as [calls|e]; [|split; [done|by intros [[calls H] _]]].
  destruct isEmbedded; cbn; [by split; [intros _; split; [eauto|]|]|].
  destruct (QueryHeader.render pathname q) as [n|e]; split; try done; [by eauto|].
  intros [_ H]. by destruct (H eq_refl).
Qed.

Definition showable_answer (a : option Query * Canvas) : bool :=
  match a.1 with Some q => drawable q | None => true end.

Fixpoint heard (l : list (option Query * Canvas)) : list Query :=
  match l with
  | [] => []
  | (Some q, _) :: l' => q :: if drawable q then heard l' else []
  | (None, _) :: l' => heard l'
  end.

Lemma heard_app l a :
  heard (l ++ [a]) = heard l ++ if forallb showable_answer l then option_list a.1 else [].
Proof.
  induction l as [|[[q|] c] l IH]; cbn.
  - destruct a as [[q|] c]; cbn; [by destruct (drawable q)|done].
  - unfold showable_answer at 1. cbn. destruct (drawable q); cbn; [by rewrite IH|done].
  - exact IH.
Qed.

Abbreviation lp_run := (trace (lp_timer queryId) answer lp_event).

(** What the answers so far have made of the component. *)
Definition follows (l : list (option Query * Canvas)) (r : Root LPState) : Prop :=
  r_mounted r = forallb showable_answer l /\ lp_stopped r = existsb q_finalQueryInfo (heard l).

Lemma answered_follows l a c r r' :
  answered r a r' -> lp_stopped r = false -> follows l r -> follows (l ++ [(a, c)]) r'.
Proof.
  intros Ha Hs [Hm Hl]. rewrite Hs in Hl. unfold follows.
  rewrite forallb_app, heard_app, existsb_app, <- Hm, <- Hl. cbn [forallb]. unfold showable_answer.
  destruct Ha as [s a|s q g Hq|s q Hq|s g]; cbn in Hs |- *.
  - done.
  - apply drawable_iff in Hq as ->. split; [done|]. unfold lp_stopped, stop_refreshing. cbn.
    destruct (prepared_same (with_query q s)) as (-> & -> & _). cbn. by rewrite orb_false_r.
  - rewrite <- drawable_iff in Hq. destruct (drawable q); [done|]. by rewrite orb_false_r.
  - split; [done|]. unfold lp_stopped, stop_refreshing in *. cbn in *.
    by destruct (prepared_same (lp_failed s)) as (-> & -> & _).
Qed.

Lemma run_follows adm l i : lp_run adm start l i -> follows l (st i).
Proof.
  induction 1 as [|l i n [] l1 l2 _ IH Ht|l i u [a c] l1 l2 Hr IH Ht Ha|l i []]; [done| |].
  - cbn [lp_timer refreshLoop send st]. by rewrite clear_st.
  - destruct (live_plan_inv adm i) as (Hok & _ & Hp); [by eapply trace_reachable|].
    match goal with |- context [answer u (a, c) ?k] => destruct (answer_eq u a c k Hok) as (s & -> & Hs) end.
    rewrite lp_reset_st. apply (answered_follows l a c (st i)); [done| |done].
    by apply (answer_not_stopped tt lp_stopped i u l1 l2).
Qed.

(** C20: The live plan refreshes until the final document of the query arrives and
    then stops, whatever the server answers and whether or not the documents can
    be drawn: no exception goes uncaught, and exactly one refresh is pending
    until a document with [finalQueryInfo] has arrived and none after it.  The
    component takes in the documents up to the first one that cannot be drawn,
    that one included ([heard]): it removes the component, which then hears of
    no later document, a final one included. *)
Theorem live_plan_polls adm l (i : LP) :
  lp_run adm start l i ->
  console i = [] /\ r_mounted (st i) = forallb showable_answer l /\
  (armed tt i + length (inflight i))%nat = if existsb q_finalQueryInfo (heard l) then 0%nat else 1%nat.
Proof.
  intros Hr. destruct (run_follows adm l i Hr) as [Hm Hs]. apply trace_reachable, live_plan_inv in Hr as (_ & Hc & Hp).
  split; [done|]. split; [done|]. rewrite <- Hs. by apply polls_exact.
Qed.

(** ** Queries that have not started *)

Definition without_requests (i : LP) : LP :=
  mkInst (st i) (ids i) (timers i) (next_id i) [] (console i).

Lemma not_showable q : q_outputStage q = None -> ~ showable q.
Proof. intros Ho [[calls H] _]. unfold graph_calls, getStages in H. rewrite Ho in H. discriminate H. Qed.

Lemma dead_forever q (i : LP) adm j :
  r_mounted (st i) = false -> query (r_state (st i)) = Some q -> ended (r_state (st i)) = false -> console i = [] ->
  polls tt lp_stopped i ->
  reachable (lp_timer queryId) answer lp_event adm i j ->
  st j = st i /\ (armed tt j + length (inflight j) = 1)%nat.
Proof.
  intros Hm Hq He Hc Hp Hr.
  destruct (page_ind i (fun s => s = st i) adm) with (j := j) as (_ & Hst & Hcj); [by intros ?; congruence|done| |done|].
  { intros r a c r' _ -> Ha. destruct Ha; done. }
  split; [done|]. pose proof (poller_reachable tt lp_stopped _ _ _ adm _ j Hp Hr) as Hpj.
  rewrite (polls_exact tt lp_stopped j Hpj) by congruence. unfold lp_stopped, stop_refreshing. by rewrite Hst, Hq, He.
Qed.

(** C37: A document of a query without stages ends the page.  The page is about to
    say that the graph will appear later, but the update after rendering reads
    the missing output stage and throws, and React removes the component:
    whatever the server answers from then on, nothing is shown, and the requests
    go on for ever. *)
Theorem live_plan_dies adm (i j : LP) u q c :
  reachable (lp_timer queryId) answer lp_event adm start i -> r_mounted (st i) = true -> inflight i = [u] ->
  q_outputStage q = None -> q_finalQueryInfo q = false ->
  reachable (lp_timer queryId) answer lp_event adm (answer u (Some q, c) (without_requests i)) j ->
  Txt "Live plan graph will appear automatically when query starts running."
    ∈ nodes (render isEmbedded (with_query q (r_state (st i)))) /\
  r_mounted (st j) = false /\ query (r_state (st j)) = Some q /\ (armed tt j + length (inflight j) = 1)%nat.
Proof.
  intros Hr Hm Hin Ho Hf Hj. destruct (live_plan_inv _ _ Hr) as (Hok & Hc & Hp).
  split; [unfold render; cbn [query initialized with_query]; rewrite Ho; destruct isEmbedded; cbn; set_solver|].
  destruct (answer_eq u (Some q) c (without_requests i) Hok) as (s & E & Ha).
  assert (Hs : s = mkRoot (with_query q (r_state (st i))) false)
    by (pose proof (not_showable q Ho); cbn in Ha; destruct (st i) as [s0 m]; cbn in *; subst m; by inversion Ha). subst s.
  assert (Hst : st (answer u (Some q, c) (without_requests i)) = mkRoot (with_query q (r_state (st i))) false)
    by (by rewrite E, lp_reset_st).
  destruct (dead_forever q (answer u (Some q, c) (without_requests i)) adm j) as [Hs Hpend];
    rewrite ?Hst; [done..| | |done|].
  - by rewrite E, lp_reset_console.
  - rewrite E. apply (polls_reset tt lp_stopped). destruct Hp as (Ht & Hle & _). split; [done|].
    unfold pending in *. rewrite Hin in Hle. cbn in *. change (armed tt i + 0 = 0)%nat. lia.
  - by rewrite Hs, Hst.
Qed.

(** ** The drawing area *)

Definition area (found : bool) : D3Selection := if found then Selected else EmptySelection.

(** The drawing area a mounted component found on its first update; one that was
    found stays on the page. *)
Definition area_of (found : bool) (s : LPState) : Prop :=
  svg s = Some (area found) /\ select_group (canvas s) = area found /\ (found = true -> has_canvas s = true).
Definition area_ok (found : bool) (r : Root LPState) : Prop := r_mounted r = true -> area_of found (r_state r).

Lemma area_page found s :
  select_group (canvas s) = area found -> (found = true -> has_canvas s = true) ->
  select_group (canvas (with_page s)) = area found.
Proof.
  intros Hg Hc. cbn. destruct found; cbn in *.
  - rewrite Hc by done. by destruct (canvas s).
  - destruct (has_canvas s), (canvas s); done.
Qed.

Lemma answered_area found r a r' : area_ok found r -> answered r a r' -> area_ok found r'.
Proof.
  intros H Ha. destruct Ha as [s a|s q g Hs|s q Hs|s g]; [done| |done|];
    destruct (H eq_refl) as (Hsvg & Hg & Hc); intros _; cbn in Hsvg, Hg, Hc |- *.
  - assert (Hc' : found = true -> has_canvas (with_query q s) = true) by done.
    unfold prepared. cbn [svg with_query]. rewrite Hsvg. split; [done|]. split; [|done].
    by apply (area_page found (with_query q s)).
  - assert (Hc' : found = true -> has_canvas (lp_failed s) = true)
      by (intros Hf; unfold has_canvas; cbn; specialize (Hc Hf); unfold has_canvas in Hc; by destruct (query s)).
    unfold prepared. cbn [svg lp_failed]. rewrite Hsvg. split; [done|]. split; [|done].
    by apply (area_page found (lp_failed s)).
Qed.

Lemma first_area u a c : area_ok (match a with Some _ => true | None => false end) (st (answer u (a, c) (mount (new_root lp_init)))).
Proof.
  destruct (answer_eq u a c (mount (new_root lp_init))) as (s & -> & Ha); [done|].
  rewrite lp_reset_st. cbn. inversion Ha; subst; done.
Qed.

(** The plan is drawn into the page only when the very first request
    succeeded.  The drawing area is looked up at the first update and kept; when
    the first request failed it is looked up on a page that does not have it,
    and every graph of every later document is handed to an empty selection. *)
Theorem live_plan_first_answer adm u a0 c0 (j : LP) q c r :
  reachable (lp_timer queryId) answer lp_event adm (answer u (a0, c0) (mount (new_root lp_init))) j ->
  r_mounted (st j) = true -> commit pathname isEmbedded c (with_query q (r_state (st j))) = Ok r ->
  hd_error r.1 = Some (RenderGraph (match a0 with Some _ => Selected | None => EmptySelection end) (graph r.2)).
Proof.
  intros Hr Hm Hc.
  assert (Hok : page_ok (st (answer u (a0, c0) (mount (new_root lp_init))))).
  { destruct (answer_eq u a0 c0 (mount (new_root lp_init))) as (s & -> & Ha); [done|]. apply answered_page_ok in Ha; [|done]. by rewrite lp_reset_st. }
  destruct (page_ind _ _ adm Hok (first_area u a0 c0) (fun r a c r' _ => answered_area _ r a r') j Hr) as (_ & Ha & _).
  destruct (Ha Hm) as (Hsvg & Hg & Hcan). rewrite commit_eq in Hc.
  destruct (render_children _ _ _); [|done]. cbn in Hc. apply draw_ok in Hc as (g & -> & Hq).
  destruct (Hq q) as [_ ->]; [by rewrite (proj1 (prepared_same _))|].
  unfold prepared. cbn [svg with_query]. rewrite Hsvg. cbn [with_graph graph]. f_equal. f_equal.
  by destruct a0; rewrite (area_page _ (with_query q (r_state (st j))) Hg) by done.
Qed.
End page.

Definition demo_canvas : Canvas := mkCanvas "800px" "600px" (num 0) (num 0).
Definition demo_queued : Query := sample_query "20200601_000000_00001_abcde" "QUEUED".

Definition demo_url : jsstring := "/v1/query/20200601_000000_00001_abcde".
Definition demo_start : LP := componentDidMount "20200601_000000_00001_abcde" (mount (new_root lp_init)).
Abbreviation demo_answer := (lp_answer "/ui/plan.html" true).

(** A document that is not final, and then the final one. *)
Definition demo_last_query : Query := {|
  q_queryId := "q"; q_state := "FINISHED"; q_scheduled := true; q_memoryPool := "general"; q_errorType := None;
  q_errorCode := None; q_queryStats := Some sample_stats; q_warnings := Some []; q_session := sample_session;
  q_resourceGroupId := None; q_query := "SELECT 1"; q_outputStage := Some demo_tree; q_finalQueryInfo := true;
  q_failureInfo := None |}.

Definition demo_drawn : LP := demo_answer demo_url (Some demo_plan_query, demo_canvas) (mount (new_root lp_init)).
Definition demo_asking : LP :=
  lp_timer "20200601_000000_00001_abcde" tt
    (mkInst (st demo_drawn) (ids demo_drawn) [] (next_id demo_drawn) (inflight demo_drawn) (console demo_drawn)).
Definition demo_ended : LP :=
  demo_answer demo_url (Some demo_last_query, demo_canvas)
    (mkInst (st demo_asking) (ids demo_asking) (timers demo_asking) (next_id demo_asking) [] (console demo_asking)).

Lemma live_plan_polls_witness :
  (armed tt demo_drawn + length (inflight demo_drawn) = 1)%nat /\
  (armed tt demo_ended + length (inflight demo_ended) = 0)%nat.
Proof.
  assert (H1 : trace (lp_timer "20200601_000000_00001_abcde") demo_answer lp_event (fun _ => True) demo_start
                 [(Some demo_plan_query, demo_canvas)] demo_drawn)
    by (by apply (trace_answer _ _ _ _ _ [] demo_start demo_url (Some demo_plan_query, demo_canvas) [] []); [constructor|..]).
  split.
  - apply (live_plan_polls "/ui/plan.html" "20200601_000000_00001_abcde" true (fun _ => True) _ _ H1).
  - assert (H2 : trace (lp_timer "20200601_000000_00001_abcde") demo_answer lp_event (fun _ => True) demo_start
                   [(Some demo_plan_query, demo_canvas)] demo_asking)
      by (apply (trace_timer _ _ _ _ _ _ demo_drawn 0 tt [] [] H1); vm_compute; reflexivity).
    assert (Hi : inflight demo_asking = [] ++ demo_url :: []) by (vm_compute; reflexivity).
    pose proof (trace_answer _ _ _ _ _ _ demo_asking demo_url (Some demo_last_query, demo_canvas) [] [] H2 Hi I) as H3.
    destruct (live_plan_polls "/ui/plan.html" "20200601_000000_00001_abcde" true (fun _ => True) _ _ H3) as (_ & _ & H).
    etransitivity; [exact H|]. vm_compute. reflexivity.
Defined.

Lemma live_plan_dies_witness :
  r_mounted (st (demo_answer demo_url (Some demo_queued, demo_canvas) (mount (new_root lp_init)))) = false.
Proof.
  apply (live_plan_dies "/ui/plan.html" "20200601_000000_00001_abcde" true (fun _ => True) demo_start
           (demo_answer demo_url (Some demo_queued, demo_canvas) (mount (new_root lp_init))) demo_url demo_queued demo_canvas);
    [apply rtc_refl|reflexivity..|apply rtc_refl].
Defined.

Lemma live_plan_first_answer_witness :
  exists r, commit "/ui/plan.html" true demo_canvas
    (with_query demo_plan_query (r_state (st (demo_answer demo_url (None, demo_canvas) (mount (new_root lp_init)))))) = Ok r /\
  hd_error r.1 = Some (RenderGraph EmptySelection (graph r.2)).
Proof.
  eexists. split; [vm_compute; reflexivity|].
  apply (live_plan_first_answer "/ui/plan.html" "20200601_000000_00001_abcde" true (fun _ => True) demo_url None demo_canvas
           (demo_answer demo_url (None, demo_canvas) (mount (new_root lp_init))) demo_plan_query demo_canvas);
    [apply rtc_refl|reflexivity|vm_compute; reflexivity].
Defined.
