(* ===== verification/StageDetail.v ===== *)
(** * The operators of a stage ([StageDetail.jsx]) *)

From S2P Require Import Prelude JsString JsNumber JsSort JsObject Data Utils EventLoop React VDom.
From S2P Require Import QueryHeader StageSummary LivePlan.

#[global] Instance number_eq_dec : EqDecision number.
Proof. solve_decision. Defined.

(** ** Operators *)

Definition getTotalWallTime (operator : OperatorSummary) : number :=
  ((ToNumber (parseDuration (op_addInputWall operator)) +f ToNumber (parseDuration (op_getOutputWall operator)))
   +f ToNumber (parseDuration (op_finishWall operator))) +f ToNumber (parseDuration (op_blockedWall operator)).

(** [total === 0 ? 0 : (1.0 * x) / d]. *)
Definition rate (total : number) (x : jsnum) (d : number) : number :=
  if total =f num 0 then num 0 else (num 1 *f ToNumber x) /f d.

Abbreviation ONode := (node Empty_set Empty_set).

Definition two_cells (name : string) (value : ONode) : ONode :=
  El "tr" [] [El "td" [] [Txt name]; El "td" [] [value]].

(** [formatCount(rows) + " rows (" + size + ")"] and the rates. *)
Definition rows_and_size (positions : number) (size : jsstring) : res jsstring :=
  c ← formatCount positions; Ok (c ++ js " rows (" ++ size ++ js ")").
Definition rate_text (rowRate byteRate : number) : res jsstring :=
  r ← formatCount rowRate; b ← formatDataSize byteRate; Ok (r ++ js " rows/s (" ++ b ++ js "/s)").

Definition summary_row_rate (operator : OperatorSummary) : number :=
  let t := getTotalWallTime operator in rate t (op_inputPositions operator) (t /f num 1000).

Definition renderOperatorSummary (operator : OperatorSummary) : res ONode :=
  let totalWallTime := getTotalWallTime operator in
  let byteInputRate := rate totalWallTime (parseDataSize (op_inputDataSize operator)) (totalWallTime /f num 1000) in
  rates ← rate_text (summary_row_rate operator) byteInputRate;
  output ← rows_and_size (op_outputPositions operator) (op_outputDataSize operator);
  wall ← formatDuration totalWallTime;
  blocked ← formatDuration (parseDuration (op_blockedWall operator));
  input ← rows_and_size (op_inputPositions operator) (op_inputDataSize operator);
  Ok (El "div" []
    [El "div" [class_ "highlight-row"]
       [El "div" [class_ "header-row"] [Txt (op_operatorType operator)]; El "div" [] [Txt rates]];
     El "table" [class_ "table"]
       [El "tbody" []
          [two_cells "Output" (Txt output); two_cells "Drivers" (NumC (op_totalDrivers operator));
           two_cells "Wall Time" (Txt wall); two_cells "Blocked" (Txt blocked); two_cells "Input" (Txt input)]]]).

(** ** Statistics of an operator over its tasks *)

Definition BAR_CHART_PROPERTIES : list (string * jsstring) :=
  [("type"%string, js "bar"); ("barSpacing"%string, js "0"); ("height"%string, js "80px");
   ("barColor"%string, js "#747F96"); ("zeroColor"%string, js "#8997B3");
   ("tooltipClassname"%string, js "sparkline-tooltip");
   ("tooltipFormat"%string, js "Task {{offset:offset}} - {{value}}"); ("disableHiddenCheck"%string, js "true")].

Record Statistic := mkStatistic {
  sc_name : jsstring; sc_id : jsstring; supplier : OperatorSummary -> jsnum; renderer : jsnum -> res jsstring
}.

(** The props of a mounted [OperatorStatistic]. *)
Record StatisticProps := mkStatisticProps { sp_statistic : Statistic; sp_operators : list OperatorSummary }.

Definition drawStatistic (p : StatisticProps) : Chart :=
  let numTasks := length (sp_operators p) in
  {| ch_selector := js "#" ++ sc_id (sp_statistic p);
     ch_data := map (supplier (sp_statistic p)) (sp_operators p);
     ch_properties := BAR_CHART_PROPERTIES;
     ch_barWidth := num 800 /f num (Z.of_nat numTasks);
     ch_tooltips := map (fun i => dec (Z.of_nat i)) (seq 0 numTasks);
     ch_numberFormatter := Some (renderer (sp_statistic p)) |}.

Definition renderStatistic (p : StatisticProps) : ONode :=
  El "div" [class_ "row operator-statistic"]
    [El "div" [class_ "col-xs-2 italic-uppercase operator-statistic-title"] [Txt (sc_name (sp_statistic p))];
     El "div" [class_ "col-xs-10"] [El "span" [class_ "bar-chart"; sattr "id" (sc_id (sp_statistic p))] []]].

Definition getInitialStatistics : list Statistic :=
  [mkStatistic "Total Wall Time" "totalWallTime" (fun o => JNum (getTotalWallTime o)) formatDuration;
   mkStatistic "Input Rows" "inputPositions" (fun o => JNum (op_inputPositions o)) formatCount;
   mkStatistic "Input Data Size" "inputDataSize" (fun o => parseDataSize (op_inputDataSize o)) formatDataSize;
   mkStatistic "Output Rows" "outputPositions" (fun o => JNum (op_outputPositions o)) formatCount;
   mkStatistic "Output Data Size" "outputDataSize" (fun o => parseDataSize (op_outputDataSize o)) formatDataSize].

(** The operators of the tasks that belong to a summary; [tasks.sort] throws when
    there are no tasks, and a missing summary when it is first compared. *)
Definition getOperatorTasks (operator : option OperatorSummary) (tasks : option (list Task)) :
    res (list OperatorSummary) :=
  tasks ← get_prop "tasks.sort" tasks;
  let tasks := sort_tasks tasks in
  let pipelines := flat_map (fun task => ts_pipelines (t_stats task)) tasks in
  l ← res_map (fun pipeline =>
        operatorSummary ← get_prop "operatorSummary.pipelineId" operator;
        Ok (if pi_pipelineId pipeline =f op_pipelineId operatorSummary
            then List.filter (fun o => op_operatorId operatorSummary =f op_operatorId o)
                   (pi_operatorSummaries pipeline)
            else [])) pipelines;
  Ok (concat l).

Definition detail_row_rate (total positions : number) : number := rate total positions total.

Definition renderOperatorDetail (operator : option OperatorSummary) (tasks : option (list Task)) :
    res (node Empty_set StatisticProps) :=
  operatorTasks ← getOperatorTasks operator tasks;
  operator ← get_prop "operator.addInputWall" operator;
  let totalWallTime := getTotalWallTime operator in
  let byte_rate size := rate totalWallTime (parseDataSize size) (totalWallTime /f num 1000) in
  let row name value := El "tr" [] [El "td" [] [Txt (js name)]; El "td" [] [value]] in
  input ← rows_and_size (op_inputPositions operator) (op_inputDataSize operator);
  inputRate ← rate_text (detail_row_rate totalWallTime (op_inputPositions operator))
                (byte_rate (op_inputDataSize operator));
  output ← rows_and_size (op_outputPositions operator) (op_outputDataSize operator);
  outputRate ← rate_text (detail_row_rate totalWallTime (op_outputPositions operator))
                 (byte_rate (op_outputDataSize operator));
  wall ← formatDuration totalWallTime;
  blocked ← formatDuration (parseDuration (op_blockedWall operator));
  Ok (El "div" [class_ "row"]
    [El "div" [class_ "col-xs-12"]
       [El "div" [class_ "modal-header"]
          [El "button" [sattr "type" "button"; class_ "close"; sattr "data-dismiss" "modal"; sattr "aria-label" "Close"]
             [El "span" [sattr "aria-hidden" "true"] [Txt times_sign]];
           El "h3" [] [El "small" [] [Txt "Pipeline "; NumC (op_pipelineId operator)]; El "br" [] [];
                       Txt (op_operatorType operator)]];
        El "div" [class_ "row"]
          [El "div" [class_ "col-xs-6"]
             [El "table" [class_ "table"]
                [El "tbody" [] [row "Input"%string (Txt input); row "Input Rate"%string (Txt inputRate);
                                row "Output"%string (Txt output); row "Output Rate"%string (Txt outputRate)]]];
           El "div" [class_ "col-xs-6"]
             [El "table" [class_ "table"]
                [El "tbody" [] [row "Wall Time"%string (Txt wall); row "Blocked"%string (Txt blocked);
                                row "Drivers"%string (NumC (op_totalDrivers operator));
                                row "Tasks"%string (NumC (length_num operatorTasks))]]]];
        El "div" [class_ "row font-white"]
          [El "div" [class_ "col-xs-2 italic-uppercase"] [El "strong" [] [Txt "Statistic"]];
           El "div" [class_ "col-xs-10 italic-uppercase"] [El "strong" [] [Txt "Tasks"]]];
        Arr (map (fun statistic => Mount (mkStatisticProps statistic operatorTasks)) getInitialStatistics);
        El "p" [] []; El "p" [] []]]).

(** ** The operator graph *)

(** The props of the [OperatorDetail] a click shows. *)
Definition handleOperatorClick (stage : Stage) (operatorCssId : jsstring) :
    res (option OperatorSummary * option (list Task)) :=
  let part n := match split 45 operatorCssId !! n with Some s => parseInt s | None => NaN end in
  let pipelineId := part 1%nat in
  let operatorId := part 2%nat in
  stats ← get_prop "operatorSummaries" (se_stats (sg_latestAttemptExecutionInfo stage));
  operatorSummaries ← get_prop "length" (ss_operatorSummaries stats);
  Ok (last (List.filter (fun o => (op_pipelineId o =f pipelineId) && (op_operatorId o =f operatorId))
              operatorSummaries), sg_tasks stage).

(** An operator with the one that feeds it. *)
Inductive LinkedOperator := mkLinked (lo_operator : OperatorSummary) (lo_child : option LinkedOperator).

Abbreviation operator_graphs := (list (number * LinkedOperator)).

(** [if (!m.has(k)) m.set(k, []); m.get(k).push(x)] for every element. *)
Definition group_by {K A} `{EqDecision K} (key : A -> K) (l : list A) : list (K * list A) :=
  fold_left (fun m x => mset (key x) (default [] (mget (key x) m) ++ [x]) m) l [].

(** The children of a plan node, mapped. *)
Definition children_with {A} (f : PlanNode -> A) (nodeInfo : PlanNode) : option (list (option A)) :=
  let nodeType := removeNodeTypePackage (pn_type nodeInfo) in
  if one_of nodeType single_source_types then Some [option_map f (pn_source nodeInfo)]
  else if nodeType === "JoinNode" then Some [option_map f (pn_left nodeInfo); option_map f (pn_right nodeInfo)]
  else if nodeType === "SemiJoinNode" then
    Some [option_map f (pn_source nodeInfo); option_map f (pn_filteringSource nodeInfo)]
  else if nodeType === "SpatialJoinNode" then
    Some [option_map f (pn_left nodeInfo); option_map f (pn_right nodeInfo)]
  else if nodeType === "IndexJoinNode" then
    Some [option_map f (pn_probeSource nodeInfo); option_map f (pn_indexSource nodeInfo)]
  else if (nodeType === "UnionNode") || (nodeType === "ExchangeNode") then
    option_map (map (fun x => Some (f x))) (pn_sources nodeInfo)
  else Some [].

(** Entering the results of one source; a pipeline that is there already is
    reported on the console and skipped. *)
Definition merge_source (acc : operator_graphs * nat) (sourceResult : operator_graphs) : operator_graphs * nat :=
  fold_left (fun '(m, errors) '(pipelineId, operator) =>
               if mhas pipelineId m then (m, S errors) else (mset pipelineId operator m, errors)) sourceResult acc.

(** The operators of one pipeline, from source to sink, above what feeds them. *)
Definition link_operators (below : option LinkedOperator) (ops : list OperatorSummary) : option LinkedOperator :=
  fold_left (fun current op => Some (mkLinked op current))
    (js_sort (fun a b => op_operatorId a -f op_operatorId b) ops) below.

Definition link_node (sourceResults : operator_graphs) (nodeOperators : list OperatorSummary) : operator_graphs :=
  let result := fold_left (fun m '(pipelineId, ops) =>
      match link_operators (mget pipelineId sourceResults) ops with
      | Some sink => mset pipelineId sink m
      | None => m
      end) (group_by op_pipelineId nodeOperators) [] in
  fold_left (fun m '(pipelineId, operator) => if mhas pipelineId m then m else mset pipelineId operator m)
    sourceResults result.

(** The graphs of the pipelines and the number of errors on the console.  A
    source that is missing throws. *)
Fixpoint computeOperatorGraphs (planNode : PlanNode) (operatorMap : list (jsstring * list OperatorSummary)) :
    res (operator_graphs * nat) :=
  sources ← get_prop "sources.forEach" (children_with (fun n => computeOperatorGraphs n operatorMap) planNode);
  results ← res_map (fun r => match r with Some r => r | None => Throw (TypeError "@type") end) sources;
  let '(sourceResults, errors) := fold_left merge_source (map fst results) ([], list_sum (map snd results)) in
  match mget (pn_id planNode) operatorMap with
  | None | Some [] => Ok (sourceResults, errors)
  | Some nodeOperators => Ok (link_node sourceResults nodeOperators, errors)
  end.

Definition operator_summaries (stage : Stage) : res (list OperatorSummary) :=
  stats ← get_prop "operatorSummaries" (se_stats (sg_latestAttemptExecutionInfo stage));
  get_prop "forEach" (ss_operatorSummaries stats).

Definition computeOperatorMap (stage : Stage) : res (list (jsstring * list OperatorSummary)) :=
  summaries ← operator_summaries stage; Ok (group_by op_planNodeId summaries).

Definition operator_node_id (operator : OperatorSummary) : jsstring :=
  js "operator-" ++ num_to_string (op_pipelineId operator) ++ js "-" ++ num_to_string (op_operatorId operator).

Fixpoint computeD3StageOperatorGraph (operator : LinkedOperator) (sink : option jsstring) (pipelineNode : jsstring) :
    res (list GraphCall) :=
  let '(mkLinked op child) := operator in
  let operatorNodeId := operator_node_id op in
  html ← renderOperatorSummary op;
  below ← match child with
          | Some c => computeD3StageOperatorGraph c (Some operatorNodeId) pipelineNode
          | None => Ok []
          end;
  Ok (SetNode operatorNodeId [("class"%string, GText "operator-stats"); ("label"%string, GHtml html);
                              ("labelType"%string, GText "html")] ::
      below ++
      (match sink with Some s => [SetEdge operatorNodeId s plan_edge] | None => [] end) ++
      [SetParent operatorNodeId pipelineNode]).

Definition pipeline_node_id (pipelineId : number) : jsstring := js "pipeline-" ++ num_to_string pipelineId.

Definition pipeline_calls (e : number * LinkedOperator) : res (list GraphCall) :=
  let '(pipelineId, operator) := e in
  calls ← computeD3StageOperatorGraph operator None (pipeline_node_id pipelineId);
  Ok (SetNode (pipeline_node_id pipelineId)
        [("label"%string, GText (js "Pipeline " ++ num_to_string pipelineId ++ js " "));
         ("clusterLabelPos"%string, GText "top"); ("style"%string, GText "fill: #2b2b2b");
         ("labelStyle"%string, GText "fill: #fff")] :: calls).

(** The graph that is drawn; [None] when there is nothing to draw and the
    container is hidden. *)
Definition updateD3Graph (stage : Stage) : res (option (list GraphCall)) :=
  operatorMap ← computeOperatorMap stage;
  plan ← get_prop "root" (sg_plan stage);
  '(operatorGraphs, _) ← computeOperatorGraphs (pl_root plan) operatorMap;
  calls ← res_map pipeline_calls operatorGraphs;
  Ok (match operatorGraphs with [] => None | _ => Some (concat calls) end).

(** The drawing area after the update, which empties it first, and the fresh graph
    that is rendered into it. *)
Definition update_canvas (stage : Stage) (canvas : Element) : res (Element * option Graph) :=
  calls ← updateD3Graph stage;
  let canvas := option_map (fun _ => []) canvas in
  Ok (match calls with
      | None => (canvas, None)
      | Some calls => let '(_, canvas) := initializeSvg canvas in (canvas, Some (graph_add calls initializeGraph))
      end).

Definition error_page {E C} (l : list (node E C)) : node E C :=
  El "div" [class_ "row error-message"] [El "div" [class_ "col-xs-12"] [El "h4" [] l]].

Definition renderOperatorGraph (stage : Stage) : ONode :=
  let unavailable := error_page [Txt "Operator data not available for "; Txt (sg_stageId stage)] in
  match sg_plan stage with
  | None => error_page [Txt "Stage does not have a plan"]
  | Some _ =>
      match se_stats (sg_latestAttemptExecutionInfo stage) with
      | None => unavailable
      | Some stats =>
          match ss_operatorSummaries stats with
          | None | Some [] => unavailable
          | Some _ => Nothing
          end
      end
  end.

(** ** The page *)

(** A selected stage: a number from the address, or the id of a plan from the
    menu. *)
Inductive Selection := SelNumber (x : number) | SelPlan (id : jsstring).

Definition selection_text (s : Selection) : jsstring :=
  match s with SelNumber x => num_to_string x | SelPlan id => id end.

(** The React state, and what [stage.html] has beside the component: the drawing
    area of the operator graph and the graph that is shown in it. *)
Record SDState := mkSDState {
  initialized : bool; ended : bool; selectedStageId : option Selection; query : option Query;
  lastRefresh : option Z; lastRender : option Z; canvas : Element; drawn : option Graph
}.

Definition sd_init : SDState := mkSDState false false None None None None (Some []) None.

(** A request carries the URL and the selection of the moment it was sent. *)
Record SDRequest := mkSDRequest { rq_url : jsstring; rq_selected : Selection }.

Abbreviation SD := (Inst (Root SDState) unit SDRequest).

Definition stop_refreshing (s : SDState) : bool :=
  match query s with None => false | Some _ => ended s end.
Definition sd_stopped (r : Root SDState) : bool := stop_refreshing (r_state r).

Definition resetTimer (i : SD) : SD :=
  let i := clear tt i in if stop_refreshing (r_state (st i)) then i else arm tt i.

Definition initial_selection (queryString : list jsstring) : Selection :=
  match queryString with
  | _ :: stage :: _ => SelNumber (parseInt stage)
  | _ => SelNumber (num 0)
  end.

(** [search] is [window.location.search]. *)
Definition refreshLoop (search : jsstring) (i : SD) : SD :=
  let i := clear tt i in
  let queryString := split 46 (getFirstParameter search) in
  let queryId := default [] (head queryString) in
  let selectedStageId := match selectedStageId (r_state (st i)) with
                         | Some s => s
                         | None => initial_selection queryString
                         end in
  send (mkSDRequest (js "/v1/query/" ++ queryId) selectedStageId) i.

Definition sd_timer (search : jsstring) (_ : unit) : SD -> SD := refreshLoop search.
Definition componentDidMount (search : jsstring) (i : SD) : SD := refreshLoop search i.

(** [onClick={() => this.setState({selectedStageId: stageId})}]. *)
Inductive SDEvent := SelectStage (planId : jsstring).

Fixpoint findStage (stageId : jsstring) (currentStage : Stage) : res (option Stage) :=
  if sg_stageId currentStage === stageId then Ok (Some currentStage)
  else
    match sg_subStages currentStage with
    | None => Throw (TypeError "subStages.length")
    | Some subStages =>
        (fix each l :=
           match l with
           | [] => Ok None
           | s :: l' =>
               r ← findStage stageId s;
               match r with Some stage => Ok (Some stage) | None => each l' end
           end) subStages
    end.

Fixpoint getAllStageIds (currentStage : Stage) : res (list jsstring) :=
  plan ← get_prop "plan.id" (sg_plan currentStage);
  match sg_subStages currentStage with
  | None => Throw (TypeError "subStages.forEach")
  | Some subStages =>
      rest ← (fix each l :=
                match l with
                | [] => Ok []
                | s :: l' => a ← getAllStageIds s; b ← each l'; Ok (a ++ b)
                end) subStages;
      Ok (pl_id plan :: rest)
  end.

Inductive SDChild :=
  | CQueryHeader (query : Query)
  | CStageOperatorGraph (stage : Stage).

Definition stage_menu (allStages : list jsstring) : node SDEvent SDChild :=
  El "div" [class_ "input-group-btn"]
    [El "button" [sattr "type" "button"; class_ "btn btn-default dropdown-toggle"; sattr "data-toggle" "dropdown";
                  sattr "aria-haspopup" "true"; sattr "aria-expanded" "false"]
       [Txt "Select Stage "; El "span" [class_ "caret"] []];
     El "ul" [class_ "dropdown-menu"]
       [Arr (map (fun stageId => El "li" [] [El "a" [onClick (SelectStage stageId)] [Txt stageId]]) allStages)]].

Definition operator_part (q : Query) (stage : Stage) : node SDEvent SDChild :=
  if negb (isQueryEnded q) then
    El "div" [class_ "row error-message"]
      [El "div" [class_ "col-xs-12"]
         [El "h4" [] [Txt "Operator graph will appear automatically when query completes."];
          El "div" [class_ "loader"] [Txt "Loading..."]]]
  else Mount (CStageOperatorGraph stage).

(** The text of the selection in a stage id; [null] prints as a word. *)
Definition shown_stage (s : SDState) : jsstring :=
  match selectedStageId s with Some sel => selection_text sel | None => js "null" end.

Definition render (s : SDState) : res (node SDEvent SDChild) :=
  match query s with
  | None =>
      Ok (error_page [if initialized s then Txt "Query not found" else El "div" [class_ "loader"] [Txt "Loading..."]])
  | Some q =>
      match q_outputStage q with
      | None => Ok (error_page [Txt "Query does not have an output stage"])
      | Some outputStage =>
          allStages ← getAllStageIds outputStage;
          found ← findStage (q_queryId q ++ js "." ++ shown_stage s) outputStage;
          match found with
          | None => Ok (error_page [Txt "Stage not found"])
          | Some stage =>
              plan ← get_prop "id" (sg_plan stage);
              Ok (El "div" []
                [Mount (CQueryHeader q);
                 El "div" [class_ "row"]
                   [El "div" [class_ "col-xs-12"]
                      [El "div" [class_ "row"]
                         [El "div" [class_ "col-xs-2"] [El "h3" [] [Txt "Stage "; Txt (pl_id plan)]];
                          El "div" [class_ "col-xs-8"] [];
                          El "div" [class_ "col-xs-2 stage-dropdown"] [stage_menu allStages]]]];
                 El "hr" [class_ "h3-hr"] [];
                 El "div" [class_ "row"] [El "div" [class_ "col-xs-12"] [operator_part q stage]]])
          end
      end
  end.

(** ** Updates and callbacks *)

Definition with_detail (r : SDRequest) (q : Query) (s : SDState) : SDState :=
  mkSDState true (q_finalQueryInfo q) (Some (rq_selected r)) (Some q) (lastRefresh s) (lastRender s) (canvas s) (drawn s).
Definition sd_failed (s : SDState) : SDState :=
  mkSDState true (ended s) (selectedStageId s) (query s) (lastRefresh s) (lastRender s) (canvas s) (drawn s).
Definition with_selection (planId : jsstring) (s : SDState) : SDState :=
  mkSDState (initialized s) (ended s) (Some (SelPlan planId)) (query s) (lastRefresh s) (lastRender s)
    (canvas s) (drawn s).
Definition with_drawing (canvas : Element) (drawn : option Graph) (s : SDState) : SDState :=
  mkSDState (initialized s) (ended s) (selectedStageId s) (query s) (lastRefresh s) (lastRender s) canvas drawn.

Section component.
Variable pathname : jsstring.

(** The rendering of a child, and its [componentDidMount] or
    [componentDidUpdate]. *)
Definition update_child (c : SDChild) (s : SDState) : res SDState :=
  match c with
  | CQueryHeader q => _ ← QueryHeader.render pathname q; Ok s
  | CStageOperatorGraph stage => '(canvas, graph) ← update_canvas stage (canvas s); Ok (with_drawing canvas graph s)
  end.

Fixpoint update_children (l : list SDChild) (s : SDState) : res SDState :=
  match l with
  | [] => Ok s
  | c :: l' => s ← update_child c s; update_children l' s
  end.

Definition commit (s : SDState) : res SDState := n ← render s; update_children (mounts n) s.

Definition sd_answer (r : SDRequest) (a : option Query) : SD -> SD :=
  match a with
  | Some q => set_then commit (with_detail r q) resetTimer
  | None => set_then commit sd_failed resetTimer
  end.

Definition sd_event (e : SDEvent) : SD -> SD :=
  match e with
  | SelectStage planId => when_mounted (set_then commit (with_selection planId) id)
  end.
End component.
