(* ===== verification/StageDetailFacts.v ===== *)
(** * The operators of a stage: properties *)

From S2P Require Import Prelude JsString JsNumber JsNumberFacts JsSort JsObject DecimalFacts Data Utils.
From S2P Require Import UtilsFacts EventLoop React VDom QueryHeader TaskList StageSummary StageSummaryFacts.
From S2P Require Import LivePlan LivePlanFacts StageDetail.

(** ** Finding stages *)

(** Every stage of the tree says what its sub-stages are. *)
Definition full_tree (root : Stage) : Prop := forall x, rtc substage root x -> is_Some (sg_subStages x).

Lemma full_tree_sub root subs s : full_tree root -> sg_subStages root = Some subs -> s ∈ subs -> full_tree s.
Proof. intros H E Hs x Hx. apply H. eapply rtc_l; [|exact Hx]. by exists subs. Qed.

Lemma get_stages_eq root subs : sg_subStages root = Some subs -> get_stages root = root :: flat_map get_stages subs.
Proof. intros E. destruct root; cbn in *. by rewrite E. Qed.

Definition has_stage_id (id : jsstring) (s : Stage) : bool := sg_stageId s === id.

Lemma find_app {A} (p : A -> bool) a b :
  List.find p (a ++ b) = match List.find p a with Some x => Some x | None => List.find p b end.
Proof. induction a as [|x a IH]; cbn; [done|]. by destruct (p x). Qed.

Fixpoint find_all (id : jsstring) (l : list Stage) : res (option Stage) :=
  match l with
  | [] => Ok None
  | s :: l' => r ← findStage id s; match r with Some stage => Ok (Some stage) | None => find_all id l' end
  end.

Lemma findStage_eq id root subs :
  sg_subStages root = Some subs ->
  findStage id root = if has_stage_id id root then Ok (Some root) else find_all id subs.
Proof.
  intros E. destruct root as [i p info prev subs' state tasks]. cbn in E. subst. unfold has_stage_id.
  cbn [findStage sg_stageId sg_subStages]. destruct (i === id); [done|].
  induction subs as [|s l IH]; cbn [find_all]; [done|].
  destruct (findStage id s) as [[r|]|]; cbn [mbind res_bind]; [done|apply IH|done].
Qed.

Lemma findStage_find id root :
  full_tree root -> findStage id root = Ok (List.find (has_stage_id id) (get_stages root)).
Proof.
  induction root as [root IH] using stage_tree_ind. intros Hw.
  destruct (Hw root (rtc_refl _ _)) as [subs Es]. rewrite (findStage_eq id root subs), (get_stages_eq root subs) by done.
  cbn [List.find]. destruct (has_stage_id id root); [done|].
  specialize (IH subs Es).
  assert (Hs : Forall full_tree subs) by (apply Forall_forall; intros s Hs; by eapply full_tree_sub).
  clear Es Hw. induction IH as [|s l Hf _ IHl]; [done|]. apply Forall_cons in Hs as [Hs Hl].
  cbn [find_all flat_map]. rewrite Hf, find_app by done. cbn [mbind res_bind].
  destruct (List.find _ (get_stages s)); [done|]. by apply IHl.
Qed.

Definition plan_id_of (s : Stage) : jsstring := match sg_plan s with Some p => pl_id p | None => [] end.

Definition planned_tree (root : Stage) : Prop :=
  forall x, rtc substage root x -> is_Some (sg_subStages x) /\ is_Some (sg_plan x).

Lemma planned_full root : planned_tree root -> full_tree root.
Proof. intros H x Hx. by destruct (H x Hx). Qed.

Fixpoint all_ids (l : list Stage) : res (list jsstring) :=
  match l with
  | [] => Ok []
  | s :: l' => a ← getAllStageIds s; b ← all_ids l'; Ok (a ++ b)
  end.

Lemma getAllStageIds_eq root subs plan :
  sg_subStages root = Some subs -> sg_plan root = Some plan ->
  getAllStageIds root = (rest ← all_ids subs; Ok (pl_id plan :: rest)).
Proof.
  intros E Ep. destruct root as [i p info prev subs' state tasks]. cbn in E, Ep. subst.
  cbn [getAllStageIds sg_plan sg_subStages get_prop mbind res_bind].
  match goal with |- mbind _ (?f subs) = _ => assert (Ef : forall l, f l = all_ids l) end.
  { intros l. induction l as [|s l IH]; [done|]. cbn [all_ids].
    destruct (getAllStageIds s); cbn [mbind res_bind]; [|done]. by rewrite IH. }
  by rewrite Ef.
Qed.

Lemma getAllStageIds_map root :
  planned_tree root -> getAllStageIds root = Ok (map plan_id_of (get_stages root)).
Proof.
  induction root as [root IH] using stage_tree_ind. intros Hw.
  destruct (Hw root (rtc_refl _ _)) as [[subs Es] [plan Ep]].
  rewrite (getAllStageIds_eq root subs plan), (get_stages_eq root subs) by done.
  assert (E : all_ids subs = Ok (map plan_id_of (flat_map get_stages subs))).
  { specialize (IH subs Es).
    assert (Hs : Forall planned_tree subs).
    { apply Forall_forall. intros s Hs x Hx. apply Hw. eapply rtc_l; [|exact Hx]. by exists subs. }
    clear Es Ep Hw. induction IH as [|s l Hf _ IHl]; [done|]. apply Forall_cons in Hs as [Hs Hl].
    cbn [all_ids flat_map]. rewrite Hf, IHl by done. cbn [mbind res_bind]. by rewrite map_app. }
  rewrite E. cbn [mbind res_bind map]. unfold plan_id_of at 2. by rewrite Ep.
Qed.

(** On a complete tree [findStage] returns the first stage with the id, in
    the order of the list of stages, and [null] when there is none; it agrees
    with the traversal of the query page. *)
Theorem findStage_correct id root :
  full_tree root ->
  exists r, findStage id root = Ok r /\ r = List.find (has_stage_id id) (StageSummary.getStages (Some root)) /\
    (forall x, r = Some x -> rtc substage root x /\ sg_stageId x = id) /\
    (r = None -> forall x, rtc substage root x -> sg_stageId x <> id).
Proof.
  intros Hw. rewrite findStage_find by done. eexists. split; [done|]. split; [done|]. split.
  - intros x [Hin Hid]%find_some. split; [apply get_stages_sound; by apply list_elem_of_In|].
    by apply str_eqb_eq in Hid.
  - intros Hn x Hx Hid. apply (get_stages_complete root x Hx) in Hw. apply list_elem_of_In in Hw.
    pose proof (find_none _ _ Hn x Hw) as Hf. unfold has_stage_id in Hf. apply str_eqb_neq in Hf. done.
Qed.

Lemma demo_tree_planned : planned_tree demo_tree.
Proof.
  intros x Hx. eapply substage_inv in Hx; [|reflexivity].
  destruct Hx as [->|(z & Hz & Hx)]; [by split; eexists|].
  repeat (apply elem_of_cons in Hz as [->|Hz]; [apply leaf_reach in Hx as ->; by split; eexists|]). inversion Hz.
Qed.

Lemma findStage_correct_witness :
  exists r, findStage "q.2" demo_tree = Ok r /\ r = Some (demo_stage "q.2" [] []).
Proof.
  destruct (findStage_correct "q.2" demo_tree (planned_full _ demo_tree_planned)) as (r & E & Hr & _).
  exists r. split; [exact E|]. rewrite Hr. vm_compute. reflexivity.
Defined.

(** ** The page *)

(** The ids of the stages are those of their plans, after the id of the query. *)
Definition ids_agree (q : Query) (root : Stage) : Prop :=
  forall x, rtc substage root x -> sg_stageId x = q_queryId q ++ js "." ++ plan_id_of x.

Definition menu_item (stageId : jsstring) : node SDEvent SDChild :=
  El "li" [] [El "a" [onClick (SelectStage stageId)] [Txt stageId]].

Lemma menu_items l :
  flat_map events (map menu_item l) = map SelectStage l /\ flat_map mounts (map menu_item l) = [].
Proof. induction l as [|x l [IH1 IH2]]; [done|]. cbn [map flat_map]. by rewrite IH1, IH2. Qed.

Lemma menu_parts l : events (stage_menu l) = map SelectStage l /\ mounts (stage_menu l) = [].
Proof.
  destruct (menu_items l) as [H1 H2]. unfold stage_menu. vdom. fold menu_item. rewrite H1, H2.
  cbn [attr_events class_ sattr snd app]. by rewrite !app_nil_r.
Qed.

Lemma operator_part_parts q stage :
  events (operator_part q stage) = [] /\
  mounts (operator_part q stage) = if isQueryEnded q then [CStageOperatorGraph stage] else [].
Proof. unfold operator_part. by destruct (isQueryEnded q). Qed.

(** The page of a selected stage. *)
Lemma render_selected s q root x :
  query s = Some q -> q_outputStage q = Some root -> planned_tree root -> ids_agree q root -> rtc substage root x ->
  exists n y, render (with_selection (plan_id_of x) s) = Ok n /\
    events n = map SelectStage (map plan_id_of (get_stages root)) /\
    SelectStage (plan_id_of x) ∈ events n /\
    mounts n = CQueryHeader q :: (if isQueryEnded q then [CStageOperatorGraph y] else []) /\
    sg_stageId y = sg_stageId x /\ rtc substage root y.
Proof.
  intros Hq Ho Hw Hids Hx. unfold render. cbn [with_selection query selectedStageId shown_stage selection_text].
  rewrite Hq, Ho, getAllStageIds_map by done. cbn [mbind res_bind].
  rewrite findStage_find by by apply planned_full.
  assert (Hin : x ∈ get_stages root) by (apply get_stages_complete; [done|apply planned_full, Hw]).
  destruct (List.find _ (get_stages root)) as [y|] eqn:Ef.
  2: { exfalso. apply list_elem_of_In in Hin. pose proof (find_none _ _ Ef x Hin) as Hf.
       unfold has_stage_id in Hf. apply str_eqb_neq in Hf. by rewrite (Hids x Hx) in Hf. }
  apply find_some in Ef as [Hy Hid]. unfold has_stage_id in Hid. apply str_eqb_eq in Hid.
  assert (Hr : rtc substage root y) by (apply get_stages_sound; by apply list_elem_of_In).
  destruct (Hw y Hr) as [_ [plan Ep]]. cbn [mbind res_bind]. rewrite Ep. cbn [get_prop mbind res_bind].
  destruct (operator_part_parts q y) as [O1 O2].
  destruct (menu_parts (map plan_id_of (get_stages root))) as [M1 M2].
  eexists _, y. split; [reflexivity|]. vdom. rewrite M1, M2, O1, O2. cbn [attr_events class_ snd app].
  rewrite !app_nil_r. split; [done|]. split; [by apply list_elem_of_In, in_map, in_map, list_elem_of_In|].
  split; [done|]. split; [|done]. by rewrite Hid, (Hids x Hx).
Qed.

(** What drawing leaves alone. *)
Lemma render_with_drawing c g s : render (with_drawing c g s) = render s.
Proof. done. Qed.

Definition graph_of (calls : option (list GraphCall)) : option Graph :=
  option_map (fun c => graph_add c initializeGraph) calls.

Lemma update_canvas_eq stage canvas calls :
  updateD3Graph stage = Ok calls -> exists c, update_canvas stage canvas = Ok (c, graph_of calls).
Proof. intros E. unfold update_canvas. rewrite E. destruct calls; cbn; eauto. Qed.

(** The update of a page whose header renders and whose graph can be drawn. *)
Lemma commit_page pathname s n q y :
  render s = Ok n -> mounts n = CQueryHeader q :: (if isQueryEnded q then [CStageOperatorGraph y] else []) ->
  wf_query q -> (isQueryEnded q = true -> exists calls, updateD3Graph y = Ok calls) ->
  exists c g, commit pathname s = Ok (with_drawing c g s) /\
    forall calls, isQueryEnded q = true -> updateD3Graph y = Ok calls -> g = graph_of calls.
Proof.
  intros Hr Hm Hw Hg. unfold commit. rewrite Hr. cbn [mbind res_bind]. rewrite Hm. cbn [update_children update_child].
  destruct (header_offers_actions pathname q Hw) as (h & -> & _). cbn [mbind res_bind].
  destruct (isQueryEnded q); cbn [update_children update_child]; [|exists (canvas s), (drawn s); by destruct s].
  destruct Hg as [calls Ec]; [done|]. destruct (update_canvas_eq y (canvas s) calls Ec) as [c ->].
  exists c, (graph_of calls). split; [done|]. intros calls' _ E. congruence.
Qed.

(** C21: The menu of the page offers every stage of the query, and choosing one
    shows it: for each stage there is an entry, and after a click on it the page
    is still there, renders with the same menu and, once the query has ended,
    shows the operator graph of that stage and no other. *)
Theorem stage_menu_works pathname (i : SD) q root x :
  r_mounted (st i) = true -> query (r_state (st i)) = Some q -> q_outputStage q = Some root ->
  planned_tree root -> ids_agree q root -> wf_query q ->
  (isQueryEnded q = true -> forall y, rtc substage root y -> exists calls, updateD3Graph y = Ok calls) ->
  rtc substage root x ->
  let i' := sd_event pathname (SelectStage (plan_id_of x)) i in
  exists n y, r_mounted (st i') = true /\ console i' = console i /\ render (r_state (st i')) = Ok n /\
    events n = map SelectStage (map plan_id_of (get_stages root)) /\
    SelectStage (plan_id_of x) ∈ events n /\
    mounts n = CQueryHeader q :: (if isQueryEnded q then [CStageOperatorGraph y] else []) /\
    sg_stageId y = sg_stageId x /\ rtc substage root y /\
    forall calls, isQueryEnded q = true -> updateD3Graph y = Ok calls -> drawn (r_state (st i')) = graph_of calls.
Proof.
  intros Hm Hq Ho Hw Hids Hwf Hg Hx i'.
  destruct (render_selected (r_state (st i)) q root x Hq Ho Hw Hids Hx) as (n & y & Hn & He & Hin & Hms & Hid & Hy).
  destruct (commit_page pathname _ n q y Hn Hms Hwf) as (c & g & Hc & Hd); [intros E; by apply Hg|].
  exists n, y. unfold i'. cbn [sd_event]. unfold when_mounted, set_then, update_root. rewrite Hm, Hc.
  cbn. rewrite render_with_drawing. eauto 10.
Qed.

Definition demo_detail_stage (id : string) (subs : list Stage) : Stage :=
  mkStage (js "q." ++ js id) (Some (mkPlan (js id) (mkPlanNode ".ValuesNode" "1" None None None None None None None)
      (pl_jsonRepresentation demo_plan) "SINGLE"))
    (demo_execution []) [] (Some subs) None None.
Definition demo_detail_tree : Stage := demo_detail_stage "0" [demo_detail_stage "1" []; demo_detail_stage "2" []].
Definition demo_detail_query : Query := {|
  q_queryId := "q"; q_state := "FINISHED"; q_scheduled := true; q_memoryPool := "general"; q_errorType := None;
  q_errorCode := None; q_queryStats := Some sample_stats; q_warnings := Some []; q_session := sample_session;
  q_resourceGroupId := None; q_query := "SELECT 1"; q_outputStage := Some demo_detail_tree;
  q_finalQueryInfo := true; q_failureInfo := None |}.
Definition demo_detail : SD :=
  sd_answer "/ui/stage.html" (mkSDRequest "/v1/query/q" (SelNumber (num 0))) (Some demo_detail_query) (mount (new_root sd_init)).

Lemma demo_detail_all x :
  rtc substage demo_detail_tree x ->
  x ∈ [demo_detail_tree; demo_detail_stage "1" []; demo_detail_stage "2" []].
Proof.
  intros Hx. eapply substage_inv in Hx; [|reflexivity]. destruct Hx as [->|(z & Hz & Hx)]; [left|].
  repeat (apply elem_of_cons in Hz as [->|Hz]; [
    eapply substage_inv in Hx; [|reflexivity]; destruct Hx as [->|(z' & Hz' & _)]; [set_solver|inversion Hz']|]).
  inversion Hz.
Qed.

Lemma demo_detail_ok :
  planned_tree demo_detail_tree /\ ids_agree demo_detail_query demo_detail_tree.
Proof.
  split; intros x Hx%demo_detail_all;
    repeat (apply elem_of_cons in Hx as [->|Hx]; [by (split; eexists) || reflexivity|]); inversion Hx.
Qed.

Lemma stage_menu_works_witness :
  exists n y, render (r_state (st (sd_event "/ui/stage.html" (SelectStage "2") demo_detail))) = Ok n /\
    mounts n = [CQueryHeader demo_detail_query; CStageOperatorGraph y] /\ sg_stageId y = js "q.2".
Proof.
  destruct demo_detail_ok as [H1 H2].
  destruct (stage_menu_works "/ui/stage.html" demo_detail demo_detail_query demo_detail_tree (demo_detail_stage "2" []))
    as (n & y & _ & _ & E & _ & _ & M & S & _); [reflexivity|reflexivity|reflexivity|exact H1|exact H2| | | |].
  - split; [by eexists|]. split; [intros E; discriminate E|by eexists].
  - intros _ y Hy%demo_detail_all. repeat (apply elem_of_cons in Hy as [->|Hy]; [eexists; vm_compute; reflexivity|]).
    inversion Hy.
  - eapply rtc_l; [|constructor]. eexists. split; [reflexivity|]. right. left.
  - exists n, y. split; [exact E|]. split; [exact M|exact S].
Defined.

(** ** Selection and refresh *)

Lemma commit_fields pathname s s' :
  commit pathname s = Ok s' -> exists c g, s' = with_drawing c g s.
Proof.
  unfold commit. destruct (render s) as [n|]; [|done]. cbn [mbind res_bind].
  assert (Hg : forall l s s', update_children pathname l s = Ok s' -> exists c g, s' = with_drawing c g s).
  { clear. induction l as [|x l IH]; intros s s'; cbn [update_children].
    - intros [= <-]. exists (canvas s), (drawn s). by destruct s.
    - destruct (update_child pathname x s) as [s1|] eqn:E; [|done]. cbn [mbind res_bind]. intros (c & g & ->)%IH.
      assert (H1 : exists c' g', s1 = with_drawing c' g' s).
      { destruct x; cbn in E; inv_ok; [exists (canvas s1), (drawn s1); by destruct s1|].
        match goal with p : (Element * option Graph)%type |- _ => destruct p as [c' g'] end. cbn in E. inv_ok. eauto. }
      destruct H1 as (c' & g' & ->). by exists c, g. }
  apply Hg.
Qed.

(** A stage selected while a request is under way is not kept: the answer
    restores the selection of the moment the request was sent, whatever the
    user has chosen since. *)
Theorem selection_overwritten pathname search (i : SD) planId q :
  r_mounted (st i) = true ->
  let sent := refreshLoop search i in
  let clicked := sd_event pathname (SelectStage planId) sent in
  let selected := match selectedStageId (r_state (st i)) with
                  | Some s => s
                  | None => initial_selection (split 46 (getFirstParameter search)) end in
  r_mounted (st clicked) = true ->
  exists url, inflight clicked = mkSDRequest url selected :: inflight i /\
    selectedStageId (r_state (st clicked)) = Some (SelPlan planId) /\
    selectedStageId (r_state (st (sd_answer pathname (mkSDRequest url selected) (Some q) clicked))) = Some selected.
Proof.
  intros Hm sent clicked selected Hk. eexists.
  assert (Hc : exists c g, clicked = setState (fun _ => mkRoot (with_drawing c g (with_selection planId (r_state (st i)))) true) sent).
  { revert Hk. unfold clicked, sent. cbn [sd_event]. unfold when_mounted, refreshLoop. cbn [send st].
    rewrite clear_st, Hm. unfold set_then, update_root. cbn [send st]. rewrite clear_st, Hm.
    destruct (commit _ _) as [s'|] eqn:E; [|done]. intros _. destruct (commit_fields _ _ _ E) as (c & g & ->).
    by exists c, g. }
  destruct Hc as (c & g & ->). split; [|split; [done|]].
  { unfold sent, refreshLoop. cbn [setState inflight send]. by rewrite clear_inflight, clear_st. }
  cbn [sd_answer]. unfold set_then, update_root. cbn [setState st r_mounted r_state].
  destruct (commit _ _) as [s'|] eqn:E; [|done].
  destruct (commit_fields _ _ _ E) as (c' & g' & ->).
  unfold resetTimer. destruct (stop_refreshing _); cbn [arm st]; by rewrite clear_st.
Qed.

Lemma getFirstParameter_plain s : 38 ∉ s -> getFirstParameter (js "?" ++ s) = s.
Proof.
  intros Hs. unfold getFirstParameter. change (js "?") with [63]. cbn [app].
  rewrite substring_from_drop by lia. change (drop (Z.to_nat 1) (63 :: s)) with s.
  change (js "&") with [38]. by rewrite indexOf_unit_none.
Qed.

(** A click on a stage of the live plan opens the page of that stage: with the
    address it opens, the first request asks for the query of the stage and
    selects it, and the id that is looked up is the id of the stage. *)
Theorem stage_link_selects queryId n :
  46 ∉ queryId -> 38 ∉ queryId -> small n ->
  exists search, handleStageClick (stage_id queryId n) = js "stage.html" ++ search /\
    inflight (componentDidMount search (mount (new_root sd_init))) =
      [mkSDRequest (js "/v1/query/" ++ queryId) (SelNumber (num n))] /\
    queryId ++ js "." ++ selection_text (SelNumber (num n)) = stage_id queryId n.
Proof.
  intros H46 H38 Hn. unfold small in Hn. exists (js "?" ++ stage_id queryId n). split; [done|].
  assert (Hamp : 38 ∉ stage_id queryId n).
  { unfold stage_id. change (js ".") with [46]. rewrite !elem_of_app, list_elem_of_singleton.
    intros [H|[H|H]]; [done|done|]. revert H. apply dec_notin; [lia|done]. }
  split.
  - unfold componentDidMount, refreshLoop. cbn [mount clear ids st r_state new_root selectedStageId sd_init send inflight].
    rewrite getFirstParameter_plain by done. unfold stage_id. change (js ".") with [46]. cbn [app].
    rewrite split_app by done. rewrite split_notin by (apply dec_notin; [lia|done]).
    cbn [initial_selection head default]. rewrite <- (app_nil_r (dec n)), parseInt_dec by (done || lia). done.
  - cbn [selection_text]. by rewrite num_to_string_int by lia.
Qed.

Lemma stage_link_selects_witness :
  inflight (componentDidMount "?20200601_1_abc.3" (mount (new_root sd_init))) =
    [mkSDRequest "/v1/query/20200601_1_abc" (SelNumber (num 3))].
Proof.
  destruct (stage_link_selects "20200601_1_abc" 3) as (search & E & R & _).
  - intros H. apply (bool_decide_eq_true_2 _) in H. vm_compute in H. discriminate H.
  - intros H. apply (bool_decide_eq_true_2 _) in H. vm_compute in H. discriminate H.
  - unfold small. lia.
  - apply (app_inv_head (js "stage.html") (js "?20200601_1_abc.3") search) in E. rewrite E. exact R.
Defined.

(** ** Polling *)

#[export] Instance sd_poller pathname search :
  Poller tt sd_stopped (sd_timer search) (sd_answer pathname) (sd_event pathname).
Proof.
  split.
  - intros i Hi Hs. apply polls_send; [by apply idle_clear|by rewrite clear_st].
  - by intros [] i Hne.
  - intros r [q|] i Hi _; cbn [sd_answer]; (apply polls_set_then; [|done]); intros j; apply (polls_reset tt sd_stopped).
  - intros [p] i Hp. cbn [sd_event]. unfold when_mounted. destruct (r_mounted (st i)); [|done].
    apply (polls_set_event tt stop_refreshing); [|done|done]. by intros s s' (c & g & ->)%commit_fields.
Qed.

(** The page of a stage refreshes until the final document of the query arrives
    and then stops, whatever the user selects. *)
Theorem stage_page_polls pathname search adm (i : SD) :
  reachable (sd_timer search) (sd_answer pathname) (sd_event pathname) adm
    (componentDidMount search (mount (new_root sd_init))) i ->
  (armed tt i + length (inflight i) <= 1)%nat /\
  (sd_stopped (st i) = true -> armed tt i = 0%nat /\ inflight i = []) /\
  (sd_stopped (st i) = false -> console i = [] -> (armed tt i + length (inflight i) = 1)%nat).
Proof.
  intros Hr.
  assert (H0 : polls tt sd_stopped (componentDidMount search (mount (new_root sd_init))))
    by (apply polls_send; [apply idle_clear; split; [apply mount_ok|done]|done]).
  destruct (poller_reachable tt sd_stopped _ _ _ adm _ i H0 Hr) as (_ & Hle & Hz & H1).
  split; [done|]. split; [|by auto]. intros Hs. by destruct (idle_pending tt i (Hz Hs)).
Qed.

(** ** Groups *)

Section groups.
Context {K A : Type} `{EqDecision K} (key : A -> K).

Lemma group_by_snoc l x :
  group_by key (l ++ [x]) = mset (key x) (default [] (mget (key x) (group_by key l)) ++ [x]) (group_by key l).
Proof. unfold group_by. by rewrite fold_left_app. Qed.

Lemma group_by_nodup l : NoDup (mkeys (group_by key l)).
Proof.
  induction l as [|x l IH] using rev_ind; [constructor|]. rewrite group_by_snoc. by apply mset_nodup.
Qed.

Definition of_key (k : K) (x : A) : bool := bool_decide (key x = k).

Lemma group_by_get l k :
  default [] (mget k (group_by key l)) = List.filter (of_key k) l.
Proof.
  induction l as [|x l IH] using rev_ind; [done|].
  rewrite group_by_snoc, mget_mset, List.filter_app. cbn [List.filter]. unfold of_key at 2.
  case_decide as Hk; subst.
  - rewrite bool_decide_eq_true_2 by done. cbn [default]. by rewrite IH.
  - rewrite bool_decide_eq_false_2, app_nil_r by congruence. exact IH.
Qed.

Lemma group_by_entry l k g : (k, g) ∈ group_by key l -> g = List.filter (of_key k) l /\ g <> [].
Proof.
  intros Hin. split.
  - rewrite <- group_by_get, (mget_Some_nodup k g); [done|apply group_by_nodup|done].
  - revert k g Hin. induction l as [|x l IH] using rev_ind; intros k g Hin; [inversion Hin|].
    rewrite group_by_snoc in Hin. apply mset_elem in Hin as [[= -> ->]|[Hin _]]; [|by eauto].
    by destruct (default _ _).
Qed.

(** The values of a map with one value extended. *)
Lemma mset_values_perm (m : list (K * list A)) k x :
  NoDup (mkeys m) ->
  concat (map snd (mset k (default [] (mget k m) ++ [x]) m)) ≡ₚ concat (map snd m) ++ [x].
Proof.
  induction m as [|[k' v] m IH]; cbn [mkeys map fst]; intros Hn; [done|].
  apply NoDup_cons in Hn as [Hk Hn]. cbn [mget mset]. destruct (decide (k = k')) as [->|Hne]; cbn [map snd concat default].
  - change (id v) with v. rewrite <- !app_assoc. f_equiv. apply Permutation_app_comm.
  - rewrite IH by done. by rewrite <- app_assoc.
Qed.

Lemma group_by_perm l : concat (map snd (group_by key l)) ≡ₚ l.
Proof.
  induction l as [|x l IH] using rev_ind; [done|].
  rewrite group_by_snoc, mset_values_perm by apply group_by_nodup. by rewrite IH.
Qed.
End groups.

(** The map from plan nodes to operators is exact: the entry of a node holds
    the operators of that node in the order of the statistics, and the entries
    together hold every operator once. *)
Theorem computeOperatorMap_correct stage summaries :
  operator_summaries stage = Ok summaries ->
  exists m, computeOperatorMap stage = Ok m /\ NoDup (mkeys m) /\
    concat (map snd m) ≡ₚ summaries /\
    forall id, default [] (mget id m) = List.filter (of_key op_planNodeId id) summaries.
Proof.
  intros E. unfold computeOperatorMap. rewrite E. cbn [mbind res_bind]. eexists. split; [reflexivity|].
  split; [apply group_by_nodup|]. split; [apply group_by_perm|]. intros id. apply group_by_get.
Qed.

(** ** Linked operators *)

(** The operators of a graph, from sink to source. *)
Fixpoint chain (l : LinkedOperator) : list OperatorSummary :=
  let '(mkLinked op child) := l in op :: match child with Some c => chain c | None => [] end.

Definition chain_of (l : option LinkedOperator) : list OperatorSummary :=
  match l with Some l => chain l | None => [] end.

(** The operators of all the pipelines. *)
Definition graph_operators (g : operator_graphs) : list OperatorSummary := flat_map (fun e => chain e.2) g.

Lemma chain_fold ops below :
  chain_of (fold_left (fun current op => Some (mkLinked op current)) ops below) = reverse ops ++ chain_of below.
Proof.
  revert below. induction ops as [|op ops IH]; intros below; [done|]. cbn [fold_left].
  rewrite IH, reverse_cons, <- app_assoc. done.
Qed.

Definition by_operator_id (ops : list OperatorSummary) : list OperatorSummary :=
  js_sort (fun a b => op_operatorId a -f op_operatorId b) ops.

Lemma link_operators_chain below ops :
  chain_of (link_operators below ops) = reverse (by_operator_id ops) ++ chain_of below.
Proof. apply chain_fold. Qed.

Lemma link_operators_some below ops : ops <> [] -> exists l, link_operators below ops = Some l.
Proof.
  intros Hne. destruct (link_operators below ops) as [l|] eqn:E; [eauto|].
  pose proof (link_operators_chain below ops) as H. rewrite E in H. cbn [chain_of] in H. symmetry in H.
  apply app_eq_nil in H as [H _]. apply (f_equal length) in H. rewrite length_reverse in H.
  unfold by_operator_id, js_sort in H. rewrite (Permutation_length (stable_sort_perm _ ops)) in H. by destruct ops.
Qed.

(** What a node's own operators contribute: each pipeline above what feeds it. *)
Definition below (sr : operator_graphs) (e : number * list OperatorSummary) : list OperatorSummary :=
  chain_of (mget e.1 sr).

(** The maps [link_node] builds, as lists: new keys go to the end. *)
Lemma fold_link sr groups m :
  NoDup (mkeys m ++ mkeys groups) -> Forall (fun e => e.2 <> []) groups ->
  exists new, fold_left (fun m '(pipelineId, ops) =>
      match link_operators (mget pipelineId sr) ops with
      | Some sink => mset pipelineId sink m
      | None => m
      end) groups m = m ++ new /\ mkeys new = mkeys groups /\
    graph_operators new ≡ₚ flat_map (fun e => e.2) groups ++ flat_map (below sr) groups.
Proof.
  intros Hn Hg. revert m Hn. induction Hg as [|[p ops] groups Hops Hg IH]; intros m Hn.
  { exists []. cbn. by rewrite app_nil_r. }
  cbn [fold_left]. destruct (link_operators_some (mget p sr) ops Hops) as [sink Es]. rewrite Es.
  cbn [mkeys map fst] in Hn.
  assert (Hp : p ∉ mkeys m) by (apply NoDup_app in Hn as (_ & Hd & _); intros Hin; apply (Hd p Hin); left).
  rewrite mkeys_mset_new by done.
  destruct (IH (m ++ [(p, sink)])) as (new & E & Hk & Hperm).
  { unfold mkeys in *. rewrite map_app. cbn [map fst]. by rewrite <- app_assoc. }
  exists ((p, sink) :: new). rewrite E, <- app_assoc. split; [done|].
  split; [exact (f_equal (cons p) Hk)|].
  unfold graph_operators in *. cbn [flat_map fst snd]. rewrite Hperm.
  pose proof (link_operators_chain (mget p sr) ops) as Hc. rewrite Es in Hc. cbn [chain_of] in Hc. rewrite Hc.
  unfold below at 2. cbn [fst].
  assert (Hs : reverse (by_operator_id ops) ≡ₚ ops)
    by (rewrite reverse_Permutation; apply stable_sort_perm).
  rewrite Hs. rewrite <- !app_assoc. f_equiv. rewrite !app_assoc. f_equiv. apply Permutation_app_comm.
Qed.

Lemma fold_rest (sr m : operator_graphs) :
  NoDup (mkeys sr) ->
  fold_left (fun m '(pipelineId, operator) => if mhas pipelineId m then m else mset pipelineId operator m) sr m =
    m ++ List.filter (fun e => negb (mhas e.1 m)) sr.
Proof.
  revert m. induction sr as [|[p l] sr IH]; intros m Hn; [by rewrite app_nil_r|].
  cbn [mkeys map fst] in Hn. apply NoDup_cons in Hn as [Hp Hn].
  cbn [fold_left List.filter fst]. destruct (mhas p m) eqn:Hm; cbn [negb]; [by apply IH|].
  assert (p ∉ mkeys m) by (rewrite <- mhas_spec; congruence).
  rewrite mkeys_mset_new, IH, <- app_assoc by done. cbn [app]. do 2 f_equal.
  apply filter_ext_in. intros [p' l'] Hin. cbn [fst]. f_equal.
  apply Bool.eq_true_iff_eq. rewrite !mhas_spec. unfold mkeys. rewrite map_app, elem_of_app. cbn [map fst].
  rewrite list_elem_of_singleton. split; [|by left]. intros [Hm'|Hm']; [done|subst p'; exfalso].
  destruct Hp. apply list_elem_of_In, in_map_iff. by exists (p, l').
Qed.

(** Taking one pipeline out of the results. *)
Lemma take_out k (sr : operator_graphs) :
  NoDup (mkeys sr) ->
  graph_operators sr ≡ₚ chain_of (mget k sr) ++ graph_operators (List.filter (fun e => negb (bool_decide (e.1 = k))) sr).
Proof.
  induction sr as [|[p l] sr IH]; [done|]. cbn [mkeys map fst]. intros [Hp Hn]%NoDup_cons.
  unfold graph_operators in *. cbn [mget List.filter flat_map fst snd].
  destruct (decide (k = p)) as [->|Hne].
  - rewrite bool_decide_eq_true_2 by done. cbn [negb chain_of]. f_equiv.
    rewrite (forallb_filter_id _ sr); [done|]. apply forallb_forall. intros [p' l'] Hin. cbn [fst]. apply negb_true_iff, bool_decide_eq_false_2.
    intros ->. destruct Hp. apply list_elem_of_In, in_map_iff. by exists (p, l').
  - rewrite bool_decide_eq_false_2 by done. cbn [negb flat_map snd]. rewrite IH by done.
    rewrite !app_assoc. f_equiv. apply Permutation_app_comm.
Qed.

Lemma mget_filter_ne {V} (k p : number) (m : list (number * V)) :
  k <> p -> mget k (List.filter (fun e => negb (bool_decide (e.1 = p))) m) = mget k m.
Proof.
  intros Hne. induction m as [|[k' v] m IH]; [done|]. cbn [List.filter fst].
  case_bool_decide; cbn [negb mget]; subst; [by rewrite decide_False|]. by rewrite IH.
Qed.

(** The pipelines of the sources are either under the node's own operators or
    passed on. *)
Lemma below_and_rest (groups : list (number * list OperatorSummary)) (sr : operator_graphs) :
  NoDup (mkeys groups) -> NoDup (mkeys sr) ->
  flat_map (below sr) groups ++
    graph_operators (List.filter (fun e => negb (bool_decide (e.1 ∈ mkeys groups))) sr) ≡ₚ graph_operators sr.
Proof.
  revert sr. induction groups as [|[p ops] groups IH]; intros sr Hg Hs.
  { cbn. rewrite (forallb_filter_id _ sr); [done|]. apply forallb_forall. intros e _.
    apply negb_true_iff, bool_decide_eq_false_2. intros H. inversion H. }
  cbn [mkeys map fst] in Hg. apply NoDup_cons in Hg as [Hp Hg].
  set (sr' := List.filter (fun e => negb (bool_decide (e.1 = p))) sr).
  assert (Hs' : NoDup (mkeys sr')) by by apply NoDup_map_filter.
  rewrite (take_out p sr) by done. fold sr'. rewrite <- (IH sr' Hg Hs').
  cbn [flat_map]. unfold below at 1. cbn [fst]. rewrite <- app_assoc. f_equiv.
  assert (E1 : flat_map (below sr) groups = flat_map (below sr') groups).
  { rewrite !flat_map_concat_map. f_equal. apply map_ext_in. intros [k g] Hin. unfold below. cbn [fst].
    unfold sr'. rewrite mget_filter_ne; [done|]. intros ->. apply Hp. apply list_elem_of_In, in_map_iff. by exists (p, g). }
  rewrite E1. f_equiv. unfold sr'.
  rewrite (filter_filter_ext _ _ (fun e => negb (bool_decide (e.1 ∈ mkeys ((p, ops) :: groups)))) sr); [done|].
  intros [k l]. cbn [fst mkeys map]. rewrite <- negb_orb. f_equal. apply Bool.eq_true_iff_eq.
  rewrite orb_true_iff, !bool_decide_eq_true, elem_of_cons. tauto.
Qed.

Lemma link_node_spec sr ops :
  NoDup (mkeys sr) ->
  NoDup (mkeys (link_node sr ops)) /\ graph_operators (link_node sr ops) ≡ₚ ops ++ graph_operators sr.
Proof.
  intros Hs. unfold link_node. set (groups := group_by op_pipelineId ops).
  assert (Hg : NoDup (mkeys groups)) by apply group_by_nodup.
  destruct (fold_link sr groups []) as (new & E & Hk & Hperm).
  { exact Hg. }
  { apply Forall_forall. intros [k g] Hin. by apply group_by_entry in Hin as [_ Hin]. }
  cbn [app] in E. rewrite E, fold_rest by done.
  assert (Ef : List.filter (fun e => negb (mhas e.1 new)) sr =
               List.filter (fun e => negb (bool_decide (e.1 ∈ mkeys groups))) sr).
  { apply filter_ext. intros e. f_equal. apply Bool.eq_true_iff_eq.
    by rewrite mhas_spec, bool_decide_eq_true, Hk. }
  rewrite Ef. split.
  - unfold mkeys. rewrite map_app. apply NoDup_app. split; [change (NoDup (mkeys new)); by rewrite Hk|].
    split; [|by apply NoDup_map_filter].
    intros k Hin Hin'. change (k ∈ mkeys new) in Hin. rewrite Hk in Hin.
    apply list_elem_of_In, in_map_iff in Hin' as (e & <- & He). rewrite <- list_elem_of_In in He.
    apply list_filter_In in He as [_ He]. by rewrite bool_decide_eq_true_2 in He.
  - unfold graph_operators. rewrite flat_map_app. fold (graph_operators new). rewrite Hperm, <- app_assoc.
    fold (graph_operators (List.filter (fun e => negb (bool_decide (e.1 ∈ mkeys groups))) sr)).
    rewrite below_and_rest by done. rewrite (flat_map_concat_map (fun e => e.2)). unfold groups.
    by rewrite group_by_perm.
Qed.

(** Merging the results of the sources without an error on the console. *)
Lemma merge_source_errors r m e : (e <= (merge_source (m, e) r).2)%nat.
Proof.
  unfold merge_source. revert m e. induction r as [|[p l] r IH]; intros m e; cbn [fold_left snd]; [done|].
  destruct (mhas p m); [|apply IH]. etransitivity; [|apply IH]. lia.
Qed.

Lemma merge_source_spec m e r m' :
  merge_source (m, e) r = (m', e) -> NoDup (mkeys m) ->
  NoDup (mkeys m') /\ graph_operators m' ≡ₚ graph_operators m ++ graph_operators r.
Proof.
  revert m. induction r as [|[p l] r IH]; intros m H Hn.
  { injection H as <-. by rewrite app_nil_r. }
  change (merge_source (if mhas p m then (m, S e) else (mset p l m, e)) r = (m', e)) in H.
  destruct (mhas p m) eqn:Hm.
  - pose proof (merge_source_errors r m (S e)) as G. rewrite H in G. cbn [snd] in G. lia.
  - assert (Hp : p ∉ mkeys m) by (rewrite <- mhas_spec; congruence).
    destruct (IH _ H) as [H1 H2]; [by apply mset_nodup|]. split; [done|]. rewrite H2, mkeys_mset_new by done.
    unfold graph_operators. rewrite flat_map_app. cbn [flat_map snd]. rewrite app_nil_r, <- app_assoc. done.
Qed.

Lemma merge_all_errors rs m e : (e <= (fold_left merge_source rs (m, e)).2)%nat.
Proof.
  revert m e. induction rs as [|r rs IH]; intros m e; cbn [fold_left snd]; [done|].
  destruct (merge_source (m, e) r) as [m1 e1] eqn:E.
  pose proof (merge_source_errors r m e) as G. rewrite E in G. cbn [snd] in G.
  etransitivity; [exact G|apply IH].
Qed.

Lemma merge_all_spec rs m e m' :
  fold_left merge_source rs (m, e) = (m', e) -> NoDup (mkeys m) ->
  NoDup (mkeys m') /\ graph_operators m' ≡ₚ graph_operators m ++ flat_map graph_operators rs.
Proof.
  revert m. induction rs as [|r rs IH]; intros m H Hn.
  { injection H as <-. by rewrite app_nil_r. }
  cbn [fold_left] in H. destruct (merge_source (m, e) r) as [m1 e1] eqn:E.
  pose proof (merge_source_errors r m e) as G1. rewrite E in G1. cbn [snd] in G1.
  pose proof (merge_all_errors rs m1 e1) as G2. rewrite H in G2. cbn [snd] in G2.
  assert (e1 = e) as -> by lia.
  destruct (merge_source_spec m e r m1 E Hn) as [N1 P1]. destruct (IH m1 H N1) as [N2 P2].
  split; [done|]. rewrite P2, P1. cbn [flat_map]. by rewrite <- app_assoc.
Qed.

(** ** The whole graph *)

Definition plan_fields (n : PlanNode) : list (option PlanNode) :=
  [pn_source n; pn_left n; pn_right n; pn_filteringSource n; pn_probeSource n; pn_indexSource n] ++
  map Some (default [] (pn_sources n)).

Section plan_induction.
Variable P : PlanNode -> Prop.
Definition P_opt (o : option PlanNode) : Prop := match o with Some c => P c | None => True end.
Hypothesis step : forall n, Forall P_opt (plan_fields n) -> P n.

Fixpoint plan_ind (n : PlanNode) : P n.
Proof.
  apply step. destruct n as [ty id a b c d e f g]. unfold plan_fields. cbn [pn_source pn_left pn_right
    pn_filteringSource pn_probeSource pn_indexSource pn_sources app].
  repeat (apply Forall_cons_2;
    [match goal with |- P_opt ?o => destruct o as [x|]; [exact (plan_ind x)|exact I] end|]).
  destruct g as [l|]; cbn [default map]; [|constructor].
  induction l as [|x l IH]; cbn [map]; constructor; [exact (plan_ind x)|exact IH].
Defined.
End plan_induction.

Lemma children_with_spec {A} (f : PlanNode -> A) n :
  children_with f n = option_map (map (option_map f)) (getChildren n).
Proof.
  unfold children_with, getChildren. case_ifs; try reflexivity.
  destruct (pn_sources n) as [l|]; [|done]. cbn. f_equal. by rewrite map_map.
Qed.

Lemma getChildren_fields n l o : getChildren n = Some l -> o ∈ l -> o ∈ plan_fields n.
Proof.
  unfold getChildren, plan_fields. intros H Hin.
  repeat match type of H with (if ?b then _ else _) = _ => destruct b end;
    try (injection H as <-; set_solver).
  destruct (pn_sources n) as [l'|]; [|discriminate H]. injection H as <-. apply elem_of_app. by right.
Qed.

(** The plan nodes [computeOperatorGraphs] visits. *)
Fixpoint visited (n : PlanNode) : list PlanNode :=
  n :: concat (map (default []) (default [] (children_with visited n))).

Lemma visited_eq n l :
  getChildren n = Some l -> visited n = n :: concat (map (fun o => default [] (option_map visited o)) l).
Proof.
  intros E. assert (visited n = n :: concat (map (default []) (default [] (children_with visited n)))) as ->
    by by destruct n.
  rewrite children_with_spec, E. cbn [option_map default]. change (id ?x) with x. by rewrite map_map.
Qed.

Definition graphs_of (m : list (jsstring * list OperatorSummary)) (o : option PlanNode) : res (operator_graphs * nat) :=
  match o with Some n => computeOperatorGraphs n m | None => Throw (TypeError "@type") end.

Lemma computeOperatorGraphs_eq n m :
  computeOperatorGraphs n m =
  (sources ← get_prop "sources.forEach" (getChildren n);
   results ← res_map (graphs_of m) sources;
   let '(sr, errors) := fold_left merge_source (map fst results) ([], list_sum (map snd results)) in
   match mget (pn_id n) m with
   | None | Some [] => Ok (sr, errors)
   | Some ops => Ok (link_node sr ops, errors)
   end).
Proof.
  assert (computeOperatorGraphs n m =
    (sources ← get_prop "sources.forEach" (children_with (fun n => computeOperatorGraphs n m) n);
     results ← res_map (fun r => match r with Some r => r | None => Throw (TypeError "@type") end) sources;
     let '(sr, errors) := fold_left merge_source (map fst results) ([], list_sum (map snd results)) in
     match mget (pn_id n) m with
     | None | Some [] => Ok (sr, errors)
     | Some ops => Ok (link_node sr ops, errors)
     end)) as -> by by destruct n.
  rewrite children_with_spec. destruct (getChildren n) as [l|]; cbn [option_map get_prop mbind res_bind]; [|done].
  assert (res_map (fun r => match r with Some r => r | None => Throw (TypeError "@type") end)
            (map (option_map (fun n => computeOperatorGraphs n m)) l) = res_map (graphs_of m) l) as ->; [|done].
  induction l as [|[x|] l IH]; cbn [map option_map res_map graphs_of]; [done| |done]. by rewrite IH.
Qed.

(** The operators of a plan node. *)
Definition node_operators (m : list (jsstring * list OperatorSummary)) (n : PlanNode) : list OperatorSummary :=
  default [] (mget (pn_id n) m).

Lemma sum_zero l : list_sum l = 0%nat -> Forall (fun n => n = 0%nat) l.
Proof. unfold list_sum. induction l as [|x l IH]; cbn; [constructor|]. intros H. constructor; [lia|]. apply IH. lia. Qed.

Lemma sources_operators m l results :
  Forall (P_opt (fun n => forall g, computeOperatorGraphs n m = Ok (g, 0%nat) ->
    NoDup (mkeys g) /\ graph_operators g ≡ₚ flat_map (node_operators m) (visited n))) l ->
  res_map (graphs_of m) l = Ok results -> Forall (fun n => n = 0%nat) (map snd results) ->
  flat_map graph_operators (map fst results) ≡ₚ
    flat_map (node_operators m) (concat (map (fun o => default [] (option_map visited o)) l)).
Proof.
  intros Hl. revert results. induction Hl as [|o l Ho _ IH]; intros results H He; cbn [res_map] in H; inv_ok; [done|].
  cbn [map fst snd flat_map concat] in *. apply Forall_cons in He as [He1 He].
  destruct o as [n|]; [|discriminate]. cbn [graphs_of P_opt] in *. destruct a as [g e]. cbn [fst snd] in *. subst.
  destruct (Ho g) as [_ Hg]; [done|]. cbn [option_map default]. change (id ?x) with x.
  rewrite flat_map_app, <- Hg. f_equiv. by apply IH.
Qed.

Lemma operator_graph_spec n m g :
  computeOperatorGraphs n m = Ok (g, 0%nat) ->
  NoDup (mkeys g) /\ graph_operators g ≡ₚ flat_map (node_operators m) (visited n).
Proof.
  revert g. induction n as [n IH] using plan_ind. intros g H. rewrite computeOperatorGraphs_eq in H.
  destruct (getChildren n) as [l|] eqn:El; [|discriminate H]. cbn [get_prop mbind res_bind] in H.
  destruct (res_map (graphs_of m) l) as [results|] eqn:Er; [|discriminate H]. cbn [mbind res_bind] in H.
  destruct (fold_left merge_source _ _) as [sr errors] eqn:Em.
  assert (errors = 0%nat) as -> by (destruct (mget (pn_id n) m) as [[|]|]; congruence).
  pose proof (merge_all_errors (map fst results) [] (list_sum (map snd results))) as G. rewrite Em in G. cbn [snd] in G.
  assert (Hsum : list_sum (map snd results) = 0%nat) by lia. rewrite Hsum in Em.
  destruct (merge_all_spec _ _ _ _ Em) as [Hn Hp]; [constructor|]. cbn [app graph_operators flat_map] in Hp.
  rewrite (sources_operators m l results) in Hp; [|apply Forall_forall; intros o Ho|done|by apply sum_zero].
  2: { rewrite Forall_forall in IH. apply IH. by eapply getChildren_fields. }
  rewrite (visited_eq n l) by done. cbn [flat_map].
  assert (Hnode : g = sr /\ node_operators m n = [] \/ g = link_node sr (node_operators m n)).
  { unfold node_operators. destruct (mget (pn_id n) m) as [[|op ops]|]; injection H as <-; auto. }
  destruct Hnode as [[Hg Ho]|Hg]; subst g; [by rewrite Ho|].
  destruct (link_node_spec sr (node_operators m n) Hn) as [N P]. split; [done|]. rewrite P. by f_equiv.
Qed.

(** Splitting a list by key. *)
Lemma split_by_keys {K A} `{EqDecision K} (key : A -> K) (ks : list K) l :
  NoDup ks -> flat_map (fun k => List.filter (of_key key k) l) ks ≡ₚ
              List.filter (fun x => bool_decide (key x ∈ ks)) l.
Proof.
  induction ks as [|k ks IH]; intros Hn.
  { cbn. rewrite filter_none; [done|]. intros x _. apply bool_decide_eq_false_2. intros H. inversion H. }
  apply NoDup_cons in Hn as [Hk Hn]. cbn [flat_map]. rewrite (IH Hn). clear IH.
  induction l as [|x l IHl]; [done|]. cbn [List.filter]. unfold of_key at 1.
  rewrite (bool_decide_ext (key x ∈ k :: ks) (key x = k \/ key x ∈ ks)) by apply elem_of_cons.
  destruct (decide (key x = k)) as [->|Hne].
  - rewrite bool_decide_eq_true_2, (bool_decide_eq_false_2 (k ∈ ks)), bool_decide_eq_true_2 by tauto.
    cbn [app]. by rewrite IHl.
  - rewrite bool_decide_eq_false_2 by done.
    rewrite (bool_decide_ext (key x = k \/ key x ∈ ks) (key x ∈ ks)) by tauto.
    destruct (bool_decide (key x ∈ ks)); [|done]. rewrite <- Permutation_middle. by rewrite IHl.
Qed.

Lemma flat_map_map {A B C} (f : B -> list C) (g : A -> B) l : flat_map f (map g l) = flat_map (fun x => f (g x)) l.
Proof. induction l as [|x l IH]; cbn; [done|]. by rewrite IH. Qed.

(** C9: The operator graph of a stage loses no operator: when the plan nodes have
    distinct ids, every operator belongs to one of them, and no error about
    pipelines was reported, the chains of the pipelines together hold each
    operator of the stage exactly once, one chain per pipeline. *)
Theorem operator_graph_complete stage summaries m root g :
  operator_summaries stage = Ok summaries -> computeOperatorMap stage = Ok m ->
  computeOperatorGraphs root m = Ok (g, 0%nat) ->
  NoDup (map pn_id (visited root)) ->
  Forall (fun o => op_planNodeId o ∈ map pn_id (visited root)) summaries ->
  graph_operators g ≡ₚ summaries /\ NoDup (mkeys g).
Proof.
  intros Es Em Eg Hn Hall. destruct (operator_graph_spec root m g Eg) as [N P]. split; [|done]. rewrite P.
  unfold computeOperatorMap in Em. rewrite Es in Em. injection Em as <-.
  transitivity (flat_map (fun k => List.filter (of_key op_planNodeId k) summaries) (map pn_id (visited root))).
  - rewrite flat_map_map.
    rewrite (flat_map_ext (node_operators _) (fun n => List.filter (of_key op_planNodeId (pn_id n)) summaries));
      [done|]. intros n. apply group_by_get.
  - rewrite split_by_keys by done. rewrite forallb_filter_id; [done|]. apply forallb_forall.
    intros o Ho. rewrite Forall_forall in Hall. apply bool_decide_eq_true_2, Hall. by apply list_elem_of_In.
Qed.

Definition demo_operator (pipeline operator : Z) (node : jsstring) : OperatorSummary := {|
  op_pipelineId := num pipeline; op_operatorId := num operator; op_planNodeId := node;
  op_operatorType := "ScanFilterAndProjectOperator"; op_addInputWall := "1.00s"; op_getOutputWall := "0.00ns";
  op_finishWall := "0.00ns"; op_blockedWall := "0.00ns"; op_inputPositions := num 5000; op_inputDataSize := "5kB";
  op_outputPositions := num 5000; op_outputDataSize := "5kB"; op_totalDrivers := num 4 |}.

Definition demo_plan_root : PlanNode :=
  mkPlanNode ".OutputNode" "3"
    (Some (mkPlanNode ".JoinNode" "2" None
             (Some (mkPlanNode ".TableScanNode" "0" None None None None None None None))
             (Some (mkPlanNode ".ValuesNode" "1" None None None None None None None)) None None None None))
    None None None None None None.

Definition demo_operators : list OperatorSummary :=
  [demo_operator 0 2 "3"; demo_operator 0 1 "2"; demo_operator 0 0 "0"; demo_operator 1 1 "2"; demo_operator 1 0 "1"].

Definition demo_operator_stage : Stage :=
  let info := demo_execution [] in
  mkStage "q.1" (Some (mkPlan "1" demo_plan_root (pl_jsonRepresentation demo_plan) "SOURCE"))
    (mkStageExecutionInfo "FINISHED" (match se_stats info with
       | Some s => Some (mkStageStats (ss_fullyBlocked s) (ss_totalScheduledTime s) (ss_totalBlockedTime s)
           (ss_totalCpuTime s) (ss_cumulativeUserMemory s) (ss_userMemoryReservation s)
           (ss_peakUserMemoryReservation s) (ss_bufferedDataSize s) (ss_queuedDrivers s) (ss_runningDrivers s)
           (ss_completedDrivers s) (ss_completedLifespans s) (ss_totalLifespans s) (ss_rawInputDataSize s)
           (ss_rawInputPositions s) (ss_outputDataSize s) (ss_outputPositions s) (Some demo_operators))
       | None => None end) [])
    [] (Some []) None None.

Lemma operator_graph_complete_witness :
  exists m g, computeOperatorMap demo_operator_stage = Ok m /\ computeOperatorGraphs demo_plan_root m = Ok (g, 0%nat) /\
    graph_operators g ≡ₚ demo_operators.
Proof.
  destruct (computeOperatorMap demo_operator_stage) as [m|] eqn:Em; [|vm_compute in Em; discriminate Em].
  destruct (computeOperatorGraphs demo_plan_root m) as [[g e]|] eqn:Eg;
    [|injection Em as <-; vm_compute in Eg; discriminate Eg].
  assert (e = 0%nat) as -> by (injection Em as <-; vm_compute in Eg; by injection Eg).
  exists m, g. split; [done|]. split; [done|].
  apply (operator_graph_complete demo_operator_stage demo_operators m demo_plan_root g); [reflexivity|done|done| |].
  - apply (bool_decide_unpack _). vm_compute. exact I.
  - apply (bool_decide_unpack _). vm_compute. exact I.
Defined.

Lemma computeOperatorMap_correct_witness :
  exists m, computeOperatorMap demo_operator_stage = Ok m /\
    default [] (mget (js "2") m) = [demo_operator 0 1 "2"; demo_operator 1 1 "2"].
Proof.
  destruct (computeOperatorMap_correct demo_operator_stage demo_operators) as (m & E & _ & _ & H); [reflexivity|].
  exists m. split; [exact E|]. rewrite H. vm_compute. reflexivity.
Defined.

(** ** Drawing the graph *)

(** An operator whose blocked time is a duration. *)
Definition renderable (o : OperatorSummary) : Prop := parseDuration (op_blockedWall o) <> JNull.

Lemma rate_text_total r b : exists t, rate_text r b = Ok t.
Proof.
  unfold rate_text, formatDataSize. destruct (formatCount_total (JNum r)) as [t1 ->]; [done|].
  destruct (formatDataSize_total b (js "B")) as [t2 Ht]. cbn [mbind res_bind]. rewrite Ht. cbn. eauto.
Qed.

Lemma rows_and_size_total p s : exists t, rows_and_size p s = Ok t.
Proof. unfold rows_and_size. destruct (formatCount_total (JNum p)) as [t ->]; [done|]. cbn. eauto. Qed.

Lemma renderOperatorSummary_total o : renderable o -> exists n, renderOperatorSummary o = Ok n.
Proof.
  intros Ho. unfold renderOperatorSummary.
  edestruct rate_text_total as [? ->]. cbn [mbind res_bind].
  edestruct rows_and_size_total as [? ->]. cbn [mbind res_bind].
  destruct (formatDuration_total (JNum (getTotalWallTime o))) as [? ->]; [done|].
  destruct (formatDuration_total _ Ho) as [? ->]. cbn [mbind res_bind].
  edestruct rows_and_size_total as [? ->]. cbn [mbind res_bind]. eauto.
Qed.

Section linked_induction.
Variable P : LinkedOperator -> Prop.
Hypothesis step : forall op child, match child with Some c => P c | None => True end -> P (mkLinked op child).

Fixpoint linked_ind (l : LinkedOperator) : P l :=
  match l with
  | mkLinked op child => step op child (match child with Some c => linked_ind c | None => I end)
  end.
End linked_induction.

Lemma operator_calls_ok l sink p ids :
  Forall renderable (chain l) -> p ∈ ids -> (forall s, sink = Some s -> s ∈ ids) ->
  (forall o, o ∈ chain l -> operator_node_id o ∈ ids) ->
  exists calls, computeD3StageOperatorGraph l sink p = Ok calls /\
    set_ids calls = map operator_node_id (chain l) /\ closed ids calls.
Proof.
  revert sink. induction l as [op child IH] using linked_ind. intros sink Hr Hp Hs Hids.
  cbn [chain] in *. apply Forall_cons in Hr as [Hop Hr]. cbn [computeD3StageOperatorGraph].
  destruct (renderOperatorSummary_total op Hop) as [html ->]. cbn [mbind res_bind].
  assert (Hid : operator_node_id op ∈ ids) by (apply Hids; left).
  assert (exists below, match child with
            | Some c => computeD3StageOperatorGraph c (Some (operator_node_id op)) p
            | None => Ok [] end = Ok below /\
            set_ids below = map operator_node_id (match child with Some c => chain c | None => [] end) /\
            closed ids below) as (below & -> & Hb & Hc).
  { destruct child as [c|]; [|by exists []; split_and!; [| |constructor]]. apply IH; [done|done| |].
    - by intros s [= <-].
    - intros o Ho. apply Hids. by right. }
  cbn [mbind res_bind]. eexists. split; [reflexivity|]. split.
  - change (operator_node_id op :: set_ids (below ++ (match sink with
      Some s => [SetEdge (operator_node_id op) s plan_edge] | None => [] end) ++
      [SetParent (operator_node_id op) p]) = operator_node_id op ::
      map operator_node_id (match child with Some c => chain c | None => [] end)).
    rewrite !set_ids_app, Hb. destruct sink; cbn; by rewrite app_nil_r.
  - constructor; [constructor|]. apply closed_app. split; [done|]. apply closed_app.
    split; [destruct sink; repeat constructor; auto|repeat constructor; auto].
Qed.

Lemma pipeline_calls_ok e ids :
  Forall renderable (chain e.2) -> pipeline_node_id e.1 ∈ ids ->
  (forall o, o ∈ chain e.2 -> operator_node_id o ∈ ids) ->
  exists calls, pipeline_calls e = Ok calls /\
    set_ids calls = pipeline_node_id e.1 :: map operator_node_id (chain e.2) /\ closed ids calls.
Proof.
  destruct e as [p l]. cbn [fst snd]. intros Hr Hp Ho. unfold pipeline_calls.
  destruct (operator_calls_ok l None (pipeline_node_id p) ids) as (calls & -> & Hs & Hc); [done|done|done|done|].
  cbn [mbind res_bind]. eexists. split; [reflexivity|]. split; [|constructor; [constructor|done]].
  exact (f_equal (cons (pipeline_node_id p)) Hs).
Qed.

(** C34: The operator graph that is drawn is well formed: when the statistics of
    the operators are durations the calls can be made, the nodes are one per
    pipeline and one per operator of its chain, and every edge and nesting
    refers to nodes of the graph. *)
Theorem operator_graph_drawn stage plan m g errors :
  sg_plan stage = Some plan -> computeOperatorMap stage = Ok m ->
  computeOperatorGraphs (pl_root plan) m = Ok (g, errors) -> g <> [] ->
  Forall renderable (graph_operators g) ->
  exists calls, updateD3Graph stage = Ok (Some calls) /\
    set_ids calls ≡ₚ map pipeline_node_id (mkeys g) ++ map operator_node_id (graph_operators g) /\
    closed (set_ids calls) calls.
Proof.
  intros Ep Em Eg Hne Hr. unfold updateD3Graph. rewrite Em, Ep. cbn [get_prop mbind res_bind].
  rewrite Eg. cbn [mbind res_bind].
  set (ids := flat_map (fun e => pipeline_node_id e.1 :: map operator_node_id (chain e.2)) g).
  assert (Hids : forall e, e ∈ g -> forall id, id ∈ pipeline_node_id e.1 :: map operator_node_id (chain e.2) -> id ∈ ids).
  { intros e He id Hid. unfold ids. apply list_elem_of_In, in_flat_map. exists e. by rewrite <- !list_elem_of_In. }
  destruct (res_map_all pipeline_calls (fun e calls =>
    set_ids calls = pipeline_node_id e.1 :: map operator_node_id (chain e.2) /\ closed ids calls) g) as (cs & -> & Hcs).
  { intros e He. apply pipeline_calls_ok.
    - apply Forall_forall. intros o Ho. rewrite Forall_forall in Hr. apply Hr.
      apply list_elem_of_In, in_flat_map. exists e. split; by apply list_elem_of_In.
    - apply (Hids e He). left.
    - intros o Ho. apply (Hids e He). right. apply list_elem_of_In, in_map. by rewrite <- list_elem_of_In. }
  cbn [mbind res_bind].
  assert (Hm : match g with [] => None | _ => Some (concat cs) end = Some (concat cs)) by by destruct g.
  rewrite Hm. eexists. split; [reflexivity|].
  assert (E : set_ids (concat cs) = ids).
  { rewrite set_ids_concat. unfold ids at 1. clear - Hcs. generalize dependent ids. intros ids Hcs.
    induction Hcs as [|e c l l' [Hs _] _ IH]; [done|]. cbn [map concat flat_map]. by rewrite Hs, IH. }
  rewrite E. split.
  - unfold ids, graph_operators, mkeys. clear. induction g as [|e g IH]; [done|]. cbn [map flat_map app].
    rewrite IH, map_app. f_equiv. rewrite !app_assoc. f_equiv. apply Permutation_app_comm.
  - apply closed_concat. eapply Forall2_r; [exact Hcs|]. by intros ? ? [_ ?].
Qed.

Lemma operator_graph_drawn_witness :
  exists calls, updateD3Graph demo_operator_stage = Ok (Some calls) /\ closed (set_ids calls) calls.
Proof.
  destruct (computeOperatorMap demo_operator_stage) as [m|] eqn:Em; [|vm_compute in Em; discriminate Em].
  destruct (computeOperatorGraphs demo_plan_root m) as [[g e]|] eqn:Eg;
    [|injection Em as <-; vm_compute in Eg; discriminate Eg].
  destruct (operator_graph_drawn demo_operator_stage (mkPlan "1" demo_plan_root (pl_jsonRepresentation demo_plan) "SOURCE")
              m g e) as (calls & E & _ & C); [reflexivity|exact Em|exact Eg| | |].
  - injection Em as <-. vm_compute in Eg. injection Eg as <- _. discriminate.
  - injection Em as <-. vm_compute in Eg. injection Eg as <- _.
    repeat (apply Forall_cons_2; [vm_compute; discriminate|]). apply Forall_nil_2.
  - exists calls. split; [exact E|exact C].
Defined.

(** Updates do not pile up: whatever was in the drawing area, after an update it
    holds one group, in which a graph with the calls for this stage only is
    rendered, or nothing. *)
Theorem operator_canvas_fresh stage tags canvas graph :
  update_canvas stage (Some tags) = Ok (canvas, graph) ->
  match graph with
  | Some g => select_group canvas = Selected /\ canvas = Some ["g"%string] /\ updateD3Graph stage = Ok (Some (g_calls g))
  | None => canvas = Some [] /\ updateD3Graph stage = Ok None
  end.
Proof. unfold update_canvas. destruct (updateD3Graph stage) as [[calls|]|]; cbn; intros [= <- <-]; done. Qed.

Lemma operator_canvas_fresh_witness :
  exists g, update_canvas demo_operator_stage (Some ["g"%string; "g"%string]) = Ok (Some ["g"%string], Some g) /\
    updateD3Graph demo_operator_stage = Ok (Some (g_calls g)).
Proof.
  destruct (update_canvas demo_operator_stage (Some ["g"%string; "g"%string])) as [[c [g|]]|] eqn:E;
    [|vm_compute in E; discriminate E..].
  destruct (operator_canvas_fresh _ _ _ _ E) as (_ & -> & H). exists g. split; [reflexivity|exact H].
Defined.

(** ** Where the page fails *)

(** A click on an operator never shows its details: the handler passes on the
    tasks of the stage under a name the documents of the server do not have, and
    rendering the details throws, whatever operator was clicked. *)
Theorem operator_click_throws stage cssId operator tasks :
  sg_tasks stage = None -> handleOperatorClick stage cssId = Ok (operator, tasks) ->
  exists e, renderOperatorDetail operator tasks = Throw e.
Proof.
  intros Ht H. unfold handleOperatorClick in H. inv_ok. rewrite Ht. cbn. eauto.
Qed.

Lemma operator_click_throws_witness :
  exists operator tasks e, handleOperatorClick demo_operator_stage "operator-0-1" = Ok (operator, tasks) /\
    operator = Some (demo_operator 0 1 "2") /\ renderOperatorDetail operator tasks = Throw e.
Proof.
  assert (E : handleOperatorClick demo_operator_stage "operator-0-1" = Ok (Some (demo_operator 0 1 "2"), None))
    by (vm_compute; reflexivity).
  destruct (operator_click_throws demo_operator_stage "operator-0-1" _ _ eq_refl E) as [e He].
  exists (Some (demo_operator 0 1 "2")), None, e. split; [exact E|]. split; [reflexivity|exact He].
Defined.

(** The two displays of an operator disagree about its rate: the node of the
    graph divides the rows by seconds, the details by milliseconds, and both are
    labelled rows per second (5000 rows in one second). *)
Theorem operator_rates_disagree :
  let o := demo_operator 0 1 "2" in
  formatCount (summary_row_rate o) = Ok (js "5.00K") /\
  formatCount (detail_row_rate (getTotalWallTime o) (op_inputPositions o)) = Ok (js "5.00").
Proof. vm_compute. auto. Qed.

Lemma operator_graph_unavailable stage plan stats :
  sg_plan stage = Some plan -> se_stats (sg_latestAttemptExecutionInfo stage) = Some stats ->
  ss_operatorSummaries stats = None ->
  renderOperatorGraph stage = error_page [Txt "Operator data not available for "; Txt (sg_stageId stage)] /\
  exists e, updateD3Graph stage = Throw e.
Proof.
  intros Hp Hs Ho. unfold renderOperatorGraph, updateD3Graph, computeOperatorMap, operator_summaries.
  rewrite Hp, Hs. cbn [get_prop mbind res_bind]. rewrite Ho. split; [done|]. cbn. eauto.
Qed.

Lemma update_children_throws pathname stage e l s :
  CStageOperatorGraph stage ∈ l -> updateD3Graph stage = Throw e -> exists e', update_children pathname l s = Throw e'.
Proof.
  intros Hin He. revert s. induction l as [|c l IH]; intros s; [inversion Hin|]. cbn [update_children].
  apply elem_of_cons in Hin as [<-|Hin].
  - cbn [update_child]. unfold update_canvas. rewrite He. cbn. eauto.
  - destruct (update_child pathname c s) as [s'|e']; cbn [mbind res_bind]; [by apply IH|eauto].
Qed.

(** Nothing happens any more: no timer, no request, no element to click. *)
Lemma removed_for_good pathname search adm (i j : SD) :
  r_mounted (st i) = false -> timers i = [] -> inflight i = [] ->
  reachable (sd_timer search) (sd_answer pathname) (sd_event pathname) adm i j -> j = i.
Proof.
  intros Hm Ht Hi. apply (reachable_ind_inv _ _ _ _ i (fun j => j = i)); [done|].
  intros k k' _ -> Hs. inversion Hs as [? n u l1 l2 E|? r a l1 l2 E|? [p]]; subst.
  - rewrite Ht in E. by destruct l1.
  - rewrite Hi in E. by destruct l1.
  - cbn [sd_event]. unfold when_mounted. by rewrite Hm.
Qed.

Lemma idle_no_timers (i : SD) : idle tt i -> timers i = [] /\ inflight i = [].
Proof.
  intros [_ Hp]. destruct (idle_pending tt i Hp) as [Hi Ha]. split; [|done]. unfold armed in Ha.
  destruct (timers i) as [|[n []] l]; [done|]. cbn in Ha. by rewrite bool_decide_eq_true_2 in Ha.
Qed.

(** C38: A stage without operator statistics ends the page for good.  The graph
    component reports that they are not available, but then draws all the same
    and throws: React removes the whole page, the error is on the console, and
    since the timer is not armed any more nothing ever happens again. *)
Theorem stage_page_dies pathname search adm (i j : SD) r q n stage plan stats :
  r_mounted (st i) = true -> idle tt i ->
  render (with_detail r q (r_state (st i))) = Ok n -> CStageOperatorGraph stage ∈ mounts n ->
  sg_plan stage = Some plan -> se_stats (sg_latestAttemptExecutionInfo stage) = Some stats ->
  ss_operatorSummaries stats = None ->
  reachable (sd_timer search) (sd_answer pathname) (sd_event pathname) adm (sd_answer pathname r (Some q) i) j ->
  renderOperatorGraph stage = error_page [Txt "Operator data not available for "; Txt (sg_stageId stage)] /\
  r_mounted (st j) = false /\ (exists e, console j = console i ++ [e]) /\ timers j = [] /\ inflight j = [].
Proof.
  intros Hm Hi Hn Hin Hp Hs Ho Hj. destruct (operator_graph_unavailable stage plan stats Hp Hs Ho) as [Hr [e He]].
  split; [done|]. destruct (update_children_throws pathname stage e (mounts n) (with_detail r q (r_state (st i))) Hin He)
    as [e' He']. destruct (idle_no_timers i Hi) as [Ht Hf].
  assert (E : sd_answer pathname r (Some q) i = report e' (setState (fun _ => mkRoot (with_detail r q (r_state (st i))) false) i)).
  { cbn [sd_answer]. unfold set_then, update_root, commit. rewrite Hm, Hn. cbn [mbind res_bind]. by rewrite He'. }
  rewrite E in Hj. apply removed_for_good in Hj as ->; [|done..]. cbn. eauto 10.
Qed.

Definition demo_bare_stats : StageStats :=
  mkStageStats false "1s" "0s" "1s" (num 0) "0B" "0B" "0B" (num 0) (num 0) (num 0) (num 0) (num 0)
    "0B" (num 0) "0B" (num 0) None.
Definition demo_bare_stage : Stage :=
  mkStage "q.0" (Some demo_plan) (mkStageExecutionInfo "FINISHED" (Some demo_bare_stats) []) [] (Some []) None None.
Definition demo_bare_query : Query := {|
  q_queryId := "q"; q_state := "FINISHED"; q_scheduled := true; q_memoryPool := "general"; q_errorType := None;
  q_errorCode := None; q_queryStats := Some sample_stats; q_warnings := Some []; q_session := sample_session;
  q_resourceGroupId := None; q_query := "SELECT 1"; q_outputStage := Some demo_bare_stage;
  q_finalQueryInfo := true; q_failureInfo := None |}.

Lemma stage_page_dies_witness :
  r_mounted (st (sd_answer "/ui/stage.html" (mkSDRequest "/v1/query/q" (SelNumber (num 0))) (Some demo_bare_query)
                   (mount (new_root sd_init)))) = false.
Proof.
  destruct (render (with_detail (mkSDRequest "/v1/query/q" (SelNumber (num 0))) demo_bare_query sd_init)) as [n|] eqn:E;
    [|vm_compute in E; discriminate E].
  apply (stage_page_dies "/ui/stage.html" "?q" (fun _ => True) (mount (new_root sd_init)) _
           (mkSDRequest "/v1/query/q" (SelNumber (num 0))) demo_bare_query n demo_bare_stage demo_plan demo_bare_stats);
    try reflexivity.
  - split; [apply mount_ok|reflexivity].
  - exact E.
  - vm_compute in E. injection E as <-. cbn. right. left.
  - apply rtc_refl.
Defined.
