(* ===== verification/Timeline.v ===== *)
(** * The timeline of a query ([timeline.html])

    The script of the page lists the tasks of all the stages of a query, turns
    each into four bars, and hands them to the timeline library, which draws a
    bar in the row of the group of its stage.  Of the library (vis.js 3.12.0,
    under [vendor/vis]) the calls the script makes are modelled as far as they
    decide what is drawn and what throws: adding to a data set, and making an
    item of the timeline from an entry. *)

From S2P Require Import Prelude JsString JsNumber JsObject Data.

(** ** Numbers in strings *)

Definition radix_digits (base : Z) (p : Z -> bool) (s : jsstring) : number :=
  match s with
  | [] => NaN
  | _ => if forallb p s then num (fold_left (fun acc c => base * acc + default 0 (hex_value c)) s 0) else NaN
  end.

(** The exponent of a decimal literal, to the end of the text. *)
Definition exponent_part (s : jsstring) : option Z :=
  match s with
  | [] => Some 0
  | c :: r =>
      if (c =? 101) || (c =? 69) then
        let '(negative, ds) := match r with
                               | d :: r' => if d =? 45 then (true, r') else if d =? 43 then (false, r') else (false, r)
                               | [] => (false, r) end in
        match ds with
        | [] => None
        | _ => if forallb is_digit ds then Some (if (negative : bool) then - undec ds else undec ds) else None
        end
      else None
  end.

Definition decimal_literal (s : jsstring) : number :=
  if s === "Infinity" then infinity
  else
    let '(ip, r) := span is_digit s in
    let '(fp, r) := match r with
                    | c :: r' => if c =? 46 then span is_digit r' else ([], r)
                    | [] => ([], r) end in
    match ip ++ fp, exponent_part r with
    | [], _ | _, None => NaN
    | ds, Some e => of_decimal (undec ds) (e - str_length fp)
    end.

(** [Number(s)]: what the operators [==] and [-] make of a string. *)
Definition string_to_number (s : jsstring) : number :=
  match trim s with
  | [] => S754_zero false
  | c :: r =>
      if c =? 45 then nneg (decimal_literal r)
      else if c =? 43 then decimal_literal r
      else if c =? 48 then
        match r with
        | x :: r' =>
            if (x =? 120) || (x =? 88) then radix_digits 16 is_hex r'
            else if (x =? 111) || (x =? 79) then radix_digits 8 (fun d => (48 <=? d) && (d <=? 55)) r'
            else if (x =? 98) || (x =? 66) then radix_digits 2 (fun d => (48 <=? d) && (d <=? 49)) r'
            else decimal_literal (c :: r)
        | [] => decimal_literal (c :: r)
        end
      else decimal_literal (c :: r)
  end.

Example number_hex : string_to_number " 0x1F " = num 31.
Proof. vm_compute. reflexivity. Qed.
Example number_exponent : string_to_number "-2.5e3" = num (-2500).
Proof. vm_compute. reflexivity. Qed.
Example number_text : string_to_number "1.2.3" = NaN.
Proof. vm_compute. reflexivity. Qed.

(** ** The timeline *)

(** [[].concat.apply(tasks, subStages.map(getTasks))] *)
Fixpoint getTasks (stage : Stage) : res (list Task) :=
  match sg_subStages stage with
  | None => Throw (TypeError "subStages.map")
  | Some subStages =>
      rest ← (fix each l :=
                match l with
                | [] => Ok []
                | s :: l' => a ← getTasks s; b ← each l'; Ok (a ++ b)
                end) subStages;
      Ok (se_tasks (sg_latestAttemptExecutionInfo stage) ++ rest)
  end.

(** What the script keeps of a task. *)
Record TimelineTask := mkTimelineTask {
  tl_taskId : jsstring;
  tl_create : jsstring;
  tl_firstStart : option jsstring;
  tl_lastStart : option jsstring;
  tl_lastEnd : option jsstring;
  tl_end : option jsstring
}.

Definition timeline_task (t : Task) : TimelineTask :=
  let id := t_taskId t in
  let st := t_stats t in
  mkTimelineTask (substring_from id (indexOf id "." + 1)) (ts_createTime st) (ts_firstStartTime st)
    (ts_lastStartTime st) (ts_lastEndTime st) (ts_endTime st).

Record TimelineGroup := mkTimelineGroup {
  gr_id : jsstring;
  gr_content : jsstring;
  gr_sort : jsstring;
  gr_subgroupOrder : string
}.

Record TimelineItem := mkTimelineItem {
  it_group : jsstring;
  it_start : option jsstring;
  it_end : option jsstring;
  it_className : string;
  it_subgroup : jsstring;
  it_sort : number
}.

Definition stage_part (t : TimelineTask) : jsstring := substr (tl_taskId t) 0 (indexOf (tl_taskId t) ".").
Definition number_part (t : TimelineTask) : jsstring := substr_from (tl_taskId t) (indexOf (tl_taskId t) "." + 1).

Definition task_group (t : TimelineTask) : TimelineGroup :=
  mkTimelineGroup (stage_part t) (stage_part t) (stage_part t) "sort".

Definition task_items (t : TimelineTask) : list TimelineItem :=
  let item := fun start end_ className =>
    mkTimelineItem (stage_part t) start end_ className (number_part t) (nneg (string_to_number (number_part t))) in
  [item (Some (tl_create t)) (tl_firstStart t) "red"%string; item (tl_firstStart t) (tl_lastStart t) "green"%string;
   item (tl_lastStart t) (tl_lastEnd t) "blue"%string; item (tl_lastEnd t) (tl_end t) "orange"%string].

(** ** The library *)

(** [groups.add(group)]: a data set refuses an id that it has, and the lookup
    finds the properties of the prototype, too. *)
Definition add_group (group : TimelineGroup) (groups : list TimelineGroup) : res (list TimelineGroup) :=
  if existsb (fun g => gr_id g === gr_id group) groups || bool_decide (gr_id group ∈ object_prototype)
  then Throw (PlainError "Cannot add item: item with that id already exists")
  else Ok (groups ++ [group]).

(** An entry with an [end] becomes a range, one without it a box at its [start];
    the [start] must be there. *)
Inductive ItemType := RangeItem | BoxItem.

Definition getType (i : TimelineItem) : ItemType :=
  match it_end i with Some _ => RangeItem | None => BoxItem end.

Definition new_item (i : TimelineItem) : res (ItemType * TimelineItem) :=
  match it_start i with
  | Some _ => Ok (getType i, i)
  | None => Throw (PlainError "Property start missing in item")
  end.

(** The rows of a timeline: the groups, each with the items that name it.  An
    item that names no group is in no row. *)
Definition TimelineRow : Type := TimelineGroup * list (ItemType * TimelineItem).

Definition new_Timeline (items : list TimelineItem) (groups : list TimelineGroup) : res (list TimelineRow) :=
  items ← res_map new_item items;
  Ok (map (fun g => (g, List.filter (fun i => it_group i.2 === gr_id g) items)) groups).

(** ** The page *)

(** The loop over the tasks: a group for a task that is numbered 0, and the items
    of every task. *)
Fixpoint add_tasks (tasks : list TimelineTask) (groups : list TimelineGroup) (items : list TimelineItem) :
    res (list TimelineGroup * list TimelineItem) :=
  match tasks with
  | [] => Ok (groups, items)
  | task :: tasks =>
      groups ← (if string_to_number (number_part task) =f num 0 then add_group (task_group task) groups else Ok groups);
      add_tasks tasks groups (items ++ task_items task)
  end.

(** The rows that are drawn; the options concern the layout only. *)
Definition renderTimeline (data : Query) : res (list TimelineRow) :=
  outputStage ← get_prop "latestAttemptExecutionInfo" (q_outputStage data);
  tasks ← getTasks outputStage;
  '(groups, items) ← add_tasks (map timeline_task tasks) [] [];
  new_Timeline items groups.

(** The document the page asks for; [search] is [window.location.search]. *)
Definition timeline_request (search : jsstring) : jsstring := js "/v1/query/" ++ substring_from search 1.
