(* ===== verification/TimelineFacts.v ===== *)
(** * The timeline of a query: properties *)

From S2P Require Import Prelude JsString JsNumber JsNumberFacts JsRounding JsObject DecimalFacts Data Utils UtilsFacts.
From S2P Require Import TaskList StageSummary StageSummaryFacts StageDetailFacts Timeline.

Definition tasks_of (s : Stage) : list Task := se_tasks (sg_latestAttemptExecutionInfo s).

Lemma getTasks_spec root : full_tree root -> getTasks root = Ok (flat_map tasks_of (get_stages root)).
Proof.
  induction root as [root IH] using stage_tree_ind. intros Hf.
  destruct (Hf root (rtc_refl _ _)) as [subs Es].
  assert (E : getTasks root = (rest ← (fix each l := match l with [] => Ok []
      | s :: l' => a ← getTasks s; b ← each l'; Ok (a ++ b) end) subs; Ok (tasks_of root ++ rest)))
    by (destruct root; cbn in Es; rewrite Es; reflexivity).
  assert (Eg : get_stages root = root :: flat_map get_stages subs) by (destruct root; cbn in Es |- *; by rewrite Es).
  rewrite E, Eg. cbn [flat_map].
  assert (Hs : Forall full_tree subs) by (apply Forall_forall; intros s Hs; by eapply full_tree_sub).
  specialize (IH subs Es). clear E Eg Es Hf.
  assert (Hrest : (fix each l := match l with [] => Ok []
      | s :: l' => a ← getTasks s; b ← each l'; Ok (a ++ b) end) subs =
      Ok (flat_map tasks_of (flat_map get_stages subs))); [|by rewrite Hrest].
  induction IH as [|s l Hs0 _ IHl]; [done|]. apply Forall_cons in Hs as [H1 H2].
  rewrite (Hs0 H1). cbn [mbind res_bind]. rewrite (IHl H2). cbn [mbind res_bind flat_map]. by rewrite flat_map_app.
Qed.

(** The groups that the tasks ask for, in order. *)
Definition task_groups (t : TimelineTask) : list TimelineGroup :=
  if string_to_number (number_part t) =f num 0 then [task_group t] else [].

Lemma add_tasks_ok tasks groups items :
  NoDup (map gr_id (groups ++ flat_map task_groups tasks)) ->
  Forall (fun g => gr_id g ∉ object_prototype) (flat_map task_groups tasks) ->
  add_tasks tasks groups items = Ok (groups ++ flat_map task_groups tasks, items ++ flat_map task_items tasks).
Proof.
  revert groups items. induction tasks as [|t l IH]; intros groups items N Hp; cbn [flat_map add_tasks] in *;
    [by rewrite !app_nil_r|].
  unfold task_groups at 1. unfold task_groups at 1 in N. unfold task_groups at 1 in Hp.
  destruct (string_to_number (number_part t) =f num 0); cbn [app] in *.
  - apply Forall_cons in Hp as [Hg Hp]. unfold add_group. rewrite bool_decide_eq_false_2 by done.
    destruct (existsb _ groups) eqn:Ee.
    { exfalso. apply existsb_exists in Ee as (g & Hin & E%str_eqb_eq). rewrite map_app in N.
      apply NoDup_app in N as (_ & N & _). apply (N (gr_id g)); [by apply list_elem_of_In, in_map|].
      rewrite E. left. }
    cbn [orb mbind res_bind]. rewrite IH by (by rewrite <- ?app_assoc). by rewrite <- !app_assoc.
  - cbn [mbind res_bind]. rewrite IH by done. by rewrite <- app_assoc.
Qed.

(** The library makes an item of every entry when each has a start, and throws
    otherwise. *)
Definition has_start (i : TimelineItem) : bool := match it_start i with Some _ => true | None => false end.

Lemma new_items_spec items :
  if forallb has_start items then res_map new_item items = Ok (map (fun i => (getType i, i)) items)
  else exists e, res_map new_item items = Throw e.
Proof.
  induction items as [|i l IH]; [done|]. cbn [forallb map res_map].
  assert (E : new_item i = if has_start i then Ok (getType i, i) else Throw (PlainError "Property start missing in item"))
    by (unfold new_item, has_start; by destruct (it_start i)).
  rewrite E. destruct (has_start i); cbn [andb mbind res_bind]; [|by eexists].
  destruct (forallb has_start l); [by rewrite IH|]. destruct IH as [e ->]. by exists e.
Qed.

(** A task that has started and ended its splits. *)
Definition task_ran (t : Task) : bool :=
  match ts_firstStartTime (t_stats t), ts_lastStartTime (t_stats t), ts_lastEndTime (t_stats t) with
  | Some _, Some _, Some _ => true
  | _, _, _ => false
  end.

Lemma items_start l : forallb has_start (flat_map task_items (map timeline_task l)) = forallb task_ran l.
Proof.
  induction l as [|t l IH]; [done|]. cbn [map flat_map forallb]. rewrite forallb_app, IH. f_equal.
  unfold task_ran, has_start. cbn.
  by destruct (ts_firstStartTime _), (ts_lastStartTime _), (ts_lastEndTime _).
Qed.

(** ** Task ids *)

(** A task with the id the server gives it. *)
Definition placed (query : jsstring) (p : place) (t : Task) : Prop := t_taskId t = id_of query p.

Definition attempt_text (p : place) : jsstring := dec p.1.2 ++ js "." ++ dec p.2.

Lemma substr_take s n : 0 <= n <= str_length s -> substr s 0 n = take (Z.to_nat n) s.
Proof.
  unfold substr, slice_pos, sub_list, str_length. intros Hn. cbn [Z.ltb Z.compare].
  replace (Z.min 0 (Z.of_nat (length s))) with 0 by lia. rewrite drop_0. f_equal. lia.
Qed.

(** The text after the first point, and the text before it. *)
Lemma after_point a b : 46 ∉ a -> substring_from (a ++ 46 :: b) (indexOf (a ++ 46 :: b) "." + 1) = b.
Proof.
  intros Ha. change (js ".") with [46]. rewrite indexOf_unit by done.
  rewrite substring_from_drop by (unfold str_length; lia). unfold str_length.
  replace (Z.to_nat _) with (length a + 1)%nat by lia. by rewrite <- drop_drop, drop_app_length.
Qed.

Lemma split_at_point a b :
  46 ∉ a -> let s := a ++ 46 :: b in
  substr s 0 (indexOf s ".") = a /\ substr_from s (indexOf s "." + 1) = b.
Proof.
  intros Ha s. subst s. change (js ".") with [46]. rewrite indexOf_unit by done.
  assert (str_length (a ++ 46 :: b) = str_length a + 1 + str_length b)
    by (unfold str_length; rewrite length_app; cbn [length]; lia).
  split.
  - rewrite substr_take by (unfold str_length in *; lia). unfold str_length. rewrite Nat2Z.id. by rewrite take_app_length.
  - rewrite substr_from_drop by (unfold str_length in *; lia). unfold str_length.
    replace (Z.to_nat _) with (length a + 1)%nat by lia. by rewrite <- drop_drop, drop_app_length.
Qed.

Lemma placed_parts query p t :
  46 ∉ query -> good_place p -> placed query p t ->
  stage_part (timeline_task t) = dec p.1.1 /\ number_part (timeline_task t) = attempt_text p.
Proof.
  intros Hq (H1 & H2 & H3) Ht. unfold small in *.
  assert (E : tl_taskId (timeline_task t) = dec p.1.1 ++ 46 :: attempt_text p).
  { cbn [timeline_task tl_taskId]. rewrite Ht. by apply after_point. }
  unfold stage_part, number_part. rewrite E. apply split_at_point. apply dec_notin; [lia|done].
Qed.

(** ** Task numbers *)

Lemma trimStart_id s : Forall (fun c => is_space c = false) s -> trimStart s = s.
Proof. intros H. unfold trimStart. destruct H as [|c s Hc _]; [done|]. cbn [span]. by rewrite Hc. Qed.

Lemma trim_id s : Forall (fun c => is_space c = false) s -> trim s = s.
Proof.
  intros H. unfold trim, trimEnd. rewrite (trimStart_id s H), trimStart_id, reverse_involutive; [done|].
  by apply Forall_reverse.
Qed.

Definition numeral (c : Z) : Prop := is_digit c = true \/ c = 46.

(** A text of digits and points is no literal of another base. *)
Lemma string_to_number_decimal c s :
  is_digit c = true -> Forall numeral s -> string_to_number (c :: s) = decimal_literal (c :: s).
Proof.
  intros Hc Hs. unfold string_to_number. rewrite trim_id.
  - unfold is_digit in Hc. bools. rewrite (proj2 (Z.eqb_neq c 45)), (proj2 (Z.eqb_neq c 43)) by lia.
    case_match; [|done]. destruct Hs as [|x s Hx _]; [done|].
    assert (48 <= x <= 57 \/ x = 46) by (destruct Hx as [Hx|Hx]; [unfold is_digit in Hx; bools; lia|lia]).
    by rewrite !(proj2 (Z.eqb_neq x _)) by lia.
  - apply Forall_cons_2; [|apply (Forall_impl _ _ _ Hs); intros x [Hx| ->]]; auto using is_digit_not_space.
Qed.

(** The number of an attempt is read as a decimal fraction. *)
Lemma attempt_number p :
  good_place p ->
  let len := str_length (dec p.2) in
  string_to_number (attempt_text p) = of_decimal (p.1.2 * 10 ^ len + p.2) (- len) /\ 0 < len <= 16.
Proof.
  intros (_ & H2 & H3) len. unfold small in *. destruct (dec_spec p.1.2 ltac:(lia)) as (D1 & U1 & L1 & _).
  destruct (dec_spec p.2 ltac:(lia)) as (D2 & U2 & L2 & _ & B2 & _).
  unfold attempt_text. change (js "." ++ dec p.2) with (46 :: dec p.2).
  assert (Hlen : 0 < len <= 16).
  { unfold len, str_length. split; [lia|]. destruct (Z.le_gt_cases (Z.of_nat (length (dec p.2))) 16) as [|Hgt]; [done|].
    destruct (Z.eq_dec p.2 0) as [E0|]; [rewrite E0 in Hgt; vm_compute in Hgt; discriminate Hgt|].
    assert (10 ^ 16 <= 10 ^ (Z.of_nat (length (dec p.2)) - 1)) by (apply Z.pow_le_mono_r; lia). lia. }
  split; [|done].
  assert (Hd : forall s, digits s -> Forall numeral s) by (intros s Hs; apply (Forall_impl _ _ _ Hs); by left).
  destruct (dec p.1.2) as [|c e] eqn:Ee; [cbn in L1; lia|]. pose proof D1 as [Hc He]%Forall_cons. cbn [app].
  rewrite string_to_number_decimal; [|done|]; cycle 1.
  { apply Forall_app. split; [by apply Hd|]. apply Forall_cons_2; [by right|by apply Hd]. }
  unfold decimal_literal. rewrite (proj2 (str_eqb_neq _ _)); cycle 1.
  { intros E. injection E as E _. subst c. done. }
  change (c :: e ++ 46 :: dec p.2) with ((c :: e) ++ 46 :: dec p.2). rewrite span_digits by done.
  cbn [Z.eqb Pos.eqb]. rewrite <- (app_nil_r (dec p.2)) at 1. rewrite span_digits by done.
  cbn [app exponent_part]. change (c :: e ++ dec p.2) with ((c :: e) ++ dec p.2).
  rewrite undec_app, U1, U2. done.
Qed.

Lemma attempt_zero p :
  good_place p -> (string_to_number (attempt_text p) =f num 0) = (p.1.2 =? 0) && (p.2 =? 0).
Proof.
  intros Hp. destruct (attempt_number p Hp) as [-> Hl]. set (len := str_length _) in *. destruct Hp as (_ & H2 & H3).
  unfold small in *. assert (0 < 10 ^ len) by (apply Z.pow_pos_nonneg; lia).
  destruct (Z.eqb_spec p.1.2 0) as [->|]; [destruct (Z.eqb_spec p.2 0) as [->|]|]; cbn [andb].
  - unfold of_decimal. by rewrite (proj2 (Z.leb_gt 0 (- len))) by lia.
  - apply of_decimal_pos; lia.
  - apply of_decimal_pos; nia.
Qed.

(** A task of a query appears in the row of its stage: all its bars are in the
    group named by the number of the stage, in the subgroup named by its attempt
    and task number; and the group is created by task 0 of the first attempt and
    by no other task. *)
Theorem timeline_rows query p t :
  46 ∉ query -> good_place p -> placed query p t ->
  map (fun i => (it_group i, it_subgroup i)) (task_items (timeline_task t)) =
    replicate 4 (dec p.1.1, attempt_text p) /\
  task_groups (timeline_task t) =
    if (p.1.2 =? 0) && (p.2 =? 0) then [mkTimelineGroup (dec p.1.1) (dec p.1.1) (dec p.1.1) "sort"] else [].
Proof.
  intros Hq Hp Ht. destruct (placed_parts query p t Hq Hp Ht) as [E1 E2].
  unfold task_items, task_groups, task_group. cbn [map it_group it_subgroup]. rewrite E1, E2, attempt_zero by done. done.
Qed.

Lemma timeline_rows_witness :
  task_groups (timeline_task (demo_task "q.1.0.0" "" "RUNNING")) = [mkTimelineGroup "1" "1" "1" "sort"].
Proof.
  refine (proj2 (timeline_rows "q" (1, 0, 0) (demo_task "q.1.0.0" "" "RUNNING") _ _ _)).
  - apply (bool_decide_unpack _). vm_compute. exact I.
  - repeat split; cbn; lia.
  - vm_compute. reflexivity.
Defined.

(** ** The whole timeline *)

(** The places of the tasks, in their first attempt, with a task 0 in every
    stage. *)
Definition numbered (query : jsstring) (ps : list place) (tasks : list Task) : Prop :=
  Forall2 (fun p t => good_place p /\ p.1.2 = 0 /\ placed query p t) ps tasks /\ NoDup ps /\
  forall p, p ∈ ps -> (p.1.1, 0, 0) ∈ ps.

(** The places of the tasks numbered 0. *)
Definition firsts (ps : list place) : list place := List.filter (fun p => p.2 =? 0) ps.

Lemma numbered_groups query ps tasks :
  46 ∉ query -> Forall2 (fun p t => good_place p /\ p.1.2 = 0 /\ placed query p t) ps tasks ->
  map gr_id (flat_map task_groups (map timeline_task tasks)) = map (fun p => dec p.1.1) (firsts ps).
Proof.
  intros Hq. induction 1 as [|p t ps tasks (Hg & Ha & Ht) _ IH]; [done|]. unfold firsts.
  cbn [map flat_map List.filter]. rewrite map_app, IH.
  destruct (placed_parts query p t Hq Hg Ht) as [E1 E2]. unfold task_groups, task_group.
  rewrite E1, E2, attempt_zero by done. rewrite Ha, Z.eqb_refl. by destruct (p.2 =? 0).
Qed.

Lemma firsts_nodup ps :
  Forall (fun p : place => good_place p /\ p.1.2 = 0) ps -> NoDup ps -> NoDup (map (fun p => dec p.1.1) (firsts ps)).
Proof.
  intros Hg N. induction N as [|p ps Hp N IH]; [constructor|]. apply Forall_cons in Hg as [[Hgp Hap] Hg].
  unfold firsts in *. cbn [List.filter]. destruct (Z.eqb_spec p.2 0) as [E|]; [|by apply IH].
  cbn [map]. constructor; [|by apply IH]. intros Hin.
  apply list_elem_of_In, in_map_iff in Hin as (p' & Ed & Hin). apply list_elem_of_In, list_filter_In in Hin as [Hin E'].
  rewrite Forall_forall in Hg. destruct (Hg p' Hin) as [Hgp' Hap']. destruct Hgp as [[? _] _], Hgp' as [[? _] _].
  apply dec_inj in Ed; [|done|done]. apply Hp. destruct p as [[a b] c], p' as [[a' b'] c']. cbn in *. bools. by subst.
Qed.

Lemma numeral_plain n : 0 <= n -> dec n ∉ object_prototype.
Proof.
  intros Hn Hin. pose proof (dec_digits n Hn) as Hd. pose proof (dec_nonempty n Hn) as Hne.
  assert (Hf : forallb (fun s => match s with c :: _ => negb (is_digit c) | [] => true end) object_prototype = true)
    by (vm_compute; reflexivity).
  rewrite forallb_forall in Hf. apply list_elem_of_In, Hf in Hin.
  destruct Hd as [|c s Hc _]; [done|]. by rewrite Hc in Hin.
Qed.

(** The tasks of the stage with the number [s], and the bars of a task: from each
    of its five times to the next. *)
Definition tasks_at (s : jsstring) (ps : list place) (tasks : list Task) : list Task :=
  map snd (List.filter (fun x => dec x.1.1.1 === s) (zip ps tasks)).

Definition bars (t : Task) : list (option jsstring * option jsstring) :=
  let st := t_stats t in
  let times := [Some (ts_createTime st); ts_firstStartTime st; ts_lastStartTime st; ts_lastEndTime st; ts_endTime st] in
  zip times (tail times).

Definition bar (i : ItemType * TimelineItem) : option jsstring * option jsstring := (it_start i.2, it_end i.2).

Lemma row_bars query ps tasks s :
  46 ∉ query -> Forall2 (fun p t => good_place p /\ p.1.2 = 0 /\ placed query p t) ps tasks ->
  map bar (List.filter (fun i => it_group i.2 === s)
    (map (fun i => (getType i, i)) (flat_map task_items (map timeline_task tasks)))) =
  flat_map bars (tasks_at s ps tasks).
Proof.
  intros Hq. induction 1 as [|p t ps tasks (Hg & _ & Ht) _ IH]; [done|]. unfold tasks_at in *.
  cbn [map flat_map zip zip_with List.filter fst]. rewrite map_app, List.filter_app, map_app, IH.
  destruct (placed_parts query p t Hq Hg Ht) as [E1 _].
  assert (E : map bar (List.filter (fun i => it_group i.2 === s) (map (fun i => (getType i, i)) (task_items (timeline_task t)))) =
              if dec p.1.1 === s then bars t else []).
  { unfold task_items. rewrite E1. cbn [map List.filter it_group snd]. by destruct (dec p.1.1 === s). }
  rewrite E. by destruct (dec p.1.1 === s).
Qed.

Lemma row_ids f groups : map (fun r : TimelineRow => gr_id r.1) (map (fun g => (g, f g)) groups) = map gr_id groups.
Proof. by rewrite map_map. Qed.


(** Two tasks of one stage; the second one has ended its last split at
    [lastEnd], if it has. *)
Definition demo_timed_task (id : jsstring) (lastEnd : option jsstring) : Task :=
  mkTask id "" "FINISHED" "node-1"
    (mkTaskStats (num 1) (num 1) (num 1) "10:00" (Some (js "10:01")) (Some (js "10:02")) lastEnd (Some (js "10:04"))
       false (num 0) (num 0) (num 0) (num 0) (num 0) (num 0) []) (num 0).
Definition demo_timed_stage (lastEnd : option jsstring) : Stage :=
  demo_stage "q.1" [demo_timed_task "q.1.0.0" (Some (js "10:03")); demo_timed_task "q.1.0.1" lastEnd] [].
Definition demo_timed_query (lastEnd : option jsstring) : Query :=
  mkQuery "q" "RUNNING" true "general" None None (Some sample_stats) (Some []) sample_session None "SELECT 1"
    (Some (demo_timed_stage lastEnd)) false None.


(** The number of a task is taken for a decimal fraction.  A stage that was
    started again has no group, so none of its bars is in a row; and the tasks
    of a stage are not ordered by their numbers: tasks 1 and 10 have the same
    place, and task 2 comes after task 10. *)
Theorem timeline_attempts_misread query stage l :
  46 ∉ query -> small stage ->
  Forall (fun t => exists e n, 0 < e /\ good_place (stage, e, n) /\ placed query (stage, e, n) t) l ->
  flat_map task_groups (map timeline_task l) = [] /\
  forall t1 t2 t10, placed query (stage, 0, 1) t1 -> placed query (stage, 0, 2) t2 -> placed query (stage, 0, 10) t10 ->
    map it_sort (task_items (timeline_task t1)) = map it_sort (task_items (timeline_task t10)) /\
    Forall2 (fun i j => (it_sort i <f it_sort j) = true) (task_items (timeline_task t2)) (task_items (timeline_task t10)).
Proof.
  intros Hq Hs Hl. split.
  - induction Hl as [|t l (e & n & He & Hp & Ht) _ IH]; [done|]. cbn [map flat_map]. rewrite IH, app_nil_r.
    destruct (placed_parts query _ t Hq Hp Ht) as [_ E]. unfold task_groups. rewrite E, attempt_zero by done.
    cbn [fst snd]. by rewrite (proj2 (Z.eqb_neq e 0)) by lia.
  - intros t1 t2 t10 H1 H2 H10. unfold task_items. cbn [map it_sort].
    assert (Hg : forall n, small n -> good_place (stage, 0, n)) by (intros n Hn; split; [done|]; split; [split; cbn; lia|done]).
    destruct (placed_parts query _ t1 Hq (Hg 1 ltac:(split; lia)) H1) as [_ ->].
    destruct (placed_parts query _ t2 Hq (Hg 2 ltac:(split; lia)) H2) as [_ ->].
    destruct (placed_parts query _ t10 Hq (Hg 10 ltac:(split; lia)) H10) as [_ ->].
    split; [vm_compute; reflexivity|]. repeat constructor; vm_compute; reflexivity.
Qed.

Lemma timeline_attempts_misread_witness :
  flat_map task_groups (map timeline_task [demo_task "q.1.1.0" "" "RUNNING"]) = [].
Proof.
  apply (timeline_attempts_misread "q" 1 [demo_task "q.1.1.0" "" "RUNNING"]).
  - apply (bool_decide_unpack _). vm_compute. exact I.
  - split; lia.
  - apply Forall_singleton. exists 1, 0. split; [lia|]. split; [repeat split; cbn; lia|]. vm_compute. reflexivity.
Defined.
