(* ===== verification/HeaderClicks.v ===== *)
(** * The header on the pages about one query

    The query page, the live plan and the stage page mount the header of the
    query they show.  What a user can click in it at a moment follows from the
    state of the page; every click sends a request for the query of the document
    that is shown, and the documents are those the server sent. *)

From S2P Require Import Prelude JsString JsNumber Data Utils UtilsFacts JsDate EventLoop React VDom.
From S2P Require Import QueryHeader TaskList QueryDetail QueryDetailFacts QueryPage QueryPageFacts.
From S2P Require Import LivePlan LivePlanFacts StageDetail StageDetailFacts.

(** ** What can be clicked *)

(** The handlers of the header of [query]. *)
Definition header_clicks (pathname : jsstring) (query : Query) : list HeaderEvent :=
  match QueryHeader.render pathname query with Ok n => events n | Throw _ => [] end.

(** The headers among the children of a page. *)
Definition qd_headers (c : QDChild) : list Query :=
  match c with QueryDetail.CQueryHeader q => [q] | CStageList _ => [] end.
Definition lp_headers (c : LPChild) : list Query := match c with LivePlan.CQueryHeader q => [q] end.
Definition sd_headers (c : SDChild) : list Query :=
  match c with StageDetail.CQueryHeader q => [q] | CStageOperatorGraph _ => [] end.

(** What the header of a mounted page offers. *)
Definition qd_clicks `{DateEnv} (pathname : jsstring) (i : QD) : list HeaderEvent :=
  if r_mounted (st i) then
    match QueryDetail.render (detail (r_state (st i))) with
    | Ok n => flat_map (header_clicks pathname) (flat_map qd_headers (mounts n))
    | Throw _ => []
    end
  else [].

Definition lp_clicks (pathname : jsstring) (isEmbedded : bool) (i : LP) : list HeaderEvent :=
  if r_mounted (st i) then
    flat_map (header_clicks pathname) (flat_map lp_headers (mounts (LivePlan.render isEmbedded (r_state (st i)))))
  else [].

Definition sd_clicks (pathname : jsstring) (i : SD) : list HeaderEvent :=
  if r_mounted (st i) then
    match StageDetail.render (r_state (st i)) with
    | Ok n => flat_map (header_clicks pathname) (flat_map sd_headers (mounts n))
    | Throw _ => []
    end
  else [].

(** ** The header of a page is that of its document *)

Lemma header_clicks_actions pathname q e : e ∈ header_clicks pathname q -> e ∈ header_actions q.
Proof.
  unfold header_clicks, QueryHeader.render. destruct (renderProgressBar q) as [bar|] eqn:E; [|by intros ?%elem_of_nil].
  cbn [mbind res_bind]. vdom. rewrite !renderTab_events. cbn. rewrite !app_nil_r.
  unfold renderProgressBar in E. unfold header_actions.
  destruct (getProgressBarPercentage q), (getQueryStateColor q), (getProgressBarTitle q); try discriminate E.
  cbn [mbind res_bind] in E. destruct (isQueryEnded q); injection E as <-; cbn; set_solver.
Qed.

(** The parts of the query page other than the header mount nothing but the list
    of stages. *)
Ltac ok_binds E :=
  repeat match type of E with
  | mbind _ ?r = _ => let Er := fresh "Er" in destruct r eqn:Er; [cbn [mbind res_bind] in E|discriminate E]
  end.

Lemma one_span t ns : Ok [property_span t] = Ok ns -> Forall inert ns.
Proof. intros [= <-]. repeat constructor. Qed.

Lemma properties_mounts q n : renderSessionProperties q = Ok n -> mounts n = [].
Proof.
  unfold renderSessionProperties. intros E. ok_binds E. injection E as <-.
  apply for_own_spans in Er; [|intros; by eapply one_span].
  apply for_own_spans in Er0; [|intros c o ns; apply for_own_spans; intros; by eapply one_span].
  apply spans_inert. by apply Forall_app.
Qed.

Lemma estimates_mounts q n : renderResourceEstimates q = Ok n -> mounts n = [].
Proof.
  unfold renderResourceEstimates. intros E. ok_binds E. injection E as <-.
  apply for_own_spans in Er; [|intros; by eapply one_span]. by apply spans_inert.
Qed.

Lemma session_mounts q n : session_table q = Ok n -> mounts n = [].
Proof.
  unfold session_table. cbv zeta. intros E. ok_binds E. injection E as <-.
  apply properties_mounts in Er. apply estimates_mounts in Er0. unfold table_of, info_row, row. vdom. rewrite Er, Er0.
  repeat match goal with |- context [opt_txt ?o] => destruct (opt_txt_inert o) as (_ & _ & ->) end. done.
Qed.

Lemma timeline_mounts s n : timeline_table s = Ok n -> mounts n = [].
Proof. unfold timeline_table. intros E. ok_binds E. by injection E as <-. Qed.

Lemma warnings_mounts q n : renderWarningInfo q = Ok n -> mounts n = [].
Proof.
  unfold renderWarningInfo. intros E. destruct (q_warnings q) as [l|] eqn:El; [|discriminate E].
  destruct (renderWarningInfo_ok q l El) as (n' & E' & _ & _ & Hm). unfold renderWarningInfo in E'. rewrite El in E'. congruence.
Qed.

Lemma failure_mounts q n : renderFailureInfo q = Ok n -> mounts n = [].
Proof.
  unfold renderFailureInfo. destruct (q_failureInfo q); intros E; [|by injection E as <-].
  ok_binds E. injection E as <-. unfold info_row, row. vdom. by destruct (opt_txt_inert (q_errorType q)) as (_ & _ & ->).
Qed.

Lemma qd_header_query `{DateEnv} d n q :
  QueryDetail.render d = Ok n -> q ∈ flat_map qd_headers (mounts n) -> QueryDetail.query d = Some q.
Proof.
  unfold QueryDetail.render. destruct (QueryDetail.query d) as [q'|]; [destruct (QueryDetail.initialized d)|]; intros E Hq.
  - ok_binds E. injection E as <-. revert Hq.
    match goal with Hr : resource_table _ ?stats = Ok _ |- _ =>
      destruct (resource_table_ok q' stats) as (r & Hr' & _ & _ & Hm); rewrite Hr in Hr'; injection Hr' as ->;
      destruct (execution_table_ok q' stats) as (_ & _ & Hx) end. vdom.
    apply session_mounts in Er as ->. apply timeline_mounts in Er2 as ->. apply warnings_mounts in Er3 as ->.
    apply failure_mounts in Er4 as ->. rewrite Hm, Hx.
    cbn. rewrite list_elem_of_singleton. by intros ->.
  - injection E as <-. by apply elem_of_nil in Hq.
  - destruct (QueryDetail.initialized d); injection E as <-; by apply elem_of_nil in Hq.
Qed.

Lemma lp_header_query isEmbedded s q :
  q ∈ flat_map lp_headers (mounts (LivePlan.render isEmbedded s)) -> LivePlan.query s = Some q.
Proof.
  unfold LivePlan.render. destruct (LivePlan.query s) as [q'|], (LivePlan.initialized s); try by intros ?%elem_of_nil.
  destruct isEmbedded, (q_outputStage q'); cbn; try (by intros ?%elem_of_nil);
    rewrite list_elem_of_singleton; by intros ->.
Qed.

Lemma sd_header_query s n q :
  StageDetail.render s = Ok n -> q ∈ flat_map sd_headers (mounts n) -> StageDetail.query s = Some q.
Proof.
  unfold StageDetail.render. destruct (StageDetail.query s) as [q'|];
    [|by destruct (StageDetail.initialized s); intros [= <-] ?%elem_of_nil].
  destruct (q_outputStage q') as [root|]; [|by intros [= <-] ?%elem_of_nil]. intros E. ok_binds E.
  match type of E with match ?found with _ => _ end = _ => destruct found as [stage|] end; [|injection E as <-; by intros ?%elem_of_nil]. ok_binds E. injection E as <-.
  vdom. rewrite (proj2 (menu_parts _)). unfold operator_part.
  destruct (isQueryEnded q'); cbn; rewrite list_elem_of_singleton; by intros ->.
Qed.

(** ** The documents come from the server *)

(** A document that satisfies [ok], if there is one. *)
Definition vetted (ok : Query -> Prop) (o : option Query) : Prop := forall q, o = Some q -> ok q.

Section documents.
Variable ok : Query -> Prop.

Definition qd_vetted (a : QDAnswer) : Prop := vetted ok (option_map fst (an_document a)).
Definition lp_vetted (a : option Query * Canvas) : Prop := vetted ok a.1.
Definition sd_vetted (a : option Query) : Prop := vetted ok a.

Lemma qd_documents `{URLApi} `{DateEnv} pathname search i :
  qd_reachable pathname search qd_vetted i -> vetted ok (QueryDetail.query (detail (r_state (st i)))).
Proof.
  set (P := fun d => vetted ok (QueryDetail.query d)).
  assert (closed : forall d d', settled d d' -> P d -> P d') by by intros d d' (stages & t & -> & _).
  pose proof (settled_closed pathname P closed) as kept.
  apply (reachable_ind_inv _ _ _ _ _ (fun j => P (detail (r_state (st j))))); [done|].
  intros k k' _ IH Hs. inversion Hs as [? n [] l1 l2 Ht|? u a l1 l2 Ht Ha|? e]; subst.
  - by apply (timer_keeps (fun s => P (detail s))).
  - apply (answer_keeps pathname (fun s => P (detail s))); [done| |done|done|done].
    intros q stats t s E _ _ q' [= <-]. apply Ha. by rewrite E.
  - by apply (event_keeps_state pathname (fun s => P (detail s))).
Qed.

Lemma lp_documents pathname queryId isEmbedded i :
  reachable (lp_timer queryId) (lp_answer pathname isEmbedded) lp_event lp_vetted
    (LivePlan.componentDidMount queryId (mount (new_root lp_init))) i ->
  vetted ok (LivePlan.query (r_state (st i))).
Proof.
  intros Hr.
  refine (proj1 (proj2 (page_ind pathname queryId isEmbedded _ (fun r => vetted ok (LivePlan.query (r_state r)))
    lp_vetted _ _ _ i Hr))); [done|done|].
  intros r a c r' Ha IH Hs. destruct Hs as [s a|s q g Hs|s q Hs|s g]; [done| | |]; cbn in *.
  - destruct (prepared_same (with_query q s)) as (-> & _). intros q' [= <-]. by apply Ha.
  - intros q' [= <-]. by apply Ha.
  - by destruct (prepared_same (lp_failed s)) as (-> & _).
Qed.

Lemma sd_documents pathname search i :
  reachable (sd_timer search) (sd_answer pathname) (sd_event pathname) sd_vetted
    (StageDetail.componentDidMount search (mount (new_root sd_init))) i ->
  vetted ok (StageDetail.query (r_state (st i))).
Proof.
  set (P := fun s => vetted ok (StageDetail.query s)).
  assert (kept : forall s s', StageDetail.commit pathname s = Ok s' -> P s -> P s')
    by by intros s s' (c & g & ->)%commit_fields.
  assert (reset : forall i : SD, P (r_state (st i)) -> P (r_state (st (StageDetail.resetTimer i)))).
  { intros j. unfold StageDetail.resetTimer. rewrite clear_st. by destruct (stop_refreshing _); cbn; rewrite ?clear_st. }
  apply (reachable_ind_inv _ _ _ _ _ (fun j : SD => P (r_state (st j)))); [done|].
  intros k k' _ IH Hs. destruct Hs as [k n [] l1 l2 Ht|k r [q|] l1 l2 Ht Ha|k [planId]].
  - cbn [sd_timer StageDetail.refreshLoop send st]. by rewrite clear_st.
  - apply (set_then_state P); [done| |done|done]. intros s _ q' [= <-]. by apply Ha.
  - by apply (set_then_state P).
  - cbn [sd_event]. unfold when_mounted. destruct (r_mounted (st k)); [|done]. by apply (set_then_state P).
Qed.

(** ** Every click concerns a document of the server *)

Lemma clicks_of pathname (qs : list Query) e :
  e ∈ flat_map (header_clicks pathname) qs -> exists q, q ∈ qs /\ e ∈ header_actions q.
Proof.
  intros (q & Hq & He)%list_elem_of_In%in_flat_map. exists q. rewrite list_elem_of_In. split; [done|].
  by apply (header_clicks_actions pathname), list_elem_of_In.
Qed.

Lemma qd_clicks_ok `{URLApi} `{DateEnv} pathname search i e :
  qd_reachable pathname search qd_vetted i -> e ∈ qd_clicks pathname i -> exists q, ok q /\ e ∈ header_actions q.
Proof.
  intros Hr%qd_documents. unfold qd_clicks. destruct (r_mounted (st i)); [|by intros ?%elem_of_nil].
  destruct (QueryDetail.render _) as [n|] eqn:E; [|by intros ?%elem_of_nil].
  intros (q & Hq & He)%clicks_of. exists q. split; [|done]. apply Hr. by eapply qd_header_query.
Qed.

Lemma lp_clicks_ok pathname queryId isEmbedded i e :
  reachable (lp_timer queryId) (lp_answer pathname isEmbedded) lp_event lp_vetted
    (LivePlan.componentDidMount queryId (mount (new_root lp_init))) i ->
  e ∈ lp_clicks pathname isEmbedded i -> exists q, ok q /\ e ∈ header_actions q.
Proof.
  intros Hr%lp_documents. unfold lp_clicks. destruct (r_mounted (st i)); [|by intros ?%elem_of_nil].
  intros (q & Hq & He)%clicks_of. exists q. split; [|done]. apply Hr. by eapply lp_header_query.
Qed.

Lemma sd_clicks_ok pathname search i e :
  reachable (sd_timer search) (sd_answer pathname) (sd_event pathname) sd_vetted
    (StageDetail.componentDidMount search (mount (new_root sd_init))) i ->
  e ∈ sd_clicks pathname i -> exists q, ok q /\ e ∈ header_actions q.
Proof.
  intros Hr%sd_documents. unfold sd_clicks. destruct (r_mounted (st i)); [|by intros ?%elem_of_nil].
  destruct (StageDetail.render _) as [n|] eqn:E; [|by intros ?%elem_of_nil].
  intros (q & Hq & He)%clicks_of. exists q. split; [|done]. apply Hr. by eapply sd_header_query.
Qed.
End documents.
