(* ===== verification/PollSpec.v ===== *)
(** * What polling promises

    The abstract behaviour of a component that polls: it asks the server, waits
    for the answer, then for its timer, and asks again, until it stops.  The
    polling components of the pages implement this behaviour: every run of one of
    them, with the answers and refreshes it takes part in, is a run of the
    specification. *)

From S2P Require Import Prelude JsString JsNumber Data Utils JsDate EventLoop React VDom.
From S2P Require Import QueryList QueryListPage QueryListPageFacts ClusterHUD PageTitle TaskList.
From S2P Require Import WorkerStatus QueryDetail QueryPage QueryPageFacts LivePlan LivePlanFacts StageDetail StageDetailFacts.

(** ** The specification *)

Inductive Phase :=
  | Asking     (** a request is under way *)
  | Waiting    (** the timer is armed *)
  | Stopped    (** nothing is pending: the end has been reached *)
  | Broken.    (** nothing is pending, because a callback threw *)

(** What the browser does for the component. *)
Inductive Act := Answered | Refreshed.

Inductive spec_step : Phase -> Act -> Phase -> Prop :=
  | spec_again : spec_step Asking Answered Waiting
  | spec_stop : spec_step Asking Answered Stopped
  | spec_break : spec_step Asking Answered Broken
  | spec_refresh : spec_step Waiting Refreshed Asking.

Inductive spec_run : list Act -> Phase -> Prop :=
  | spec_start : spec_run [] Asking
  | spec_next l p a p' : spec_run l p -> spec_step p a p' -> spec_run (l ++ [a]) p'.

(** Answers and refreshes alternate, whatever the component does in between. *)
Fixpoint alternating (a : Act) (l : list Act) : Prop :=
  match l with
  | [] => True
  | b :: l' => b = a /\ alternating (match a with Answered => Refreshed | Refreshed => Answered end) l'
  end.

(** The act the specification waits for, if any. *)
Definition expects (p : Phase) : option Act :=
  match p with Asking => Some Answered | Waiting => Some Refreshed | _ => None end.

Definition other (a : Act) : Act := match a with Answered => Refreshed | Refreshed => Answered end.

Lemma alternating_app a l b :
  alternating a (l ++ [b]) <-> alternating a l /\ b = Nat.iter (length l) other a.
Proof.
  revert a. induction l as [|c l IH]; intros a; cbn [app alternating length].
  - cbn. tauto.
  - rewrite IH, Nat.iter_succ_r. tauto.
Qed.

(** What the specification means: the first request is answered, then refreshes
    and answers alternate, and a stopped or broken component does nothing more. *)
Lemma spec_alternates l p :
  spec_run l p ->
  alternating Answered l /\ (forall a, expects p = Some a -> a = Nat.iter (length l) other Answered) /\
  (expects p = None -> forall a p', ~ spec_step p a p').
Proof.
  intros Hr. assert (Hend : expects p = None -> forall a p', ~ spec_step p a p') by (intros He a p' Hs; by destruct Hs).
  induction Hr as [|l p a p' Hr IH Hs]; [by split; [|split; [intros a [= <-]|]]|].
  destruct IH as (Ha & He & _); [intros Hn b q Hb; by destruct Hb|].
  assert (a = Nat.iter (length l) other Answered) as Ea by (apply He; by destruct Hs).
  split; [by apply alternating_app|]. split; [|done].
  intros b Hb. rewrite length_app. cbn [length]. rewrite Nat.add_1_r.
  change (b = other (Nat.iter (length l) other Answered)). rewrite <- Ea. destruct Hs; cbn in *; congruence.
Qed.

(** ** Runs of a component *)

Section runs.
Context {S T R Answer Event : Type} `{EqDecision T}.
Variables (k : T) (stopped : S -> bool).
Variables (on_timer : T -> Inst S T R -> Inst S T R) (on_answer : R -> Answer -> Inst S T R -> Inst S T R)
  (on_event : Event -> Inst S T R -> Inst S T R) (adm : Answer -> Prop).

(** The steps of the browser with the acts among them: a refresh is the timer
    [k]; other timers and what the user does are not seen. *)
Inductive run (i0 : Inst S T R) : list Act -> Inst S T R -> Prop :=
  | run_mount : run i0 [] i0
  | run_timer l i n k' l1 l2 :
      run i0 l i -> timers i = l1 ++ (n, k') :: l2 ->
      run i0 (l ++ if bool_decide (k' = k) then [Refreshed] else [])
        (on_timer k' (mkInst (st i) (ids i) (l1 ++ l2) (next_id i) (inflight i) (console i)))
  | run_answer l i r a l1 l2 :
      run i0 l i -> inflight i = l1 ++ r :: l2 -> adm a ->
      run i0 (l ++ [Answered])
        (on_answer r a (mkInst (st i) (ids i) (timers i) (next_id i) (l1 ++ l2) (console i)))
  | run_event l i e : run i0 l i -> run i0 l (on_event e i).

(** Runs are the ways in which states are reached. *)
Lemma run_reachable i0 i : (exists l, run i0 l i) <-> reachable on_timer on_answer on_event adm i0 i.
Proof.
  split.
  - intros [l Hr]. induction Hr as [|l i n k' l1 l2 _ IH Ht|l i r a l1 l2 _ IH Ht Ha|l i e _ IH];
      [apply rtc_refl|eapply rtc_r; [exact IH|]..]; [by apply step_timer with n|by apply step_answer|apply step_event].
  - revert i. apply reachable_ind_inv; [exists []; constructor|].
    intros i i' _ [l Hl] Hs. destruct Hs as [i n k' l1 l2 Ht|i r a l1 l2 Ht Ha|i e]; eexists;
      [by apply (run_timer _ l i n)|by apply (run_answer _ l i)|by apply (run_event _ l i)].
Qed.

Definition phase_of (i : Inst S T R) : Phase :=
  if (0 <? length (inflight i))%nat then Asking
  else if (0 <? armed k i)%nat then Waiting
  else if stopped (st i) then Stopped else Broken.

(** What a callback leaves as it was: everything that the phase depends on. *)
Definition keeps (i j : Inst S T R) : Prop :=
  armed k j = armed k i /\ inflight j = inflight i /\ stopped (st j) = stopped (st i).

Lemma keeps_phase i j : keeps i j -> phase_of j = phase_of i.
Proof. unfold phase_of. by intros (-> & -> & ->). Qed.

(** A component that polls and keeps its promises: only the refresh timer asks. *)
Class Refresher : Prop := {
  refresher_polls :: Poller k stopped on_timer on_answer on_event;
  refresh_asks : forall i, inflight (on_timer k i) <> [];
  other_keeps : forall k' i, timers_ok i -> k' <> k -> keeps i (on_timer k' i);
  answer_sends : forall r a i, inflight (on_answer r a i) = inflight i;
  event_keeps : forall e i, timers_ok i -> keeps i (on_event e i)
}.

Lemma polls_phase i : polls k stopped i -> phase_of i = Broken -> console i <> [].
Proof.
  intros (_ & _ & _ & H1) Hp Hc. unfold phase_of in Hp.
  destruct (0 <? length _)%nat eqn:E1; [done|]. destruct (0 <? armed k i)%nat eqn:E2; [done|].
  destruct (stopped (st i)) eqn:E3; [done|]. specialize (H1 Hc eq_refl). unfold pending in H1.
  apply Nat.ltb_ge in E1, E2. lia.
Qed.

Lemma run_polls `{!Refresher} i0 l i : polls k stopped i0 -> run i0 l i -> polls k stopped i.
Proof.
  intros H0 Hr. apply (poller_reachable k stopped on_timer on_answer on_event adm i0); [done|].
  apply run_reachable. by exists l.
Qed.

Lemma phase_asking i : inflight i <> [] -> phase_of i = Asking.
Proof. intros Hi. unfold phase_of. by destruct (inflight i). Qed.

Lemma phase_waiting i : polls k stopped i -> (0 < armed k i)%nat -> phase_of i = Waiting.
Proof.
  intros (_ & Hle & _) Ha. unfold phase_of, pending in *. destruct (inflight i); cbn in *; [|lia].
  by destruct (armed k i); [lia|].
Qed.

(** An answer that leaves nothing under way. *)
Lemma phase_answered i : inflight i = [] -> spec_step Asking Answered (phase_of i).
Proof. intros Hi. unfold phase_of. rewrite Hi. cbn. case_match; [constructor|]. destruct (stopped _); constructor. Qed.

Lemma fired_keeps i n k' l1 l2 :
  timers i = l1 ++ (n, k') :: l2 -> k' <> k ->
  keeps i (mkInst (st i) (ids i) (l1 ++ l2) (next_id i) (inflight i) (console i)).
Proof.
  intros Ht Hk. pose proof (armed_fired k n k' i l1 l2 Ht) as Hf. rewrite bool_decide_eq_false_2 in Hf by done.
  split; [|done]. lia.
Qed.

(** The refinement: every run of a component that keeps its promises is a run of
    the specification. *)
Lemma refresher_refines `{!Refresher} i0 l i :
  polls k stopped i0 -> inflight i0 <> [] -> run i0 l i -> spec_run l (phase_of i).
Proof.
  intros Hp0 H0 Hr. induction Hr as [|l i n k' l1 l2 Hr IH Ht|l i r a l1 l2 Hr IH Ht Ha|l i e Hr IH].
  - rewrite phase_asking by done. constructor.
  - pose proof (run_polls _ _ _ Hp0 Hr) as Hp. pose proof Hp as (Hok & _). case_bool_decide as Hk.
    + subst k'. eapply spec_next; [exact IH|]. rewrite (phase_asking (on_timer _ _)) by apply refresh_asks.
      rewrite phase_waiting; [constructor|done|]. rewrite (armed_fired k n k i l1 l2 Ht), bool_decide_eq_true_2 by done. lia.
    + rewrite app_nil_r, (keeps_phase _ _ (other_keeps k' _ (fired_ok _ _ _ _ _ Ht Hok) Hk)).
      by rewrite (keeps_phase _ _ (fired_keeps i n k' l1 l2 Ht Hk)).
  - pose proof (run_polls _ _ _ Hp0 Hr) as (_ & Hle & _). eapply spec_next; [exact IH|].
    rewrite phase_asking by (rewrite Ht; by destruct l1). apply phase_answered. rewrite answer_sends. cbn.
    unfold pending in Hle. rewrite Ht in Hle. apply no_other_request in Hle. destruct (l1 ++ l2); [done|cbn in Hle; lia].
  - pose proof (run_polls _ _ _ Hp0 Hr) as (Hok & _). by rewrite (keeps_phase i (on_event e i) (event_keeps e i Hok)).
Qed.

(** The browser can always do what the specification waits for. *)
Lemma run_progress i0 l i a0 a :
  adm a0 -> run i0 l i -> expects (phase_of i) = Some a -> exists i', run i0 (l ++ [a]) i'.
Proof.
  intros Ha0 Hr. unfold phase_of. destruct (inflight i) as [|r rs] eqn:Hi; cbn [length Nat.ltb Nat.leb].
  - unfold armed. destruct (List.filter _ _) as [|[n k'] ts] eqn:Hf; cbn; [by destruct (stopped _)|].
    intros [= <-]. assert (Hin : (n, k') ∈ (n, k') :: ts) by left. rewrite <- Hf in Hin.
    apply list_filter_In in Hin as [Hin Hk]. apply bool_decide_eq_true in Hk. cbn in Hk. subst k'.
    apply list_elem_of_split in Hin as (l1 & l2 & Ht). eexists.
    pose proof (run_timer i0 l i n k l1 l2 Hr Ht) as H. rewrite bool_decide_eq_true_2 in H by done. exact H.
  - intros [= <-]. eexists. exact (run_answer i0 l i r a0 [] rs Hr Hi Ha0).
Qed.
End runs.

(** A component refines the specification: its runs are runs of it, it is broken
    only when an exception has been reported, and what the specification waits
    for can happen. *)
Definition refines {S T R Answer Event : Type} `{EqDecision T} (k : T) (stopped : S -> bool)
    (on_timer : T -> Inst S T R -> Inst S T R) (on_answer : R -> Answer -> Inst S T R -> Inst S T R)
    (on_event : Event -> Inst S T R -> Inst S T R) (adm : Answer -> Prop) (i0 : Inst S T R) : Prop :=
  forall l i, run k on_timer on_answer on_event adm i0 l i ->
    spec_run l (phase_of k stopped i) /\ (phase_of k stopped i = Broken -> console i <> []) /\
    (forall a, expects (phase_of k stopped i) = Some a ->
       exists i', run k on_timer on_answer on_event adm i0 (l ++ [a]) i').

(** A component that has just been mounted and asks. *)
Lemma mounted_refines {S T R Answer Event : Type} `{EqDecision T} (k : T) (stopped : S -> bool)
    (on_timer : T -> Inst S T R -> Inst S T R) (on_answer : R -> Answer -> Inst S T R -> Inst S T R)
    (on_event : Event -> Inst S T R -> Inst S T R) (adm : Answer -> Prop) j r a0 :
  adm a0 -> Refresher k stopped on_timer on_answer on_event -> idle k j -> stopped (st j) = false ->
  refines k stopped on_timer on_answer on_event adm (send r j).
Proof.
  intros Ha0 HR Hj Hs l i Hr. assert (H0 : polls k stopped (send r j)) by by apply polls_send.
  split; [by eapply refresher_refines|]. split; [apply polls_phase; by eapply run_polls|].
  intros a. by apply (run_progress k stopped on_timer on_answer on_event adm _ l i a0).
Qed.

(** ** The components *)

Lemma inflight_arm {S T R} `{EqDecision T} (k : T) (i : Inst S T R) : inflight (arm k i) = inflight i.
Proof. reflexivity. Qed.
Lemma inflight_setState {S T R} f (i : Inst S T R) : inflight (setState f i) = inflight i.
Proof. reflexivity. Qed.
Lemma inflight_report {S T R} e (i : Inst S T R) : inflight (report e i) = inflight i.
Proof. reflexivity. Qed.

(** Updates do not touch the requests. *)
Lemma inflight_set_then {S T R} commit f k (i : Inst (Root S) T R) :
  (forall i, inflight (k i) = inflight i) -> inflight (set_then commit f k i) = inflight i.
Proof. intros Hk. unfold set_then. destruct (update_root _ _ _) as [r [e|]]; [done|]. by rewrite Hk. Qed.

(** A handler that sets something else than the end of the polling. *)
Lemma keeps_set_then {S T R} `{EqDecision T} (k : T) (stopped : S -> bool) commit f (i : Inst (Root S) T R) :
  (forall s s', commit s = Ok s' -> stopped s' = stopped s) -> (forall s, stopped (f s) = stopped s) ->
  keeps k (fun r => stopped (r_state r)) i (set_then commit f id i).
Proof.
  intros Hc Hf. unfold set_then. pose proof (update_field stopped commit f (st i) Hc Hf) as E.
  by destruct (update_root _ _ _) as [r [e|]].
Qed.

(** Callbacks that send nothing, by cases on their tests. *)
Ltac no_request :=
  repeat first
    [ progress rewrite ?inflight_arm, ?inflight_setState, ?inflight_report, ?clear_inflight
    | done
    | case_match; subst; cbn [attempt] ].

#[export] Instance title_refresher : Refresher tt title_stopped title_timer title_answer title_event.
Proof.
  split; [apply _|done|by intros [] i _ Hne| |by intros []].
  intros r a i. unfold title_answer, PageTitle.resetTimer. no_request.
Qed.

#[export] Instance hud_refresher : Refresher tt hud_stopped hud_timer hud_answer hud_event.
Proof.
  split; [apply _|done|by intros [] i _ Hne| |by intros []].
  intros r a i. unfold hud_answer, ClusterHUD.resetTimer. no_request.
Qed.

#[export] Instance ws_refresher search : Refresher tt ws_stopped (ws_timer search) ws_answer ws_event.
Proof.
  split; [apply _|done|by intros [] i _ Hne| |by intros []].
  intros r [info|] i; apply inflight_set_then; intros j; unfold WorkerStatus.resetTimer; no_request.
Qed.

#[export] Instance qd_refresher `{URLApi} `{DateEnv} pathname search :
  Refresher tt qd_stopped (qd_timer search) (qd_answer pathname) (qd_event pathname).
Proof.
  split; [apply _|done|by intros [] i _ Hne| |].
  - assert (Hreset : forall i, inflight (QueryPage.resetTimer i) = inflight i)
      by (intros i; unfold QueryPage.resetTimer; no_request).
    intros r a i. unfold qd_answer, attempt. repeat case_match; try (apply inflight_set_then; intros j); try done.
    destruct (rate_interval _ _ _ _); [by apply inflight_set_then|done].
  - intros [e k] i _. unfold qd_event, when_mounted. destruct (r_mounted (st i)); [|done].
    destruct (offered _ _); [|done].
    assert (He : forall scope f,
      (forall s, QueryPage.stop_refreshing (detail (f s)) = QueryPage.stop_refreshing (detail s)) ->
      keeps tt qd_stopped i (set_then (commit_at pathname scope k) f id i)).
    { intros scope f. apply (keeps_set_then tt (fun s => QueryPage.stop_refreshing (detail s))), commit_stop. }
    destruct e as [[]|id e]; cbn [fst snd]; [|by apply He].
    unfold handleStageRefreshClick, attempt. repeat case_match; try done; by apply He.
Qed.

#[export] Instance lp_refresher pathname queryId isEmbedded :
  Refresher tt lp_stopped (lp_timer queryId) (lp_answer pathname isEmbedded) lp_event.
Proof.
  split; [apply _|done|by intros [] i _ Hne| |by intros []].
  assert (Hreset : forall i, inflight (LivePlan.resetTimer i) = inflight i)
    by (intros i; unfold LivePlan.resetTimer; no_request).
  intros r [[q|] c] i; unfold lp_answer, lp_rejected; [|by apply inflight_set_then].
  destruct (update_root _ _ _) as [r' [e|]]; [by rewrite inflight_set_then|by rewrite Hreset].
Qed.

#[export] Instance sd_refresher pathname search :
  Refresher tt sd_stopped (sd_timer search) (sd_answer pathname) (sd_event pathname).
Proof.
  split; [apply _|done|by intros [] i _ Hne| |].
  - intros r [q|] i; unfold sd_answer; apply inflight_set_then; intros j; unfold StageDetail.resetTimer; no_request.
  - intros [p] i _. unfold sd_event, when_mounted. destruct (r_mounted (st i)); [|done].
    apply (keeps_set_then tt StageDetail.stop_refreshing); [|done]. by intros s s' (c & g & ->)%commit_fields.
Qed.

Section pages.
Context {urls : URLApi} `{DateEnv} `{LowerCase}.

#[export] Instance ql_refresher : Refresher Refresh ql_stopped ql_timer ql_answer ql_event.
Proof.
  assert (Hset : forall f (i : QL), keeps Refresh ql_stopped i (set_then QueryListPage.commit f id i))
    by (intros f i; by apply (keeps_set_then Refresh (fun _ => false))).
  split; [apply _|done| | |].
  - intros [] i Hok Hne; [done|]. unfold ql_timer, executeSearch, attempt.
    assert (Hc : keeps Refresh ql_stopped i (clear Search i))
      by (split; [exact (armed_clear_ne Refresh Search i Hok Hne)|]; by split; [apply clear_inflight|]).
    destruct (selected _ _) as [l|e]; [|exact Hc].
    destruct Hc as (H1 & H2 & _), (Hset (with_displayed l) (clear Search i)) as (H3 & H4 & _). split; [congruence|].
    by split; [congruence|].
  - intros r a i. unfold ql_answer, on_success, QueryListPage.on_error, attempt.
    repeat case_match; subst; try done; apply inflight_set_then; intros j; apply clear_inflight.
  - intros e i Hok. unfold ql_event, when_mounted. destruct (r_mounted (st i)); [|done].
    unfold handleSearchStringChange, handleMaxQueriesClick, handleReorderClick,
      handleSortClick, handleStateFilterClick, handleErrorTypeFilterClick, attempt.
    destruct e; repeat case_match; try done; try apply Hset.
    destruct (Hset (with_search newSearchString) (arm Search (clear Search i))) as (H1 & H2 & _).
    split; [|by split; [rewrite H2; apply clear_inflight|]]. rewrite H1, armed_arm_ne by done. by apply armed_clear_ne.
Qed.

(** C2: Every component that polls does what polling promises: it asks the server,
    waits for the answer, then for its timer, and asks again, strictly in this
    order, until it has stopped or one of its callbacks has thrown, and then it
    does nothing more.  Whatever the answers, other timers and the user do, the
    answers and refreshes of every run are those of a run of the specification. *)
Theorem polling_refined pathname search queryId isEmbedded now1 now2 :
  refines tt title_stopped title_timer title_answer title_event (fun _ => True)
    (PageTitle.componentDidMount (mount (title_init now1, []))) /\
  refines tt hud_stopped hud_timer hud_answer hud_event (fun _ => True)
    (ClusterHUD.componentDidMount (mount (hud_init, []))) /\
  refines Refresh ql_stopped ql_timer ql_answer ql_event (fun _ => True) (ql_start now1 now2) /\
  refines tt qd_stopped (qd_timer search) (qd_answer pathname) (qd_event pathname) (fun _ => True)
    (QueryPage.componentDidMount search (mount (new_root page_init))) /\
  refines tt lp_stopped (lp_timer queryId) (lp_answer pathname isEmbedded) lp_event (fun _ => True)
    (LivePlan.componentDidMount queryId (mount (new_root lp_init))) /\
  refines tt sd_stopped (sd_timer search) (sd_answer pathname) (sd_event pathname) (fun _ => True)
    (StageDetail.componentDidMount search (mount (new_root sd_init))) /\
  refines tt ws_stopped (ws_timer search) ws_answer ws_event (fun _ => True)
    (WorkerStatus.componentDidMount search (mount (new_root ws_init))).
Proof.
  assert (Hidle : forall S T R `{EqDecision T} (k : T) (s : S), idle k (mount (T := T) (R := R) s))
    by (intros; split; [apply mount_ok|done]).
  assert (c : Canvas) by exact (mkCanvas [] [] (num 0) (num 0)).
  assert (k : Clock) by exact (mkClock (0, 0) (fun _ => (0, 0)) 0).
  split; [apply (mounted_refines _ _ _ _ _ _ _ _ (Rejected [] 0))|]; [done|apply _|by auto with poll|done|].
  split; [apply (mounted_refines _ _ _ _ _ _ _ _ None)|]; [done|apply _|by auto with poll|done|].
  split; [apply (mounted_refines _ _ _ _ _ _ _ _ None)|]; [done|apply _|by auto with poll|done|].
  split; [apply (mounted_refines _ _ _ _ _ _ _ _ (mkQDAnswer None (k, []) (k, [])))|]; [done|apply _|by auto with poll|done|].
  split; [apply (mounted_refines _ _ _ _ _ _ _ _ (None, c))|]; [done|apply _|by auto with poll|done|].
  split; [apply (mounted_refines _ _ _ _ _ _ _ _ None)|]; [done|apply _|by auto with poll|done|].
  apply (mounted_refines _ _ _ _ _ _ _ _ None); [done|apply _|by auto with poll|done].
Qed.
End pages.

(** What the specification excludes: two answers in a row. *)
Example no_two_answers p : ~ spec_run [Answered; Answered] p.
Proof. intros (H & _)%spec_alternates. by destruct H as (_ & [=] & _). Qed.
