(* ===== verification/Pages.v ===== *)
(** * The pages of the web interface ([src/*.jsx] and the [*.html] files)

    An entry point mounts components into elements of its page; the components
    of a page run side by side in one event loop.  A mounted component is a
    transition system with its start states; a page interleaves them.  Every
    component counts its own timer ids: the browser never gives out an id twice
    and a component clears only ids it was given, so a shared counter would make
    no difference.  The header of a page about a query runs beside the component
    that mounts it: a click sends a command and nobody waits for its answer. *)

From S2P Require Import Prelude JsString JsNumber Data Utils UtilsFacts JsDate EventLoop React VDom.
From S2P Require Import QueryList QueryListFacts QueryListPage QueryListPageFacts ClusterHUD PageTitle QueryHeader WorkerThreadList TaskList.
From S2P Require Import WorkerStatus QueryDetail QueryPage QueryPageFacts LivePlan LivePlanFacts StageDetail StageDetailFacts.
From S2P Require Import Timeline HeaderClicks.

(** ** Entry points *)

(** The components that are mounted, with their props. *)
Inductive Mounted :=
  | CPageTitle (title : jsstring)
  | CClusterHUD
  | CQueryList
  | CQueryDetail
  | CLivePlan (queryId : jsstring) (isEmbedded : bool)
  | CStageDetail
  | CWorkerStatus
  | CWorkerThreadList.

Abbreviation Page := (list (string * Mounted)).

(** [ReactDOM.render(m, document.getElementById(id))], on a page whose elements
    have the ids [html]: without the element it throws. *)
Definition ReactDOM_render (html : list string) (m : Mounted) (id : string) (page : Page) : res Page :=
  if existsb (String.eqb id) html then Ok (page ++ [(id, m)])
  else Throw (TypeError "Target container is not a DOM element.").

Definition index_jsx (html : list string) : res Page :=
  page ← ReactDOM_render html (CPageTitle "Cluster Overview") "title" [];
  page ← ReactDOM_render html CClusterHUD "cluster-hud" page;
  ReactDOM_render html CQueryList "query-list" page.

Definition worker_jsx (html : list string) : res Page :=
  page ← ReactDOM_render html (CPageTitle "Worker Status") "title" [];
  page ← ReactDOM_render html CWorkerStatus "worker-status" page;
  ReactDOM_render html CWorkerThreadList "worker-threads" page.

Definition query_jsx (html : list string) : res Page :=
  page ← ReactDOM_render html (CPageTitle "Query Details") "title" [];
  ReactDOM_render html CQueryDetail "query-detail" page.

(** [search] is [window.location.search]. *)
Definition plan_jsx (search : jsstring) (html : list string) : res Page :=
  page ← ReactDOM_render html (CPageTitle "Query Details") "title" [];
  ReactDOM_render html (CLivePlan (getFirstParameter search) false) "live-plan-container" page.

Definition embedded_plan_jsx (search : jsstring) (html : list string) : res Page :=
  ReactDOM_render html (CLivePlan (getFirstParameter search) true) "live-plan-container" [].

Definition stage_jsx (html : list string) : res Page :=
  page ← ReactDOM_render html (CPageTitle "Query Details") "title" [];
  ReactDOM_render html CStageDetail "stage-performance-header" page.

(** The ids of the elements of the pages that load the entry points. *)
Definition index_html : list string :=
  ["title"; "cluster-hud"; "query-list-container"; "query-list-title"; "query-list"]%string.
Definition worker_html : list string := ["title"; "worker-status"; "worker-threads"]%string.
Definition query_html : list string := ["title"; "query-detail"]%string.
Definition plan_html : list string := ["title"; "live-plan-container"]%string.
Definition embedded_plan_html : list string := ["live-plan-container"]%string.
Definition stage_html : list string :=
  ["title"; "stage-performance-header"; "operator-canvas"; "operator-detail-modal"; "operator-detail"]%string.

(** ** Components as transition systems *)

(** What the stage page asks for: a stage may follow the query in the address. *)
Definition stage_query (search : jsstring) : jsstring := default [] (head (split 46 (getFirstParameter search))).

(** What is sent to the server. *)
Inductive Request := Get (url : jsstring) | Put (url data : jsstring).

Record Machine := mkMachine {
  m_state : Type;
  m_start : m_state -> Prop;
  m_step : m_state -> m_state -> Prop;
  m_pending : m_state -> nat;        (** refreshes pending *)
  m_stopped : m_state -> bool;       (** the end condition of its polling holds *)
  m_console : m_state -> list js_error;
  m_requests : m_state -> list Request   (** requests not answered yet, and the commands sent so far *)
}.

(** What a page relies on. *)
Class Polling (m : Machine) : Prop := {
  polling_reachable : forall s0 s, m_start m s0 -> rtc (m_step m) s0 s ->
    (m_pending m s <= 1)%nat /\
    (m_stopped m s = true -> m_pending m s = 0%nat) /\
    (m_console m s = [] -> m_stopped m s = false -> m_pending m s = 1%nat)
}.

Section machine.
Context {S T R Answer Event : Type} `{EqDecision T}.
Variables (k : T) (stopped : S -> bool) (start : Inst S T R -> Prop) (adm : Answer -> Prop)
  (on_timer : T -> Inst S T R -> Inst S T R) (on_answer : R -> Answer -> Inst S T R -> Inst S T R)
  (on_event : Event -> Inst S T R -> Inst S T R) (url : R -> jsstring).

Definition component : Machine :=
  mkMachine (Inst S T R) start (step on_timer on_answer on_event adm) (pending k)
    (fun i => stopped (st i)) console (fun i => map (fun r => Get (url r)) (inflight i)).

Lemma component_polling :
  Poller k stopped on_timer on_answer on_event ->
  (forall i, start i -> exists j, idle k j /\ stopped (st j) = false /\ exists r, i = send r j) -> Polling component.
Proof.
  intros Hp Hs. split. intros s0 s (j & Hj & Hst & r & ->)%Hs Hr.
  assert (H0 : polls k stopped (send r j)) by (apply polls_send; [done|done]).
  by destruct (poller_reachable k stopped _ _ _ adm _ s H0 Hr) as (_ & H1 & H2 & H3).
Qed.
End machine.

(** A component that mounts a header: what the header [offers] in a state can be
    clicked; the request is sent and the component goes on as it is. *)
Section header.
Variables (m : Machine) (offers : m_state m -> list HeaderEvent).

Inductive header_step : m_state m * list HeaderEvent -> m_state m * list HeaderEvent -> Prop :=
  | header_other s s' sent : m_step m s s' -> header_step (s, sent) (s', sent)
  | header_click s e sent : e ∈ offers s -> header_step (s, sent) (s, sent ++ [e]).

Definition ajax (e : HeaderEvent) : Request := let '(AjaxPut url data) := e in Put url data.

Definition with_header : Machine :=
  mkMachine (m_state m * list HeaderEvent) (fun s => m_start m s.1 /\ s.2 = []) header_step
    (fun s => m_pending m s.1) (fun s => m_stopped m s.1) (fun s => m_console m s.1)
    (fun s => m_requests m s.1 ++ map ajax s.2).

(** The component goes through its own states, and what was sent was offered in
    one of them. *)
Lemma header_reachable s0 s :
  m_start with_header s0 -> rtc header_step s0 s ->
  rtc (m_step m) s0.1 s.1 /\
  Forall (fun e => exists s', rtc (m_step m) s0.1 s' /\ e ∈ offers s') s.2.
Proof.
  intros [_ Hsent] Hr. revert s Hr. refine (rtc_ind_r _ s0 _ _).
  - rewrite Hsent. split; [apply rtc_refl|constructor].
  - intros y z _ Hyz [IH1 IH2]. destruct Hyz as [s s' sent Hs|s e sent He]; cbn in *.
    + split; [by eapply rtc_r|done].
    + split; [done|]. apply Forall_app. split; [done|]. apply Forall_singleton. eauto.
Qed.

Lemma with_header_polling : Polling m -> Polling with_header.
Proof.
  intros Hm. split. intros s0 s Hs Hr. destruct (header_reachable s0 s Hs Hr) as [Hr' _].
  exact (polling_reachable s0.1 s.1 (proj1 Hs) Hr').
Qed.
End header.

Section pages.
Context {urls : URLApi} `{DateEnv} `{LowerCase}.
(** The address of the page, and the fuel of the thread list's loop. *)
Variables (pathname search : jsstring) (fuel : nat).

(** The documents the server sends for an address. *)
Variable serves : jsstring -> Query -> Prop.

(** The server may answer anything that [serves] allows for a query, and the query
    list is given well-formed documents. *)
Definition machine (m : Mounted) : Machine :=
  match m with
  | CPageTitle _ =>
      component tt title_stopped (fun i => exists now, i = PageTitle.componentDidMount (mount (title_init now, [])))
        (fun _ => True) title_timer title_answer title_event id
  | CClusterHUD =>
      component tt hud_stopped (fun i => i = ClusterHUD.componentDidMount (mount (hud_init, [])))
        (fun _ => True) hud_timer hud_answer hud_event id
  | CQueryList =>
      component Refresh ql_stopped (fun i => exists now1 now2, i = ql_start now1 now2)
        good_answer ql_timer ql_answer ql_event id
  | CQueryDetail =>
      with_header
        (component tt qd_stopped (fun i => i = QueryPage.componentDidMount search (mount (new_root page_init)))
           (qd_vetted (serves (js "/v1/query/" ++ getFirstParameter search)))
           (qd_timer search) (qd_answer pathname) (qd_event pathname) id)
        (qd_clicks pathname)
  | CLivePlan queryId isEmbedded =>
      with_header
        (component tt lp_stopped (fun i => i = LivePlan.componentDidMount queryId (mount (new_root lp_init)))
           (lp_vetted (serves (js "/v1/query/" ++ queryId)))
           (lp_timer queryId) (lp_answer pathname isEmbedded) lp_event id)
        (lp_clicks pathname isEmbedded)
  | CStageDetail =>
      with_header
        (component tt sd_stopped (fun i => i = StageDetail.componentDidMount search (mount (new_root sd_init)))
           (sd_vetted (serves (js "/v1/query/" ++ stage_query search)))
           (sd_timer search) (sd_answer pathname) (sd_event pathname) rq_url)
        (sd_clicks pathname)
  | CWorkerStatus =>
      component tt ws_stopped (fun i => i = WorkerStatus.componentDidMount search (mount (new_root ws_init)))
        (fun _ => True) (ws_timer search) ws_answer ws_event id
  | CWorkerThreadList =>
      (* it never polls: a snapshot is requested by a click *)
      mkMachine WT (fun i => i = mount (new_root wt_init))
        (step (fun k : Empty_set => match k with end) (wt_answer fuel) (wt_event search) (fun _ => True))
        (fun i => length (timers i)) (fun _ => true) console (fun i => map Get (inflight i))
  end.

Lemma fresh_idle {S T R} `{EqDecision T} (k k' : T) (s : S) : idle k (clear k' (mount (R := R) s)).
Proof. apply idle_clear. split; [apply mount_ok|done]. Qed.

#[export] Instance machine_polling m : Polling (machine m).
Proof.
  destruct m; cbn [machine]; try apply with_header_polling;
    try (apply component_polling;
         [apply _|intros i Hi; repeat match type of Hi with ex _ => destruct Hi as [? Hi] end; subst i; eexists;
           split; [apply fresh_idle|]; split; [|eexists; reflexivity]; done]).
  split. intros s0 s E Hr. cbn in E, s |- *. subst s0.
  assert (Ht : timers s = []).
  { revert Hr. apply (reachable_ind_inv _ _ _ _ _ (fun i : WT => timers i = [])); [done|].
    assert (Hset : forall f (i : WT), timers i = [] -> timers (set_then WorkerThreadList.commit f id i) = [])
      by (intros f i Hi; unfold set_then; destruct (update_root _ _ _) as [r [e|]]; done).
    intros i i' _ Hi Hs. destruct Hs as [i n []|i r [[l time]|] l1 l2 _ _|i e]; cbn [wt_answer].
    - destruct (processThreads fuel l) as [[r'|e]|]; cbn [attempt]; [by apply Hset|done|done].
    - by apply Hset.
    - unfold wt_event, when_mounted. destruct (r_mounted (st i)); [|done]. destruct e; by apply Hset. }
  rewrite Ht. cbn. split; [lia|]. split; [done|congruence].
Qed.

(** ** Pages as transition systems *)

Definition Cell : Type := { m : Mounted & m_state (machine m) }.

Definition cell_start (m : Mounted) (c : Cell) : Prop :=
  projT1 c = m /\ m_start (machine (projT1 c)) (projT2 c).

Definition page_start (page : Page) (cells : list Cell) : Prop := Forall2 (fun e => cell_start e.2) page cells.

(** One component of the page makes a step. *)
Inductive page_step : list Cell -> list Cell -> Prop :=
  page_step_one l1 m s s' l2 :
    m_step (machine m) s s' -> page_step (l1 ++ existT m s :: l2) (l1 ++ existT m s' :: l2).

Definition page_reachable (page : Page) (cells : list Cell) : Prop :=
  exists cells0, page_start page cells0 /\ rtc page_step cells0 cells.

(** The component of a cell is in a state it can reach on its own. *)
Definition cell_reachable (m : Mounted) (c : Cell) : Prop :=
  projT1 c = m /\ exists s0, m_start (machine (projT1 c)) s0 /\ rtc (m_step (machine (projT1 c))) s0 (projT2 c).

Lemma cell_step n m (s s' : m_state (machine m)) :
  m_step (machine m) s s' -> cell_reachable n (existT m s) -> cell_reachable n (existT m s').
Proof.
  intros Hs (E & s0 & Hst & Hr). split; [done|]. exists s0. split; [done|]. cbn in *. by eapply rtc_r.
Qed.

(** The components of a page do not disturb each other. *)
Lemma page_components page cells :
  page_reachable page cells -> Forall2 (fun e => cell_reachable e.2) page cells.
Proof.
  intros (cells0 & Hst & Hr). revert Hr. revert cells. refine (rtc_ind_r _ cells0 _ _).
  - eapply Forall2_impl; [exact Hst|]. intros e c [E Hs]. split; [done|]. exists (projT2 c). split; [done|apply rtc_refl].
  - intros y z _ Hyz IH. destruct Hyz as [l1 m s s' l2 Hs].
    apply Forall2_app_inv_r in IH as (p1 & p2 & H1 & H2 & ->). apply Forall2_app; [done|].
    apply Forall2_cons_inv_r in H2 as (e & p2' & He & H2 & ->). constructor; [by eapply cell_step|done].
Qed.

Definition cell_pending (c : Cell) : nat := m_pending (machine (projT1 c)) (projT2 c).
Definition cell_stopped (c : Cell) : bool := m_stopped (machine (projT1 c)) (projT2 c).
Definition cell_console (c : Cell) : list js_error := m_console (machine (projT1 c)) (projT2 c).

Lemma cell_polls m c :
  cell_reachable m c ->
  (cell_pending c <= 1)%nat /\
  (cell_console c = [] -> cell_pending c = if cell_stopped c then 0%nat else 1%nat).
Proof.
  intros (_ & s0 & Hst & Hr). unfold cell_pending, cell_console, cell_stopped.
  destruct (polling_reachable s0 (projT2 c) Hst Hr) as (H1 & H2 & H3).
  split; [done|]. intros Hc. destruct (m_stopped _ _); auto.
Qed.

(** C11: Whatever its components are and however their callbacks interleave, a page
    has at most one refresh per component pending; as long as no callback has
    thrown, it has exactly one for each component that has not stopped.  So a
    page neither floods the server nor goes stale. *)
Theorem page_refreshes page cells :
  page_reachable page cells ->
  (sum_list (map cell_pending cells) <= length page)%nat /\
  (Forall (fun c => cell_console c = []) cells ->
   sum_list (map cell_pending cells) = length (List.filter (fun c => negb (cell_stopped c)) cells)).
Proof.
  intros Hp%page_components. induction Hp as [|e c page cells Hc _ [IH1 IH2]]; [done|].
  destruct (cell_polls _ _ Hc) as [H1 H2]. cbn [map sum_list length List.filter]. split; [cbn; lia|].
  intros Hcs. apply Forall_cons in Hcs as [Hc0 Hcs]. rewrite (H2 Hc0). cbn. rewrite (IH2 Hcs).
  by destruct (cell_stopped c).
Qed.

(** ** The overview page *)

(** A page with three components, seen through its cells. *)
Lemma three_cells id1 m1 id2 m2 id3 m3 cells :
  page_reachable [(id1, m1); (id2, m2); (id3, m3)] cells ->
  exists c1 c2 c3, cells = [c1; c2; c3] /\ cell_reachable m1 c1 /\ cell_reachable m2 c2 /\ cell_reachable m3 c3.
Proof.
  intros Hp%page_components.
  apply Forall2_cons_inv_l in Hp as (c1 & l & H1 & Hp & ->).
  apply Forall2_cons_inv_l in Hp as (c2 & l' & H2 & Hp & ->).
  apply Forall2_cons_inv_l in Hp as (c3 & l'' & H3 & Hp & ->).
  apply Forall2_nil_inv_l in Hp as ->. eauto 10.
Qed.

Lemma query_list_cell c :
  cell_reachable CQueryList c -> exists i, c = existT CQueryList i /\ ql_reachable good_answer i.
Proof.
  destruct c as [m i]. intros (E & s0 & Hst & Hr). cbn in E. subst m. exists i. split; [done|].
  destruct Hst as (now1 & now2 & Hst). exists now1, now2. cbn in *. subst s0. exact Hr.
Qed.

(** The overview page mounts the title, the cluster figures and the query list;
    whatever the server answers and the user does, in every state of the page the
    list shows no query twice and only queries of the last answer, and all three
    components keep refreshing, one request or timer each, while the title and
    the figures have not thrown. *)
Theorem overview_page :
  exists page, index_jsx index_html = Ok page /\
  forall cells, page_reachable page cells ->
    exists c1 c2 (i : QL), cells = [c1; c2; existT CQueryList i] /\
      NoDup (map q_queryId (displayedQueries (r_state (st i)))) /\
      (forall q, q ∈ displayedQueries (r_state (st i)) -> q ∈ allQueries (r_state (st i))) /\
      (cell_console c1 = [] -> cell_console c2 = [] -> map cell_pending cells = [1; 1; 1]%nat).
Proof.
  eexists. split; [reflexivity|]. intros cells Hr.
  destruct (three_cells _ _ _ _ _ _ _ Hr) as (c1 & c2 & c3 & -> & H1 & H2 & H3).
  destruct (query_list_cell c3 H3) as (i & -> & Hi). destruct (ql_reachable_inv _ Hi) as (_ & (_ & Hn & Hs) & Hc).
  exists c1, c2, i. split; [done|]. split; [done|]. split; [done|]. intros Hc1 Hc2.
  destruct (cell_polls _ _ H1) as [_ P1], (cell_polls _ _ H2) as [_ P2], (cell_polls _ _ H3) as [_ P3].
  cbn [map]. rewrite P1, P2, P3 by done.
  destruct c1 as [m1 s1], c2 as [m2 s2]. destruct H1 as [E1 _], H2 as [E2 _]. cbn in E1, E2. by subst m1 m2.
Qed.
End pages.

(** The entry points mount all their components on their own pages. *)
Theorem entry_points_mount search :
  map (fun r => match r with Ok page => Some (length page) | Throw _ => None end)
    [index_jsx index_html; worker_jsx worker_html; query_jsx query_html; plan_jsx search plan_html;
     embedded_plan_jsx search embedded_plan_html; stage_jsx stage_html] =
  [Some 3; Some 3; Some 2; Some 2; Some 1; Some 2]%nat.
Proof. reflexivity. Qed.

(** ** A page at work *)

#[local] Existing Instance http_urls.
#[local] Existing Instance utc_env.
#[local] Existing Instance ascii_lower.

Definition demo_page : Page :=
  [("title"%string, CPageTitle "Cluster Overview"); ("cluster-hud"%string, CClusterHUD);
   ("query-list"%string, CQueryList)].

(** The three components after their mounting, and after the query list's first
    request failed. *)
Definition demo_cells (i : QL) : list (Cell "/ui/" "" 0 (fun _ _ => True)) :=
  [existT (CPageTitle "Cluster Overview") (PageTitle.componentDidMount (mount (title_init 0, [])));
   existT CClusterHUD (ClusterHUD.componentDidMount (mount (hud_init, []))); existT CQueryList i].

Lemma demo_cells_reachable :
  page_reachable "/ui/" "" 0 (fun _ _ => True) demo_page (demo_cells (ql_answer (js "/v1/query") None (mount (new_root (ql_init 0 0))))).
Proof.
  exists (demo_cells (ql_start 0 0)). split.
  - repeat constructor; cbn; eauto.
  - apply rtc_once.
    apply (page_step_one "/ui/" "" 0 (fun _ _ => True) (take 2 (demo_cells (ql_start 0 0))) CQueryList (ql_start 0 0) _ []).
    by apply (step_answer ql_timer ql_answer ql_event good_answer (ql_start 0 0) _ None [] []).
Qed.

Lemma page_refreshes_witness :
  sum_list (map (cell_pending "/ui/" "" 0 (fun _ _ => True)) (demo_cells (ql_answer (js "/v1/query") None (mount (new_root (ql_init 0 0)))))) = 3%nat.
Proof.
  rewrite (proj2 (page_refreshes "/ui/" "" 0 (fun _ _ => True) demo_page _ demo_cells_reachable)); [reflexivity|].
  repeat constructor.
Defined.
