(* ===== verification/Links.v ===== *)
(** * Links between the pages

    What the pages send to the server, and where their links lead.  Every
    component asks for one address only, and the header of a query sends the
    commands to preempt and to kill it; the links of the query list, of the
    header of a query, of the worker page and of the task list open pages whose
    requests concern the query or the worker that the link stands for. *)

From S2P Require Import Prelude JsString JsNumber Data Utils UtilsFacts JsDate EventLoop React VDom.
From S2P Require Import QueryList QueryListView QueryListPage QueryListPageFacts ClusterHUD PageTitle QueryHeader WorkerThreadList.
From S2P Require Import WorkerStatus TaskList QueryDetail QueryDetailFacts QueryPage QueryPageFacts LivePlan LivePlanFacts StageDetail StageDetailFacts.
From S2P Require Import Timeline HeaderClicks PollSpec Pages.

(** ** Requests *)

(** A component whose callbacks send only requests that satisfy [P]. *)
Section asks.
Context {S T R Answer Event : Type} `{EqDecision T}.
Variable P : R -> Prop.

Class Asks (on_timer : T -> Inst S T R -> Inst S T R) (on_answer : R -> Answer -> Inst S T R -> Inst S T R)
    (on_event : Event -> Inst S T R -> Inst S T R) : Prop := {
  ask_timer : forall k i, Forall P (inflight i) -> Forall P (inflight (on_timer k i));
  ask_answer : forall r a i, Forall P (inflight i) -> Forall P (inflight (on_answer r a i));
  ask_event : forall e i, Forall P (inflight i) -> Forall P (inflight (on_event e i))
}.

Lemma asks_reachable on_timer on_answer on_event `{!Asks on_timer on_answer on_event} adm i0 i :
  Forall P (inflight i0) -> reachable on_timer on_answer on_event adm i0 i -> Forall P (inflight i).
Proof.
  intros H0. apply (reachable_ind_inv _ _ _ _ _ (fun i => Forall P (inflight i))); [done|].
  intros j j' _ IH Hs. destruct Hs as [j n k l1 l2 Ht|j r a l1 l2 Ht Ha|j e];
    [by apply ask_timer|apply ask_answer|by apply ask_event].
  rewrite Ht in IH. cbn. apply Forall_app in IH as [H1 H2]. apply Forall_cons in H2 as [_ H2].
  apply Forall_app. done.
Qed.

(** A request that is sent after the timers are cleared. *)
Lemma ask_send r k (i : Inst S T R) : P r -> Forall P (inflight i) -> Forall P (inflight (send r (clear k i))).
Proof. intros Hr Hi. cbn. constructor; [done|by rewrite clear_inflight]. Qed.
End asks.

(** Of a component that polls only the timer asks. *)
Lemma refresher_asks {S T R Answer Event : Type} `{EqDecision T} (P : R -> Prop) k (stopped : S -> bool)
    (on_timer : T -> Inst S T R -> Inst S T R) (on_answer : R -> Answer -> Inst S T R -> Inst S T R)
    (on_event : Event -> Inst S T R -> Inst S T R) :
  Refresher k stopped on_timer on_answer on_event ->
  (forall k' i, Forall P (inflight i) -> Forall P (inflight (on_timer k' i))) ->
  (forall e i, inflight (on_event e i) = inflight i) -> Asks P on_timer on_answer on_event.
Proof.
  intros HR Ht He. split; [done| |intros e i; by rewrite He].
  intros r a i. by rewrite (answer_sends k stopped on_timer on_answer on_event).
Qed.

#[export] Instance title_asks : Asks (eq (js "/v1/info")) title_timer title_answer title_event.
Proof. apply (refresher_asks _ _ _ _ _ _ title_refresher); [intros [] i; by apply ask_send|done]. Qed.

#[export] Instance hud_asks : Asks (eq (js "/v1/cluster")) hud_timer hud_answer hud_event.
Proof. apply (refresher_asks _ _ _ _ _ _ hud_refresher); [intros [] i; by apply ask_send|done]. Qed.

#[export] Instance qd_asks `{URLApi} `{DateEnv} pathname search :
  Asks (eq (js "/v1/query/" ++ getFirstParameter search)) (qd_timer search) (qd_answer pathname) (qd_event pathname).
Proof.
  apply (refresher_asks _ _ _ _ _ _ (qd_refresher pathname search)); [intros [] i; by apply ask_send|].
  intros [e k] i. unfold qd_event, when_mounted, handleStageRefreshClick, attempt.
  repeat case_match; subst; rewrite ?inflight_set_then; done.
Qed.

#[export] Instance ws_asks search :
  Asks (eq (js "/v1/worker/" ++ getFirstParameter search ++ js "/status")) (ws_timer search) ws_answer ws_event.
Proof. apply (refresher_asks _ _ _ _ _ _ (ws_refresher search)); [intros [] i; by apply ask_send|done]. Qed.

#[export] Instance lp_asks pathname queryId isEmbedded :
  Asks (eq (js "/v1/query/" ++ queryId)) (lp_timer queryId) (lp_answer pathname isEmbedded) lp_event.
Proof. apply (refresher_asks _ _ _ _ _ _ (lp_refresher _ _ _)); [intros [] i; by apply ask_send|done]. Qed.

#[export] Instance sd_asks pathname search :
  Asks (fun r => js "/v1/query/" ++ stage_query search = rq_url r)
    (sd_timer search) (sd_answer pathname) (sd_event pathname).
Proof.
  apply (refresher_asks _ _ _ _ _ _ (sd_refresher pathname search)); [intros [] i; by apply ask_send|].
  intros [planId] i. unfold sd_event, when_mounted. destruct (r_mounted _); [by apply inflight_set_then|done].
Qed.

#[export] Instance wt_asks fuel search :
  Asks (eq (js "/v1/worker/" ++ getFirstParameter search ++ js "/thread"))
    (fun k : Empty_set => match k with end) (wt_answer fuel) (wt_event search).
Proof.
  split; [done| |].
  - intros r a i Hi. unfold wt_answer, attempt. repeat case_match; subst; rewrite ?inflight_set_then; done.
  - intros e i Hi. unfold wt_event, when_mounted, handleGroupClick, handleThreadStateClick, handleNewSnapshotClick.
    destruct (r_mounted _), e; rewrite ?inflight_set_then by done; [done..| |done|done|done].
    by constructor.
Qed.

Section pages.
Context {urls : URLApi} `{DateEnv} `{LowerCase}.

#[export] Instance ql_asks : Asks (eq (js "/v1/query")) ql_timer ql_answer ql_event.
Proof.
  apply (refresher_asks _ _ _ _ _ _ ql_refresher).
  - intros [] i Hi; unfold ql_timer, QueryListPage.refreshLoop, executeSearch, attempt.
    + apply ask_send; [done|]. by rewrite clear_inflight.
    + destruct (selected _ _); rewrite ?inflight_set_then by done; by rewrite ?inflight_report, clear_inflight.
  - intros e i. unfold ql_event, when_mounted, handleSearchStringChange, handleMaxQueriesClick, handleReorderClick,
      handleSortClick, handleStateFilterClick, handleErrorTypeFilterClick, attempt.
    repeat case_match; subst; rewrite ?inflight_set_then by done; try done. apply clear_inflight.
Qed.

(** The address [window.location.pathname] and [search] of the page, and the
    documents of the server. *)
Variables (pathname search : jsstring) (fuel : nat) (serves : jsstring -> Query -> Prop).

(** The server answers for the query it is asked for. *)
Hypothesis serves_own : forall id q, serves (js "/v1/query/" ++ id) q -> q_queryId q = id.

(** The one address a component asks for. *)
Definition asks (m : Mounted) : jsstring :=
  match m with
  | CPageTitle _ => js "/v1/info"
  | CClusterHUD => js "/v1/cluster"
  | CQueryList => js "/v1/query"
  | CQueryDetail => js "/v1/query/" ++ getFirstParameter search
  | CLivePlan queryId _ => js "/v1/query/" ++ queryId
  | CStageDetail => js "/v1/query/" ++ stage_query search
  | CWorkerStatus => js "/v1/worker/" ++ getFirstParameter search ++ js "/status"
  | CWorkerThreadList => js "/v1/worker/" ++ getFirstParameter search ++ js "/thread"
  end.

(** The query whose header a component mounts, and the commands the header can
    send. *)
Definition shown_query (m : Mounted) : option jsstring :=
  match m with
  | CQueryDetail => Some (getFirstParameter search)
  | CLivePlan queryId _ => Some queryId
  | CStageDetail => Some (stage_query search)
  | _ => None
  end.

Definition commands (id : jsstring) : list Request :=
  [Put (js "/v1/query/" ++ id ++ js "/preempted") "Preempted via web UI";
   Put (js "/v1/query/" ++ id ++ js "/killed") "Killed via web UI"].

Lemma action_command q e : e ∈ header_actions q -> ajax e ∈ commands (q_queryId q).
Proof. unfold header_actions, commands. destruct (isQueryEnded q); cbn; [by intros ?%elem_of_nil|]. set_solver. Qed.

(** Everything a component may send. *)
Definition may_send (m : Mounted) : list Request :=
  Get (asks m) :: match shown_query m with Some id => commands id | None => [] end.

Abbreviation machine := (machine pathname search fuel serves).

(** What a component asks for, without its header. *)
Lemma component_asks {S T R Answer Event : Type} `{EqDecision T} (k : T) (stopped : S -> bool) start adm
    (on_timer : T -> Inst S T R -> Inst S T R) (on_answer : R -> Answer -> Inst S T R -> Inst S T R)
    (on_event : Event -> Inst S T R -> Inst S T R) url (address : jsstring) i0 i :
  Asks (fun r => address = url r) on_timer on_answer on_event -> Forall (fun r => address = url r) (inflight i0) ->
  rtc (m_step (component k stopped start adm on_timer on_answer on_event url)) i0 i ->
  Forall (eq (Get address)) (m_requests (component k stopped start adm on_timer on_answer on_event url) i).
Proof.
  intros Ha Hi Hr. pose proof (asks_reachable (fun r => address = url r) on_timer on_answer on_event adm i0 i Hi Hr) as HF.
  apply Forall_map. eapply Forall_impl; [exact HF|]. by intros r ->.
Qed.

Lemma header_sends m offers id s0 s (address : jsstring) :
  m_start (with_header m offers) s0 -> rtc (m_step (with_header m offers)) s0 s ->
  (forall s', rtc (m_step m) s0.1 s' -> Forall (eq (Get address)) (m_requests m s')) ->
  (forall s' e, rtc (m_step m) s0.1 s' -> e ∈ offers s' -> exists q, q_queryId q = id /\ e ∈ header_actions q) ->
  Forall (fun r => r ∈ Get address :: commands id) (m_requests (with_header m offers) s).
Proof.
  intros Hs Hr Hm Ho. destruct (header_reachable m offers s0 s Hs Hr) as [Hr' Hsent]. apply Forall_app. split.
  - eapply Forall_impl; [by apply Hm|]. intros r <-. left.
  - apply Forall_map. eapply Forall_impl; [exact Hsent|]. intros e (s' & Hs' & He).
    destruct (Ho s' e Hs' He) as (q & <- & Hq). right. by apply action_command.
Qed.

Lemma machine_sends m s0 s :
  m_start (machine m) s0 -> rtc (m_step (machine m)) s0 s -> Forall (fun r => r ∈ may_send m) (m_requests (machine m) s).
Proof.
  assert (Hone : forall l address, Forall (eq (Get address)) l -> Forall (fun r => r ∈ [Get address]) l)
    by (intros l address Hl; eapply Forall_impl; [exact Hl|]; intros r <-; left).
  assert (Hown : forall id e, (exists q, serves (js "/v1/query/" ++ id) q /\ e ∈ header_actions q) ->
    exists q, q_queryId q = id /\ e ∈ header_actions q) by (intros id e (q & Hq & He); eauto).
  destruct m; cbn [Pages.machine may_send asks shown_query]; intros Hs Hr.
  - destruct Hs as [now ->]. apply Hone. refine (component_asks _ _ _ _ _ _ _ _ _ _ _ title_asks _ Hr). by repeat constructor.
  - rewrite Hs in Hr. apply Hone. refine (component_asks _ _ _ _ _ _ _ _ _ _ _ hud_asks _ Hr). by repeat constructor.
  - destruct Hs as (now1 & now2 & ->). apply Hone. refine (component_asks _ _ _ _ _ _ _ _ _ _ _ ql_asks _ Hr).
    by repeat constructor.
  - destruct s0 as [i0 sent0]. refine (header_sends _ _ _ (i0, sent0) s _ Hs Hr _ _); destruct Hs as [E _]; cbn in E; subst i0.
    + intros s' Hr'. refine (component_asks _ _ _ _ _ _ _ _ _ _ _ (qd_asks pathname search) _ Hr'). by repeat constructor.
    + intros s' e Hr' He. apply Hown. exact (qd_clicks_ok _ pathname search s' e Hr' He).
  - destruct s0 as [i0 sent0]. refine (header_sends _ _ _ (i0, sent0) s _ Hs Hr _ _); destruct Hs as [E _]; cbn in E; subst i0.
    + intros s' Hr'. refine (component_asks _ _ _ _ _ _ _ _ _ _ _ (lp_asks pathname queryId isEmbedded) _ Hr'). by repeat constructor.
    + intros s' e Hr' He. apply Hown. exact (lp_clicks_ok _ pathname queryId isEmbedded s' e Hr' He).
  - destruct s0 as [i0 sent0]. refine (header_sends _ _ _ (i0, sent0) s _ Hs Hr _ _); destruct Hs as [E _]; cbn in E; subst i0.
    + intros s' Hr'. refine (component_asks _ _ _ _ _ _ _ _ _ _ _ (sd_asks pathname search) _ Hr'). by repeat constructor.
    + intros s' e Hr' He. apply Hown. exact (sd_clicks_ok _ pathname search s' e Hr' He).
  - rewrite Hs in Hr. apply Hone. refine (component_asks _ _ _ _ _ _ _ _ _ _ _ (ws_asks search) _ Hr). by repeat constructor.
  - rewrite Hs in Hr. apply Hone, Forall_map.
    refine (Forall_impl _ _ _ (asks_reachable _ _ _ _ _ _ _ _ Hr) _); [by constructor|]. by intros r <-.
Qed.

Definition cell_requests (c : Cell pathname search fuel serves) : list Request :=
  m_requests (machine (projT1 c)) (projT2 c).
Definition page_requests (cells : list (Cell pathname search fuel serves)) : list Request := flat_map cell_requests cells.

(** Every request of a page is one that one of its components may send. *)
Lemma page_sends page cells r :
  page_reachable pathname search fuel serves page cells -> r ∈ page_requests cells ->
  exists id m, (id, m) ∈ page /\ r ∈ may_send m.
Proof.
  intros Hp%page_components. unfold page_requests.
  induction Hp as [|[id m] c page cells Hc _ IH]; [by intros ?%elem_of_nil|].
  cbn [flat_map]. intros [Hu|Hu]%elem_of_app.
  - destruct c as [m' s]. destruct Hc as (E & s0 & Hs & Hr). cbn in E. subst m'.
    exists id, m. split; [left|]. pose proof (machine_sends m s0 s Hs Hr) as HF.
    by eapply Forall_forall in HF.
  - destruct (IH Hu) as (id' & m' & Hin & Hm). exists id', m'. split; [by right|done].
Qed.
End pages.

(** ** Addresses *)

(** [window.location.search] of the page a link opens: what follows the first
    question mark, with it, up to the fragment. *)
Definition location_search (href : jsstring) : jsstring :=
  match find_sub (js "?") href with
  | Some n => default [] (head (split 35 (drop n href)))
  | None => []
  end.

(** The file a relative address names. *)
Definition location_file (href : jsstring) : jsstring := default [] (head (split 63 href)).

(** The address a link leads to. *)
Definition href {E C} (n : node E C) : option jsstring :=
  match n with
  | El _ attrs _ => head (omap (fun a => match a with (name, AStr s) =>
      if String.eqb name "href" then Some s else None | _ => None end) attrs)
  | _ => None
  end.

(** The addresses of the links of a tree, in document order. *)
Fixpoint hrefs {E C} (n : node E C) : list jsstring :=
  option_list (href n) ++
  match n with
  | Arr l | El _ _ l => (fix go l := match l with [] => [] | x :: l' => hrefs x ++ go l' end) l
  | _ => []
  end.

(** The page that the file of an address loads. *)
Definition open_page (address : jsstring) : option (res Page) :=
  let file := location_file address in
  if file === js "query.html" then Some (query_jsx query_html)
  else if file === js "plan.html" then Some (plan_jsx (location_search address) plan_html)
  else if file === js "stage.html" then Some (stage_jsx stage_html)
  else if file === js "worker.html" then Some (worker_jsx worker_html)
  else None.

(** The documents of the server are those of the queries it is asked for. *)
Definition serves_own (serves : jsstring -> Query -> Prop) : Prop :=
  forall id q, serves (js "/v1/query/" ++ id) q -> q_queryId q = id.

(** What the browser may send to the server once the link is opened. *)
Section asked.
Context {urls : URLApi} `{DateEnv} `{LowerCase}.
Variables (pathname : jsstring) (fuel : nat) (serves : jsstring -> Query -> Prop) (address : jsstring).

Inductive asked : Request -> Prop :=
  | asked_component page cells r :
      open_page address = Some (Ok page) ->
      page_reachable pathname (location_search address) fuel serves page cells ->
      r ∈ page_requests pathname (location_search address) fuel serves cells -> asked r
  | asked_timeline :
      location_file address = js "timeline.html" -> asked (Get (timeline_request (location_search address))).

(** What a page sends is what one of its components may send, and each of its
    polling components does ask. *)
Lemma asked_page page r :
  serves_own serves ->
  open_page address = Some (Ok page) -> location_file address <> js "timeline.html" -> asked r ->
  exists id m, (id, m) ∈ page /\ r ∈ may_send (location_search address) m.
Proof.
  intros Ho Hp Ht. destruct 1 as [page' cells r Hp' Hr Hu|]; [|done].
  rewrite Hp in Hp'. injection Hp' as <-. by apply (page_sends pathname (location_search address) fuel serves Ho page cells).
Qed.

Abbreviation start := (page_start pathname (location_search address) fuel serves).

Lemma page_starts page : exists cells, start page cells.
Proof.
  induction page as [|[id m] page [cells IH]]; [by exists []; constructor|].
  assert (exists s, m_start (machine pathname (location_search address) fuel serves m) s) as [s Hs]
    by (destruct m; cbn; [by eexists _, 0|by eexists|by eexists _, 0, 0|by eexists (_, [])|by eexists (_, [])|by eexists (_, [])
       |by eexists..]).
  exists (existT m s :: cells). by constructor.
Qed.

(** A component that polls asks as soon as it is mounted. *)
Lemma mounted_asks m :
  m <> CWorkerThreadList ->
  exists s, m_start (machine pathname (location_search address) fuel serves m) s /\
    m_requests (machine pathname (location_search address) fuel serves m) s = [Get (asks (location_search address) m)].
Proof.
  intros Hm. destruct m; cbn; [| | | | | | |done];
    [eexists; split; [by exists 0|reflexivity]|by eexists|eexists; split; [by exists 0, 0|reflexivity]
    |by eexists (_, [])|by eexists (_, [])|by eexists (_, [])|by eexists].
Qed.

Lemma page_asked page id m :
  open_page address = Some (Ok page) -> (id, m) ∈ page -> m <> CWorkerThreadList ->
  asked (Get (asks (location_search address) m)).
Proof.
  intros Hp (l1 & l2 & ->)%list_elem_of_split (s & Hs & Hq)%mounted_asks.
  destruct (page_starts l1) as [c1 H1], (page_starts l2) as [c2 H2].
  apply (asked_component _ (c1 ++ existT m s :: c2) _ Hp).
  - exists (c1 ++ existT m s :: c2). split; [|apply rtc_refl].
    apply Forall2_app; [exact H1|]. constructor; [by split|exact H2].
  - unfold page_requests. rewrite flat_map_app. apply elem_of_app. right. cbn [flat_map]. apply elem_of_app. left.
    unfold cell_requests. cbn [projT1 projT2]. rewrite Hq. by apply list_elem_of_singleton.
Qed.
End asked.

(** ** Links to queries *)

(** An id as the server makes them: it cannot be mistaken for the rest of an
    address. *)
Definition plain_id (id : jsstring) : Prop := (38 ∉ id) /\ (35 ∉ id) /\ (46 ∉ id).

Section links.
Context {urls : URLApi} `{DateEnv} `{LowerCase}.

Lemma location_link (file id : jsstring) :
  63 ∉ file -> 35 ∉ id ->
  location_search (file ++ js "?" ++ id) = js "?" ++ id /\ location_file (file ++ js "?" ++ id) = file.
Proof.
  intros Hp Hi. unfold location_search, location_file. change (js "?") with [63].
  cbn [app]. rewrite find_sub_unit, drop_app_length by done. split.
  - rewrite split_notin; [done|]. cbn. by apply not_elem_of_cons.
  - by rewrite split_app.
Qed.

(** Opening the address asks for the query; and whatever happens on the page, all
    it sends is that question, the one for the server's own state, and the
    commands to preempt and to kill this query. *)
Definition leads_to_query (id address : jsstring) : Prop :=
  forall pathname fuel serves, serves_own serves ->
    asked pathname fuel serves address (Get (js "/v1/query/" ++ id)) /\
    forall r, asked pathname fuel serves address r ->
      r ∈ Get (js "/v1/info") :: Get (js "/v1/query/" ++ id) :: commands id.

Definition query_pages : list jsstring := [js "query.html"; js "plan.html"; js "stage.html"].

(** The component of a page about one query. *)
Definition query_component (file id : jsstring) : Mounted :=
  if file === js "query.html" then CQueryDetail
  else if file === js "plan.html" then CLivePlan id false
  else CStageDetail.

Lemma query_file file : file ∈ query_pages -> (63 ∉ file) /\ file <> js "timeline.html".
Proof.
  intros Hf. rewrite <- (bool_decide_eq_true ((63 ∉ file) /\ file <> js "timeline.html")).
  repeat (apply elem_of_cons in Hf as [->|Hf]; [vm_compute; reflexivity|]). by apply elem_of_nil in Hf.
Qed.

Lemma open_query_page file id :
  file ∈ query_pages -> plain_id id ->
  exists container, open_page (file ++ js "?" ++ id) =
    Some (Ok [("title"%string, CPageTitle "Query Details"); (container, query_component file id)]) /\
  may_send (js "?" ++ id) (query_component file id) = Get (js "/v1/query/" ++ id) :: commands id /\
  query_component file id <> CWorkerThreadList.
Proof.
  intros Hf (H38 & H35 & H46). unfold open_page.
  destruct (location_link file id (proj1 (query_file file Hf)) H35) as [-> ->].
  assert (Hg : getFirstParameter (js "?" ++ id) = id) by by apply getFirstParameter_plain.
  apply elem_of_cons in Hf as [->|Hf]; [|apply elem_of_cons in Hf as [->|Hf]; [|apply list_elem_of_singleton in Hf as ->]].
  - eexists. split; [reflexivity|]. split; [|done].
    change (Get (js "/v1/query/" ++ getFirstParameter (js "?" ++ id)) :: commands (getFirstParameter (js "?" ++ id)) =
            Get (js "/v1/query/" ++ id) :: commands id). by rewrite Hg.
  - unfold plan_jsx. rewrite Hg. eexists. by split.
  - eexists. split; [reflexivity|]. split; [|done].
    change (Get (js "/v1/query/" ++ stage_query (js "?" ++ id)) :: commands (stage_query (js "?" ++ id)) =
            Get (js "/v1/query/" ++ id) :: commands id).
    unfold stage_query. by rewrite Hg, split_notin.
Qed.

Lemma query_page_leads file id : file ∈ query_pages -> plain_id id -> leads_to_query id (file ++ js "?" ++ id).
Proof.
  intros Hf Hid pathname fuel serves Hs. pose proof Hid as (_ & H35 & _). destruct (query_file file Hf) as [Hq Hne].
  destruct (open_query_page file id Hf Hid) as (container & Ho & Ha & Hc).
  destruct (location_link file id Hq H35) as [Es Ef]. rewrite <- Es in Ha. split.
  - pose proof (f_equal head Ha) as Hh. unfold may_send in Hh. cbn [head] in Hh. apply (inj Some) in Hh. rewrite <- Hh.
    apply (page_asked pathname fuel serves (file ++ js "?" ++ id) _ container _ Ho); [by right; left|done].
  - intros r Hr. destruct (asked_page pathname fuel serves _ _ r Hs Ho) as (id' & m & Hin & Hm); [by rewrite Ef|done|].
    apply elem_of_cons in Hin as [[= -> ->]|Hin].
    + apply list_elem_of_singleton in Hm as ->. left.
    + apply list_elem_of_singleton in Hin as [= -> ->]. right. by rewrite Ha in Hm.
Qed.

Lemma timeline_leads id : plain_id id -> leads_to_query id (js "timeline.html" ++ js "?" ++ id).
Proof.
  intros (_ & H35 & _) pathname fuel serves _.
  destruct (location_link (js "timeline.html") id) as [Es Ef]; [by apply (bool_decide_unpack _); vm_compute|done|].
  assert (Et : timeline_request (location_search (js "timeline.html" ++ js "?" ++ id)) = js "/v1/query/" ++ id)
    by (rewrite Es; unfold timeline_request; change (js "?") with [63]; by rewrite substring_from_drop by lia).
  rewrite <- Et. split; [by apply asked_timeline|].
  intros r [page cells r' Ho|]; [|right; left]. exfalso. unfold open_page in Ho. by rewrite Ef in Ho.
Qed.

(** *** The links of the header, of the list and of the memory pools *)

Lemma bar_hrefs q n : renderProgressBar q = Ok n -> hrefs n = [].
Proof.
  unfold renderProgressBar. destruct (getProgressBarPercentage q), (getQueryStateColor q), (getProgressBarTitle q); try done.
  cbn [mbind res_bind]. destruct (isQueryEnded q); intros [= <-]; reflexivity.
Qed.

Definition header_links (id : jsstring) : list jsstring :=
  map (fun file => file ++ js "?" ++ id) (query_pages ++ [js "timeline.html"]) ++ [js "/v1/query/" ++ id ++ js "?pretty"].

Lemma header_hrefs pathname q n : QueryHeader.render pathname q = Ok n -> hrefs n = header_links (q_queryId q).
Proof.
  unfold QueryHeader.render. destruct (renderProgressBar q) as [bar|] eqn:E; [|done]. intros [= <-].
  apply bar_hrefs in E. cbn -[js]. by rewrite E.
Qed.

Lemma item_hrefs q n : renderItem q = Ok n -> hrefs n = [js "query.html?" ++ q_queryId q].
Proof.
  unfold renderItem. intros E.
  repeat match type of E with (x ← ?r; _) = _ => destruct r; [cbn [mbind res_bind] in E|discriminate E] end.
  injection E as <-. unfold renderWarning, user_node, opt_txt. cbn -[js truncateString stripQueryTextWhitespace formatShortTime].
  repeat case_match; reflexivity.
Qed.

Lemma pool_hrefs query reserved revocable total n :
  renderPoolQuery query reserved revocable total = Ok n -> hrefs n = [js "query.html?" ++ query].
Proof.
  unfold renderPoolQuery. destruct (formatDataSize reserved); [|done]. cbn [mbind res_bind].
  destruct (formatDataSize revocable); [|done]. intros [= <-]. reflexivity.
Qed.

(** C12: Every link to a query leads to it.  The header of a query links to its four
    pages and to its document, an entry of the query list and one of a memory
    pool to the overview of the query.  A page that is opened this way asks the
    server for that query; and whatever happens on it, clicks in its header
    included, everything it sends is this question, the one for the server's own
    state, or the command to preempt or to kill this very query, as long as the
    server answers with documents of the query it is asked for. *)
Theorem query_links_lead pathname q :
  plain_id (q_queryId q) ->
  (forall n, QueryHeader.render pathname q = Ok n ->
     exists l, hrefs n = l ++ [js "/v1/query/" ++ q_queryId q ++ js "?pretty"] /\ length l = 4%nat /\
     Forall (leads_to_query (q_queryId q)) l) /\
  (forall n, renderItem q = Ok n ->
     exists address, hrefs n = [address] /\ leads_to_query (q_queryId q) address) /\
  (forall reserved revocable total n, renderPoolQuery (q_queryId q) reserved revocable total = Ok n ->
     exists address, hrefs n = [address] /\ leads_to_query (q_queryId q) address).
Proof.
  intros Hid.
  assert (Hq : leads_to_query (q_queryId q) (js "query.html?" ++ q_queryId q)) by by apply (query_page_leads (js "query.html")); [left|].
  split; [|split].
  - intros n ->%header_hrefs. eexists. split; [reflexivity|]. split; [done|].
    rewrite map_app. apply Forall_app. split.
    + apply Forall_map, Forall_forall. intros file Hf. by apply query_page_leads.
    + apply Forall_singleton. by apply timeline_leads.
  - intros n ->%item_hrefs. eauto.
  - intros reserved revocable total n ->%pool_hrefs. eauto.
Qed.

(** ** Links to workers *)

Lemma formatted_hrefs column value content cell :
  formatted_cell column value content = Ok cell -> hrefs (c_content cell) = [].
Proof. unfold formatted_cell. destruct content; [|done]. by intros [= <-]. Qed.

Lemma task_hrefs ports now task cells :
  renderTask ports now task = Ok (t_taskId task, cells) ->
  flat_map (fun c => hrefs (c_content c)) cells =
    [js "/v1/taskInfo/" ++ t_taskId task ++ js "?pretty"; js "worker.html?" ++ t_nodeId task].
Proof.
  unfold renderTask. cbv zeta. intros E.
  repeat match type of E with (x ← ?r; _) = _ =>
    let Er := fresh "Er" in destruct r eqn:Er; [cbn [mbind res_bind] in E|discriminate E];
    try apply formatted_hrefs in Er end.
  injection E as <-. cbn [flat_map c_content plain_cell].
  repeat match goal with Er : hrefs _ = [] |- _ => rewrite Er; clear Er end. reflexivity.
Qed.

(** The host of a task links to its worker: the page asks for the status and the
    threads of the node the task runs on and for nothing else but the server's
    own state. *)
Theorem worker_links_lead ports now task cells pathname fuel serves r :
  serves_own serves ->
  (38 ∉ t_nodeId task) -> (35 ∉ t_nodeId task) -> renderTask ports now task = Ok (t_taskId task, cells) ->
  exists address, flat_map (fun c => hrefs (c_content c)) cells =
    [js "/v1/taskInfo/" ++ t_taskId task ++ js "?pretty"; address] /\
  asked pathname fuel serves address (Get (js "/v1/worker/" ++ t_nodeId task ++ js "/status")) /\
  (asked pathname fuel serves address r ->
   r ∈ [Get (js "/v1/info"); Get (js "/v1/worker/" ++ t_nodeId task ++ js "/status");
        Get (js "/v1/worker/" ++ t_nodeId task ++ js "/thread")]).
Proof.
  intros Hs H38 H35 E. exists (js "worker.html" ++ js "?" ++ t_nodeId task).
  split; [by apply (task_hrefs ports now)|].
  destruct (location_link (js "worker.html") (t_nodeId task)) as [Es Ef]; [by apply (bool_decide_unpack _); vm_compute|done|].
  assert (Ho : open_page (js "worker.html" ++ js "?" ++ t_nodeId task) = Some (worker_jsx worker_html))
    by (unfold open_page; by rewrite Ef).
  assert (Ha : forall path, js "/v1/worker/" ++ getFirstParameter (location_search (js "worker.html" ++ js "?" ++ t_nodeId task)) ++ path =
    js "/v1/worker/" ++ t_nodeId task ++ path) by (intros; by rewrite Es, getFirstParameter_plain).
  split.
  - rewrite <- Ha. apply (page_asked pathname fuel serves _ _ "worker-status" CWorkerStatus Ho); [right; left|done].
  - intros Hr. destruct (asked_page pathname fuel serves _ _ r Hs Ho) as (id & m & Hin & Hm); [by rewrite Ef|done|].
    rewrite <- !Ha.
    apply elem_of_cons in Hin as [[= -> ->]|Hin]; [apply list_elem_of_singleton in Hm as ->; left|]. right.
    apply elem_of_cons in Hin as [[= -> ->]|Hin]; [apply list_elem_of_singleton in Hm as ->; left|]. right.
    apply list_elem_of_singleton in Hin as [= -> ->]. apply list_elem_of_singleton in Hm as ->. left.
Qed.
End links.

(** ** At work *)

#[local] Existing Instance http_urls.
#[local] Existing Instance utc_env.
#[local] Existing Instance ascii_lower.
#[local] Existing Instance http_urls.

(** A server that answers for the query it is asked for. *)
Definition demo_server (url : jsstring) (q : Query) : Prop := url = js "/v1/query/" ++ q_queryId q.

Lemma demo_server_own : serves_own demo_server.
Proof. intros id q E. by apply app_inv_head in E. Qed.

Lemma query_links_lead_witness :
  exists n address, renderItem (sample_query "20200601_000000_00001_abcde" "RUNNING") = Ok n /\
    hrefs n = [address] /\
    asked "/ui/query.html" 0 demo_server address (Get (js "/v1/query/20200601_000000_00001_abcde")).
Proof.
  destruct (query_links_lead "/ui/query.html" (sample_query "20200601_000000_00001_abcde" "RUNNING")) as (_ & Hi & _).
  - repeat split; apply (bool_decide_unpack _); vm_compute; exact I.
  - destruct (renderItem (sample_query "20200601_000000_00001_abcde" "RUNNING")) as [n|] eqn:E; [|vm_compute in E; discriminate E].
    destruct (Hi n eq_refl) as (address & Ha & Hl). exists n, address. split; [reflexivity|]. split; [exact Ha|].
    apply (Hl "/ui/query.html" 0%nat demo_server demo_server_own).
Defined.

Lemma worker_links_lead_witness :
  exists address, asked "/ui/worker.html" 0 demo_server address (Get (js "/v1/worker/node-1/status")).
Proof.
  destruct (renderTask false 0 (demo_task "q.1.0.0" "http://a.example:8080/v1/task/q.1.0.0" "RUNNING")) as [[id cells]|] eqn:E;
    [|vm_compute in E; discriminate E].
  destruct (worker_links_lead false 0 (demo_task "q.1.0.0" "http://a.example:8080/v1/task/q.1.0.0" "RUNNING") cells
              "/ui/worker.html" 0 demo_server (Get [])) as (address & _ & Ha & _).
  - exact demo_server_own.
  - apply (bool_decide_unpack _). vm_compute. exact I.
  - apply (bool_decide_unpack _). vm_compute. exact I.
  - vm_compute in E. injection E as <- <-. vm_compute. reflexivity.
  - exists address. exact Ha.
Defined.

(** A click that kills the query: the document arrives, and the header offers it. *)
Definition demo_address : jsstring := js "query.html" ++ demo_search.
Abbreviation demo_place := (location_search demo_address).

Definition demo_shown_page : QD :=
  let i := qd_start demo_place in
  qd_answer "/ui/query.html" "/v1/query/20200601_000000_00001_abcde"
    (QueryPageFacts.demo_answer (QueryDetailFacts.demo_query false) 5000)
    (mkInst (st i) (ids i) (timers i) (next_id i) ([] ++ []) (console i)).

Definition demo_query_cells (i : QD) (clicks : list HeaderEvent) : list (Cell "/ui/query.html" demo_place 0 demo_server) :=
  [existT (CPageTitle "Query Details") (PageTitle.componentDidMount (mount (title_init 0, [])));
   existT CQueryDetail (i, clicks)].

Definition demo_kill : HeaderEvent := AjaxPut "/v1/query/20200601_000000_00001_abcde/killed" "Killed via web UI".

Lemma demo_query_step i clicks i' clicks' :
  m_step (machine "/ui/query.html" demo_place 0 demo_server CQueryDetail) (i, clicks) (i', clicks') ->
  page_step "/ui/query.html" demo_place 0 demo_server (demo_query_cells i clicks) (demo_query_cells i' clicks').
Proof.
  exact (page_step_one "/ui/query.html" demo_place 0 demo_server
           [existT (CPageTitle "Query Details") (PageTitle.componentDidMount (mount (title_init 0, [])))] CQueryDetail
           (i, clicks) (i', clicks') []).
Qed.

Lemma demo_killed_reachable :
  page_reachable "/ui/query.html" demo_place 0 demo_server
    [("title"%string, CPageTitle "Query Details"); ("query-detail"%string, CQueryDetail)]
    (demo_query_cells demo_shown_page [demo_kill]).
Proof.
  exists (demo_query_cells (qd_start demo_place) []). split; [repeat constructor; cbn; eauto|].
  apply (rtc_l _ _ (demo_query_cells demo_shown_page [])); [|apply rtc_once]; apply demo_query_step.
  - refine (header_other _ _ _ _ [] _).
    apply (step_answer _ _ _ _ (qd_start demo_place) (js "/v1/query/20200601_000000_00001_abcde")
             (QueryPageFacts.demo_answer (QueryDetailFacts.demo_query false) 5000) [] []); [vm_compute; reflexivity|].
    intros q [= <-]. vm_compute. reflexivity.
  - refine (header_click _ _ _ demo_kill [] _). change (demo_kill ∈ qd_clicks "/ui/query.html" demo_shown_page).
    assert (qd_clicks "/ui/query.html" demo_shown_page =
      [AjaxPut "/v1/query/20200601_000000_00001_abcde/preempted" "Preempted via web UI"; demo_kill]) as ->
      by (vm_compute; reflexivity). right. left.
Qed.

Example kill_is_sent :
  asked "/ui/query.html" 0 demo_server demo_address
    (Put "/v1/query/20200601_000000_00001_abcde/killed" "Killed via web UI").
Proof.
  apply (asked_component _ _ _ _ [("title"%string, CPageTitle "Query Details"); ("query-detail"%string, CQueryDetail)]
           (demo_query_cells demo_shown_page [demo_kill])); [vm_compute; reflexivity|exact demo_killed_reachable|].
  unfold page_requests. cbn [demo_query_cells flat_map]. apply elem_of_app. right. apply elem_of_app. left.
  unfold cell_requests. cbn [projT1 projT2]. apply elem_of_app. right. left.
Qed.
